(* ===== verification/_CoqProject ===== *)
-Q . S2P
Prelude.v
Status.v
Ids.v
Doubles.v
Rounding.v
Spectrum.v
Sha256.v
Canonical.v
Topology.v
SnapshotText.v
Builder.v
Synthetic.v
SyntheticFacts.v
Request.v
Outcome.v
SearchFacts.v
SearchArcs.v
Search.v
Budgets.v
Route.v
Plan.v
Result.v
PlanBuild.v
PlanFacts.v
PlanSteps.v
Planner.v
Validate.v
ValidateFacts.v
PlannerFacts.v
Disjoint.v
Reach.v
Revalidate.v
Proto.v
Messages.v
Lines.v
PlanText.v
RequestText.v
ResultText.v
Rebuild.v
SnapshotRead.v
SelfTest.v
Files.v
Store.v
Incarnation.v
Service.v
Server.v
ServiceFacts.v
Restart.v
Interleaving.v
Json.v
Cli.v
CliFacts.v
Examples.v
Daemon.v
