(* ===== verification/Prelude.v ===== *)
(** * Optical Path Planner: verification library (root file)

    Optical Path Planner (headers under src/include/opp, sources under src/src)
    plans routes over an optical network.  It takes a sealed, digested snapshot
    of the network's evidence and a request, searches for admissible paths, turns
    them into plan artifacts (steps, transparent segments, slot reservations,
    failure-domain exposure), and checks such a plan again later.

    ** The parts and how they interact

    - Foundations.  [Status] ([status.hpp], [limits.hpp]): codes, [Expected],
      limits, decimal text.  [Ids] ([ids.cpp]): identifiers, port keys, resource
      keys, digests.  [Doubles]: binary64 values.  [Spectrum] ([spectrum.cpp]):
      the slot grid and the 256-slot masks of four 64-bit words.  [Rounding]:
      rounded sums and products of doubles: bounds, exact cases, no double is
      crossed.  [Sha256]
      ([sha256.cpp]): the streaming hash.  [Canonical] ([canonical.cpp]): tokens,
      record lines, checked arithmetic, binary payloads.
    - Evidence.  [Topology] ([evidence.hpp], [topology.hpp]): records whose
      fields are known, unknown or conflicting, and the sealed snapshot with its
      sorted vectors and adjacency.  [SnapshotText] ([snapshot_io.cpp]): its
      canonical text and digests.  [Builder] ([topology.cpp], SnapshotBuilder):
      collecting the records, normalising, detecting duplicates and conflicts,
      building the adjacency and coverage, sealing.  [Synthetic]
      ([synthetic.cpp]): generated networks and the example network;
      [SyntheticFacts]: theorems.
    - Requests.  [Request] ([constraints.cpp], [request.cpp], printing half of
      [request_io.cpp]): constraint sets, validation, canonical text.
    - Search.  [SearchFacts] (the facts a search prepares, labels, frontier
      order, dominance), [SearchArcs] (extending a label over one arc: the body
      of each expansion loop), [Search] (the loop of [RunSearch] over the record
      [Work]), all of [search.cpp]; [Budgets] (what the budgets of a search
      change); [Route] (StripCycles, and the theorems on the paths a search
      returns).
    - Plans.  [Plan] ([plan.hpp], printing half of [plan.cpp]): artifacts, seal,
      order of candidates.  [PlanBuild] ([BuildPlan] of [search.cpp]).
      [PlanFacts], [PlanSteps], [Reach]: theorems on built plans.
    - Planning.  [Outcome] and [Result] ([result.hpp], printing half of
      [result.cpp]): outcomes, witnesses, statistics, the result envelope.
      [Planner] ([planner.cpp]): admission stages, search passes, exclusions,
      classification of the outcome.  [PlannerFacts], [Disjoint]: theorems.
    - Texts.  [Lines]: the loop over the lines of a text, the fields of a record,
      and how printed lines read back.  [PlanText] (reading half of [plan.cpp]),
      [RequestText] (reading half of [request_io.cpp]), [ResultText] (reading
      half of [result.cpp]): one reader per record.  [SnapshotRead]
      ([ParseSnapshotText] of [snapshot_io.cpp]) keeps the record lines and
      submits them to a builder; [Rebuild] shows what sealing again does.
      [SelfTest] ([selftest.cpp]): the checks of the codecs and the planner.
    - Transport.  [Proto] ([proto.cpp], frames), [Messages] ([proto.cpp],
      payloads): the reader is a small monad over the bytes that are left.
    - Validation.  [Validate] ([validate.cpp]): bindings and decisions of a plan
      checked against a snapshot.  [ValidateFacts], [Revalidate]: theorems.
    - Disk.  [Files] ([fileio.cpp]): files, directories, atomic writes and what a
      crash leaves of them.  [Store] ([store.cpp]): plans in files.
    - Service ([service.cpp]).  [Incarnation]: the epoch record.  [Service]: its
      state and a handler for each kind of frame.  [Server]: frames off a stream,
      a connection, the accept loop, [Start], and [ServiceClient].
      [Interleaving]: the handlers of [Plan] and [Ingest] cut into the steps other
      threads can come between.  [ServiceFacts], [Restart]: theorems.
    - Programs (apps/).  [Json] and [Cli] ([opp_cli.cpp]): arguments, commands,
      what they print and their exit codes; [CliFacts]: theorems.  [Daemon]
      ([oppd.cpp]): the arguments of the service and its start.  [Examples]
      (examples/, consumer/): the programs that show how the library is used.

    A builder seals a snapshot; the planner passes it, with the request, to the
    search; the search hands arc sequences to [BuildPlan]; the planner seals the
    candidates and the result; the validator reads a plan against a snapshot.
    The service does these for its clients: it ingests snapshots as text, keeps
    one in memory and on the disk, plans on it, and puts the plans in the store.
    Operations keep their names in the code; a class's state is a record whose
    fields are its members, and a local state updated by a loop or its lambdas
    is a record as well ([Work], [Walk], [Draft]).

    ** How the code's constructs are modelled

    Unsigned integers are [Z] with explicit wrap-around or the code's own
    overflow checks; vector indices are [nat], [kNoIndex] is [None].  Doubles are
    the standard library's specification floats, so sums round as the code's.
    [std::sort] and [std::stable_sort] are insertion sort (every use orders by a
    total key or is shown not to depend on it), the priority queue is a list
    ordered by (cost, hops, regenerations, sequence), which is a total order, and
    a [std::map] is the list of its entries by key.  Fallible functions answer
    [Expected], with the code's status codes and detail texts.  What writes to the
    disk is an [IO] of [Files]: a function from the disk to a value and the disk
    operations performed, in order.  A crash ([crashed]) leaves the disk after any
    prefix of them, or within a write; a rename is atomic.  A connection is the
    string of bytes the peer sends until it closes.  A run of a program answers
    its exit code, its two outputs and its disk operations.  The cancel token
    is a function from the poll number to a boolean, so that the theorems hold
    for any moment of cancellation.

    Not under src/, hence parameters: [pow], [log10] and the shortest decimal
    text of doubles (class [Platform] of [Doubles], instance
    [reference_platform]).  Digests are taken through the class [Hasher] of
    [SnapshotText] with the real instance [sha_hasher]; theorems that hold for
    any digest function are stated for any instance, and their witnesses use a
    small one.  What is relied on about the parameters is stated as classes of
    laws: [CharconvLaws] (a printed double is nonempty, uses the characters of
    numbers, and reads back) and [WideHasher] (a digest has 32 bytes), both with
    instances.  What the operating system and the machine decide is in
    parameters too: process identifier and error texts (class [System]), entropy,
    clock and the calls that fail during one start or request ([Machine],
    [WriteFaults]), the lock and the listening socket ([Boot]), the port that was
    bound and the text that identifies the compiler; the theorems hold whatever
    they are.

    ** Fuel and bounds

    The loop of [RunSearch] is [run], with fuel; [search_terminates] of [Route]
    shows that the fuel [RunSearch] gives it is enough, since every iteration
    adds an expansion and the budget is bounded.  Parent chains are followed with
    the number of labels as fuel; a parent is always an earlier label, so this is
    enough (an invariant of [Search]).  The loop of [ServeConnection] has the
    number of bytes of the stream as fuel; every turn takes at least a header off
    it ([connection_in_order]).  Other loops are structural.

    ** What the theorems show

    - A published candidate is the sealed plan of a port-simple walk from source
      to destination admitted by the request, resting on published undisputed
      evidence, with its exact price, its steps, segments, reservations, exposure
      and reach ([plan_candidates_sound], [plan_segments_reach], the theorems of
      [Route], [PlanFacts] and [PlanSteps]).
    - Outcomes are honest: FEASIBLE exactly with candidates, INFEASIBLE only on
      complete coverage after an exhausted search; the other outcomes for the
      reasons they name, where the evidence is looked at before the capability of
      the grid, against the documented precedence ([PlannerFacts]).
    - Termination of the search, within its budgets; an outcome that is not
      marked truncated is the same under any larger budgets ([Budgets], [Route]).
    - Snapshots: well-formedness after [Build], independence of the submission
      order, coverage, sealed once ([Builder]).
    - Validation: what a VALID report has checked, and exactly which candidates
      pass it on their own snapshot ([ValidateFacts], [Revalidate]).
    - Encodings: SHA-256 streaming equals the one-shot reference; tokens and
      masks read back; plans, requests, results and snapshots read back, and
      what was read is sealed and well formed; frames and messages are in
      bijection with the bytes that decode to them ([Proto], [Messages]).
    - The store is a map from digests to plans that no crash corrupts, within its
      capacity ([Store]).
    - The service: planning through a client and a connection gives the planner's
      result, and the plans can be fetched; frames are answered in order; requests
      in flight are counted right under every interleaving; the snapshot survives
      a restart and is marked as restored; epochs increase over starts, failed
      starts and crashes, and frames of an earlier incarnation are fenced
      ([ServiceFacts], [Restart], [Interleaving], [Incarnation], [Daemon]).
    - The programs: plans that one run wrote are accepted by the next, the JSON
      that is printed reads back, by a reader as strict as RFC 8259, to the values it
      was printed from, arguments are
      read as they are meant ([CliFacts], [Daemon]).  The generator's networks
      seal with complete coverage and hold the spans their seed determines
      ([SyntheticFacts]); the self test passes, on the
      executable platform with a small digest ([SelfTest]), and there the examples
      do what their comments say; a plan is VALID on its own snapshot and STALE once a
      source it rests on has moved ([Examples]).
    - Behaviours that surprise: theorems that exhibit them, by small networks
      evaluated through the whole model: dominance that ignores member limits,
      reserved slots that change inside a segment, disjointness that excludes too
      much or too little, a down node recommended, conflicts lost in the text of a
      snapshot, temporary files that stay, connections that are never given back,
      overlapping ingests that leave another snapshot on the disk, flags that take
      the next argument, numbers that wrap.

    ** Not modelled

    Sockets, poll intervals, receive timeouts and the creation and joining of
    threads: a peer sends some bytes and takes every answer.  Reads of the disk do
    not fail but for missing and oversized files.  A whole file write is one step
    of [Interleaving]; two threads that write the same file also share its
    temporary name.  The two signals that stop the daemon are not modelled.
    Tests and benchmarks are left out, and the example of a service over a real
    socket.  The search observer is called with statistics and cannot change the
    search. *)

From Stdlib Require Export ZArith Lia String Ascii List Bool Sorted Permutation.
From stdpp Require Export base tactics decidable option list.
From stdpp Require Export strings gmap.

#[global] Set Default Goal Selector "!".
#[global] Set Warnings "-notation-overridden".

(** ** Notation scope of the development *)

Declare Scope opp_scope.
Delimit Scope opp_scope with opp.
#[global] Open Scope string_scope.
#[global] Open Scope list_scope.
#[global] Open Scope Z_scope.
#[global] Open Scope opp_scope.

(** ** Fixed-width unsigned integers

    A [std::uintN_t] is a [Z] in [0, 2^N); arithmetic that may leave the
    range is written with an explicit wrap. *)

Definition u64_max : Z := 18446744073709551615.
Definition u32_max : Z := 4294967295.
Definition u16_max : Z := 65535.

Definition wrap (w : Z) (z : Z) : Z := z mod 2 ^ w.
Abbreviation wrap64 := (wrap 64).
Abbreviation wrap32 := (wrap 32).
Abbreviation wrap16 := (wrap 16).
Abbreviation wrap8 := (wrap 8).

Definition in_width (w : Z) (z : Z) : Prop := 0 <= z < 2 ^ w.

Create HintDb opp discriminated.

Lemma wrap_range (w z : Z) : 0 <= w -> in_width w (wrap w z).
Proof. intros Hw. apply Z.mod_pos_bound. lia. Qed.

Lemma wrap_small (w z : Z) : in_width w z -> wrap w z = z.
Proof. apply Z.mod_small. Qed.

Lemma wrap_add_l (w a b : Z) : wrap w (wrap w a + b) = wrap w (a + b).
Proof. apply Zplus_mod_idemp_l. Qed.

Lemma wrap_add_r (w a b : Z) : wrap w (a + wrap w b) = wrap w (a + b).
Proof. apply Zplus_mod_idemp_r. Qed.

#[export] Hint Resolve wrap_range wrap_small : opp.

(** ** Tactics of the development *)

(** Splits conjunctions and equations of options, booleans and pairs in the
    context, as long as one of them is in a solvable shape. *)
Ltac crush_hyps :=
  repeat match goal with
  | H : _ /\ _ |- _ => destruct H
  | H : (_ && _)%bool = true |- _ => apply andb_true_iff in H
  | H : (_ || _)%bool = false |- _ => apply orb_false_iff in H
  | H : negb _ = true |- _ => apply negb_true_iff in H
  | H : negb _ = false |- _ => apply negb_false_iff in H
  | H : Some _ = Some _ |- _ => injection H as H
  | H : (_, _) = (_, _) |- _ => injection H as ? ?
  | H : (_ <? _) = true |- _ => apply Z.ltb_lt in H
  | H : (_ <? _) = false |- _ => apply Z.ltb_ge in H
  | H : (_ <=? _) = true |- _ => apply Z.leb_le in H
  | H : (_ <=? _) = false |- _ => apply Z.leb_gt in H
  | H : (_ =? _) = true |- _ => apply Z.eqb_eq in H
  | H : (_ =? _) = false |- _ => apply Z.eqb_neq in H
  end.

(** Case analysis on the scrutinee of the first [if] or [match] met in the
    hypothesis [H]. *)
Ltac case_in H :=
  match type of H with
  | context [match ?x with _ => _ end] =>
      let E := fresh "E" in destruct x eqn:E
  end.

(** [in_width w z] for a concrete width, by linear arithmetic. *)
Ltac width_lia :=
  unfold in_width;
  change (2 ^ 64) with 18446744073709551616; change (2 ^ 32) with 4294967296; change (2 ^ 16) with 65536;
  change (2 ^ 8) with 256; lia.

Ltac case_goal :=
  match goal with
  | |- context [match ?x with _ => _ end] =>
      let E := fresh "E" in destruct x eqn:E
  end.

(** ** Ordered types: the [operator<=>] of an identity

    The identity types of the code compare by their text; the records that
    are compared (a port key, a resource key) compare field by field. *)

Class Ordered (A : Type) := {
  ltb : A -> A -> bool;
  ltb_irrefl : forall a, ltb a a = false;
  ltb_trans : forall a b c, ltb a b = true -> ltb b c = true -> ltb a c = true;
  ltb_total : forall a b, ltb a b = false -> ltb b a = false -> a = b;
}.

Notation "a <o b" := (ltb a b) (at level 68, no associativity) : opp_scope.
Notation "a ==o b" := (bool_decide (a = b)) (at level 68, no associativity) : opp_scope.

Section ordered.
Context {A : Type} `{Ordered A}.

Lemma ltb_asym a b : a <o b = true -> b <o a = false.
Proof.
  intros Hab. destruct (b <o a) eqn:Hba; [|done].
  pose proof (ltb_trans _ _ _ Hab Hba) as Haa. by rewrite ltb_irrefl in Haa.
Qed.

Lemma ltb_neq a b : a <o b = true -> a <> b.
Proof. intros Hab ->. by rewrite ltb_irrefl in Hab. Qed.

Lemma ltb_ge_trans a b c : b <o a = false -> c <o b = false -> c <o a = false.
Proof.
  intros Hab Hbc. destruct (c <o a) eqn:Hca; [|done].
  destruct (a <o b) eqn:Hab'.
  - by rewrite (ltb_trans _ _ _ Hca Hab') in Hbc.
  - rewrite (ltb_total _ _ Hab Hab') in Hbc. congruence.
Qed.

Lemma ltb_ge_lt a b c : b <o a = false -> b <o c = true -> a <o c = true.
Proof.
  intros Hba Hbc. destruct (a <o b) eqn:Hab.
  - eauto using ltb_trans.
  - by rewrite (ltb_total _ _ Hab Hba).
Qed.

Lemma ltb_lt_ge a b c : a <o b = true -> c <o b = false -> a <o c = true.
Proof.
  intros Hab Hcb. destruct (b <o c) eqn:Hbc.
  - eauto using ltb_trans.
  - by rewrite (ltb_total _ _ Hcb Hbc).
Qed.
End ordered.

(** Lexicographic order on pairs. *)
#[export] Program Instance pair_ordered {A B} `{Ordered A, Ordered B} : Ordered (A * B) := {|
  ltb p q := ltb p.1 q.1 || (negb (ltb q.1 p.1) && ltb p.2 q.2)
|}.
Next Obligation. intros A B ?? [a b]; simpl. by rewrite !ltb_irrefl. Qed.
Next Obligation.
  intros A B ?? [a1 b1] [a2 b2] [a3 b3]; simpl. rewrite !orb_true_iff, !andb_true_iff, !negb_true_iff.
  intros [H1|[H1 H2]] [H3|[H3 H4]].
  - left; eauto using ltb_trans.
  - left; eauto using ltb_lt_ge.
  - left; eauto using ltb_ge_lt.
  - right; split; [|eauto using ltb_trans]. eauto using ltb_ge_trans.
Qed.
Next Obligation.
  intros A B ?? [a1 b1] [a2 b2]; simpl.
  rewrite !orb_false_iff, !andb_false_iff, !negb_false_iff. intros [H1 H2] [H3 H4].
  rewrite H1, H3 in *. destruct H2, H4; try discriminate.
  f_equal; by apply ltb_total.
Qed.

(** Transporting the order along an injection, for records over one or more
    ordered fields. *)
Definition ordered_by {A B} `{Ordered B} (f : A -> B) (f_inj : forall x y, f x = f y -> x = y) : Ordered A.
Proof.
  refine {| ltb x y := ltb (f x) (f y) |}.
  - intros a. apply ltb_irrefl.
  - intros a b c. apply ltb_trans.
  - intros a b H1 H2. apply f_inj. by apply ltb_total.
Defined.

#[export] Program Instance Z_ordered : Ordered Z := {| ltb := Z.ltb |}.
Next Obligation. intros; apply Z.ltb_irrefl. Qed.
Next Obligation. intros a b c ??; crush_hyps; apply Z.ltb_lt; lia. Qed.
Next Obligation. intros a b ??; crush_hyps; lia. Qed.

(** [std::string] compares its bytes as unsigned characters. *)
Lemma string_ltb_cons c1 s1 c2 s2 :
  String.ltb (String c1 s1) (String c2 s2) =
  (N.ltb (N_of_ascii c1) (N_of_ascii c2) || (N.eqb (N_of_ascii c1) (N_of_ascii c2) && String.ltb s1 s2))%bool.
Proof.
  unfold String.ltb; simpl. unfold Ascii.compare, N.ltb.
  destruct (N.compare_spec (N_of_ascii c1) (N_of_ascii c2)) as [E|E|E].
  - by rewrite E, N.eqb_refl.
  - done.
  - simpl. destruct (N.eqb_spec (N_of_ascii c1) (N_of_ascii c2)); [lia|done].
Qed.

#[export] Program Instance string_ordered : Ordered string := {| ltb := String.ltb |}.
Next Obligation.
  induction a as [|c s IH]; [done|]. rewrite string_ltb_cons, IH, N.ltb_irrefl, andb_false_r. done.
Qed.
Next Obligation.
  induction a as [|c1 s1 IH]; intros [|c2 s2] [|c3 s3]; try done.
  rewrite !string_ltb_cons, !orb_true_iff, !andb_true_iff, !N.ltb_lt, !N.eqb_eq.
  intros [?|[??]] [?|[??]]; [left; lia..|right]. split; [lia|eauto].
Qed.
Next Obligation.
  induction a as [|c1 s1 IH]; intros [|c2 s2]; try done.
  rewrite !string_ltb_cons, !orb_false_iff, !andb_false_iff, !N.ltb_ge, !N.eqb_neq.
  intros [H1 H2] [H3 H4].
  assert (N_of_ascii c1 = N_of_ascii c2) as Hc by lia.
  f_equal; [by rewrite <- (ascii_N_embedding c1), Hc, ascii_N_embedding|].
  apply IH; intuition lia.
Qed.

(** ** Sorting and searching sequences: what the code uses of [<algorithm>]

    [std::sort] leaves the order of equivalent elements unspecified; the
    model fixes the stable one. *)

Section algorithms.
Context {A : Type}.

Fixpoint insert_by (lt : A -> A -> bool) (x : A) (l : list A) : list A :=
  match l with
  | [] => [x]
  | y :: t => if lt x y then x :: l else y :: insert_by lt x t
  end.

Definition sort_by (lt : A -> A -> bool) (l : list A) : list A :=
  fold_left (fun acc x => insert_by lt x acc) l [].

(** [std::unique] followed by [erase]: drops every element equal to the last
    one kept. *)
Fixpoint unique_from (eqb : A -> A -> bool) (last : A) (l : list A) : list A :=
  match l with
  | [] => []
  | x :: t => if eqb last x then unique_from eqb last t else x :: unique_from eqb x t
  end.

Definition unique_by (eqb : A -> A -> bool) (l : list A) : list A :=
  match l with
  | [] => []
  | x :: t => x :: unique_from eqb x t
  end.

(** [std::adjacent_find(...) != end]. *)
Fixpoint has_adjacent (eqb : A -> A -> bool) (l : list A) : bool :=
  match l with
  | x :: (y :: _) as t => eqb x y || has_adjacent eqb t
  | _ => false
  end.

(** [std::lower_bound]: index of the first element for which [below] is
    false; the length when there is none. *)
Fixpoint lower_bound (below : A -> bool) (l : list A) : nat :=
  match l with
  | [] => 0
  | x :: t => if below x then S (lower_bound below t) else 0
  end.

Lemma lower_bound_le below l : (lower_bound below l <= length l)%nat.
Proof. induction l as [|x l IH]; simpl; [lia|]. destruct (below x); simpl; lia. Qed.

Lemma insert_by_perm lt x l : insert_by lt x l ≡ₚ x :: l.
Proof.
  induction l as [|y l IH]; simpl; [done|]. destruct (lt x y); [done|].
  rewrite IH. apply Permutation_swap.
Qed.

Lemma fold_insert_perm lt l acc : fold_left (fun acc x => insert_by lt x acc) l acc ≡ₚ l ++ acc.
Proof.
  revert acc; induction l as [|x l IH]; intros acc; simpl; [done|].
  rewrite IH, insert_by_perm. by rewrite Permutation_middle.
Qed.

Lemma sort_by_perm lt l : sort_by lt l ≡ₚ l.
Proof. unfold sort_by. by rewrite fold_insert_perm, app_nil_r. Qed.

Lemma unique_from_in eqb last l x : In x (unique_from eqb last l) -> In x l.
Proof.
  revert last; induction l as [|y l IH]; intros last; simpl; [done|].
  destruct (eqb last y); simpl; [by eauto|]. intros [?|?]; eauto.
Qed.

Lemma unique_by_in eqb l x : In x (unique_by eqb l) -> In x l.
Proof. destruct l as [|y l]; simpl; [done|]. intros [?|?%unique_from_in]; auto. Qed.

Lemma unique_from_length eqb last l : (length (unique_from eqb last l) <= length l)%nat.
Proof.
  revert last; induction l as [|y l IH]; intros last; simpl; [lia|].
  destruct (eqb last y); simpl; [specialize (IH last)|specialize (IH y)]; lia.
Qed.
End algorithms.

Section sorting_by_key.
Context {A K : Type} `{Ordered K, EqDecision K} (key : A -> K).

Definition by_key (x y : A) : bool := key x <o key y.

Definition key_le (x y : A) : Prop := (key y <o key x) = false.
Definition key_lt (x y : A) : Prop := (key x <o key y) = true.

#[local] Instance key_le_trans : Transitive key_le.
Proof. intros x y z. unfold key_le. apply ltb_ge_trans. Qed.

#[local] Instance key_lt_trans : Transitive key_lt.
Proof. intros x y z. unfold key_lt. apply ltb_trans. Qed.

Lemma insert_by_sorted x l : StronglySorted key_le l -> StronglySorted key_le (insert_by by_key x l).
Proof.
  induction 1 as [|y l Hl IH Hy]; simpl; [repeat constructor|].
  unfold by_key at 1. destruct (key x <o key y) eqn:E.
  - constructor; [by constructor|]. constructor; [apply ltb_asym, E|].
    eapply Forall_impl; [exact Hy|]. intros z Hz. unfold key_le in *.
    eapply ltb_asym, ltb_lt_ge; eauto.
  - constructor; [done|]. rewrite insert_by_perm. by constructor.
Qed.

Lemma sort_by_sorted l : StronglySorted key_le (sort_by by_key l).
Proof.
  unfold sort_by. cut (StronglySorted key_le []); [|constructor].
  generalize (@nil A). induction l as [|x l IH]; simpl; auto using insert_by_sorted.
Qed.

(** De-duplicating a sorted list by key leaves it strictly sorted. *)
Lemma unique_from_sorted last l :
  StronglySorted key_le (last :: l) ->
  StronglySorted key_lt (last :: unique_from (fun x y => bool_decide (key x = key y)) last l)
    .
Proof.
  revert last; induction l as [|y l IH]; intros last Hs; simpl; [repeat constructor|].
  inversion_clear Hs as [|? ? Hl Hlast]. inversion_clear Hlast as [|? ? Hy Hrest].
  case_bool_decide as E.
  - apply IH. inversion_clear Hl. by constructor.
  - specialize (IH _ Hl). constructor; [done|].
    assert (key_lt last y) as Hlt.
    { unfold key_lt, key_le in *. destruct (key last <o key y) eqn:E'; [done|].
      by destruct E; apply ltb_total. }
    constructor; [done|]. inversion_clear IH.
    eapply Forall_impl; [eassumption|]. intros z Hz. by transitivity y.
Qed.

Lemma unique_by_sorted l :
  StronglySorted key_le l ->
  StronglySorted key_lt (unique_by (fun x y => bool_decide (key x = key y)) l).
Proof. destruct l; [constructor|]. apply unique_from_sorted. Qed.

(** A sequence with distinct keys has one sorted arrangement. *)
Lemma sorted_perm_eq l1 l2 :
  StronglySorted key_le l1 -> StronglySorted key_le l2 -> l1 ≡ₚ l2 -> List.NoDup (map key l1) -> l1 = l2.
Proof.
  intros H1; revert l2; induction H1 as [|x l1 Hl1 IH Hx]; intros l2 H2 Hp Hnd.
  - symmetry. by apply Permutation_nil.
  - destruct H2 as [|y l2 Hl2 Hy]; [by symmetry in Hp; apply Permutation_nil in Hp|].
    assert (x = y) as <-.
    { pose proof (Permutation_in y (symmetry Hp) (or_introl eq_refl)) as [->|Hyin]; [done|].
      pose proof (Permutation_in x Hp (or_introl eq_refl)) as [->|Hxin]; [done|].
      rewrite List.Forall_forall in Hx, Hy. specialize (Hx _ Hyin). specialize (Hy _ Hxin).
      assert (key x = key y) as E by (by apply ltb_total).
      simpl in Hnd. rewrite E in Hnd. inversion_clear Hnd as [|? ? Hni _]. destruct Hni. by apply in_map. }
    f_equal. apply IH; [done|by apply Permutation_cons_inv in Hp|]. simpl in Hnd. by inversion_clear Hnd.
Qed.

Lemma sort_by_perm_eq l1 l2 : l1 ≡ₚ l2 -> List.NoDup (map key l1) -> sort_by by_key l1 = sort_by by_key l2.
Proof.
  intros Hp Hnd. apply sorted_perm_eq; [apply sort_by_sorted..| |].
  - by rewrite !sort_by_perm.
  - eapply Permutation_NoDup; [|exact Hnd]. symmetry. apply Permutation_map, sort_by_perm.
Qed.

(** [std::lower_bound] on a strictly sorted list finds the element whose key
    is asked for exactly when the list has one. *)
Definition find_by_key (k : K) (l : list A) : option nat :=
  let i := lower_bound (fun x => key x <o k) l in
  match l !! i with
  | Some x => if bool_decide (key x = k) then Some i else None
  | None => None
  end.

Lemma find_by_key_some k l i :
  find_by_key k l = Some i -> exists x, l !! i = Some x /\ key x = k.
Proof.
  unfold find_by_key. intros Hf. destruct (l !! _) as [x|] eqn:Hx; [|done].
  case_bool_decide; [|done]. injection Hf as <-. eauto.
Qed.

Lemma find_by_key_cons k y l :
  find_by_key k (y :: l) =
  if key y <o k then S <$> find_by_key k l else if bool_decide (key y = k) then Some 0%nat else None.
Proof.
  unfold find_by_key; simpl. destruct (key y <o k); simpl; [|done].
  destruct (l !! _); [|done]. by case_bool_decide.
Qed.

Lemma find_by_key_complete k l i x :
  StronglySorted key_lt l -> l !! i = Some x -> key x = k -> find_by_key k l = Some i.
Proof.
  intros Hs; revert i; induction Hs as [|y l Hs IH Hy]; intros i Hi Hk; [done|].
  rewrite find_by_key_cons. destruct i as [|i]; simpl in Hi.
  - injection Hi as ->. rewrite Hk, ltb_irrefl. by rewrite bool_decide_eq_true_2.
  - assert (key_lt y x) as Hyx.
    { rewrite Forall_forall in Hy. apply Hy. by eapply list_elem_of_lookup_2. }
    unfold key_lt in Hyx. rewrite Hk in Hyx. rewrite Hyx. by rewrite (IH i).
Qed.

Lemma find_by_key_none k l :
  StronglySorted key_lt l -> find_by_key k l = None -> forall x, In x l -> key x <> k.
Proof.
  intros Hs Hf x Hx Hk. apply list_elem_of_In, list_elem_of_lookup_1 in Hx as [i Hi].
  by rewrite (find_by_key_complete _ _ _ _ Hs Hi Hk) in Hf.
Qed.

Lemma sorted_lt_nodup l : StronglySorted key_lt l -> List.NoDup (map key l).
Proof.
  induction 1 as [|x l Hs IH Hx]; simpl; constructor; [|done].
  rewrite in_map_iff. intros (y & Hy & Hin). rewrite List.Forall_forall in Hx.
  specialize (Hx y Hin). unfold key_lt in Hx. rewrite Hy, ltb_irrefl in Hx. done.
Qed.
End sorting_by_key.

(** [std::binary_search] on a sorted sequence of ordered values. *)
Definition contains_sorted {A} `{Ordered A} (values : list A) (value : A) : bool :=
  match values !! lower_bound (fun x => x <o value) values with
  | Some x => negb (value <o x)
  | None => false
  end.

Lemma contains_sorted_in {A} `{Ordered A} (values : list A) (v : A) :
  StronglySorted (key_le (fun x => x)) values -> contains_sorted values v = true <-> In v values.
Proof.
  unfold contains_sorted. intros Hs. induction Hs as [|y l Hs IH Hy]; simpl; [done|].
  destruct (y <o v) eqn:E; simpl.
  - rewrite IH. split; [auto|]. intros [->|?]; [by rewrite ltb_irrefl in E|done].
  - destruct (v <o y) eqn:E'; simpl.
    + split; [done|]. intros [->|Hin]; [by rewrite ltb_irrefl in E'|].
      rewrite List.Forall_forall in Hy. specialize (Hy _ Hin). unfold key_le in Hy. congruence.
    + split; [|done]. intros _. left. by apply ltb_total.
Qed.

(** [std::sort] with the default comparison. *)
Definition sort {A} `{Ordered A} : list A -> list A := sort_by ltb.

Lemma sort_sorted {A} `{Ordered A} (l : list A) : StronglySorted (key_le (fun x => x)) (sort l).
Proof. apply (sort_by_sorted (fun x : A => x)). Qed.

Lemma contains_sort {A} `{Ordered A} (l : list A) (v : A) : contains_sorted (sort l) v = true <-> In v l.
Proof.
  rewrite contains_sorted_in by apply sort_sorted. unfold sort.
  split; apply Permutation_in; [|symmetry]; apply sort_by_perm.
Qed.

Definition sort_unique {A} `{Ordered A, EqDecision A} (l : list A) : list A :=
  unique_by (fun x y => bool_decide (x = y)) (sort l).

Lemma unique_from_keeps {A} `{EqDecision A} (last : A) (l : list A) (x : A) :
  In x l -> x = last \/ In x (unique_from (fun a b => bool_decide (a = b)) last l).
Proof.
  revert last; induction l as [|y l IH]; intros last; simpl; [done|]. intros [<-|Hin].
  - case_bool_decide; [by left|]. right. by left.
  - case_bool_decide; [by apply IH|]. destruct (IH y Hin) as [->|?]; right; [by left|by right].
Qed.

Lemma sort_unique_in {A} `{Ordered A, EqDecision A} (l : list A) (x : A) : In x (sort_unique l) <-> In x l.
Proof.
  assert (In x (sort l) <-> In x l) as <- by (split; apply Permutation_in; [|symmetry]; apply sort_by_perm).
  split; [apply unique_by_in|]. unfold sort_unique. destruct (sort l) as [|y m]; [done|].
  intros [->|Hin]; [by left|]. destruct (unique_from_keeps y m x Hin) as [->|?]; [by left|by right].
Qed.
