(* ===== verification/Status.v ===== *)
(** * Status: operation status, expected values, bounds, decimal text

    [include/opp/status.hpp], [src/status.cpp], [include/opp/limits.hpp], and
    the few string operations of the C++ library that every component uses. *)

From S2P Require Import Prelude.

(** ** Status codes ([StatusCode], [StatusCodeName]) *)

Module StatusCode.
Inductive t :=
| Ok | InvalidArgument | MalformedInput | LimitExceeded | DuplicateIdentity | NotFound
| ConflictingEvidence | Unsupported | Stale | Fenced | Cancelled | Truncated
| IntegrityFailure | IoFailure | Refused | Exhausted | Overflow | Internal.

#[global] Instance eq_dec : EqDecision t.
Proof. solve_decision. Defined.
End StatusCode.

Definition StatusCodeName (code : StatusCode.t) : string :=
  match code with
  | StatusCode.Ok => "OK"
  | StatusCode.InvalidArgument => "INVALID_ARGUMENT"
  | StatusCode.MalformedInput => "MALFORMED_INPUT"
  | StatusCode.LimitExceeded => "LIMIT_EXCEEDED"
  | StatusCode.DuplicateIdentity => "DUPLICATE_IDENTITY"
  | StatusCode.NotFound => "NOT_FOUND"
  | StatusCode.ConflictingEvidence => "CONFLICTING_EVIDENCE"
  | StatusCode.Unsupported => "UNSUPPORTED"
  | StatusCode.Stale => "STALE"
  | StatusCode.Fenced => "FENCED"
  | StatusCode.Cancelled => "CANCELLED"
  | StatusCode.Truncated => "TRUNCATED"
  | StatusCode.IntegrityFailure => "INTEGRITY_FAILURE"
  | StatusCode.IoFailure => "IO_FAILURE"
  | StatusCode.Refused => "REFUSED"
  | StatusCode.Exhausted => "EXHAUSTED"
  | StatusCode.Overflow => "OVERFLOW"
  | StatusCode.Internal => "INTERNAL"
  end.

Record Status := MkStatus { code : StatusCode.t; detail : string }.

#[export] Instance Status_eq_dec : EqDecision Status.
Proof. solve_decision. Defined.

Definition status_ok (s : Status) : bool := bool_decide (code s = StatusCode.Ok).
Definition failed (s : Status) : bool := negb (status_ok s).

Definition OkStatus : Status := MkStatus StatusCode.Ok "".
Definition Failure (c : StatusCode.t) (d : string) : Status := MkStatus c d.
Definition FirstFailure (a b : Status) : Status := if failed a then a else b.

(** ** Expected values ([Expected<T>])

    The two constructors of the class: from a value, and from a status, which
    every caller builds with [Failure]. *)

Inductive Expected (A : Type) :=
| Value (value : A)
| Error (status : Status).
Arguments Value {A} value.
Arguments Error {A} status.

Definition expected_ok {A} (e : Expected A) : bool :=
  match e with Value _ => true | Error _ => false end.

Definition expected_status {A} (e : Expected A) : Status :=
  match e with Value _ => OkStatus | Error s => s end.

Definition ValueOr {A} (e : Expected A) (fallback : A) : A :=
  match e with Value v => v | Error _ => fallback end.

(** [if (!x.ok()) return x.status();] *)
Notation "'let!' x := e 'in' k" :=
  (match e with Value x => k | Error st => Error st end)
  (at level 200, x pattern, e at level 200, k at level 200) : opp_scope.

(** [status = e; if (status.failed()) return status;] for functions that
    return a [Status] themselves. *)
Notation "'check!' e ;; k" :=
  (let st := e in if failed st then st else k)
  (at level 200, e at level 99, k at level 200, right associativity) : opp_scope.

(** ** Hard bounds ([include/opp/limits.hpp]) *)

Definition kMaxNodes : Z := 4096.
Definition kMaxPorts : Z := 16384.
Definition kMaxSpans : Z := 32768.
Definition kMaxCrossConnects : Z := 65536.
Definition kMaxReachProfiles : Z := 256.
Definition kMaxSources : Z := 64.
Definition kMaxDomainsPerResource : Z := 16.
Definition kMaxIdLength : Z := 96.
Definition kMaxTextLineBytes : Z := 8192.
Definition kMaxSpectrumSlots : Z := 256.
Definition kMaxCandidates : Z := 16.
Definition kMaxRequestedRegenerations : Z := 64.
Definition kMaxRequestedHops : Z := 512.
Definition kDefaultMaxHops : Z := 128.
Definition kDefaultMaxRegenerations : Z := 8.
Definition kMaxExclusionEntries : Z := 4096.
Definition kMaxDomainMemberLimits : Z := 1024.
Definition kMaxRequiredGenerations : Z := 64.
Definition kMaxSearchExpansionsCeiling : Z := 20000000.
Definition kMaxSearchLabelsCeiling : Z := 40000000.
Definition kDefaultSearchExpansions : Z := 400000.
Definition kDefaultSearchLabels : Z := 800000.
Definition kMaxWitnessEntries : Z := 64.

(** ** Bytes and strings *)

(** The value of a [char] read as an unsigned byte, and back. *)
Definition byte_of (c : ascii) : Z := Z.of_N (N_of_ascii c).
Definition char_of (b : Z) : ascii := ascii_of_N (Z.to_N b).

Definition chars (s : string) : list ascii := String.list_ascii_of_string s.
Definition of_chars (l : list ascii) : string := String.string_of_list_ascii l.
Definition size {A} (l : list A) : Z := Z.of_nat (length l).
Definition string_size (s : string) : Z := Z.of_nat (String.length s).

Definition string_bytes (s : string) : list Z := map byte_of (chars s).

(** [text.find(c)], [text.substr(0, pos)] and [text.substr(pos + 1)] at once. *)
Fixpoint split_at (c : ascii) (s : string) : option (string * string) :=
  match s with
  | EmptyString => None
  | String x t =>
      if Ascii.eqb x c then Some (EmptyString, t)
      else match split_at c t with
           | Some (before, after) => Some (String x before, after)
           | None => None
           end
  end.

Definition mem_char (c : ascii) (s : string) : bool := existsb (Ascii.eqb c) (chars s).

Definition is_digit (c : ascii) : bool := (48 <=? byte_of c) && (byte_of c <=? 57).
Definition is_alnum (c : ascii) : bool :=
  is_digit c || ((97 <=? byte_of c) && (byte_of c <=? 122)) || ((65 <=? byte_of c) && (byte_of c <=? 90)).

(** [std::to_string] of an unsigned value: 20 digits are enough for 64 bits. *)
Fixpoint decimal_from (fuel : nat) (n : Z) (acc : string) : string :=
  match fuel with
  | O => acc
  | S f =>
      let acc' := String (char_of (48 + n mod 10)) acc in
      if n <? 10 then acc' else decimal_from f (n / 10) acc'
  end.

Definition to_string (n : Z) : string := decimal_from 20 n "".

(** The value of a run of decimal digits, without bound. *)
Definition decimal_step (v : Z) (c : ascii) : Z := v * 10 + (byte_of c - 48).
Definition decimal_value (s : string) : Z := fold_left decimal_step (chars s) 0.

(** ** Lemmas *)

Lemma failed_false s : failed s = false <-> code s = StatusCode.Ok.
Proof. unfold failed, status_ok. by rewrite negb_false_iff, bool_decide_eq_true. Qed.

Lemma failed_Failure c d : failed (Failure c d) = negb (bool_decide (c = StatusCode.Ok)).
Proof. done. Qed.

Lemma byte_of_range c : 0 <= byte_of c < 256.
Proof. unfold byte_of. pose proof (N_ascii_bounded c). lia. Qed.

Lemma char_of_byte_of c : char_of (byte_of c) = c.
Proof. unfold char_of, byte_of. by rewrite N2Z.id, ascii_N_embedding. Qed.

Lemma byte_of_char_of b : 0 <= b < 256 -> byte_of (char_of b) = b.
Proof. intros Hb. unfold char_of, byte_of. rewrite N_ascii_embedding; lia. Qed.

Lemma byte_of_inj c d : byte_of c = byte_of d -> c = d.
Proof. intros E. by rewrite <- (char_of_byte_of c), E, char_of_byte_of. Qed.

Lemma chars_app a b : chars (a +:+ b) = chars a ++ chars b.
Proof. induction a as [|c a IH]; simpl; [done|]. by f_equal. Qed.

Lemma of_chars_chars s : of_chars (chars s) = s.
Proof. apply String.string_of_list_ascii_of_string. Qed.

#[export] Instance chars_inj : Inj (=) (=) chars.
Proof. intros a b E. by rewrite <- (of_chars_chars a), E, of_chars_chars. Qed.

Lemma string_app_assoc a b c : a +:+ (b +:+ c) = (a +:+ b) +:+ c.
Proof. apply (inj chars). by rewrite !chars_app, app_assoc. Qed.

Lemma string_app_nil s : s +:+ "" = s.
Proof. apply (inj chars). by rewrite chars_app, app_nil_r. Qed.

Lemma chars_of_chars l : chars (of_chars l) = l.
Proof. apply String.list_ascii_of_string_of_list_ascii. Qed.

Lemma string_size_chars s : string_size s = size (chars s).
Proof. unfold string_size, size. f_equal. induction s as [|c s IH]; simpl; [done|]. by rewrite IH. Qed.

Lemma size_app {A} (a b : list A) : size (a ++ b) = size a + size b.
Proof. unfold size. rewrite length_app. lia. Qed.

Lemma string_size_app a b : string_size (a +:+ b) = string_size a + string_size b.
Proof. rewrite !string_size_chars, chars_app. unfold size. rewrite length_app. lia. Qed.

Lemma split_at_app c a b : ~ In c (chars a) -> split_at c (a +:+ String c b) = Some (a, b).
Proof.
  induction a as [|x a IH]; simpl; intros Hin.
  - by rewrite Ascii.eqb_refl.
  - destruct (Ascii.eqb_spec x c) as [->|Hne]; [by destruct Hin; left|].
    rewrite IH; [done|tauto].
Qed.

Lemma split_at_some c s a b : split_at c s = Some (a, b) -> s = a +:+ String c b /\ ~ In c (chars a).
Proof.
  revert a b; induction s as [|x s IH]; simpl; intros a b; [done|].
  destruct (Ascii.eqb_spec x c) as [->|Hne].
  - intros [= <- <-]. split; [done|]. intros [].
  - destruct (split_at c s) as [[a' b']|]; [|done]. intros [= <- <-].
    destruct (IH a' b' eq_refl) as [-> Hin]. split; [done|]. simpl. intros [?|?]; auto.
Qed.

Lemma split_at_none c s : split_at c s = None <-> ~ In c (chars s).
Proof.
  induction s as [|x s IH]; simpl; [tauto|].
  destruct (Ascii.eqb_spec x c) as [->|Hne]; [split; [done|tauto]|].
  destruct (split_at c s) as [[]|].
  - split; [done|]. intros H. assert (~ In c (chars s)) as H' by tauto. by apply IH in H'.
  - split; [|done]. intros _ [?|Hin]; [done|]. by apply IH in Hin.
Qed.

(** Decimal text: [to_string] and [decimal_value] are inverse on 64-bit values. *)

Lemma digit_char d : 0 <= d < 10 -> byte_of (char_of (48 + d)) = 48 + d.
Proof. intros Hd. apply byte_of_char_of. lia. Qed.

Lemma decimal_from_value fuel n acc v :
  0 <= n < 10 ^ Z.of_nat fuel -> (0 < fuel)%nat ->
  exists k, fold_left decimal_step (chars (decimal_from fuel n acc)) v =
            fold_left decimal_step (chars acc) (v * 10 ^ k + n) /\ 0 <= k.
Proof.
  revert n acc v; induction fuel as [|f IH]; intros n acc v Hn Hf; [lia|]. simpl.
  pose proof (Z.mod_pos_bound n 10 ltac:(lia)) as Hm.
  pose proof (Z.div_mod n 10 ltac:(lia)) as Hdm.
  destruct (Z.ltb_spec n 10) as [E|E].
  - exists 1. split; [|lia]. simpl. f_equal. unfold decimal_step.
    rewrite digit_char by lia. rewrite (Z.mod_small n 10) by lia. lia.
  - rewrite Nat2Z.inj_succ, Z.pow_succ_r in Hn by lia.
    assert (0 < f)%nat as Hf' by (destruct f; [simpl in Hn; lia|lia]).
    destruct (IH (n / 10) (String (char_of (48 + n mod 10)) acc) v) as (k & Hk & Hk0).
    { split; [apply Z.div_pos; lia|]. apply Z.div_lt_upper_bound; lia. }
    { done. }
    exists (k + 1). split; [|lia]. rewrite Hk. simpl. f_equal. unfold decimal_step.
    rewrite digit_char, Z.pow_add_r by lia. lia.
Qed.

Lemma decimal_value_to_string n : in_width 64 n -> decimal_value (to_string n) = n.
Proof.
  intros [H0 H1]. unfold decimal_value, to_string.
  destruct (decimal_from_value 20 n "" 0) as (k & Hk & _); [simpl in *; lia|lia|].
  rewrite Hk. simpl. lia.
Qed.

Lemma is_digit_char d : 0 <= d < 10 -> is_digit (char_of (48 + d)) = true.
Proof. intros Hd. unfold is_digit. rewrite digit_char by done. lia. Qed.

Lemma decimal_from_digits fuel n acc :
  0 <= n -> (forall c, In c (chars acc) -> is_digit c = true) ->
  forall c, In c (chars (decimal_from fuel n acc)) -> is_digit c = true.
Proof.
  revert n acc; induction fuel as [|f IH]; intros n acc Hn Hacc; simpl; [done|].
  assert (forall c, In c (chars (String (char_of (48 + n mod 10)) acc)) -> is_digit c = true) as Hacc'.
  { simpl. intros c [<-|Hin]; [|auto]. apply is_digit_char. apply Z.mod_pos_bound. lia. }
  destruct (n <? 10); [done|]. apply IH; [|done]. apply Z.div_pos; lia.
Qed.

Lemma to_string_digits n : 0 <= n -> forall c, In c (chars (to_string n)) -> is_digit c = true.
Proof. intros Hn. by apply decimal_from_digits. Qed.

Lemma decimal_from_size fuel n acc :
  (String.length (decimal_from fuel n acc) <= fuel + String.length acc)%nat.
Proof.
  revert n acc; induction fuel as [|f IH]; intros n acc; simpl; [lia|].
  destruct (n <? 10); simpl; [lia|]. specialize (IH (n / 10) (String (char_of (48 + n mod 10)) acc)).
  simpl in IH. lia.
Qed.

Lemma decimal_from_nonempty fuel n acc :
  (0 < fuel)%nat \/ acc <> EmptyString -> decimal_from fuel n acc <> EmptyString.
Proof.
  revert n acc; induction fuel as [|f IH]; intros n acc H; simpl; [destruct H; [lia|done]|].
  destruct (n <? 10); [done|]. apply IH. by right.
Qed.

Lemma to_string_nonempty n : to_string n <> EmptyString.
Proof. apply decimal_from_nonempty. left. lia. Qed.
