(* ===== verification/Ids.v ===== *)
(** * Ids: identities, digests and resource keys

    [include/opp/ids.hpp] and [src/ids.cpp]. *)

From S2P Require Import Prelude Status.

(** ** Identifier text *)

Definition is_id_char (c : ascii) : bool :=
  is_alnum c || Ascii.eqb c "_" || Ascii.eqb c "-" || Ascii.eqb c "." || Ascii.eqb c ":" ||
  Ascii.eqb c "/" || Ascii.eqb c "@" || Ascii.eqb c "+".

Definition IsValidIdText (text : string) : bool :=
  match text with
  | EmptyString => false
  | String first _ =>
      if kMaxIdLength <? string_size text then false
      else if negb (is_alnum first) then false
      else forallb is_id_char (chars text)
  end.

(** ** Strong identities: one type per tag over the same representation *)

Inductive Tag :=
| NodeTag | PortTag | SpanTag | CrossConnectTag | FailureDomainTag | ProfileTag | SourceTag
| RequestTag | SnapshotTag.

Record StrongId (t : Tag) := MkId { str : string }.
Arguments MkId {t} str.
Arguments str {t} _.

Definition NodeId := StrongId NodeTag.
Definition PortId := StrongId PortTag.
Definition SpanId := StrongId SpanTag.
Definition CrossConnectId := StrongId CrossConnectTag.
Definition FailureDomainId := StrongId FailureDomainTag.
Definition ProfileId := StrongId ProfileTag.
Definition SourceId := StrongId SourceTag.
Definition RequestId := StrongId RequestTag.
Definition SnapshotId := StrongId SnapshotTag.

#[export] Instance StrongId_eq_dec t : EqDecision (StrongId t).
Proof. solve_decision. Defined.

Definition id_empty {t} (id : StrongId t) : bool := bool_decide (str id = "").

Definition id_Parse {t} (text : string) : Expected (StrongId t) :=
  if negb (IsValidIdText text) then
    Error (Failure StatusCode.InvalidArgument
      "identifier is empty, too long, or contains characters outside the identity alphabet")
  else Value (MkId text).

Lemma str_inj {t} (a b : StrongId t) : str a = str b -> a = b.
Proof. destruct a, b; simpl; congruence. Qed.

#[export] Instance StrongId_ordered t : Ordered (StrongId t) := ordered_by str str_inj.

Definition Generation := Z.
Definition Epoch := Z.

(** ** Port keys *)

Record PortKey := MkPortKey { node : NodeId; port : PortId }.

#[export] Instance PortKey_eq_dec : EqDecision PortKey.
Proof. solve_decision. Defined.

Lemma portkey_inj (a b : PortKey) : (node a, port a) = (node b, port b) -> a = b.
Proof. destruct a, b; simpl; congruence. Qed.

#[export] Instance PortKey_ordered : Ordered PortKey := ordered_by (fun k => (node k, port k)) portkey_inj.

Definition CanonicalText (key : PortKey) : string := str (node key) +:+ ":" +:+ str (port key).

(** ** Hexadecimal bytes *)

Definition kHexDigits : list ascii := chars "0123456789abcdef".

Definition hex_digit (d : Z) : ascii := nth (Z.to_nat d) kHexDigits "0"%char.

Definition HexValue (c : ascii) : Z :=
  let b := byte_of c in
  if (48 <=? b) && (b <=? 57) then b - 48
  else if (97 <=? b) && (b <=? 102) then b - 97 + 10
  else if (65 <=? b) && (b <=? 70) then b - 65 + 10
  else -1.

Definition ToHexImpl (bytes : list Z) : string :=
  of_chars (concat (map (fun b => [hex_digit (Z.land (Z.shiftr b 4) 15); hex_digit (Z.land b 15)]) bytes)).

Fixpoint hex_pairs (hex : list ascii) : option (list Z) :=
  match hex with
  | [] => Some []
  | h :: l :: rest =>
      let high := HexValue h in
      let low := HexValue l in
      if (high <? 0) || (low <? 0) then None
      else match hex_pairs rest with
           | Some bytes => Some (Z.lor (Z.shiftl high 4) low :: bytes)
           | None => None
           end
  | [_] => None
  end.

Definition FromHexImpl (n : Z) (hex : string) : option (list Z) :=
  if negb (string_size hex =? n * 2) then None else hex_pairs (chars hex).

Definition IsZeroImpl (bytes : list Z) : bool := forallb (fun b => b =? 0) bytes.

(** A digest and an incarnation hold 32 and 16 bytes: [wf_bytes] is the
    invariant the array type gives in the code. *)

Record Digest256 := MkDigest { digest_bytes : list Z }.
Record IncarnationId := MkIncarnation { incarnation_bytes : list Z }.

#[export] Instance Digest256_eq_dec : EqDecision Digest256.
Proof. solve_decision. Defined.
#[export] Instance IncarnationId_eq_dec : EqDecision IncarnationId.
Proof. solve_decision. Defined.

Definition digest_eqb (a b : Digest256) : bool := bool_decide (a = b).

Definition wf_bytes (n : Z) (bytes : list Z) : Prop := size bytes = n /\ Forall (in_width 8) bytes.

Definition zero_digest : Digest256 := MkDigest (repeat 0 32).
Definition zero_incarnation : IncarnationId := MkIncarnation (repeat 0 16).

Definition Digest_IsZero (d : Digest256) : bool := IsZeroImpl (digest_bytes d).
Definition Digest_ToHex (d : Digest256) : string := ToHexImpl (digest_bytes d).
Definition Digest_FromHex (hex : string) : Expected Digest256 :=
  match FromHexImpl 32 hex with
  | None => Error (Failure StatusCode.MalformedInput "digest hex must be 64 lowercase or uppercase hex characters")
  | Some bytes => Value (MkDigest bytes)
  end.

Definition Incarnation_IsZero (i : IncarnationId) : bool := IsZeroImpl (incarnation_bytes i).
Definition Incarnation_ToHex (i : IncarnationId) : string := ToHexImpl (incarnation_bytes i).
Definition Incarnation_FromHex (hex : string) : Expected IncarnationId :=
  match FromHexImpl 16 hex with
  | None => Error (Failure StatusCode.MalformedInput "incarnation hex must be 32 hexadecimal characters")
  | Some bytes => Value (MkIncarnation bytes)
  end.

(** ** Resource keys *)

Module ResourceKind.
Inductive t := Node | Port | Span | CrossConnect | FailureDomain | ReachProfile | Channel | Source.

#[global] Instance eq_dec : EqDecision t.
Proof. solve_decision. Defined.

(** The value of the enumerator. *)
Definition index (k : t) : Z :=
  match k with
  | Node => 0 | Port => 1 | Span => 2 | CrossConnect => 3 | FailureDomain => 4 | ReachProfile => 5
  | Channel => 6 | Source => 7
  end.
End ResourceKind.

Definition ResourceKindName (kind : ResourceKind.t) : string :=
  match kind with
  | ResourceKind.Node => "node"
  | ResourceKind.Port => "port"
  | ResourceKind.Span => "span"
  | ResourceKind.CrossConnect => "crossconnect"
  | ResourceKind.FailureDomain => "domain"
  | ResourceKind.ReachProfile => "profile"
  | ResourceKind.Channel => "channel"
  | ResourceKind.Source => "source"
  end.

Record ResourceKey := MkResourceKey { kind : ResourceKind.t; text : string }.

#[export] Instance ResourceKey_eq_dec : EqDecision ResourceKey.
Proof. solve_decision. Defined.

Lemma resourcekey_inj (a b : ResourceKey) :
  (ResourceKind.index (kind a), text a) = (ResourceKind.index (kind b), text b) -> a = b.
Proof. destruct a as [[] ?], b as [[] ?]; simpl; congruence. Qed.

#[export] Instance ResourceKey_ordered : Ordered ResourceKey :=
  ordered_by (fun k => (ResourceKind.index (kind k), text k)) resourcekey_inj.

(** The default-constructed key. *)
Definition empty_resource : ResourceKey := MkResourceKey ResourceKind.Node "".
Definition resource_empty (k : ResourceKey) : bool := bool_decide (text k = "").

Definition ForNode (id : NodeId) : ResourceKey := MkResourceKey ResourceKind.Node (str id).
Definition ForPort (key : PortKey) : ResourceKey := MkResourceKey ResourceKind.Port (CanonicalText key).
Definition ForSpan (id : SpanId) : ResourceKey := MkResourceKey ResourceKind.Span (str id).
Definition ForCrossConnect (id : CrossConnectId) : ResourceKey :=
  MkResourceKey ResourceKind.CrossConnect (str id).
Definition ForFailureDomain (id : FailureDomainId) : ResourceKey :=
  MkResourceKey ResourceKind.FailureDomain (str id).
Definition ForReachProfile (id : ProfileId) : ResourceKey := MkResourceKey ResourceKind.ReachProfile (str id).
Definition ForSource (id : SourceId) : ResourceKey := MkResourceKey ResourceKind.Source (str id).
Definition ForChannel (first_slot width_slots : Z) : ResourceKey :=
  MkResourceKey ResourceKind.Channel (to_string first_slot +:+ "+" +:+ to_string width_slots).

Definition ResourceKeyToString (key : ResourceKey) : string :=
  ResourceKindName (kind key) +:+ ":" +:+ text key.

Definition kKinds : list (string * ResourceKind.t) :=
  [("node", ResourceKind.Node); ("port", ResourceKind.Port);
   ("span", ResourceKind.Span); ("crossconnect", ResourceKind.CrossConnect);
   ("domain", ResourceKind.FailureDomain); ("profile", ResourceKind.ReachProfile);
   ("channel", ResourceKind.Channel); ("source", ResourceKind.Source)].

Definition ResourceKeyFromString (t : string) : Expected ResourceKey :=
  match split_at ":"%char t with
  | None | Some (EmptyString, _) =>
      Error (Failure StatusCode.MalformedInput "resource key must be spelled kind:text")
  | Some (kind_text, body) =>
      if bool_decide (body = "") then
        Error (Failure StatusCode.MalformedInput "resource key body must not be empty")
      else
        match List.find (fun entry => String.eqb kind_text (fst entry)) kKinds with
        | Some entry => Value (MkResourceKey (snd entry) body)
        | None => Error (Failure StatusCode.MalformedInput ("unrecognised resource kind '" +:+ kind_text +:+ "'"))
        end
  end.

(** The key text is read back by splitting at the first colon
    ([ParsePlanArtifact]'s [split], [RevalidatePlan], [ExtendExclusions]). *)
Definition SplitPortText (t : string) : option (string * string) := split_at ":"%char t.

(** ** Lemmas: hexadecimal text *)

Lemma hex_digit_value d : 0 <= d < 16 -> HexValue (hex_digit d) = d.
Proof.
  intros Hd. assert (d = 0 \/ d = 1 \/ d = 2 \/ d = 3 \/ d = 4 \/ d = 5 \/ d = 6 \/ d = 7 \/ d = 8 \/
    d = 9 \/ d = 10 \/ d = 11 \/ d = 12 \/ d = 13 \/ d = 14 \/ d = 15) as H by lia.
  repeat destruct H as [->|H]; try reflexivity. by subst.
Qed.

Lemma HexValue_range c : -1 <= HexValue c < 16.
Proof.
  unfold HexValue. cbv zeta. pose proof (byte_of_range c).
  repeat case_goal; crush_hyps; lia.
Qed.

Lemma nibbles b : in_width 8 b -> Z.lor (Z.shiftl (Z.land (Z.shiftr b 4) 15) 4) (Z.land b 15) = b.
Proof.
  intros [H0 H1]. apply Z.bits_inj'. intros n Hn.
  rewrite Z.lor_spec, Z.land_spec. change 15 with (Z.ones 4).
  rewrite Z.testbit_ones_nonneg by lia.
  destruct (Z.ltb_spec n 4) as [Hlt|Hge].
  - rewrite Z.shiftl_spec_low by lia. by rewrite andb_true_r.
  - rewrite Z.shiftl_spec, Z.land_spec, Z.shiftr_spec by lia.
    rewrite Z.testbit_ones_nonneg by lia. replace (n - 4 + 4) with n by lia.
    rewrite andb_false_r, orb_false_r.
    destruct (Z.ltb_spec (n - 4) 4) as [Hlt'|Hge']; [by rewrite andb_true_r|].
    rewrite andb_false_r. symmetry. apply Z.bits_above_log2; [lia|].
    destruct (Z.eq_dec b 0) as [->|]; [simpl; lia|].
    apply Z.log2_lt_pow2; [lia|]. apply Z.lt_le_trans with (2 ^ 8); [done|].
    apply Z.pow_le_mono_r; lia.
Qed.

Lemma hex_high_nibble b : in_width 8 b -> 0 <= Z.land (Z.shiftr b 4) 15 < 16.
Proof.
  intros _. change 15 with (Z.ones 4). rewrite Z.land_ones by lia. apply Z.mod_pos_bound. lia.
Qed.

Lemma hex_low_nibble b : 0 <= Z.land b 15 < 16.
Proof. change 15 with (Z.ones 4). rewrite Z.land_ones by lia. apply Z.mod_pos_bound. lia. Qed.

Lemma hex_pairs_round bytes :
  Forall (in_width 8) bytes ->
  hex_pairs (concat (map (fun b => [hex_digit (Z.land (Z.shiftr b 4) 15); hex_digit (Z.land b 15)]) bytes)) = Some bytes.
Proof.
  induction 1 as [|b bytes Hb Hbytes IH]; simpl; [done|].
  pose proof (hex_high_nibble b Hb). pose proof (hex_low_nibble b).
  rewrite !hex_digit_value by done.
  rewrite (proj2 (Z.ltb_ge _ 0)), (proj2 (Z.ltb_ge _ 0)) by lia. simpl.
  by rewrite IH, nibbles.
Qed.

Lemma size_concat_pairs {A B} (f g : A -> B) l :
  size (concat (map (fun b => [f b; g b]) l)) = size l * 2.
Proof. unfold size. induction l as [|x l IH]; simpl in *; lia. Qed.

Lemma FromHexImpl_ToHexImpl n bytes : wf_bytes n bytes -> FromHexImpl n (ToHexImpl bytes) = Some bytes.
Proof.
  intros [Hn Hb]. unfold FromHexImpl, ToHexImpl.
  rewrite string_size_chars, chars_of_chars, size_concat_pairs, Hn, Z.eqb_refl. simpl.
  by apply hex_pairs_round.
Qed.

Lemma hex_pairs_wf hex bytes :
  hex_pairs hex = Some bytes -> size hex = size bytes * 2 /\ Forall (in_width 8) bytes.
Proof.
  revert bytes. remember (length hex) as n eqn:Hn. assert (length hex <= n)%nat as Hle by lia. clear Hn.
  revert hex Hle; induction n as [|n IH]; intros hex Hle bytes.
  - destruct hex; simpl in *; [|lia]. intros [= <-]. by split.
  - destruct hex as [|h [|l rest]]; simpl; [by intros [= <-]|done|].
    pose proof (HexValue_range h). pose proof (HexValue_range l).
    destruct ((HexValue h <? 0) || (HexValue l <? 0))%bool eqn:E; [done|].
    apply orb_false_iff in E as [Eh El]. apply Z.ltb_ge in Eh, El.
    destruct (hex_pairs rest) as [bs|] eqn:Hrest; [|done]. intros [= <-].
    destruct (IH rest ltac:(simpl in Hle; lia) bs Hrest) as [Hs Hf].
    split; [unfold size in *; simpl length in *; lia|]. constructor; [|done].
    split.
    + apply Z.lor_nonneg. split; [apply Z.shiftl_nonneg|]; lia.
    + destruct (Z.eq_dec (Z.lor (Z.shiftl (HexValue h) 4) (HexValue l)) 0) as [->|Hne]; [lia|].
      apply Z.log2_lt_cancel. rewrite Z.log2_pow2 by lia.
      rewrite Z.log2_lor by (try apply Z.shiftl_nonneg; lia).
      apply Z.max_lub_lt.
      * destruct (Z.eq_dec (HexValue h) 0) as [->|]; [simpl; lia|].
        rewrite Z.log2_shiftl by lia.
        assert (Z.log2 (HexValue h) < 4) by (apply Z.log2_lt_pow2; lia). lia.
      * destruct (Z.eq_dec (HexValue l) 0) as [->|]; [simpl; lia|].
        assert (Z.log2 (HexValue l) < 4) by (apply Z.log2_lt_pow2; lia). lia.
Qed.

Lemma FromHexImpl_wf n hex bytes : FromHexImpl n hex = Some bytes -> wf_bytes n bytes.
Proof.
  unfold FromHexImpl. destruct (Z.eqb_spec (string_size hex) (n * 2)) as [E|]; simpl; [|done].
  intros [Hs Hf]%hex_pairs_wf. rewrite string_size_chars in E. split; [lia|done].
Qed.

(** ** Lemmas: identifiers and resource keys *)

Lemma IsValidIdText_nonempty t : IsValidIdText t = true -> t <> "".
Proof. by intros H ->. Qed.

Lemma IsValidIdText_chars t : IsValidIdText t = true -> forall c, In c (chars t) -> is_id_char c = true.
Proof.
  unfold IsValidIdText. destruct t as [|c0 t]; [done|].
  destruct (_ <? _); [done|]. destruct (is_alnum c0); simpl negb; [|done].
  intros Hf c Hc. rewrite forallb_forall in Hf. auto.
Qed.

Lemma id_Parse_str {t} (id : StrongId t) : IsValidIdText (str id) = true -> id_Parse (str id) = Value id.
Proof. unfold id_Parse. intros ->. by destruct id. Qed.

Lemma kind_name_no_colon k : ~ In ":"%char (chars (ResourceKindName k)).
Proof. destruct k; simpl; intuition discriminate. Qed.

Lemma kind_find k : List.find (fun entry => String.eqb (ResourceKindName k) (fst entry)) kKinds = Some (ResourceKindName k, k).
Proof. by destruct k. Qed.

(** ** Theorems *)

(** A digest's hexadecimal text reads back to the digest. *)
Theorem digest_hex_roundtrip (d : Digest256) :
  wf_bytes 32 (digest_bytes d) -> Digest_FromHex (Digest_ToHex d) = Value d.
Proof. intros Hd. unfold Digest_FromHex, Digest_ToHex. rewrite FromHexImpl_ToHexImpl by done. by destruct d. Qed.

Lemma digest_hex_roundtrip_witness :
  wf_bytes 32 (digest_bytes (MkDigest (repeat 171 32))) /\
  Digest_FromHex (Digest_ToHex (MkDigest (repeat 171 32))) = Value (MkDigest (repeat 171 32)).
Proof.
  assert (wf_bytes 32 (digest_bytes (MkDigest (repeat 171 32)))) as H.
  { split; [done|]. cbn. repeat (constructor; [by vm_compute|]). constructor. }
  split; [done|]. by apply (digest_hex_roundtrip (MkDigest (repeat 171 32))).
Defined.

(** A resource key's text reads back to the key, whatever characters its
    body holds (the kind names hold no colon, so the first colon separates). *)
Theorem resource_key_roundtrip (k : ResourceKey) :
  text k <> "" -> ResourceKeyFromString (ResourceKeyToString k) = Value k.
Proof.
  intros Ht. unfold ResourceKeyFromString, ResourceKeyToString.
  change (":" +:+ text k) with (String ":"%char (text k)).
  rewrite split_at_app by apply kind_name_no_colon.
  rewrite bool_decide_eq_false_2 by done. rewrite kind_find.
  destruct k as [[] t]; done.
Qed.

Lemma resource_key_roundtrip_witness :
  ForPort (MkPortKey (MkId "n:1") (MkId "p")) = MkResourceKey ResourceKind.Port "n:1:p" /\
  ResourceKeyFromString (ResourceKeyToString (ForPort (MkPortKey (MkId "n:1") (MkId "p")))) =
  Value (ForPort (MkPortKey (MkId "n:1") (MkId "p"))).
Proof. split; [done|]. by apply (resource_key_roundtrip (ForPort (MkPortKey (MkId "n:1") (MkId "p")))). Defined.

(** A port key's text splits back at its first colon exactly when the node
    identity holds no colon.  The identity alphabet does allow a colon, and
    then the readers of plan and exclusion text recover another port. *)
Theorem port_text_split (key : PortKey) :
  SplitPortText (CanonicalText key) = Some (str (node key), str (port key)) <->
  ~ In ":"%char (chars (str (node key))).
Proof.
  unfold SplitPortText, CanonicalText. change (":" +:+ ?x) with (String ":"%char x). split.
  - by intros [_ H]%split_at_some.
  - intros H. by apply split_at_app.
Qed.
