(* ===== verification/Doubles.v ===== *)
(** * Doubles: IEEE 754 binary64 values and the platform functions on them

    [double] is the specification float of the standard library at the
    binary64 parameters, so additions round exactly as the code's do.  The C
    library's [pow] and [log10], and the shortest decimal text of [<charconv>],
    are not under src/: they are the operations of the class [Platform], and
    [reference_platform] is one executable instance of them. *)

From Stdlib Require Import SpecFloat.
From S2P Require Import Prelude Status.

Definition double := spec_float.

Definition dadd : double -> double -> double := SFadd 53 1024.
Definition dsub : double -> double -> double := SFsub 53 1024.
Definition dmul : double -> double -> double := SFmul 53 1024.
Definition ddiv : double -> double -> double := SFdiv 53 1024.
Definition dopp : double -> double := SFopp.
Definition dabs : double -> double := SFabs.

(** The comparison operators: false whenever an operand is a NaN. *)
Definition dlt (a b : double) : bool := SFltb a b.
Definition dle (a b : double) : bool := SFleb a b.
Definition dgt (a b : double) : bool := SFltb b a.
Definition dge (a b : double) : bool := SFleb b a.
Definition deqb (a b : double) : bool := SFeqb a b.

Definition dmax (a b : double) : double := if dlt a b then b else a.

Definition isfinite (a : double) : bool :=
  match a with S754_zero _ | S754_finite _ _ _ => true | _ => false end.
Definition is_nan (a : double) : bool := match a with S754_nan => true | _ => false end.

(** The literal [n.0], and [1.0e-9]. *)
Definition double_of (n : Z) : double := binary_normalize 53 1024 n 0 false.
Definition d0 : double := S754_zero false.
Definition d10 : double := double_of 10.
Definition d1e9 : double := double_of 1000000000.
Definition d1e6 : double := double_of 1000000.
Definition epsilon9 : double := ddiv (double_of 1) (double_of 1000000000).

Class Platform := {
  pow10 : double -> double;            (** [std::pow(10.0, x)] *)
  log10 : double -> double;            (** [std::log10(x)] *)
  to_chars : double -> string;         (** [std::to_chars] of a finite value *)
  from_chars : string -> option double (** [std::from_chars] consuming the whole text *)
}.

(** The finite values of binary64. *)
Definition is_double (v : double) : Prop := isfinite v = true /\ valid_binary 53 1024 v = true.

(** What <charconv> documents: the text of a value reads back to it, and is
    made of digits, signs, a point and an exponent mark. *)
Class CharconvLaws `{Platform} : Prop := {
  from_to_chars v : is_double v -> from_chars (to_chars v) = Some v;
  to_chars_grammar v c : is_double v -> In c (chars (to_chars v)) ->
    is_digit c || Ascii.eqb c "." || Ascii.eqb c "-" || Ascii.eqb c "+" || Ascii.eqb c "e" || Ascii.eqb c "E" = true;
  to_chars_nonempty v : is_double v -> to_chars v <> "";
  to_chars_minus_zero : to_chars (S754_zero true) = "-0"
}.

(** ** The order of doubles *)

(** Position of a value on the line: comparable values compare by it. *)
Definition dkey (a : double) : Z * (Z * Z) :=
  match a with
  | S754_infinity true => (-2, (0, 0))
  | S754_finite true m e => (-1, (- e, - Zpos m))
  | S754_zero _ | S754_nan => (0, (0, 0))
  | S754_finite false m e => (1, (e, Zpos m))
  | S754_infinity false => (2, (0, 0))
  end.

Lemma SFcompare_key (a b : spec_float) :
  is_nan a = false -> is_nan b = false ->
  SFcompare a b =
  Some (if dkey a <o dkey b then Lt else if dkey b <o dkey a then Gt else Eq).
Proof.
  destruct a as [[]|[]| |[] ma ea], b as [[]|[]| |[] mb eb]; try done; intros _ _; cbn -[Z.opp];
    try change (Pos.compare_cont Eq ma mb) with (Pos.compare ma mb).
  all: destruct (Z.compare_spec ea eb) as [He|He|He]; [subst|..].
  all: try (destruct (Pos.compare_spec ma mb) as [Hm|Hm|Hm]; [subst|..]); simpl CompOpp.
  all: repeat match goal with
    | |- context [Z.ltb ?x ?y] => let E := fresh in destruct (Z.ltb_spec x y) as [E|E]; cbn -[Z.opp]
    end.
  all: try reflexivity.
  all: lia.
Qed.

Lemma dle_key a b : dle a b = true <-> is_nan a = false /\ is_nan b = false /\ (dkey b <o dkey a) = false.
Proof.
  unfold dle, SFleb. destruct (is_nan a) eqn:Ha; [destruct a; naive_solver|].
  destruct (is_nan b) eqn:Hb; [destruct a, b; naive_solver|].
  rewrite SFcompare_key by done.
  destruct (dkey a <o dkey b) eqn:E.
  - split; [|done]. intros _. eauto using ltb_asym.
  - destruct (dkey b <o dkey a); naive_solver.
Qed.

Lemma dgt_dle a b : is_nan a = false -> is_nan b = false -> dgt a b = negb (dle a b).
Proof.
  intros Ha Hb. unfold dgt, SFltb, dle, SFleb. rewrite !SFcompare_key by done.
  destruct (dkey a <o dkey b) eqn:E1.
  - by rewrite (ltb_asym _ _ E1).
  - by destruct (dkey b <o dkey a).
Qed.

Lemma dle_refl a : is_nan a = false -> dle a a = true.
Proof. intros Ha. apply dle_key. by rewrite ltb_irrefl. Qed.

Lemma dle_trans a b c : dle a b = true -> dle b c = true -> dle a c = true.
Proof. rewrite !dle_key. intros (?&?&?) (?&?&?). repeat split; [done..|]. eauto using ltb_ge_trans. Qed.

(** ** An executable platform

    Powers and logarithms are exact at the integer decades and rounded to
    them elsewhere; the decimal text is the triple (sign, mantissa, exponent).
    It serves the witnesses, which need some concrete functions. *)

Definition decade (k : Z) : double :=
  if 0 <=? k then double_of (10 ^ k) else ddiv (double_of 1) (double_of (10 ^ (- k))).

(** Largest decade below a value, searched among the exponents of the range. *)
Fixpoint decade_below (fuel : nat) (k : Z) (v : double) : Z :=
  match fuel with
  | O => k
  | S f => if dle (decade k) v then k else decade_below f (k - 1) v
  end.

Fixpoint integer_below (fuel : nat) (k : Z) (v : double) : Z :=
  match fuel with
  | O => k
  | S f => if dle (double_of k) v then k else integer_below f (k - 1) v
  end.

Definition double_text (v : double) : string :=
  match v with
  | S754_zero false => "0"
  | S754_zero true => "-0"
  | S754_infinity s => if s then "-inf" else "inf"
  | S754_nan => "nan"
  | S754_finite s m e =>
      (if s then "-" else "") +:+ to_string (Zpos m) +:+
      (if e <? 0 then "e-" +:+ to_string (- e) else "e+" +:+ to_string e)
  end.

Definition double_read (t : string) : option double :=
  let '(s, rest) := match t with
                    | String c r => if Ascii.eqb c "-" then (true, r) else (false, t)
                    | EmptyString => (false, t)
                    end in
  match split_at "e"%char rest with
  | Some (m, String sign e) =>
      match decimal_value m with
      | Zpos p => Some (S754_finite s p (if Ascii.eqb sign "-" then - decimal_value e else decimal_value e))
      | _ => None
      end
  | _ => if bool_decide (rest = "0") then Some (S754_zero s) else None
  end.

#[export] Instance reference_platform : Platform := {|
  pow10 x := decade (integer_below 60 30 x);
  log10 x := double_of (decade_below 60 30 x);
  to_chars := double_text;
  from_chars := double_read
|}.

(** ** The executable platform keeps the laws of <charconv> *)

Lemma digits_bound p : Zpos p < 2 ^ Zpos (digits2_pos p).
Proof.
  induction p as [p IH|p IH|]; cbn [digits2_pos]; [..|reflexivity];
    rewrite Pos2Z.inj_succ, Z.pow_succ_r by lia; lia.
Qed.

Lemma double_bounds s m e :
  valid_binary 53 1024 (S754_finite s m e) = true -> in_width 64 (Zpos m) /\ -1074 <= e <= 971.
Proof.
  unfold valid_binary, bounded, canonical_mantissa, fexp, SpecFloat.emin. intros [Hc He]%andb_true_iff.
  apply Zeq_bool_eq in Hc. apply Z.leb_le in He. pose proof (digits_bound m) as Hd.
  assert (Zpos (digits2_pos m) <= 53) as Hle by lia. split; [|lia].
  unfold in_width. assert (2 ^ Zpos (digits2_pos m) <= 2 ^ 53) by (apply Z.pow_le_mono_r; lia). lia.
Qed.

Lemma digits_not (n : Z) c : 0 <= n -> is_digit c = false -> ~ In c (chars (to_string n)).
Proof. intros Hn Hc Hin. apply to_string_digits in Hin; [|done]. congruence. Qed.

Lemma to_string_head n : 0 <= n -> exists c t, to_string n = String c t /\ is_digit c = true.
Proof.
  intros Hn. destruct (to_string n) as [|c t] eqn:E; [by apply to_string_nonempty in E|].
  exists c, t. split; [done|]. apply (to_string_digits n Hn). rewrite E. by left.
Qed.

Lemma read_finite s m e :
  valid_binary 53 1024 (S754_finite s m e) = true ->
  double_read (double_text (S754_finite s m e)) = Some (S754_finite s m e).
Proof.
  intros Hv. destruct (double_bounds _ _ _ Hv) as [Hm He].
  set (tail := if e <? 0 then "e-" +:+ to_string (- e) else "e+" +:+ to_string e).
  assert (forall rest : string, rest = to_string (Zpos m) +:+ tail ->
    match split_at "e"%char rest with
    | Some (m', String sign e') =>
        match decimal_value m' with
        | Zpos p => Some (S754_finite s p (if Ascii.eqb sign "-" then - decimal_value e' else decimal_value e'))
        | _ => None
        end
    | _ => if bool_decide (rest = "0") then Some (S754_zero s) else None
    end = Some (S754_finite s m e)) as Hread.
  { intros rest ->. unfold tail.
    change ("e-" +:+ ?x) with (String "e"%char (String "-"%char x)).
    change ("e+" +:+ ?x) with (String "e"%char (String "+"%char x)).
    destruct (Z.ltb_spec e 0); rewrite split_at_app by (by apply digits_not);
      rewrite !decimal_value_to_string by (done || unfold in_width; lia); cbn; by rewrite ?Z.opp_involutive. }
  destruct (to_string_head (Zpos m)) as (c & t & Hc & Hdigit); [done|].
  unfold double_text, double_read. fold tail. destruct s.
  - change ("-" +:+ ?x) with (String "-"%char x). cbv iota beta. cbn [Ascii.eqb Bool.eqb]. by apply Hread.
  - change ("" +:+ ?x) with x. rewrite <- (Hread _ eq_refl) at 1. rewrite Hc.
    change (String c t +:+ ?x) with (String c (t +:+ x)). cbv iota beta.
    destruct (Ascii.eqb_spec c "-") as [->|]; done.
Qed.

Lemma double_text_chars v c :
  is_double v -> In c (chars (double_text v)) ->
  is_digit c = true \/ c = "-"%char \/ c = "+"%char \/ c = "e"%char.
Proof.
  intros [Hf Hv]. destruct v as [[]|[]| |s m e]; try done.
  - intros [<-|[<-|[]]]; tauto.
  - intros [<-|[]]; tauto.
  - destruct (double_bounds _ _ _ Hv) as [Hm He]. unfold double_text. rewrite !chars_app, !in_app_iff.
    intros [Hs|[Hd|Ht]].
    + destruct s; [destruct Hs as [<-|[]]; tauto|done].
    + left. by eapply (to_string_digits (Zpos m)).
    + destruct (Z.ltb_spec e 0); cbn [String.append] in Ht; destruct Ht as [<-|[<-|Ht]]; try tauto;
        left; revert Ht; apply to_string_digits; lia.
Qed.

#[export] Instance reference_laws : CharconvLaws (H := reference_platform).
Proof.
  split; cbn [to_chars from_chars reference_platform].
  - intros v [Hf Hv]. destruct v as [[]|[]| |s m e]; try done. by apply read_finite.
  - intros v c Hv [Hd|[->|[->| ->]]]%double_text_chars; [by rewrite Hd|done..|done].
  - intros v [Hf Hv]. destruct v as [[]|[]| |[] m e]; try done.
    unfold double_text. by destruct (to_string_head (Zpos m)) as (c & t & -> & _).
  - done.
Qed.
