(* ===== verification/Rounding.v ===== *)
(** * Rounding: how large a sum or a product of doubles can be

    Arithmetic on doubles rounds, so a bound on a computed value needs a bound
    on the rounding.  [small k v] says that a non-negative double is below
    [2 ^ k]; conversion from an integer, addition, multiplication and division
    by a larger number keep it, at the cost of one more bit each.  The second
    half is sharper: what needs no more than 53 bits is exact, rounding does not
    cross a double, and a sum is the double [nearest] to the exact one.  The
    generator of synthetic networks computes losses and signal-to-noise ratios;
    its snapshots are accepted only when those stay below a million, and they lie
    in the ranges they are drawn from. *)

From Stdlib Require Import SpecFloat.
From S2P Require Import Prelude Status Doubles.

(** A non-negative value below [2 ^ k]: the exponent of a full mantissa says so. *)
Definition small (k : Z) (v : double) : Prop :=
  match v with
  | S754_zero s => s = false
  | S754_finite s m e => s = false /\ Zpos m < 2 ^ 53 /\ e <= k - 53
  | _ => False
  end.

(** ** Lemmas: shifting a mantissa to the right *)

Lemma shr_1_m mrs : 0 <= shr_m mrs -> shr_m (shr_1 mrs) = shr_m mrs / 2.
Proof.
  destruct mrs as [m r s]; simpl. intros Hm. destruct m as [|[p|p|]|p]; try done; simpl.
  - rewrite (Pos2Z.inj_xI p). apply (Z.div_unique _ 2 _ 1); lia.
  - rewrite (Pos2Z.inj_xO p). apply (Z.div_unique _ 2 _ 0); lia.
Qed.

Lemma iter_shr_m p mrs : 0 <= shr_m mrs -> shr_m (SpecFloat.iter_pos shr_1 p mrs) = shr_m mrs / 2 ^ Zpos p.
Proof.
  assert (forall a n, 0 <= n -> 0 <= a -> 0 <= a / 2 ^ n) as Hpos
    by (intros; apply Z.div_pos; [done|by apply Z.pow_pos_nonneg]).
  revert mrs; induction p as [p IH|p IH|]; intros mrs Hm; simpl SpecFloat.iter_pos.
  - assert (0 <= shr_m (shr_1 mrs)) as H1 by (rewrite shr_1_m by done; by apply Z.div_pos).
    rewrite IH by (rewrite IH by done; by apply Hpos). rewrite IH, shr_1_m by done.
    rewrite (Pos2Z.inj_xI p). replace (2 * Zpos p + 1) with (1 + (Zpos p + Zpos p)) by lia.
    rewrite !Z.pow_add_r by lia. assert (0 < 2 ^ Zpos p) by (by apply Z.pow_pos_nonneg).
    rewrite !Z.div_div by lia. f_equal; lia.
  - rewrite IH by (rewrite IH by done; by apply Hpos). rewrite IH by done.
    rewrite (Pos2Z.inj_xO p). replace (2 * Zpos p) with (Zpos p + Zpos p) by lia.
    rewrite Z.pow_add_r by lia. assert (0 < 2 ^ Zpos p) by (by apply Z.pow_pos_nonneg).
    by rewrite Z.div_div by lia.
  - rewrite shr_1_m by done. done.
Qed.

Lemma shr_spec mrs e n :
  0 <= shr_m mrs ->
  shr_m (fst (shr mrs e n)) = shr_m mrs / 2 ^ Z.max 0 n /\ snd (shr mrs e n) = e + Z.max 0 n.
Proof.
  intros Hm. destruct n as [|p|p]; simpl; rewrite ?Z.div_1_r; [split; [done|lia]| |split; [done|lia]].
  rewrite iter_shr_m by done. split; done.
Qed.

Lemma digits_upper m : 0 <= m -> m < 2 ^ Zdigits2 m.
Proof. destruct m as [|p|p]; simpl; intros; [lia|apply digits_bound|lia]. Qed.

Lemma digits_lower p : 2 ^ (Zpos (digits2_pos p) - 1) <= Zpos p.
Proof.
  induction p as [p IH|p IH|]; cbn [digits2_pos]; [..|done];
    rewrite Pos2Z.inj_succ; replace (Z.succ (Zpos (digits2_pos p)) - 1) with (Z.succ (Zpos (digits2_pos p) - 1)) by lia;
    rewrite Z.pow_succ_r by lia; lia.
Qed.

Lemma digits_le m a : 0 <= m -> 0 <= a -> m < 2 ^ a -> Zdigits2 m <= a.
Proof.
  intros Hm Ha Hlt. destruct m as [|p|p]; simpl; [lia| |lia].
  pose proof (digits_lower p) as Hl. destruct (Z.le_gt_cases (Zpos (digits2_pos p)) a) as [|Hgt]; [done|].
  assert (2 ^ a <= 2 ^ (Zpos (digits2_pos p) - 1)) by (apply Z.pow_le_mono_r; lia). lia.
Qed.

(** One [shr_fexp]: the mantissa fits 53 bits afterwards, and the exponent is
    the old one or the least that makes it fit. *)
Lemma shr_fexp_spec m e l :
  0 <= m ->
  let mrs := fst (shr_fexp 53 1024 m e l) in
  let e' := snd (shr_fexp 53 1024 m e l) in
  0 <= shr_m mrs < 2 ^ 53 /\ e' = Z.max e (fexp 53 1024 (Zdigits2 m + e)) /\ shr_m mrs = m / 2 ^ (e' - e).
Proof.
  intros Hm. cbv zeta. unfold shr_fexp. set (n := fexp 53 1024 (Zdigits2 m + e) - e).
  assert (shr_m (shr_record_of_loc m l) = m) as Em by (by destruct l as [|[]]).
  destruct (shr_spec (shr_record_of_loc m l) e n) as [E1 E2]; [by rewrite Em|]. rewrite E1, E2, Em.
  assert (0 < 2 ^ Z.max 0 n) as Hp by (apply Z.pow_pos_nonneg; lia).
  split; [|split; [unfold n; lia|f_equal; f_equal; lia]]. split; [by apply Z.div_pos|].
  apply Z.div_lt_upper_bound; [done|]. rewrite <- Z.pow_add_r by lia.
  pose proof (digits_upper m Hm) as Hd. eapply Z.lt_le_trans; [exact Hd|]. apply Z.pow_le_mono_r; [done|].
  unfold n, fexp. lia.
Qed.

(** Rounding a mantissa below [2 ^ d] at exponent [e]. *)
Lemma round_small m e d k :
  Zpos m < 2 ^ d -> 0 <= d -> d + e <= k -> e <= k - 53 -> -1021 <= k <= 900 ->
  small (k + 1) (binary_round_aux 53 1024 false (Zpos m) e loc_Exact).
Proof.
  intros Hm Hd Hk He Hr. unfold binary_round_aux.
  pose proof (shr_fexp_spec (Zpos m) e loc_Exact ltac:(lia)) as (H1 & H2 & H3).
  destruct (shr_fexp 53 1024 (Zpos m) e loc_Exact) as [mrs e1]; cbn [fst snd] in *.
  set (r := round_nearest_even (shr_m mrs) (loc_of_shr_record mrs)).
  assert (shr_m mrs <= r <= shr_m mrs + 1) as Hround
    by (unfold r, round_nearest_even; repeat case_goal; lia).
  pose proof (shr_fexp_spec r e1 loc_Exact ltac:(lia)) as (H4 & H5 & _).
  destruct (shr_fexp 53 1024 r e1 loc_Exact) as [mrs2 e2]; cbn [fst snd] in *.
  assert (Zdigits2 (Zpos m) <= d) as Hdm by (by apply digits_le).
  assert (e1 <= k - 53) as He1 by (unfold fexp, SpecFloat.emin in H2; lia).
  assert (Zdigits2 r + e1 <= k + 1) as Hdr.
  { destruct (Z.le_gt_cases (Zdigits2 (Zpos m)) (e1 - e)) as [Hc|Hc].
    - assert (shr_m mrs = 0) as E0.
      { rewrite H3. apply Z.div_small. split; [lia|]. eapply Z.lt_le_trans; [apply digits_upper; lia|].
        apply Z.pow_le_mono_r; lia. }
      assert (Zdigits2 r <= 1) by (apply digits_le; [lia..|]; change (2 ^ 1) with 2; lia). lia.
    - assert (Zdigits2 r <= Zdigits2 (Zpos m) - (e1 - e) + 1) as Hle; [|lia].
      apply digits_le; [lia..|]. 
      assert (shr_m mrs < 2 ^ (Zdigits2 (Zpos m) - (e1 - e))) as Hb.
      { rewrite H3. apply Z.div_lt_upper_bound; [apply Z.pow_pos_nonneg; lia|].
        rewrite <- Z.pow_add_r by lia. replace (e1 - e + (Zdigits2 (Zpos m) - (e1 - e))) with (Zdigits2 (Zpos m)) by lia.
        apply digits_upper. lia. }
      rewrite Z.pow_add_r by lia. change (2 ^ 1) with 2. lia. }
  assert (e2 <= k - 52) as He2 by (unfold fexp, SpecFloat.emin in H5; lia).
  destruct (shr_m mrs2) as [|p|p]; [done| |lia].
  rewrite (proj2 (Z.leb_le _ _)) by lia. simpl. lia.
Qed.

Lemma shl_align_spec m e e' :
  Zpos (fst (shl_align m e e')) = Zpos m * 2 ^ (e - snd (shl_align m e e')) /\ snd (shl_align m e e') = Z.min e e'.
Proof.
  unfold shl_align. destruct (e' - e) as [|d|d] eqn:E; cbn [fst snd].
  - split; [|lia]. rewrite Z.sub_diag. lia.
  - split; [|lia]. rewrite Z.sub_diag. lia.
  - split; [|lia]. replace (e - e') with (Zpos d) by lia.
    clear E. induction d as [|d IH] using Pos.peano_ind; [simpl; lia|].
    rewrite Pos.iter_succ, Pos2Z.inj_succ, Z.pow_succ_r, Pos2Z.inj_xO by lia. lia.
Qed.

(** Normalising an integer below [2 ^ d] at exponent [e]. *)
Lemma normalize_small m e d k :
  0 <= m < 2 ^ d -> 0 <= d -> d + e <= k -> -1021 <= k <= 900 ->
  small (k + 1) (binary_normalize 53 1024 m e false).
Proof.
  intros Hm Hd Hk Hr. destruct m as [|m|m]; [done| |lia]. simpl. unfold binary_round.
  destruct (shl_align_spec m e (fexp 53 1024 (Zpos (digits2_pos m) + e))) as [E1 E2].
  destruct (shl_align _ _ _) as [mz ez]; cbn [fst snd] in *.
  assert (Zpos (digits2_pos m) <= d) as Hdm by (apply (digits_le (Zpos m)); lia).
  apply (round_small _ _ (d + (e - ez))); [|lia..| |lia].
  - rewrite E1, Z.pow_add_r by lia. apply Z.mul_lt_mono_pos_r; [apply Z.pow_pos_nonneg; lia|lia].
  - unfold fexp, SpecFloat.emin in E2. lia.
Qed.

(** ** Lemmas: the operations *)

Lemma double_of_small n k : 0 <= n < 2 ^ k -> 0 <= k <= 900 -> small (k + 1) (double_of n).
Proof. intros Hn Hk. unfold double_of. apply (normalize_small n 0 k k); lia. Qed.

Lemma dmul_small a b i j : small i a -> small j b -> -1021 <= i + j <= 900 -> small (i + j + 1) (dmul a b).
Proof.
  intros Ha Hb Hr. destruct a as [[]|[]| |[] ma ea], b as [[]|[]| |[] mb eb]; try done; try (by destruct Ha); try (by destruct Hb).
  destruct Ha as (_ & Hma & Hea), Hb as (_ & Hmb & Heb). simpl.
  apply (round_small _ _ 106); [|lia..]. rewrite Pos2Z.inj_mul. change (2 ^ 106) with (2 ^ 53 * 2 ^ 53).
  apply Z.mul_lt_mono_nonneg; lia.
Qed.

Lemma small_le i j v : small i v -> i <= j -> small j v.
Proof. destruct v as [s| | |s m e]; simpl; try done. intros (-> & ? & ?) ?. split; [done|]. lia. Qed.

Lemma dadd_small a b k : small k a -> small k b -> -1020 <= k <= 899 -> small (k + 2) (dadd a b).
Proof.
  intros Ha Hb Hr. destruct a as [[]|[]| |[] ma ea], b as [[]|[]| |[] mb eb]; try done; try (by destruct Ha); try (by destruct Hb).
  - apply (small_le k); [done|lia].
  - apply (small_le k); [done|lia].
  - destruct Ha as (_ & Hma & Hea), Hb as (_ & Hmb & Heb). unfold dadd, SFadd, cond_Zopp.
    destruct (shl_align_spec ma ea (Z.min ea eb)) as [A1 A2], (shl_align_spec mb eb (Z.min ea eb)) as [B1 B2].
    set (ez := Z.min ea eb) in *. rewrite A1, B1, A2, B2. rewrite !Z.min_r by lia.
    replace (k + 2) with (k + 1 + 1) by lia. apply (normalize_small _ _ (k - ez + 1)); [|lia..].
    assert (forall m e, Zpos m < 2 ^ 53 -> ez <= e -> e <= k - 53 -> 0 < Zpos m * 2 ^ (e - ez) < 2 ^ (k - ez)) as Hone.
    { intros m e Hm He He'. assert (0 < 2 ^ (e - ez)) by (apply Z.pow_pos_nonneg; lia). split; [nia|].
      eapply Z.lt_le_trans; [apply Z.mul_lt_mono_pos_r; [done|exact Hm]|]. rewrite <- Z.pow_add_r by lia.
      apply Z.pow_le_mono_r; lia. }
    pose proof (Hone ma ea Hma ltac:(lia) ltac:(lia)). pose proof (Hone mb eb Hmb ltac:(lia) ltac:(lia)).
    rewrite Z.pow_add_r by lia. change (2 ^ 1) with 2. lia.
Qed.

(** A value below [2 ^ 19] passes the builder's range check. *)
Lemma small_range v : small 19 v -> (negb (isfinite v) || dlt v d0 || dgt v d1e6)%bool = false.
Proof.
  destruct v as [[]|[]| |[] m e]; simpl; try done; try (by intros []). intros (_ & _ & He).
  change (dlt (S754_finite false m e) d0) with false. unfold dgt, SFltb.
  change d1e6 with (S754_finite false 8589934592000000 (-33)). cbn -[Z.compare].
  rewrite (proj2 (Z.compare_gt_iff (-33) e)) by lia. done.
Qed.

(** ** Lemmas: exact results, and bounds by a double

    A mantissa that is a multiple of the bits it loses is rounded to itself, and
    rounding does not cross a double: what is at least a double rounds to at
    least it, what is below one rounds to at most it. *)

Lemma shr_1_exact m : 0 <= m -> shr_1 (Build_shr_record (2 * m) false false) = Build_shr_record m false false.
Proof. by destruct m. Qed.

Lemma iter_shr_exact p m :
  0 <= m ->
  SpecFloat.iter_pos shr_1 p (Build_shr_record (m * 2 ^ Zpos p) false false) = Build_shr_record m false false.
Proof.
  revert m; induction p as [p IH|p IH|]; intros m Hm; cbn [SpecFloat.iter_pos].
  - rewrite (Pos2Z.inj_xI p). replace (2 * Zpos p + 1) with (1 + (Zpos p + Zpos p)) by lia.
    assert (0 < 2 ^ Zpos p) by (by apply Z.pow_pos_nonneg). rewrite !Z.pow_add_r by lia. change (2 ^ 1) with 2.
    replace (m * (2 * (2 ^ Zpos p * 2 ^ Zpos p))) with (2 * (m * 2 ^ Zpos p * 2 ^ Zpos p)) by lia.
    rewrite shr_1_exact by nia. rewrite IH by nia. by apply IH.
  - rewrite (Pos2Z.inj_xO p). replace (2 * Zpos p) with (Zpos p + Zpos p) by lia.
    assert (0 < 2 ^ Zpos p) by (by apply Z.pow_pos_nonneg). rewrite Z.pow_add_r, Z.mul_assoc by lia.
    rewrite IH by nia. by apply IH.
  - change (2 ^ 1) with 2. rewrite Z.mul_comm. by apply shr_1_exact.
Qed.

Lemma shr_exact m e n :
  0 <= m -> 0 <= n -> shr (Build_shr_record (m * 2 ^ n) false false) e n = (Build_shr_record m false false, e + n).
Proof.
  intros Hm Hn. destruct n as [|p|p]; [|simpl; by rewrite iter_shr_exact|lia].
  change (2 ^ 0) with 1. rewrite Z.mul_1_r, Z.add_0_r. done.
Qed.

(** A normal mantissa: 53 bits. *)
Definition normal (m : positive) : Prop := 2 ^ 52 <= Zpos m < 2 ^ 53.

Lemma normal_digits m : normal m -> Zdigits2 (Zpos m) = 53.
Proof.
  intros [Hl Hu]. apply Z.le_antisymm; [apply digits_le; lia|].
  destruct (Z.le_gt_cases 53 (Zdigits2 (Zpos m))) as [|Hlt]; [done|].
  pose proof (digits_upper (Zpos m) ltac:(lia)). assert (2 ^ Zdigits2 (Zpos m) <= 2 ^ 52) by (apply Z.pow_le_mono_r; lia). lia.
Qed.

Lemma digits_scaled m k : 0 < m -> 0 <= k -> Zdigits2 (m * 2 ^ k) = Zdigits2 m + k.
Proof.
  intros Hm Hk. assert (0 < 2 ^ k) as Hp by (by apply Z.pow_pos_nonneg).
  assert (forall a, 0 < a -> 0 < Zdigits2 a /\ 2 ^ (Zdigits2 a - 1) <= a) as Hlow.
  { intros [|a|a] Ha; try lia. split; [done|]. apply digits_lower. }
  destruct (Hlow m Hm) as [Hd1 Hd2], (Hlow (m * 2 ^ k) ltac:(nia)) as [Hd3 Hd4].
  apply Z.le_antisymm.
  - apply digits_le; [nia|lia|]. rewrite Z.pow_add_r by lia. pose proof (digits_upper m ltac:(lia)). nia.
  - destruct (Z.le_gt_cases (Zdigits2 m + k) (Zdigits2 (m * 2 ^ k))) as [|Hlt]; [done|].
    pose proof (digits_upper (m * 2 ^ k) ltac:(nia)) as Hu.
    assert (2 ^ Zdigits2 (m * 2 ^ k) <= 2 ^ (Zdigits2 m - 1 + k)) by (apply Z.pow_le_mono_r; lia).
    rewrite Z.pow_add_r in * by lia. nia.
Qed.

Lemma round_exact p m e k :
  normal m -> 0 <= k -> Zpos p = Zpos m * 2 ^ k -> -1074 <= e + k <= 900 ->
  binary_round_aux 53 1024 false (Zpos p) e loc_Exact = S754_finite false m (e + k).
Proof.
  intros Hm Hk -> He. pose proof (normal_digits m Hm) as Hd. unfold binary_round_aux, shr_fexp.
  assert (forall c, -1074 <= c -> fexp 53 1024 (53 + c) = c) as Hf by (unfold fexp, SpecFloat.emin; lia).
  rewrite digits_scaled, Hd by lia. replace (53 + k + e) with (53 + (e + k)) by lia. rewrite Hf by lia.
  replace (e + k - e) with k by lia. cbn [shr_record_of_loc]. rewrite shr_exact by lia. cbn [shr_m loc_of_shr_record].
  change (round_nearest_even (Zpos m) loc_Exact) with (Zpos m). rewrite Hd, Hf, Z.sub_diag by lia.
  cbn [shr shr_m]. cbv beta iota zeta. cbn [shr_m]. by rewrite (proj2 (Z.leb_le _ _)) by lia.
Qed.

Lemma dle_finite m e m' e' :
  e < e' \/ (e = e' /\ Zpos m <= Zpos m') -> dle (S754_finite false m e) (S754_finite false m' e') = true.
Proof.
  intros Hlt. unfold dle, SFleb. cbn -[Z.compare Pos.compare]. destruct (Z.compare_spec e e') as [->|H|H]; [|done|lia].
  change (Pos.compare_cont Eq m m') with (Pos.compare m m'). destruct (Pos.compare_spec m m'); try done. lia.
Qed.

(** One rounding: the quotient or one more, at the exponent of the bits lost;
    one more can fill a 54th bit. *)
Lemma round_shape p e :
  -1074 <= e -> Zdigits2 (Zpos p) + e <= 900 ->
  let e1 := Z.max e (Zdigits2 (Zpos p) + e - 53) in
  exists r, Zpos p / 2 ^ (e1 - e) <= r <= Zpos p / 2 ^ (e1 - e) + 1 /\
    binary_round_aux 53 1024 false (Zpos p) e loc_Exact =
    match r with
    | Zpos m => if r =? 2 ^ 53 then S754_finite false (2 ^ 52) (e1 + 1) else S754_finite false m e1
    | _ => S754_zero false
    end.
Proof.
  intros He Hd. cbv zeta. unfold binary_round_aux. assert (0 < Zdigits2 (Zpos p)) as Hpos by done.
  pose proof (shr_fexp_spec (Zpos p) e loc_Exact ltac:(lia)) as (H1 & H2 & H3).
  destruct (shr_fexp 53 1024 (Zpos p) e loc_Exact) as [mrs e1]; cbn [fst snd] in *.
  assert (e1 = Z.max e (Zdigits2 (Zpos p) + e - 53)) as -> by (unfold fexp, SpecFloat.emin in H2; lia).
  set (e1 := Z.max e (Zdigits2 (Zpos p) + e - 53)) in *.
  set (r := round_nearest_even (shr_m mrs) (loc_of_shr_record mrs)).
  assert (shr_m mrs <= r <= shr_m mrs + 1) as Hround
    by (unfold r, round_nearest_even; repeat case_goal; lia).
  exists r. split; [by rewrite <- H3|].
  pose proof (shr_fexp_spec r e1 loc_Exact ltac:(lia)) as (_ & H5 & H6).
  destruct (shr_fexp 53 1024 r e1 loc_Exact) as [mrs2 e2]; cbn [fst snd] in *.
  destruct (Z.eqb_spec r (2 ^ 53)) as [E|Hne].
  - rewrite E in *. change (Zdigits2 (2 ^ 53)) with 54 in H5.
    assert (e2 = e1 + 1) as -> by (unfold fexp, SpecFloat.emin in H5; lia).
    replace (e1 + 1 - e1) with 1 in H6 by lia. rewrite H6. change (2 ^ 53 / 2 ^ 1) with (Zpos (2 ^ 52)). cbv iota beta.
    by rewrite (proj2 (Z.leb_le _ _)) by lia.
  - assert (Zdigits2 r <= 53) as Hr by (apply digits_le; lia).
    assert (e2 = e1) as -> by (unfold fexp, SpecFloat.emin in H5; lia).
    rewrite Z.sub_diag, Z.div_1_r in H6. rewrite H6. destruct r as [|m|m]; [done| |lia].
    by rewrite (proj2 (Z.leb_le _ _)) by lia.
Qed.

Section bounds.
Context (p : positive) (e : Z).
Context (He : -1074 <= e) (Hd : Zdigits2 (Zpos p) + e <= 900).

Lemma round_at_least m e' :
  normal m -> e <= e' -> Zpos m * 2 ^ (e' - e) <= Zpos p ->
  dle (S754_finite false m e') (binary_round_aux 53 1024 false (Zpos p) e loc_Exact) = true.
Proof.
  intros [Hl Hu] Hle Hm. destruct (round_shape p e He Hd) as (r & Hr & ->).
  set (e1 := Z.max e (Zdigits2 (Zpos p) + e - 53)) in *.
  assert (e' <= e1) as Hee.
  { destruct (Z.le_gt_cases e' e1) as [|Hgt]; [done|]. pose proof (digits_upper (Zpos p) ltac:(lia)) as Hp.
    assert (2 ^ Zdigits2 (Zpos p) <= 2 ^ (52 + (e' - e))) by (apply Z.pow_le_mono_r; lia).
    rewrite Z.pow_add_r in * by lia. assert (0 < 2 ^ (e' - e)) by (apply Z.pow_pos_nonneg; lia). nia. }
  assert (e' = e1 -> Zpos m <= r) as Hmr.
  { intros <-. assert (Zpos m <= Zpos p / 2 ^ (e' - e)); [|lia].
    apply Z.div_le_lower_bound; [apply Z.pow_pos_nonneg; lia|lia]. }
  assert (0 < r) as Hpos.
  { destruct (Z.eq_dec e' e1) as [E|]; [specialize (Hmr E); lia|].
    assert (0 < Zpos p / 2 ^ (e1 - e)); [|lia]. apply Z.div_str_pos. split; [apply Z.pow_pos_nonneg; lia|].
    assert (2 ^ (e1 - e) <= 2 ^ (Zdigits2 (Zpos p) - 1)) by (apply Z.pow_le_mono_r; lia).
    pose proof (digits_lower p). cbn [Zdigits2] in *. lia. }
  destruct r as [|r|r]; try lia. destruct (Z.eqb_spec (Zpos r) (2 ^ 53)) as [E|Hne]; apply dle_finite; [lia|].
  destruct (Z.eq_dec e' e1) as [E|]; [right; auto|lia].
Qed.

Lemma round_at_most m e' :
  normal m -> e <= e' -> Zpos p < Zpos m * 2 ^ (e' - e) ->
  dle (binary_round_aux 53 1024 false (Zpos p) e loc_Exact) (S754_finite false m e') = true.
Proof.
  intros [Hl Hu] Hle Hm. destruct (round_shape p e He Hd) as (r & Hr & ->).
  set (e1 := Z.max e (Zdigits2 (Zpos p) + e - 53)) in *.
  assert (0 < 2 ^ (e' - e)) as Hp by (apply Z.pow_pos_nonneg; lia).
  assert (e1 <= e') as Hee.
  { assert (Zdigits2 (Zpos p) <= 53 + (e' - e)); [|lia]. apply digits_le; [lia..|]. rewrite Z.pow_add_r by lia. nia. }
  assert (e1 = e' -> r <= Zpos m) as Hmr.
  { intros E. rewrite E in Hr. assert (Zpos p / 2 ^ (e' - e) < Zpos m); [|lia].
    apply Z.div_lt_upper_bound; lia. }
  assert (0 <= Zpos p / 2 ^ (e1 - e)) by (apply Z.div_pos; [lia|apply Z.pow_pos_nonneg; lia]).
  destruct r as [|r|r]; try lia; [done|]. destruct (Z.eqb_spec (Zpos r) (2 ^ 53)) as [E|Hne]; apply dle_finite.
  - destruct (Z.eq_dec e1 e') as [E1|]; [specialize (Hmr E1); lia|]. destruct (Z.eq_dec (e1 + 1) e'); [right|left]; lia.
  - destruct (Z.eq_dec e1 e') as [E1|]; [right; auto|lia].
Qed.
End bounds.

(** ** Lemmas: integers, powers of two and sums *)

Lemma digits_range n : 0 < n < 2 ^ 53 -> 0 < Zdigits2 n <= 53.
Proof. intros [Hn Hb]. split; [by destruct n|]. apply digits_le; lia. Qed.

Lemma double_of_normal n :
  0 < n < 2 ^ 53 ->
  exists m, normal m /\ double_of n = S754_finite false m (Zdigits2 n - 53) /\ Zpos m = n * 2 ^ (53 - Zdigits2 n).
Proof.
  intros [Hn Hb]. assert (0 < Zdigits2 n <= 53) as Hd by (by apply digits_range).
  assert (2 ^ 52 <= n * 2 ^ (53 - Zdigits2 n) < 2 ^ 53) as Hm.
  { assert (2 ^ (Zdigits2 n - 1) <= n) as Hl by (destruct n; try lia; apply digits_lower).
    pose proof (digits_upper n ltac:(lia)) as Hu. assert (0 < 2 ^ (53 - Zdigits2 n)) by (apply Z.pow_pos_nonneg; lia).
    replace (2 ^ 52) with (2 ^ (Zdigits2 n - 1) * 2 ^ (53 - Zdigits2 n)) by (rewrite <- Z.pow_add_r by lia; f_equal; lia).
    replace (2 ^ 53) with (2 ^ Zdigits2 n * 2 ^ (53 - Zdigits2 n)) by (rewrite <- Z.pow_add_r by lia; f_equal; lia). nia. }
  destruct (n * 2 ^ (53 - Zdigits2 n)) as [|m|m] eqn:Em; try lia. exists m. split; [exact Hm|]. split; [|done].
  destruct n as [|n|n]; try lia. unfold double_of, binary_normalize, binary_round.
  pose proof (shl_align_spec n 0 (fexp 53 1024 (Zpos (digits2_pos n) + 0))) as [E1 E2].
  destruct (shl_align _ _ _) as [mz ez]; cbn [fst snd] in *. cbn [Zdigits2] in *.
  assert (ez = Zpos (digits2_pos n) - 53) as -> by (unfold fexp, SpecFloat.emin in E2; lia).
  replace (0 - (Zpos (digits2_pos n) - 53)) with (53 - Zpos (digits2_pos n)) in E1 by lia. rewrite Em in E1.
  injection E1 as ->. rewrite (round_exact _ m _ 0); [f_equal; lia|exact Hm|lia|lia|lia].
Qed.

(** A power of two only moves the exponent. *)
Lemma dmul_power m e e' :
  normal m -> -1074 <= e + e' -> e + e' + 52 <= 900 ->
  dmul (S754_finite false m e) (S754_finite false (2 ^ 52) e') = S754_finite false m (e + e' + 52).
Proof. intros Hm H1 H2. simpl. rewrite (round_exact _ m _ 52); [done|done|lia|lia|lia]. Qed.

(** The product of an integer and a double, against a double. *)
Lemma dmul_integer n c ec :
  0 < n < 2 ^ 53 -> normal c -> -900 <= ec <= 0 ->
  exists p, Zpos p = n * Zpos c * 2 ^ (53 - Zdigits2 n) /\ -1074 <= Zdigits2 n - 53 + ec /\ Zdigits2 (Zpos p) + (Zdigits2 n - 53 + ec) <= 900 /\
    dmul (double_of n) (S754_finite false c ec) =
    binary_round_aux 53 1024 false (Zpos p) (Zdigits2 n - 53 + ec) loc_Exact.
Proof.
  intros Hn Hc He. destruct (double_of_normal n Hn) as (m & Hm & -> & Em). exists (m * c)%positive.
  assert (0 < Zdigits2 n <= 53) as Hd by (by apply digits_range).
  split; [rewrite Pos2Z.inj_mul; lia|]. split; [lia|]. split; [|done].
  assert (Zdigits2 (Zpos (m * c)) <= 106); [|lia]. apply digits_le; [lia..|]. rewrite Pos2Z.inj_mul.
  unfold normal in *. change (2 ^ 106) with (2 ^ 53 * 2 ^ 53). apply Z.mul_lt_mono_nonneg; lia.
Qed.

Lemma dmul_integer_between n c ec m e m' e' :
  0 < n < 2 ^ 53 -> normal c -> -900 <= ec -> normal m -> normal m' -> ec <= e <= 0 -> ec <= e' <= 0 ->
  Zpos m * 2 ^ (e - ec) <= n * Zpos c < Zpos m' * 2 ^ (e' - ec) ->
  dle (S754_finite false m e) (dmul (double_of n) (S754_finite false c ec)) = true /\
  dle (dmul (double_of n) (S754_finite false c ec)) (S754_finite false m' e') = true.
Proof.
  intros Hn Hc Hec Hm Hm' He He' [H1 H2]. destruct (dmul_integer n c ec Hn Hc ltac:(lia)) as (p & Ep & B1 & B2 & ->).
  assert (0 < Zdigits2 n <= 53) as Hd by (by apply digits_range).
  assert (0 < 2 ^ (53 - Zdigits2 n)) by (apply Z.pow_pos_nonneg; lia).
  assert (forall x, ec <= x -> 2 ^ (x - (Zdigits2 n - 53 + ec)) = 2 ^ (x - ec) * 2 ^ (53 - Zdigits2 n)) as Hx
    by (intros; rewrite <- Z.pow_add_r by lia; f_equal; lia).
  split; [apply round_at_least|apply round_at_most]; try done; try lia; rewrite Hx, Ep by lia; nia.
Qed.

(** The double nearest to an integer times a power of two. *)
Definition nearest (n e : Z) : double := binary_normalize 53 1024 n e false.

Lemma dadd_nearest a ea b eb :
  eb <= ea -> dadd (S754_finite false a ea) (S754_finite false b eb) = nearest (Zpos a * 2 ^ (ea - eb) + Zpos b) eb.
Proof.
  intros He. unfold dadd, SFadd, cond_Zopp, nearest.
  destruct (shl_align_spec a ea (Z.min ea eb)) as [A1 A2], (shl_align_spec b eb (Z.min ea eb)) as [B1 B2].
  rewrite A1, B1, A2, B2. rewrite Z.min_r, Z.min_r, Z.min_id by lia. rewrite Z.sub_diag. change (2 ^ 0) with 1.
  by rewrite Z.mul_1_r.
Qed.

(** The sum of two doubles, against a double. *)
Lemma dadd_between a ea b eb m e m' e' :
  normal a -> normal b -> -1000 <= eb <= ea -> ea <= 0 -> normal m -> normal m' -> eb <= e <= 0 -> eb <= e' <= 0 ->
  Zpos m * 2 ^ (e - eb) <= Zpos a * 2 ^ (ea - eb) + Zpos b < Zpos m' * 2 ^ (e' - eb) ->
  dle (S754_finite false m e) (dadd (S754_finite false a ea) (S754_finite false b eb)) = true /\
  dle (dadd (S754_finite false a ea) (S754_finite false b eb)) (S754_finite false m' e') = true.
Proof.
  intros Ha Hb He Hea Hm Hm' Hl Hu [H1 H2]. rewrite dadd_nearest by lia. unfold nearest.
  assert (0 < 2 ^ (ea - eb)) by (apply Z.pow_pos_nonneg; lia).
  destruct (Zpos a * 2 ^ (ea - eb) + Zpos b) as [|p|p] eqn:Ep; try nia.
  unfold binary_normalize, binary_round.
  destruct (shl_align_spec p eb (fexp 53 1024 (Zpos (digits2_pos p) + eb))) as [E1 E2].
  destruct (shl_align p _ _) as [mz ez]; cbn [fst snd] in *.
  assert (53 <= Zpos (digits2_pos p)) as Hd.
  { destruct (Z.le_gt_cases 53 (Zpos (digits2_pos p))) as [|Hlt]; [done|]. unfold normal in *.
    pose proof (digits_upper (Zpos p) ltac:(lia)) as Hp. cbn [Zdigits2] in Hp.
    assert (2 ^ Zpos (digits2_pos p) <= 2 ^ 52) by (apply Z.pow_le_mono_r; lia). nia. }
  assert (ez = eb) as -> by (unfold fexp, SpecFloat.emin in E2; lia).
  rewrite Z.sub_diag in E1. change (2 ^ 0) with 1 in E1. rewrite Z.mul_1_r in E1. rewrite E1.
  assert (Zdigits2 (Zpos p) + eb <= 900).
  { assert (Zdigits2 (Zpos p) <= 53 + (e' - eb)); [|lia]. apply digits_le; [lia..|]. rewrite Z.pow_add_r by lia.
    assert (0 < 2 ^ (e' - eb)) by (apply Z.pow_pos_nonneg; lia). unfold normal in *. nia. }
  split; [apply round_at_least|apply round_at_most]; done || lia.
Qed.

Lemma iter_pos_nat {A} (f : A -> A) p x : SpecFloat.iter_pos f p x = Nat.iter (Pos.to_nat p) f x.
Proof.
  revert x; induction p as [p IH|p IH|]; intros x; cbn [SpecFloat.iter_pos]; [..|done]; rewrite !IH, <- Nat.iter_add.
  - rewrite Pos2Nat.inj_xI, Nat.iter_succ_r. do 2 f_equal. lia.
  - rewrite Pos2Nat.inj_xO. f_equal. lia.
Qed.

Lemma shr_scaled m e j k :
  0 <= m -> 0 <= j -> 0 <= k ->
  shr (Build_shr_record (m * 2 ^ k) false false) e (k + j) = shr (Build_shr_record m false false) (e + k) j.
Proof.
  intros Hm Hj Hk. pose proof (shr_exact m e k Hm Hk) as Hx. destruct k as [|k|k]; [|..|lia].
  { change (2 ^ 0) with 1. by rewrite Z.mul_1_r, Z.add_0_r. }
  destruct j as [|j|j]; [..|lia]; [by rewrite Z.add_0_r|]. cbn [shr] in *. injection Hx as Hx.
  change (Zpos k + Zpos j) with (Zpos (k + j)). cbn [shr]. f_equal; [|lia].
  rewrite <- Hx. rewrite !iter_pos_nat, <- Nat.iter_add. f_equal. lia.
Qed.

(** The same number at a lower exponent. *)
Lemma nearest_scaled p e k :
  53 <= Zdigits2 (Zpos p) -> -1074 <= e -> 0 <= k -> Zdigits2 (Zpos p) + e <= 900 ->
  -1074 <= e - k -> nearest (Zpos p * 2 ^ k) (e - k) = nearest (Zpos p) e.
Proof.
  intros Hd He Hk Hmax Hlow.
  assert (forall q c, 53 <= Zdigits2 (Zpos q) -> -1074 <= c ->
    nearest (Zpos q) c = binary_round_aux 53 1024 false (Zpos q) c loc_Exact) as Hround.
  { intros q c Hq Hc. unfold nearest, binary_normalize, binary_round.
    destruct (shl_align_spec q c (fexp 53 1024 (Zpos (digits2_pos q) + c))) as [E1 E2].
    destruct (shl_align q _ _) as [mz ez]; cbn [fst snd Zdigits2] in *.
    assert (ez = c) as -> by (unfold fexp, SpecFloat.emin in E2; lia).
    rewrite Z.sub_diag in E1. change (2 ^ 0) with 1 in E1. rewrite Z.mul_1_r in E1. by rewrite E1. }
  assert (0 < 2 ^ k) by (by apply Z.pow_pos_nonneg). pose proof (digits_scaled (Zpos p) k ltac:(lia) Hk) as Hdk.
  destruct (Zpos p * 2 ^ k) as [|q|q] eqn:Eq; try nia. rewrite !Hround by lia. unfold binary_round_aux, shr_fexp.
  rewrite Hdk, <- Eq. replace (Zdigits2 (Zpos p) + k + (e - k)) with (Zdigits2 (Zpos p) + e) by lia.
  set (f := fexp 53 1024 (Zdigits2 (Zpos p) + e)). assert (e <= f) by (unfold f, fexp; lia).
  replace (f - (e - k)) with (k + (f - e)) by lia. cbn [shr_record_of_loc]. rewrite shr_scaled by lia.
  by replace (e - k + k) with e by lia.
Qed.
