(* ===== verification/Spectrum.v ===== *)
(** * Spectrum: the slot grid and the 256-slot bit set

    [include/opp/spectrum.hpp] and [src/spectrum.cpp]. *)

From S2P Require Import Prelude Status Ids.

(** ** Grid and model *)

Module GridKind.
Inductive t := Fixed50GHz | Flex12_5GHz.
#[global] Instance eq_dec : EqDecision t.
Proof. solve_decision. Defined.
End GridKind.

Definition GridKindName (k : GridKind.t) : string :=
  match k with GridKind.Fixed50GHz => "fixed50" | GridKind.Flex12_5GHz => "flex12_5" end.

Definition ParseGridKind (t : string) : option GridKind.t :=
  if String.eqb t "fixed50" then Some GridKind.Fixed50GHz
  else if String.eqb t "flex12_5" then Some GridKind.Flex12_5GHz
  else None.

Definition SlotWidthKhz (k : GridKind.t) : Z :=
  match k with GridKind.Fixed50GHz => 50000 | GridKind.Flex12_5GHz => 12500 end.

Record SpectrumModel := MkSpectrum { grid : GridKind.t; slot_count : Z }.

Definition default_spectrum : SpectrumModel := MkSpectrum GridKind.Fixed50GHz 96.

Definition Spectrum_Validate (m : SpectrumModel) : Status :=
  if slot_count m =? 0 then
    Failure StatusCode.InvalidArgument "spectrum model must declare at least one slot"
  else if kMaxSpectrumSlots <? slot_count m then
    Failure StatusCode.LimitExceeded
      ("spectrum model declares " +:+ to_string (slot_count m) +:+ " slots, above the supported maximum of " +:+
       to_string kMaxSpectrumSlots)
  else OkStatus.

Definition ChannelCapacity (m : SpectrumModel) (width_slots : Z) : Z :=
  if (width_slots =? 0) || (slot_count m <? width_slots) then 0
  else wrap32 (slot_count m - width_slots + 1).

Record Channel := MkChannel { first_slot : Z; width_slots : Z }.

(** ** Slot masks: [std::array<std::uint64_t, 4>] *)

Definition kWords : nat := 4.

Record SlotMask := MkMask { words : list Z }.

#[export] Instance SlotMask_eq_dec : EqDecision SlotMask.
Proof. solve_decision. Defined.

Definition mask_None : SlotMask := MkMask (repeat 0 kWords).

Definition word_at (m : SlotMask) (w : nat) : Z := nth w (words m) 0.
Definition set_word (m : SlotMask) (w : nat) (v : Z) : SlotMask := MkMask (<[w := v]> (words m)).

Definition word_index (index : Z) : nat := Z.to_nat (index / 64).
Definition bit_of (index : Z) : Z := wrap64 (Z.shiftl 1 (index mod 64)).

Definition mask_Set (m : SlotMask) (index : Z) : SlotMask :=
  if kMaxSpectrumSlots <=? index then m
  else set_word m (word_index index) (Z.lor (word_at m (word_index index)) (bit_of index)).

Definition mask_Reset (m : SlotMask) (index : Z) : SlotMask :=
  if kMaxSpectrumSlots <=? index then m
  else set_word m (word_index index) (Z.land (word_at m (word_index index)) (wrap64 (Z.lnot (bit_of index)))).

Definition mask_Test (m : SlotMask) (index : Z) : bool :=
  if kMaxSpectrumSlots <=? index then false
  else negb (Z.land (word_at m (word_index index)) (bit_of index) =? 0).

(** The values [0 .. n - 1] of a loop counter. *)
Definition range (n : Z) : list Z := map Z.of_nat (seq 0 (Z.to_nat n)).

Definition mask_All (slot_count : Z) : SlotMask :=
  fold_left mask_Set (range (Z.min slot_count kMaxSpectrumSlots)) mask_None.

Definition mask_Intersect (m other : SlotMask) : SlotMask :=
  MkMask (map (fun i => Z.land (word_at m i) (word_at other i)) (seq 0 kWords)).

Definition mask_IsEmpty (m : SlotMask) : bool := forallb (fun i => word_at m i =? 0) (seq 0 kWords).

Fixpoint popcount (bits : nat) (w : Z) : Z :=
  match bits with
  | O => 0
  | S b => (if Z.odd w then 1 else 0) + popcount b (Z.shiftr w 1)
  end.

Definition mask_Count (m : SlotMask) : Z :=
  fold_left (fun total i => wrap32 (total + popcount 64 (word_at m i))) (seq 0 kWords) 0.

Definition mask_IsSubsetOf (m other : SlotMask) : bool :=
  forallb (fun i => Z.land (word_at m i) (wrap64 (Z.lnot (word_at other i))) =? 0) (seq 0 kWords).

(** [while ((value & 1) == 0) { value >>= 1; ++bit; }]: 64 steps are enough
    for a non-zero word. *)
Fixpoint trailing_zeros (fuel : nat) (value bit : Z) : Z :=
  match fuel with
  | O => bit
  | S f => if Z.land value 1 =? 0 then trailing_zeros f (Z.shiftr value 1) (bit + 1) else bit
  end.

Fixpoint lowest_from (ws : list Z) (word : Z) : option Z :=
  match ws with
  | [] => None
  | value :: rest =>
      if value =? 0 then lowest_from rest (word + 1)
      else
        let index := wrap32 (word * 64 + trailing_zeros 64 value 0) in
        if kMaxSpectrumSlots <=? index then None else Some (wrap16 index)
  end.

Definition LowestSetBit (m : SlotMask) : option Z := lowest_from (words m) 0.

Definition run_available (m : SlotMask) (width_slots start : Z) : bool :=
  forallb (fun offset => mask_Test m (wrap16 (start + offset))) (range width_slots).

Definition FirstSlotMask (m : SlotMask) (width_slots : Z) : SlotMask :=
  if (width_slots =? 0) || (kMaxSpectrumSlots <? width_slots) then mask_None
  else
    let last_start := kMaxSpectrumSlots - width_slots in
    fold_left (fun result start => if run_available m width_slots start then mask_Set result start else result)
      (range (last_start + 1)) mask_None.

(** ** Hexadecimal text: most significant word first *)

Definition word_hex (w : Z) : list ascii :=
  map (fun nibble => hex_digit (Z.land (Z.shiftr w (Z.of_nat nibble * 4)) 15)) (rev (seq 0 16)).

Definition mask_ToHex (m : SlotMask) : string :=
  of_chars (concat (map (fun i => word_hex (word_at m i)) (rev (seq 0 kWords)))).

Fixpoint read_word (nibbles : nat) (hex : list ascii) (word : Z) : option (Z * list ascii) :=
  match nibbles, hex with
  | O, _ => Some (word, hex)
  | S n, c :: rest =>
      if HexValue c <? 0 then None
      else read_word n rest (Z.lor (wrap64 (Z.shiftl word 4)) (HexValue c))
  | S _, [] => None
  end.

(** Reads [n] words, the first into the highest index. *)
Fixpoint read_words (n : nat) (hex : list ascii) (acc : list Z) : option (list Z) :=
  match n with
  | O => Some acc
  | S n' =>
      match read_word 16 hex 0 with
      | Some (word, rest) => read_words n' rest (word :: acc)
      | None => None
      end
  end.

Definition mask_FromHex (hex : string) : Expected SlotMask :=
  if negb (string_size hex =? Z.of_nat kWords * 16) then
    Error (Failure StatusCode.MalformedInput "slot mask hex must be exactly 64 characters")
  else
    match read_words kWords (chars hex) [] with
    | Some ws => Value (MkMask ws)
    | None => Error (Failure StatusCode.MalformedInput "slot mask hex contains a non-hex character")
    end.

(** The complement of a blocked set within the model, as the set of usable
    channel starts: the computation [RunSearch] and [BuildPlan] make for
    every port, span and cross-connect. *)
Definition usable_slots (slots : Z) (blocked : SlotMask) : SlotMask :=
  fold_left (fun usable slot => if mask_Test blocked slot then mask_Reset usable slot else usable)
    (range slots) (mask_All slots).

(** ** Lemmas: a mask is the set of the slots that test true *)

Definition wf_mask (m : SlotMask) : Prop :=
  length (words m) = kWords /\ Forall (in_width 64) (words m).

Definition slot_in_range (i : Z) : Prop := 0 <= i < 256.

Lemma bit_of_pow i : bit_of i = 2 ^ (i mod 64).
Proof.
  unfold bit_of. pose proof (Z.mod_pos_bound i 64 ltac:(lia)).
  rewrite Z.shiftl_1_l. apply wrap_small. split; [lia|]. apply Z.pow_lt_mono_r; lia.
Qed.

Lemma land_pow2_eqb w k : 0 <= k -> (Z.land w (2 ^ k) =? 0) = negb (Z.testbit w k).
Proof.
  intros Hk. destruct (Z.testbit w k) eqn:E; simpl.
  - apply Z.eqb_neq. intros H0. apply (f_equal (fun z => Z.testbit z k)) in H0.
    rewrite Z.land_spec, Z.pow2_bits_true, E, Z.bits_0 in H0 by lia. done.
  - apply Z.eqb_eq. apply Z.bits_inj'. intros n Hn. rewrite Z.land_spec, Z.bits_0.
    destruct (Z.eq_dec n k) as [->|Hne]; [by rewrite E|].
    by rewrite Z.pow2_bits_false, andb_false_r by lia.
Qed.

Lemma mask_Test_bit m i :
  slot_in_range i -> mask_Test m i = Z.testbit (word_at m (word_index i)) (i mod 64).
Proof.
  intros [H0 H1]. unfold mask_Test. rewrite (proj2 (Z.leb_gt _ _)) by done.
  pose proof (Z.mod_pos_bound i 64 ltac:(lia)).
  by rewrite bit_of_pow, land_pow2_eqb, negb_involutive by lia.
Qed.

Lemma mask_Test_out m i : 256 <= i -> mask_Test m i = false.
Proof. intros Hi. unfold mask_Test. by rewrite (proj2 (Z.leb_le _ _)) by done. Qed.

Lemma four_words (P : nat -> Prop) :
  P 0%nat -> P 1%nat -> P 2%nat -> P 3%nat -> forall w, (w < kWords)%nat -> P w.
Proof. unfold kWords. intros ???? [|[|[|[|w]]]] Hw; [done..|lia]. Qed.

Lemma word_index_lt i : slot_in_range i -> (word_index i < kWords)%nat.
Proof.
  intros [H0 H1]. unfold word_index, kWords.
  assert (0 <= i / 64) by (apply Z.div_pos; lia).
  assert (i / 64 < 4) by (apply Z.div_lt_upper_bound; lia). lia.
Qed.

Lemma word_index_slot w b : (w < kWords)%nat -> 0 <= b < 64 ->
  let i := Z.of_nat w * 64 + b in slot_in_range i /\ word_index i = w /\ i mod 64 = b.
Proof.
  unfold kWords, slot_in_range, word_index. intros Hw Hb. cbv zeta.
  split; [lia|]. split.
  - rewrite Z.div_add_l by lia. rewrite Z.div_small by lia. lia.
  - rewrite Z.add_comm, Z.mod_add by lia. by apply Z.mod_small.
Qed.

Lemma word_at_width m w : wf_mask m -> in_width 64 (word_at m w).
Proof.
  intros [_ Hf]. unfold word_at. destruct (nth_in_or_default w (words m) 0) as [Hin| ->]; [|done].
  rewrite List.Forall_forall in Hf. auto.
Qed.

Lemma word_at_set_word m w v w' : (w < length (words m))%nat ->
  word_at (set_word m w v) w' = if bool_decide (w = w') then v else word_at m w'.
Proof.
  intros Hw. unfold word_at, set_word; simpl. rewrite !nth_lookup.
  case_bool_decide as E.
  - subst. by rewrite list_lookup_insert_eq.
  - by rewrite list_lookup_insert_ne.
Qed.

Lemma set_word_wf m w v : wf_mask m -> in_width 64 v -> wf_mask (set_word m w v).
Proof.
  intros [Hl Hf] Hv. split; simpl; [by rewrite length_insert|]. by apply Forall_insert.
Qed.

Lemma in_width_log2 w z : 0 <= w -> 0 <= z -> (forall n, w <= n -> Z.testbit z n = false) -> in_width w z.
Proof.
  intros Hw Hz Hb. split; [done|]. destruct (Z.eq_dec z 0) as [->|Hne]; [apply Z.pow_pos_nonneg; lia|].
  apply Z.log2_lt_pow2; [lia|]. destruct (Z.lt_ge_cases (Z.log2 z) w) as [|Hge]; [done|].
  specialize (Hb _ Hge). rewrite Z.bit_log2 in Hb by lia. done.
Qed.

Lemma width_testbit w z n : 0 <= w -> in_width w z -> w <= n -> Z.testbit z n = false.
Proof.
  intros Hw [H0 H1] Hn. destruct (Z.eq_dec z 0) as [->|Hne]; [apply Z.bits_0|].
  apply Z.bits_above_log2; [lia|]. apply Z.log2_lt_pow2 in H1; lia.
Qed.

Lemma wrap_testbit w z n : 0 <= w -> 0 <= n -> Z.testbit (wrap w z) n = (n <? w) && Z.testbit z n.
Proof.
  intros Hw Hn. unfold wrap. destruct (Z.ltb_spec n w).
  - by rewrite Z.mod_pow2_bits_low by lia.
  - by rewrite Z.mod_pow2_bits_high by lia.
Qed.

Lemma lor_width w a b : 0 <= w -> in_width w a -> in_width w b -> in_width w (Z.lor a b).
Proof.
  intros Hw Ha Hb. apply in_width_log2; [done|apply Z.lor_nonneg; split; [apply Ha|apply Hb]|].
  intros n Hn. by rewrite Z.lor_spec, (width_testbit w a), (width_testbit w b).
Qed.

Lemma land_width w a b : 0 <= w -> in_width w a -> 0 <= b -> in_width w (Z.land a b).
Proof.
  intros Hw Ha Hb. apply in_width_log2; [done|apply Z.land_nonneg; left; apply Ha|].
  intros n Hn. by rewrite Z.land_spec, (width_testbit w a).
Qed.

Lemma bit_of_width i : in_width 64 (bit_of i).
Proof. apply wrap_range. lia. Qed.

Lemma mask_None_wf : wf_mask mask_None.
Proof. split; [done|]. repeat constructor; done. Qed.

Lemma mask_None_Test i : 0 <= i -> mask_Test mask_None i = false.
Proof.
  intros Hi. destruct (Z.lt_ge_cases i 256); [|by apply mask_Test_out].
  rewrite mask_Test_bit by done. unfold word_at, mask_None; simpl words.
  apply (four_words (fun w => Z.testbit (nth w _ 0) _ = false)); [apply Z.bits_0..|].
  by apply word_index_lt.
Qed.

Lemma mask_Set_wf m i : wf_mask m -> wf_mask (mask_Set m i).
Proof.
  intros Hm. unfold mask_Set. destruct (_ <=? _); [done|].
  apply set_word_wf; [done|]. apply lor_width; [lia|by apply word_at_width|apply bit_of_width].
Qed.

Lemma mask_Reset_wf m i : wf_mask m -> wf_mask (mask_Reset m i).
Proof.
  intros Hm. unfold mask_Reset. destruct (_ <=? _); [done|].
  apply set_word_wf; [done|]. apply land_width; [lia|by apply word_at_width|].
  apply (wrap_range 64). lia.
Qed.

(** Same slot iff same word and same bit. *)
Lemma slot_split i j : 0 <= i -> 0 <= j -> i = j <-> word_index i = word_index j /\ i mod 64 = j mod 64.
Proof.
  intros Hi Hj. unfold word_index. split; [by intros ->|]. intros [H1 H2].
  apply Z2Nat.inj in H1; [|apply Z.div_pos; lia..].
  rewrite (Z.div_mod i 64), (Z.div_mod j 64) by lia. lia.
Qed.

Lemma mask_Set_Test m i j : wf_mask m -> slot_in_range i -> slot_in_range j ->
  mask_Test (mask_Set m i) j = bool_decide (i = j) || mask_Test m j.
Proof.
  intros Hm Hi Hj. rewrite !mask_Test_bit by done. unfold mask_Set.
  rewrite (proj2 (Z.leb_gt _ _)) by apply Hi.
  rewrite word_at_set_word by (rewrite (proj1 Hm); by apply word_index_lt).
  pose proof (slot_split i j (proj1 Hi) (proj1 Hj)) as Hs.
  pose proof (Z.mod_pos_bound i 64 ltac:(lia)). pose proof (Z.mod_pos_bound j 64 ltac:(lia)).
  destruct (bool_decide_reflect (word_index i = word_index j)) as [Hw|Hw].
  - rewrite Z.lor_spec, bit_of_pow, Z.pow2_bits_eqb, Hw by lia.
    rewrite orb_comm. f_equal. destruct (Z.eqb_spec (i mod 64) (j mod 64)) as [E|E].
    + symmetry. apply bool_decide_eq_true. tauto.
    + symmetry. apply bool_decide_eq_false. tauto.
  - rewrite bool_decide_eq_false_2; [done|]. tauto.
Qed.

Lemma mask_Reset_Test m i j : wf_mask m -> slot_in_range i -> slot_in_range j ->
  mask_Test (mask_Reset m i) j = negb (bool_decide (i = j)) && mask_Test m j.
Proof.
  intros Hm Hi Hj. rewrite !mask_Test_bit by done. unfold mask_Reset.
  rewrite (proj2 (Z.leb_gt _ _)) by apply Hi.
  rewrite word_at_set_word by (rewrite (proj1 Hm); by apply word_index_lt).
  pose proof (slot_split i j (proj1 Hi) (proj1 Hj)) as Hs.
  pose proof (Z.mod_pos_bound i 64 ltac:(lia)). pose proof (Z.mod_pos_bound j 64 ltac:(lia)).
  destruct (bool_decide_reflect (word_index i = word_index j)) as [Hw|Hw].
  - rewrite Z.land_spec, wrap_testbit, Z.lnot_spec, bit_of_pow, Z.pow2_bits_eqb, Hw by lia.
    rewrite (proj2 (Z.ltb_lt (j mod 64) 64)) by lia. rewrite andb_comm. simpl. f_equal. f_equal.
    destruct (Z.eqb_spec (i mod 64) (j mod 64)) as [E|E].
    + symmetry. apply bool_decide_eq_true. tauto.
    + symmetry. apply bool_decide_eq_false. tauto.
  - rewrite bool_decide_eq_false_2; [done|]. tauto.
Qed.

Lemma mask_Set_out m i : 256 <= i -> mask_Set m i = m.
Proof. intros Hi. unfold mask_Set. by rewrite (proj2 (Z.leb_le _ _)) by done. Qed.

Lemma mask_Intersect_wf m o : wf_mask m -> wf_mask o -> wf_mask (mask_Intersect m o).
Proof.
  intros Hm Ho. split; [done|]. unfold mask_Intersect; cbn [words]. apply Forall_map.
  apply Forall_forall. intros w _. apply land_width; [lia|by apply word_at_width|by apply (word_at_width o)].
Qed.

Lemma mask_Intersect_Test m o i : slot_in_range i ->
  mask_Test (mask_Intersect m o) i = mask_Test m i && mask_Test o i.
Proof.
  intros Hi. rewrite !mask_Test_bit, <- Z.land_spec by done. f_equal.
  apply (four_words (fun w => word_at (mask_Intersect m o) w = Z.land (word_at m w) (word_at o w))); [done..|]. by apply word_index_lt.
Qed.

Lemma word_bits_zero m w : wf_mask m -> (w < kWords)%nat ->
  (forall b, 0 <= b < 64 -> Z.testbit (word_at m w) b = false) -> word_at m w = 0.
Proof.
  intros Hm Hw Hb. apply Z.bits_inj'. intros n Hn. rewrite Z.bits_0.
  destruct (Z.lt_ge_cases n 64); [by apply Hb|]. eapply (width_testbit 64); [lia|by apply word_at_width|done].
Qed.

Lemma mask_IsEmpty_spec m : wf_mask m ->
  mask_IsEmpty m = true <-> forall i, slot_in_range i -> mask_Test m i = false.
Proof.
  intros Hm. unfold mask_IsEmpty. rewrite forallb_forall. split.
  - intros Hz i Hi. rewrite mask_Test_bit by done.
    assert (In (word_index i) (seq 0 kWords)) as Hin by (apply in_seq; pose proof (word_index_lt i Hi); lia).
    apply Hz, Z.eqb_eq in Hin. by rewrite Hin, Z.bits_0.
  - intros Ht w Hin%in_seq. apply Z.eqb_eq, word_bits_zero; [done|lia|]. intros b Hb.
    destruct (word_index_slot w b ltac:(lia) Hb) as (Hi & Hw & Hbit).
    specialize (Ht _ Hi). by rewrite mask_Test_bit, Hw, Hbit in Ht.
Qed.

Lemma mask_IsSubsetOf_spec m o : wf_mask m -> wf_mask o ->
  mask_IsSubsetOf m o = true <-> forall i, slot_in_range i -> mask_Test m i = true -> mask_Test o i = true.
Proof.
  intros Hm Ho. unfold mask_IsSubsetOf. rewrite forallb_forall. split.
  - intros Hz i Hi. rewrite !mask_Test_bit by done. intros Hbit.
    assert (In (word_index i) (seq 0 kWords)) as Hin by (apply in_seq; pose proof (word_index_lt i Hi); lia).
    apply Hz, Z.eqb_eq in Hin. apply (f_equal (fun z => Z.testbit z (i mod 64))) in Hin.
    pose proof (Z.mod_pos_bound i 64 ltac:(lia)).
    rewrite Z.land_spec, wrap_testbit, Z.lnot_spec, Hbit, Z.bits_0, (proj2 (Z.ltb_lt _ 64)) in Hin by lia.
    by destruct (Z.testbit (word_at o (word_index i)) (i mod 64)).
  - intros Ht w Hin%in_seq. apply Z.eqb_eq, Z.bits_inj'. intros n Hn.
    rewrite Z.land_spec, wrap_testbit, Z.lnot_spec, Z.bits_0 by lia.
    destruct (Z.ltb_spec n 64) as [Hlt|]; [|by rewrite andb_false_r].
    destruct (word_index_slot w n ltac:(lia) ltac:(lia)) as (Hi & Hw & Hbit).
    specialize (Ht _ Hi). rewrite !mask_Test_bit, Hw, Hbit in Ht by done.
    destruct (Z.testbit (word_at m w) n); [|done]. by rewrite (Ht eq_refl).
Qed.

Lemma mask_ext m o : wf_mask m -> wf_mask o ->
  (forall i, slot_in_range i -> mask_Test m i = mask_Test o i) -> m = o.
Proof.
  intros Hm Ho Ht. assert (forall w, (w < kWords)%nat -> word_at m w = word_at o w) as Hw.
  { intros w Hw. apply Z.bits_inj'. intros n Hn.
    destruct (Z.lt_ge_cases n 64) as [Hlt|Hge].
    - destruct (word_index_slot w n Hw ltac:(lia)) as (Hi & Hwi & Hbit).
      specialize (Ht _ Hi). by rewrite !mask_Test_bit, Hwi, Hbit in Ht by done.
    - by rewrite !(width_testbit 64) by (first [lia | by apply word_at_width | by apply (word_at_width o)]). }
  destruct m as [ws], o as [ws'], Hm as [Hl _], Ho as [Hl' _]; simpl in *. f_equal.
  apply (nth_ext _ _ 0 0); [congruence|]. intros n Hn. apply Hw. lia.
Qed.

Lemma in_range n x : In x (range n) <-> 0 <= x < n.
Proof.
  unfold range. rewrite in_map_iff. split.
  - intros (k & <- & Hk%in_seq). lia.
  - intros Hx. exists (Z.to_nat x). split; [lia|]. apply in_seq. lia.
Qed.

(** A loop that sets the slots satisfying a predicate builds their set. *)
Lemma fold_set_spec (p : Z -> bool) l m :
  wf_mask m -> Forall slot_in_range l ->
  let r := fold_left (fun acc s => if p s then mask_Set acc s else acc) l m in
  wf_mask r /\ forall i, slot_in_range i ->
    mask_Test r i = (existsb (fun s => bool_decide (s = i) && p s) l || mask_Test m i)%bool.
Proof.
  intros Hm Hl. revert m Hm; induction Hl as [|s l Hs Hl IH]; intros m Hm; simpl; [done|].
  destruct (p s) eqn:Hp.
  - destruct (IH (mask_Set m s) (mask_Set_wf _ _ Hm)) as [Hwf Ht]. split; [done|].
    intros i Hi. rewrite Ht, mask_Set_Test, andb_true_r by done.
    destruct (bool_decide (s = i)), (existsb _ _); done.
  - destruct (IH m Hm) as [Hwf Ht]. split; [done|]. intros i Hi.
    by rewrite Ht, andb_false_r.
Qed.

Lemma existsb_range p n i :
  existsb (fun s => bool_decide (s = i) && p s) (range n) = ((0 <=? i) && (i <? n) && p i)%bool.
Proof.
  apply eq_true_iff_eq. rewrite existsb_exists. setoid_rewrite in_range. split.
  - intros (s & Hs & Hb). apply andb_true_iff in Hb as [<-%bool_decide_eq_true ->]. lia.
  - intros Hb. exists i. rewrite bool_decide_eq_true_2 by done.
    destruct (Z.leb_spec 0 i), (Z.ltb_spec i n); done.
Qed.

Lemma range_slots n : n <= 256 -> Forall slot_in_range (range n).
Proof. intros Hn. apply List.Forall_forall. intros x Hx%in_range. unfold slot_in_range. lia. Qed.

Lemma mask_All_wf n : wf_mask (mask_All n) /\
  forall i, slot_in_range i -> mask_Test (mask_All n) i = (i <? n).
Proof.
  unfold mask_All, kMaxSpectrumSlots.
  destruct (fold_set_spec (fun _ => true) (range (Z.min n 256)) mask_None mask_None_wf) as [Hwf Ht].
  { apply range_slots. lia. }
  split; [exact Hwf|]. intros i Hi. etransitivity; [exact (Ht i Hi)|]. rewrite existsb_range, mask_None_Test by apply Hi.
  unfold slot_in_range in Hi. destruct (Z.ltb_spec i n), (Z.leb_spec 0 i), (Z.ltb_spec i (Z.min n 256)); simpl; lia || done.
Qed.

Lemma usable_slots_spec n blocked : 0 <= n <= 256 ->
  wf_mask (usable_slots n blocked) /\
  forall i, slot_in_range i ->
    mask_Test (usable_slots n blocked) i = ((i <? n) && negb (mask_Test blocked i))%bool.
Proof.
  intros Hn. unfold usable_slots. destruct (mask_All_wf n) as [Hwf Ht].
  assert (forall l m, wf_mask m -> Forall slot_in_range l ->
    let r := fold_left (fun u s => if mask_Test blocked s then mask_Reset u s else u) l m in
    wf_mask r /\ forall i, slot_in_range i ->
      mask_Test r i = (negb (existsb (fun s => bool_decide (s = i) && mask_Test blocked s) l) && mask_Test m i)%bool) as Hfold.
  { intros l m Hm Hl; revert m Hm; induction Hl as [|s l Hs Hl IH]; intros m Hm; simpl; [done|].
    destruct (mask_Test blocked s) eqn:Hp.
    - destruct (IH (mask_Reset m s) (mask_Reset_wf _ _ Hm)) as [Hwf' Ht']. split; [done|].
      intros i Hi. rewrite Ht', mask_Reset_Test, andb_true_r by done.
      destruct (bool_decide (s = i)), (existsb _ _); done.
    - destruct (IH m Hm) as [Hwf' Ht']. split; [done|]. intros i Hi. by rewrite Ht', andb_false_r. }
  destruct (Hfold (range n) (mask_All n) Hwf (range_slots n ltac:(lia))) as [Hwf' Ht'].
  split; [exact Hwf'|]. intros i Hi. rewrite (Ht' i Hi), (Ht i Hi), existsb_range.
  unfold slot_in_range in Hi. destruct (Z.ltb_spec i n), (Z.leb_spec 0 i), (mask_Test blocked i); done || lia.
Qed.

Lemma usable_slots_wf n blocked : 0 <= n <= 256 -> wf_mask (usable_slots n blocked).
Proof. intros Hn. apply usable_slots_spec, Hn. Qed.

#[export] Hint Resolve mask_None_wf mask_Set_wf mask_Reset_wf mask_Intersect_wf usable_slots_wf : opp.

Lemma run_available_spec m w start :
  0 < w -> 0 <= start -> start + w <= 256 ->
  run_available m w start = true <-> forall o, 0 <= o < w -> mask_Test m (start + o) = true.
Proof.
  intros Hw Hs Hle. unfold run_available. rewrite forallb_forall. setoid_rewrite in_range.
  split; intros H o Ho; specialize (H o Ho); rewrite wrap_small in *; try done; unfold in_width; lia.
Qed.

Lemma FirstSlotMask_wf m w : wf_mask (FirstSlotMask m w).
Proof.
  unfold FirstSlotMask. destruct (_ || _)%bool; [auto with opp|].
  generalize (range (kMaxSpectrumSlots - w + 1)). assert (wf_mask mask_None) as H0 by auto with opp.
  revert H0. generalize mask_None. intros r Hr l; revert r Hr.
  induction l as [|s l IH]; intros r Hr; simpl; [done|]. apply IH. destruct (run_available _ _ _); auto with opp.
Qed.

Lemma trailing_zeros_spec fuel v b :
  0 < v < 2 ^ Z.of_nat fuel ->
  exists k, trailing_zeros fuel v b = b + k /\ 0 <= k < Z.of_nat fuel /\ Z.testbit v k = true /\
    forall j, 0 <= j < k -> Z.testbit v j = false.
Proof.
  revert v b; induction fuel as [|f IH]; intros v b Hv; [simpl in Hv; lia|].
  cbn [trailing_zeros]. change (Z.land v 1) with (Z.land v (Z.ones 1)).
  rewrite Z.land_ones, Z.pow_1_r, <- Z.bit0_mod by lia.
  destruct (Z.testbit v 0) eqn:E0; cbn [Z.b2z Z.eqb].
  - exists 0. split; [lia|]. split; [lia|]. split; [done|]. lia.
  - rewrite Nat2Z.inj_succ, Z.pow_succ_r in Hv by lia.
    assert (v = 2 * Z.shiftr v 1) as Hdiv.
    { rewrite Z.shiftr_div_pow2 by lia.
      pose proof (Z.div_mod v 2 ltac:(lia)) as Hd. rewrite <- Z.bit0_mod, E0 in Hd. simpl Z.b2z in Hd.
      change (2 ^ 1) with 2. lia. }
    destruct (IH (Z.shiftr v 1) (b + 1)) as (k & Hk & Hr & Hb & Hlow); [lia|].
    exists (k + 1). split; [lia|]. split; [lia|]. split.
    + by rewrite <- Z.shiftr_spec by lia.
    + intros j Hj. destruct (Z.eq_dec j 0) as [->|]; [done|].
      specialize (Hlow (j - 1) ltac:(lia)). rewrite Z.shiftr_spec in Hlow by lia.
      by replace (j - 1 + 1) with j in Hlow by lia.
Qed.

Lemma lowest_from_spec ws w0 :
  0 <= w0 -> w0 + size ws <= 4 -> Forall (in_width 64) ws ->
  match lowest_from ws w0 with
  | Some i => exists w b, (w < length ws)%nat /\ 0 <= b < 64 /\ i = (w0 + Z.of_nat w) * 64 + b /\
      Z.testbit (nth w ws 0) b = true /\
      (forall j, 0 <= j < b -> Z.testbit (nth w ws 0) j = false) /\
      (forall w', (w' < w)%nat -> nth w' ws 0 = 0)
  | None => forall w, nth w ws 0 = 0
  end.
Proof.
  unfold size. intros H0 Hle Hf; revert w0 H0 Hle; induction Hf as [|v ws Hv Hf IH]; intros w0 H0 Hle; cbn [lowest_from].
  { by intros []. }
  cbn [length] in *. destruct (Z.eqb_spec v 0) as [->|Hne].
  - specialize (IH (w0 + 1) ltac:(lia) ltac:(lia)). destruct (lowest_from ws (w0 + 1)) as [i|].
    + destruct IH as (w & b & Hw & Hb & -> & Ht & Hl & Hz). exists (S w), b.
      repeat (split; [done || lia|]). intros [|w'] Hw'; [done|]. apply Hz. lia.
    + intros [|w]; [done|apply IH].
  - unfold in_width in Hv. destruct (trailing_zeros_spec 64 v 0) as (k & Hk & Hr & Hb & Hlow).
    { change (Z.of_nat 64) with 64. lia. }
    rewrite Hk, Z.add_0_l. change (Z.of_nat 64) with 64 in Hr.
    rewrite (wrap_small 32) by (unfold in_width; lia). unfold kMaxSpectrumSlots.
    rewrite (proj2 (Z.leb_gt _ _)) by lia. rewrite (wrap_small 16) by (unfold in_width; lia).
    exists 0%nat, k. repeat (split; [done || lia|]). lia.
Qed.

Lemma read_word_hex n w acc rest :
  0 <= w -> 0 <= acc -> (acc + 1) * 16 ^ Z.of_nat n <= 2 ^ 64 ->
  read_word n (map (fun k => hex_digit (Z.land (Z.shiftr w (Z.of_nat k * 4)) 15)) (rev (seq 0 n)) ++ rest) acc =
  Some (acc * 16 ^ Z.of_nat n + w mod 16 ^ Z.of_nat n, rest).
Proof.
  intros Hw. revert acc; induction n as [|n IH]; intros acc Ha Hle.
  - simpl. rewrite Z.mod_1_r. do 2 f_equal. lia.
  - rewrite seq_S, rev_app_distr. simpl rev at 1. simpl app at 1. simpl map at 1. cbn [app read_word].
    pose proof (hex_low_nibble (Z.shiftr w (Z.of_nat n * 4))) as Hnib.
    rewrite hex_digit_value, (proj2 (Z.ltb_ge _ 0)) by lia.
    rewrite Nat2Z.inj_succ, Z.pow_succ_r in Hle by lia.
    assert (0 < 16 ^ Z.of_nat n) as Hp by (apply Z.pow_pos_nonneg; lia).
    assert ((acc + 1) * 16 <= 2 ^ 64) as Hacc by nia.
    rewrite Z.shiftl_mul_pow2 by lia. rewrite (wrap_small 64) by (unfold in_width; lia).
    rewrite <- Z.shiftl_mul_pow2 by lia.
    set (d := Z.land (Z.shiftr w (Z.of_nat n * 4)) 15) in *.
    assert (Z.lor (Z.shiftl acc 4) d = acc * 16 + d) as Hlor.
    { assert (Z.land (Z.shiftl acc 4) d = 0) as Hland.
      { apply Z.bits_inj'; intros k Hk; rewrite Z.land_spec, Z.bits_0.
        destruct (Z.lt_ge_cases k 4); [by rewrite Z.shiftl_spec_low by lia|].
        by rewrite (width_testbit 4 d), andb_false_r by (unfold in_width; lia). }
      rewrite <- Z.lxor_lor, <- Z.add_nocarry_lxor, Z.shiftl_mul_pow2 by done. lia. }
    rewrite Hlor, IH by nia. do 2 f_equal.
    rewrite Nat2Z.inj_succ, Z.pow_succ_r by lia.
    unfold d. change 15 with (Z.ones 4). rewrite Z.land_ones, Z.shiftr_div_pow2 by lia.
    replace (2 ^ (Z.of_nat n * 4)) with (16 ^ Z.of_nat n) by (rewrite Z.mul_comm, Z.pow_mul_r by lia; done).
    rewrite (Z.mul_comm 16 (16 ^ _)), Z.rem_mul_r by lia. change (2 ^ 4) with 16. lia.
Qed.

Lemma read_word_word_hex w rest : in_width 64 w -> read_word 16 (word_hex w ++ rest) 0 = Some (w, rest).
Proof.
  intros Hw. unfold word_hex. rewrite read_word_hex; [|apply Hw|lia|done].
  change (16 ^ Z.of_nat 16) with (2 ^ 64). by rewrite Z.mod_small.
Qed.

(** ** Theorems *)

Lemma FirstSlotMask_Test (m : SlotMask) (w s : Z) :
  0 <= w -> slot_in_range s ->
  mask_Test (FirstSlotMask m w) s = true <->
  0 < w /\ s + w <= kMaxSpectrumSlots /\ forall o, 0 <= o < w -> mask_Test m (s + o) = true.
Proof.
  intros Hw0 Hs. unfold FirstSlotMask, kMaxSpectrumSlots. unfold slot_in_range in Hs.
  destruct ((w =? 0) || (256 <? w))%bool eqn:E.
  { rewrite mask_None_Test by lia. split; [done|]. intros (Hw & Hle & _).
    apply orb_true_iff in E as [E|E]; crush_hyps; lia. }
  apply orb_false_iff in E as [E1%Z.eqb_neq E2%Z.ltb_ge].
  destruct (fold_set_spec (run_available m w) (range (256 - w + 1)) mask_None) as [_ Ht];
    [auto with opp|apply range_slots; lia|].
  rewrite (Ht s Hs), existsb_range, mask_None_Test, orb_false_r by lia.
  rewrite !andb_true_iff, Z.leb_le, Z.ltb_lt. split.
  - intros [[_ Hlt] Hrun]. rewrite run_available_spec in Hrun by lia. repeat split; [lia..|done].
  - intros (_ & Hle & Hrun). rewrite run_available_spec by lia. repeat split; [lia..|done].
Qed.

(** The set of usable channel starts.  [FirstSlotMask] marks exactly the
    slots from which a run of [w] slots lies inside the grid and inside the
    mask; a zero or over-wide channel has no start. *)
Theorem FirstSlotMask_spec (m : SlotMask) (w s : Z) :
  0 <= w -> slot_in_range s ->
  mask_Test (FirstSlotMask m w) s = true <->
  0 < w /\ s + w <= kMaxSpectrumSlots /\ forall o, 0 <= o < w -> mask_Test m (s + o) = true.
Proof. apply FirstSlotMask_Test. Qed.

Lemma FirstSlotMask_spec_witness :
  (0 <= 4 /\ slot_in_range 4) /\
  (mask_Test (FirstSlotMask (usable_slots 96 (mask_Set mask_None 3)) 4) 4 = true <->
   0 < 4 /\ 4 + 4 <= kMaxSpectrumSlots /\
   forall o, 0 <= o < 4 -> mask_Test (usable_slots 96 (mask_Set mask_None 3)) (4 + o) = true).
Proof. split; [by split|]. apply FirstSlotMask_spec; [lia|done]. Defined.

Lemma LowestSetBit_correct (m : SlotMask) :
  wf_mask m ->
  match LowestSetBit m with
  | Some i => slot_in_range i /\ mask_Test m i = true /\ forall j, 0 <= j < i -> mask_Test m j = false
  | None => forall i, 0 <= i -> mask_Test m i = false
  end.
Proof.
  intros Hm. unfold LowestSetBit. destruct Hm as [Hl Hf].
  pose proof (lowest_from_spec (words m) 0 ltac:(lia) ltac:(unfold size; rewrite Hl; done) Hf) as Hspec.
  destruct (lowest_from (words m) 0) as [i|].
  - destruct Hspec as (w & b & Hw & Hb & -> & Ht & Hlow & Hz). rewrite Z.add_0_l.
    destruct (word_index_slot w b ltac:(congruence) Hb) as (Hi & Hwi & Hbi).
    split; [done|]. split; [by rewrite mask_Test_bit, Hwi, Hbi|]. intros j Hj.
    unfold slot_in_range in Hi. rewrite mask_Test_bit by (unfold slot_in_range; lia).
    destruct (Nat.lt_ge_cases (word_index j) w) as [Hlt|Hge].
    + unfold word_at. rewrite (Hz _ Hlt). apply Z.bits_0.
    + pose proof (Z.mod_pos_bound j 64 ltac:(lia)) as Hjm. pose proof (Z.div_mod j 64 ltac:(lia)) as Hjd.
      assert (word_index j = w) as -> by (unfold word_index in *; lia).
      apply Hlow. unfold word_index in *. lia.
  - intros i Hi. destruct (Z.lt_ge_cases i 256); [|by apply mask_Test_out].
    rewrite mask_Test_bit by done. unfold word_at. rewrite Hspec. apply Z.bits_0.
Qed.

Lemma LowestSetBit_some m : wf_mask m -> mask_IsEmpty m = false -> is_Some (LowestSetBit m).
Proof.
  intros Hm He. pose proof (LowestSetBit_correct m Hm) as Hs. destruct (LowestSetBit m) as [i|]; [by eexists|].
  assert (mask_IsEmpty m = true) as E; [|congruence]. apply mask_IsEmpty_spec; [done|]. intros i [Hi _]. by apply Hs.
Qed.

(** The deterministic channel rule.  [LowestSetBit] answers the least slot
    of a non-empty mask, and nothing exactly for the empty mask. *)
Theorem LowestSetBit_spec (m : SlotMask) :
  wf_mask m ->
  match LowestSetBit m with
  | Some i => slot_in_range i /\ mask_Test m i = true /\ forall j, 0 <= j < i -> mask_Test m j = false
  | None => forall i, 0 <= i -> mask_Test m i = false
  end.
Proof. apply LowestSetBit_correct. Qed.

Lemma LowestSetBit_spec_witness :
  wf_mask (FirstSlotMask (usable_slots 96 (mask_Set mask_None 3)) 4) /\
  match LowestSetBit (FirstSlotMask (usable_slots 96 (mask_Set mask_None 3)) 4) with
  | Some i => slot_in_range i /\ mask_Test (FirstSlotMask (usable_slots 96 (mask_Set mask_None 3)) 4) i = true /\
      forall j, 0 <= j < i -> mask_Test (FirstSlotMask (usable_slots 96 (mask_Set mask_None 3)) 4) j = false
  | None => forall i, 0 <= i -> mask_Test (FirstSlotMask (usable_slots 96 (mask_Set mask_None 3)) 4) i = false
  end.
Proof. split; [apply FirstSlotMask_wf|]. apply LowestSetBit_spec, FirstSlotMask_wf. Defined.

(** The hexadecimal text of a mask reads back to the mask. *)
Theorem mask_hex_roundtrip (m : SlotMask) : wf_mask m -> mask_FromHex (mask_ToHex m) = Value m.
Proof.
  intros Hm. unfold mask_FromHex, mask_ToHex. rewrite string_size_chars, chars_of_chars.
  assert (forall w, in_width 64 (word_at m w)) as Hw by (intros; by apply word_at_width).
  cbn [kWords seq rev app map concat read_words].
  rewrite (proj2 (Z.eqb_eq _ _)) by (unfold size; rewrite !length_app; unfold word_hex; by rewrite !length_map).
  cbn [negb]. rewrite !read_word_word_hex by done.
  destruct m as [ws], Hm as [Hl Hf]. unfold kWords in Hl; simpl in Hl.
  destruct ws as [|a [|b [|c [|d [|]]]]]; try discriminate. done.
Qed.

Lemma mask_hex_roundtrip_witness :
  wf_mask (mask_All 96) /\ mask_FromHex (mask_ToHex (mask_All 96)) = Value (mask_All 96).
Proof. split; [apply mask_All_wf|]. apply mask_hex_roundtrip, mask_All_wf. Defined.
