(* ===== verification/Sha256.v ===== *)
(** * Sha256: the streaming hash behind every digest

    [include/opp/sha256.hpp] and [src/sha256.cpp].  A 32-bit word is a [Z]; the
    block buffer is the list of the bytes it holds, so [buffered_] is its
    length (the stale bytes beyond it are never read). *)

From S2P Require Import Prelude Status Ids.

(** Rows of four of the table. *)
Definition kRoundConstants : list Z :=
  Eval cbv in concat
    [[0x428a2f98; 0x71374491; 0xb5c0fbcf; 0xe9b5dba5]; [0x3956c25b; 0x59f111f1; 0x923f82a4; 0xab1c5ed5];
     [0xd807aa98; 0x12835b01; 0x243185be; 0x550c7dc3]; [0x72be5d74; 0x80deb1fe; 0x9bdc06a7; 0xc19bf174];
     [0xe49b69c1; 0xefbe4786; 0x0fc19dc6; 0x240ca1cc]; [0x2de92c6f; 0x4a7484aa; 0x5cb0a9dc; 0x76f988da];
     [0x983e5152; 0xa831c66d; 0xb00327c8; 0xbf597fc7]; [0xc6e00bf3; 0xd5a79147; 0x06ca6351; 0x14292967];
     [0x27b70a85; 0x2e1b2138; 0x4d2c6dfc; 0x53380d13]; [0x650a7354; 0x766a0abb; 0x81c2c92e; 0x92722c85];
     [0xa2bfe8a1; 0xa81a664b; 0xc24b8b70; 0xc76c51a3]; [0xd192e819; 0xd6990624; 0xf40e3585; 0x106aa070];
     [0x19a4c116; 0x1e376c08; 0x2748774c; 0x34b0bcb5]; [0x391c0cb3; 0x4ed8aa4a; 0x5b9cca4f; 0x682e6ff3];
     [0x748f82ee; 0x78a5636f; 0x84c87814; 0x8cc70208]; [0x90befffa; 0xa4506ceb; 0xbef9a3f7; 0xc67178f2]].

Definition RotateRight (value count : Z) : Z :=
  Z.lor (Z.shiftr value count) (wrap32 (Z.shiftl value (32 - count))).

Record Sha256 := MkSha { state_ : list Z; buffer_ : list Z; total_bytes_ : Z }.

Definition initial_state : list Z :=
  [0x6a09e667; 0xbb67ae85; 0x3c6ef372; 0xa54ff53a; 0x510e527f; 0x9b05688c; 0x1f83d9ab; 0x5be0cd19].

(** [Reset], and the default constructor. *)
Definition Sha_Reset : Sha256 := MkSha initial_state [] 0.

(** ** Compression *)

(** The first 16 schedule words: big-endian groups of four bytes. *)
Fixpoint load_words (bytes : list Z) : list Z :=
  match bytes with
  | b0 :: b1 :: b2 :: b3 :: rest =>
      Z.lor (Z.lor (Z.lor (Z.shiftl b0 24) (Z.shiftl b1 16)) (Z.shiftl b2 8)) b3 :: load_words rest
  | _ => []
  end.

(** One more schedule word; the list is kept newest first. *)
Definition extend_schedule (rev_schedule : list Z) : list Z :=
  let w i := nth i rev_schedule 0 in
  let s0 := Z.lxor (Z.lxor (RotateRight (w 14%nat) 7) (RotateRight (w 14%nat) 18)) (Z.shiftr (w 14%nat) 3) in
  let s1 := Z.lxor (Z.lxor (RotateRight (w 1%nat) 17) (RotateRight (w 1%nat) 19)) (Z.shiftr (w 1%nat) 10) in
  wrap32 (w 15%nat + s0 + w 6%nat + s1) :: rev_schedule.

Definition schedule (block : list Z) : list Z :=
  rev (Nat.iter 48 extend_schedule (rev (load_words block))).

Definition round (working : list Z) (kw : Z * Z) : list Z :=
  match working with
  | [a; b; c; d; e; f; g; h] =>
      let s1 := Z.lxor (Z.lxor (RotateRight e 6) (RotateRight e 11)) (RotateRight e 25) in
      let choose := Z.lxor (Z.land e f) (Z.land (wrap32 (Z.lnot e)) g) in
      let temp1 := wrap32 (h + s1 + choose + kw.1 + kw.2) in
      let s0 := Z.lxor (Z.lxor (RotateRight a 2) (RotateRight a 13)) (RotateRight a 22) in
      let majority := Z.lxor (Z.lxor (Z.land a b) (Z.land a c)) (Z.land b c) in
      let temp2 := wrap32 (s0 + majority) in
      [wrap32 (temp1 + temp2); a; b; c; wrap32 (d + temp1); e; f; g]
  | _ => working
  end.

Definition Compress (st block : list Z) : list Z :=
  let working := fold_left round (combine kRoundConstants (schedule block)) st in
  map (fun '(s, w) => wrap32 (s + w)) (combine st working).

(** ** Streaming *)

Definition kBlockBytes : nat := 64.

(** [while (size - offset >= kBlockBytes)]: the state after the whole blocks,
    and the bytes left.  The number of bytes is fuel enough. *)
Fixpoint compress_blocks (fuel : nat) (st data : list Z) : list Z * list Z :=
  match fuel with
  | O => (st, data)
  | S f =>
      if (kBlockBytes <=? length data)%nat
      then compress_blocks f (Compress st (firstn kBlockBytes data)) (skipn kBlockBytes data)
      else (st, data)
  end.

Definition Sha_Update (h : Sha256) (data : list Z) : Sha256 :=
  if (length data =? 0)%nat then h
  else
    let total := wrap64 (total_bytes_ h + size data) in
    (* top up a partial block *)
    let '(st, buffer, data) :=
      if (0 <? length (buffer_ h))%nat then
        let need := (kBlockBytes - length (buffer_ h))%nat in
        let buffer := buffer_ h ++ firstn need data in
        if (length buffer =? kBlockBytes)%nat
        then (Compress (state_ h) buffer, [], skipn need data)
        else (state_ h, buffer, skipn need data)
      else (state_ h, buffer_ h, data) in
    let '(st, rest) := compress_blocks (length data) st data in
    MkSha st (buffer ++ rest) total.

(** [while (copy.buffered_ != 56) copy.Update(&zero, 1)]: at most 63 bytes. *)
Fixpoint pad_zeros (fuel : nat) (h : Sha256) : Sha256 :=
  match fuel with
  | O => h
  | S f => if (length (buffer_ h) =? 56)%nat then h else pad_zeros f (Sha_Update h [0])
  end.

Definition length_bytes (bit_length : Z) : list Z :=
  map (fun i => Z.land (Z.shiftr bit_length (56 - 8 * Z.of_nat i)) 255) (seq 0 8).

Definition word_bytes (w : Z) : list Z :=
  [Z.land (Z.shiftr w 24) 255; Z.land (Z.shiftr w 16) 255; Z.land (Z.shiftr w 8) 255; Z.land w 255].

Definition Sha_Finalize (h : Sha256) : Digest256 :=
  let bit_length := wrap64 (total_bytes_ h * 8) in
  let copy := Sha_Update h [128] in
  let copy := pad_zeros 64 copy in
  let copy := Sha_Update copy (length_bytes bit_length) in
  MkDigest (concat (map word_bytes (state_ copy))).

Definition Sha_UpdateText (h : Sha256) (t : string) : Sha256 := Sha_Update h (string_bytes t).
Definition Sha_Of (t : string) : Digest256 := Sha_Finalize (Sha_UpdateText Sha_Reset t).

(** ** The self-test *)

Definition sha_vectors : list (string * string) :=
  [("", "e3b0c44298fc1c149afbf4c8996fb92427ae41e4649b934ca495991b7852b855");
   ("abc", "ba7816bf8f01cfea414140de5dae2223b00361a396177a9cb410ff61f20015ad");
   ("abcdbcdecdefdefgefghfghighijhijkijkljklmklmnlmnomnopnopq",
    "248d6a61d20638b8e5c026930c3e6039a33ce45964ff2167f6ecedd419db06c1");
   ("The quick brown fox jumps over the lazy dog",
    "d7a8fbb307d7809469ca9abcb0082e4f8d5651e46d3cdb762d02d0bf37c9e592");
   ("abcdefghbcdefghicdefghijdefghijkefghijklfghijklmghijklmnhijklmnoijklmnopjklmnopqklmnopqrlmnopqrsmnopqrstnopqrstu",
    "cf5b16a778af8380036ce59e7b0492370b249b11e8f07a51afac45037afee9d1")].

Definition sha_message : list Z := map (fun i => 97 + Z.of_nat i mod 26) (seq 0 1000).

Definition vector_fails (v : string * string) : bool := negb (String.eqb (Digest_ToHex (Sha_Of (fst v))) (snd v)).

Definition sha_one_shot (message : list Z) : Digest256 := Sha_Finalize (Sha_Update Sha_Reset message).
Definition sha_incremental (message : list Z) : Digest256 :=
  Sha_Finalize (fold_left (fun h b => Sha_Update h [b]) message Sha_Reset).

Definition run_self_test (vectors : list (string * string)) (message : list Z) : bool * string :=
  match List.find vector_fails vectors with
  | Some v => (false, "sha256 vector mismatch: got " +:+ Digest_ToHex (Sha_Of (fst v)) +:+ " want " +:+ snd v)
  | None =>
      if negb (digest_eqb (sha_incremental message) (sha_one_shot message))
      then (false, "sha256 incremental hashing disagrees with one-shot hashing")
      else (true, "sha256 vectors ok")
  end.

Definition Sha256SelfTest : bool * string := run_self_test sha_vectors sha_message.

(** ** Reference: pad the whole message, then compress its blocks in order *)

Definition padding_zeros (n : nat) : nat := (119 - n mod 64) mod 64.

Definition padded (m : list Z) : list Z :=
  m ++ [128] ++ repeat 0 (padding_zeros (length m)) ++ length_bytes (wrap64 (size m * 8)).

Definition sha256_reference (m : list Z) : Digest256 :=
  MkDigest (concat (map word_bytes (fst (compress_blocks (length (padded m)) initial_state (padded m))))).

(** ** Lemmas *)

Lemma compress_blocks_short fuel st data : (length data < kBlockBytes)%nat -> compress_blocks fuel st data = (st, data).
Proof. intros H. destruct fuel; cbn [compress_blocks]; [done|]. by rewrite (proj2 (Nat.leb_gt _ _)). Qed.

Lemma compress_blocks_step fuel st data :
  (kBlockBytes <= length data)%nat -> (length data <= fuel)%nat ->
  compress_blocks fuel st data =
  compress_blocks (length (skipn kBlockBytes data)) (Compress st (firstn kBlockBytes data)) (skipn kBlockBytes data).
Proof.
  revert st data; induction fuel as [fuel IH] using lt_wf_ind; intros st data Hb Hf.
  destruct fuel as [|f]; [unfold kBlockBytes in *; lia|]. cbn [compress_blocks].
  rewrite (proj2 (Nat.leb_le _ _)) by done.
  assert (length (skipn kBlockBytes data) <= f)%nat as Hle.
  { rewrite length_skipn. unfold kBlockBytes in *. lia. }
  destruct (Nat.le_gt_cases kBlockBytes (length (skipn kBlockBytes data))) as [Hge|Hlt].
  - rewrite IH by lia. symmetry. apply IH; [rewrite length_skipn in *; unfold kBlockBytes in *; lia|done|lia].
  - by rewrite !compress_blocks_short.
Qed.

Lemma compress_blocks_fuel fuel st data :
  (length data <= fuel)%nat -> compress_blocks fuel st data = compress_blocks (length data) st data.
Proof.
  intros Hf. destruct (Nat.le_gt_cases kBlockBytes (length data)) as [Hge|Hlt].
  - by rewrite compress_blocks_step, (compress_blocks_step (length data)) by lia.
  - by rewrite !compress_blocks_short.
Qed.

(** Compressing more data after some data is compressing their concatenation. *)
Lemma compress_blocks_app st m d :
  let '(st', r) := compress_blocks (length m) st m in
  compress_blocks (length (m ++ d)) st (m ++ d) = compress_blocks (length (r ++ d)) st' (r ++ d).
Proof.
  remember (length m) as n eqn:Hn. assert (length m <= n)%nat as Hle by lia. clear Hn.
  revert st m Hle; induction n as [n IH] using lt_wf_ind; intros st m Hle.
  destruct (Nat.le_gt_cases kBlockBytes (length m)) as [Hge|Hlt].
  - rewrite compress_blocks_step by done.
    rewrite (compress_blocks_step _ st (m ++ d)) by (rewrite ?length_app; lia).
    rewrite firstn_app, skipn_app. replace (kBlockBytes - length m)%nat with 0%nat by lia.
    simpl firstn. simpl skipn. rewrite app_nil_r.
    apply (IH (length (skipn kBlockBytes m))); [|done].
    rewrite length_skipn. unfold kBlockBytes in *. lia.
  - by rewrite compress_blocks_short.
Qed.

Lemma compress_blocks_rest st m : (length (snd (compress_blocks (length m) st m)) < kBlockBytes)%nat.
Proof.
  remember (length m) as n eqn:Hn. assert (length m <= n)%nat as Hle by lia. clear Hn.
  revert st m Hle; induction n as [n IH] using lt_wf_ind; intros st m Hle.
  destruct (Nat.le_gt_cases kBlockBytes (length m)) as [Hge|Hlt].
  - rewrite compress_blocks_step by done. apply (IH (length (skipn kBlockBytes m))); [|done].
    rewrite length_skipn. unfold kBlockBytes in *. lia.
  - by rewrite compress_blocks_short.
Qed.

(** The hasher holds message [m]: the whole blocks are in the state, the tail
    in the buffer, and the length in the counter. *)
Definition holds (h : Sha256) (m : list Z) : Prop :=
  compress_blocks (length m) initial_state m = (state_ h, buffer_ h) /\
  total_bytes_ h = wrap64 (size m).

Lemma holds_buffer h m : holds h m -> (length (buffer_ h) < kBlockBytes)%nat.
Proof. intros [Hc _]. pose proof (compress_blocks_rest initial_state m) as Hr. by rewrite Hc in Hr. Qed.

Lemma holds_reset : holds Sha_Reset [].
Proof. done. Qed.

Lemma Update_state h data :
  (length (buffer_ h) < kBlockBytes)%nat ->
  let '(st, r) := compress_blocks (length (buffer_ h ++ data)) (state_ h) (buffer_ h ++ data) in
  state_ (Sha_Update h data) = st /\ buffer_ (Sha_Update h data) = r.
Proof.
  intros Hb. unfold Sha_Update. destruct (Nat.eqb_spec (length data) 0) as [E|E].
  { destruct data; [|done]. rewrite app_nil_r. by rewrite compress_blocks_short. }
  destruct (Nat.ltb_spec 0 (length (buffer_ h))) as [Hpos|Hzero].
  - set (need := (kBlockBytes - length (buffer_ h))%nat).
    assert (length (buffer_ h ++ firstn need data) = Nat.min kBlockBytes (length (buffer_ h) + length data)) as Hlen.
    { rewrite length_app, length_firstn. unfold need. lia. }
    destruct (Nat.eqb_spec (length (buffer_ h ++ firstn need data)) kBlockBytes) as [Hfull|Hpart].
    + rewrite compress_blocks_step by (rewrite ?length_app; lia).
      rewrite firstn_app, skipn_app, (firstn_all2 (buffer_ h)), (skipn_all2 (buffer_ h)) by lia. fold need.
      simpl app at 2 3. by destruct (compress_blocks _ _ _).
    + rewrite (firstn_all2 data), (skipn_all2 data) by (unfold need; lia).
      cbn [compress_blocks length]. rewrite compress_blocks_short by (rewrite length_app; lia).
      simpl. by rewrite app_nil_r.
  - destruct (buffer_ h); [|simpl in *; lia]. simpl app. by destruct (compress_blocks _ _ _).
Qed.

Lemma Update_total h data : total_bytes_ (Sha_Update h data) = if (length data =? 0)%nat then total_bytes_ h else wrap64 (total_bytes_ h + size data).
Proof.
  unfold Sha_Update. destruct (length data =? 0)%nat; [done|].
  destruct (if (0 <? length (buffer_ h))%nat then _ else _) as [[st b] d].
  by destruct (compress_blocks (length d) st d).
Qed.

Lemma holds_update h m data : holds h m -> holds (Sha_Update h data) (m ++ data).
Proof.
  intros Hh. pose proof (holds_buffer _ _ Hh) as Hb. destruct Hh as [Hc Ht].
  pose proof (compress_blocks_app initial_state m data) as Happ. rewrite Hc in Happ.
  pose proof (Update_state h data Hb) as Hu. split.
  - rewrite Happ. destruct (compress_blocks _ (state_ h) _) as [st r]. by destruct Hu as [-> ->].
  - rewrite Update_total, Ht, size_app. destruct (Nat.eqb_spec (length data) 0) as [E|E].
    + unfold size. rewrite E. by rewrite Z.add_0_r.
    + apply wrap_add_l.
Qed.

Lemma buffer_mod h m : holds h m -> length (buffer_ h) = (length m mod 64)%nat.
Proof.
  intros [Hc _]. assert (forall n st l, (length l <= n)%nat ->
    length (snd (compress_blocks (length l) st l)) = (length l mod 64)%nat) as Hgen.
  { induction n as [n IH] using lt_wf_ind. intros st l Hle.
    destruct (Nat.le_gt_cases kBlockBytes (length l)) as [Hge|Hlt].
    - rewrite compress_blocks_step by done.
      rewrite (IH (length (skipn kBlockBytes l))) by (rewrite length_skipn; unfold kBlockBytes in *; lia).
      rewrite length_skipn. unfold kBlockBytes in *.
      replace (length l) with ((length l - 64) + 1 * 64)%nat at 2 by lia. by rewrite Nat.Div0.mod_add.
    - rewrite compress_blocks_short by done. cbn [snd]. unfold kBlockBytes in *. by rewrite Nat.mod_small. }
  specialize (Hgen _ initial_state m (Nat.le_refl _)). by rewrite Hc in Hgen.
Qed.

(** The zero-padding loop appends exactly the zeros that reach byte 56. *)
Lemma pad_zeros_holds fuel h m :
  holds h m -> ((120 - length m mod 64) mod 64 <= fuel)%nat ->
  holds (pad_zeros fuel h) (m ++ repeat 0 ((120 - length m mod 64) mod 64)).
Proof.
  revert h m; induction fuel as [|f IH]; intros h m Hh Hle.
  - replace ((120 - length m mod 64) mod 64)%nat with 0%nat by lia. simpl. by rewrite app_nil_r.
  - cbn [pad_zeros]. rewrite (buffer_mod _ _ Hh).
    pose proof (Nat.mod_upper_bound (length m) 64 ltac:(lia)) as Hub.
    destruct (Nat.eqb_spec (length m mod 64) 56) as [E|E].
    + rewrite E. change ((120 - 56) mod 64)%nat with 0%nat. simpl. by rewrite app_nil_r.
    + set (k := (length m mod 64)%nat) in *.
      assert (((120 - k) mod 64) = S ((120 - length (m ++ [0%Z]) mod 64) mod 64))%nat as Hk.
      { rewrite length_app. cbn [length]. rewrite Nat.Div0.add_mod. fold k. change (1 mod 64)%nat with 1%nat.
        destruct (Nat.eq_dec k 63%nat) as [->|]; [done|]. rewrite (Nat.mod_small (k + 1)) by lia.
        destruct (Nat.lt_ge_cases k 56%nat).
        - replace (120 - k)%nat with ((56 - k) + 1 * 64)%nat by lia.
          replace (120 - (k + 1))%nat with ((55 - k) + 1 * 64)%nat by lia.
          rewrite !Nat.Div0.mod_add. rewrite !Nat.mod_small by lia. lia.
        - rewrite !Nat.mod_small by lia. lia. }
      rewrite Hk. cbn [repeat]. change (0 :: ?l) with ([0] ++ l). rewrite app_assoc.
      apply IH; [by apply holds_update|]. lia.
Qed.

(** Every digest has 32 bytes: the state keeps its eight words. *)
Lemma Compress_words st block : length st = 8%nat -> length (Compress st block) = 8%nat.
Proof.
  intros Hst. unfold Compress. rewrite length_map, length_combine.
  assert (forall kws w, length (fold_left round kws w) = length w) as ->; [|lia].
  induction kws as [|kw kws IH]; intros w; [done|]. cbn [fold_left]. rewrite IH.
  destruct w as [|a [|b [|c [|d [|e [|f [|g [|h [|]]]]]]]]]; reflexivity.
Qed.

Lemma compress_blocks_words fuel st data :
  length st = 8%nat -> length (fst (compress_blocks fuel st data)) = 8%nat.
Proof.
  revert st data; induction fuel as [|f IH]; intros st data Hst; [done|]. cbn [compress_blocks].
  destruct (kBlockBytes <=? length data)%nat; [|done]. by apply IH, Compress_words.
Qed.

Lemma Update_words h data : length (state_ h) = 8%nat -> length (state_ (Sha_Update h data)) = 8%nat.
Proof.
  intros Hh. unfold Sha_Update. destruct (length data =? 0)%nat; [done|]. cbv zeta.
  set (topped := if (0 <? length (buffer_ h))%nat then _ else _).
  assert (length (fst (fst topped)) = 8%nat) as Ht.
  { unfold topped. destruct (0 <? length (buffer_ h))%nat; [|done]. case_match; [by apply Compress_words|done]. }
  destruct topped as [[st buffer] data']. cbn [fst] in Ht.
  pose proof (compress_blocks_words (length data') st data' Ht) as Hc.
  by destruct (compress_blocks (length data') st data').
Qed.

Lemma Finalize_wide h : length (state_ h) = 8%nat -> wf_bytes 32 (digest_bytes (Sha_Finalize h)).
Proof.
  intros Hh. unfold Sha_Finalize. cbv zeta. cbn [digest_bytes].
  set (copy := Sha_Update (pad_zeros 64 _) _).
  assert (length (state_ copy) = 8%nat) as Hc.
  { apply Update_words.
    assert (forall f g, length (state_ g) = 8%nat -> length (state_ (pad_zeros f g)) = 8%nat) as Hp.
    { induction f as [|f IH]; intros g Hg; [done|]. cbn [pad_zeros]. case_match; [done|]. by apply IH, Update_words. }
    by apply Hp, Update_words. }
  assert (forall w, length (word_bytes w) = 4%nat /\ Forall (in_width 8) (word_bytes w)) as Hw.
  { intros w. split; [done|]. unfold word_bytes, in_width.
    repeat constructor; rewrite (Z.land_ones _ 8) by lia; by apply Z.mod_pos_bound. }
  split.
  - unfold size. assert (forall ws, length (concat (map word_bytes ws)) = (4 * length ws)%nat) as ->.
    { induction ws as [|w ws IH]; [done|]. cbn [map concat]. rewrite length_app, IH, (proj1 (Hw w)). simpl. lia. }
    by rewrite Hc.
  - apply List.Forall_forall. intros b (l & (w & <- & _)%in_map_iff & Hb)%in_concat.
    revert b Hb. apply List.Forall_forall, Hw.
Qed.

(** ** Theorems *)

(** C31: streaming equals one-shot.  However a message is cut into pieces, the
    sequence of [Update] calls followed by [Finalize] is the hash of the
    concatenation as the reference defines it. *)
Theorem streaming_is_reference (pieces : list (list Z)) :
  Sha_Finalize (fold_left Sha_Update pieces Sha_Reset) = sha256_reference (concat pieces).
Proof.
  assert (holds (fold_left Sha_Update pieces Sha_Reset) (concat pieces)) as Hh.
  { rewrite <- (app_nil_l (concat pieces)). pose proof holds_reset as H0. revert H0.
    generalize Sha_Reset (@nil Z). induction pieces as [|p ps IH]; intros h m Hm; simpl; [by rewrite app_nil_r|].
    rewrite app_assoc. by apply IH, holds_update. }
  set (h := fold_left _ _ _) in *. set (m := concat pieces) in *.
  pose proof (holds_update _ _ [128] Hh) as H1.
  pose proof (pad_zeros_holds 64 _ _ H1) as H2.
  unfold Sha_Finalize, sha256_reference. rewrite (proj2 Hh). do 3 f_equal.
  assert ((120 - length (m ++ [128%Z]) mod 64) mod 64 = padding_zeros (length m))%nat as Hz.
  { unfold padding_zeros. rewrite length_app. cbn [length]. rewrite Nat.Div0.add_mod.
    pose proof (Nat.mod_upper_bound (length m) 64 ltac:(lia)). change (1 mod 64)%nat with 1%nat.
    destruct (Nat.eq_dec (length m mod 64)%nat 63%nat) as [->|]; [done|].
    rewrite (Nat.mod_small (_ + 1)) by lia. f_equal. lia. }
  rewrite Hz in H2.
  specialize (H2 ltac:(unfold padding_zeros; pose proof (Nat.mod_upper_bound (119 - length m mod 64) 64); lia)).
  assert (wrap64 (wrap64 (size m) * 8) = wrap64 (size m * 8)) as -> by apply Zmult_mod_idemp_l.
  pose proof (holds_update _ _ (length_bytes (wrap64 (size m * 8))) H2) as [H3 _].
  unfold padded. rewrite !app_assoc in *. by rewrite H3.
Qed.

(** The self-test of the library passes: the published vectors, and the
    thousand-byte message hashed one byte at a time. *)
Theorem self_test_passes : Sha256SelfTest = (true, "sha256 vectors ok").
Proof. vm_compute. reflexivity. Qed.
