(* ===== verification/Canonical.v ===== *)
(** * Canonical: checked arithmetic, token text, lines and binary payloads

    [include/opp/canonical.hpp] and [src/canonical.cpp]. *)

From S2P Require Import Prelude Status Ids Doubles Sha256.

(** ** Checked arithmetic: [None] is the [false] return *)

Definition AddCheckedU64 (lhs rhs : Z) : option Z :=
  if u64_max - rhs <? lhs then None else Some (lhs + rhs).

Definition MulCheckedU64 (lhs rhs : Z) : option Z :=
  if negb (lhs =? 0) && (u64_max / lhs <? rhs) then None else Some (wrap64 (lhs * rhs)).

(** ** Tokens *)

Definition kMaxTokenBytes : Z := 1024.

Definition IsHexDigit (c : ascii) : bool :=
  is_digit c || ((97 <=? byte_of c) && (byte_of c <=? 102)) || ((65 <=? byte_of c) && (byte_of c <=? 70)).

Definition IsRawTokenCharacter (c : ascii) : bool :=
  is_alnum c || Ascii.eqb c "_" || Ascii.eqb c "." || Ascii.eqb c ":" || Ascii.eqb c "@" ||
  Ascii.eqb c "/" || Ascii.eqb c "+" || Ascii.eqb c "*" || Ascii.eqb c "=" || Ascii.eqb c "-".

Definition IsSafeToken (t : string) : bool :=
  if bool_decide (t = "") || (kMaxTokenBytes <? string_size t) then false
  else forallb (fun c => IsRawTokenCharacter c || Ascii.eqb c "%") (chars t).

Definition needs_escaping (raw : string) : bool :=
  if bool_decide (raw = "") || (kMaxTokenBytes <? string_size raw) then true
  else negb (forallb IsRawTokenCharacter (chars raw)).

Definition kHex : list ascii := chars "0123456789ABCDEF".
Definition upper_hex (d : Z) : ascii := nth (Z.to_nat d) kHex "0"%char.

Definition escape_char (c : ascii) : list ascii :=
  if IsRawTokenCharacter c then [c]
  else ["%"%char; upper_hex (Z.land (Z.shiftr (byte_of c) 4) 15); upper_hex (Z.land (byte_of c) 15)].

Definition EncodeToken (raw : string) : string :=
  if negb (needs_escaping raw) then raw
  else
    let out := of_chars (concat (map escape_char (chars raw))) in
    if bool_decide (out = "") then "%" else out.

Fixpoint decode_chars (token : list ascii) : option (list ascii) :=
  match token with
  | [] => Some []
  | c :: rest =>
      if Ascii.eqb c "%" then
        match rest with
        | h :: l :: rest' =>
            if IsHexDigit h && IsHexDigit l then
              cons (char_of (wrap8 (Z.lor (Z.shiftl (HexValue h) 4) (HexValue l)))) <$> decode_chars rest'
            else None
        | _ => None
        end
      else cons c <$> decode_chars rest
  end.

Definition DecodeToken (token : string) : Expected string :=
  if bool_decide (token = "") then Error (Failure StatusCode.MalformedInput "empty token")
  else if kMaxTokenBytes * 3 <? string_size token then
    Error (Failure StatusCode.MalformedInput "token exceeds the maximum encoded length")
  else if String.eqb token "%" then Value ""
  else
    match decode_chars (chars token) with
    | Some out => Value (of_chars out)
    | None => Error (Failure StatusCode.MalformedInput "truncated percent escape in token")
    end.

(** ** Numbers *)

Definition FormatDouble `{Platform} (value : double) : Expected string :=
  if negb (isfinite value) then
    Error (Failure StatusCode.InvalidArgument "non-finite double cannot be encoded canonically")
  else
    let t := to_chars value in
    Value (if String.eqb t "-0" then "0" else t).

Definition is_double_char (c : ascii) : bool :=
  is_digit c || Ascii.eqb c "." || Ascii.eqb c "-" || Ascii.eqb c "+" || Ascii.eqb c "e" || Ascii.eqb c "E".

Definition ParseDouble `{Platform} (t : string) : Expected double :=
  if bool_decide (t = "") then Error (Failure StatusCode.MalformedInput "double must not be empty")
  else if negb (forallb is_double_char (chars t)) then
    Error (Failure StatusCode.MalformedInput "double contains characters outside the numeric grammar")
  else
    match from_chars t with
    | None => Error (Failure StatusCode.MalformedInput "double could not be parsed exactly")
    | Some value =>
        if negb (isfinite value) then
          Error (Failure StatusCode.MalformedInput "non-finite double is not valid evidence")
        else Value value
    end.

Definition NormaliseDecodeStatus (s : Status) : Status :=
  match code s with
  | StatusCode.Ok | StatusCode.Unsupported | StatusCode.LimitExceeded | StatusCode.IntegrityFailure => s
  | _ => Failure StatusCode.MalformedInput (StatusCodeName (code s) +:+ ": " +:+ detail s)
  end.

Definition FormatU64 (v : Z) : string := to_string v.
Definition FormatU32 (v : Z) : string := to_string v.
Definition FormatU16 (v : Z) : string := to_string v.

Definition ParseUnsigned (t : string) (maximum : Z) (what : string) : Expected Z :=
  if bool_decide (t = "") then Error (Failure StatusCode.MalformedInput (what +:+ " must not be empty"))
  else if negb (forallb is_digit (chars t)) then
    Error (Failure StatusCode.MalformedInput (what +:+ " must be an unsigned decimal integer"))
  else
    let value := decimal_value t in
    (* [std::from_chars] reports a value that does not fit 64 bits *)
    if u64_max <? value then Error (Failure StatusCode.MalformedInput (what +:+ " is out of range"))
    else if maximum <? value then Error (Failure StatusCode.MalformedInput (what +:+ " is out of range"))
    else Value value.

Definition ParseU64 (t : string) : Expected Z := ParseUnsigned t u64_max "u64".
Definition ParseU32 (t : string) : Expected Z := ParseUnsigned t u32_max "u32".
Definition ParseU16 (t : string) : Expected Z := ParseUnsigned t u16_max "u16".

Definition ParseBoolToken (t : string) : Expected bool :=
  if String.eqb t "true" || String.eqb t "1" then Value true
  else if String.eqb t "false" || String.eqb t "0" then Value false
  else Error (Failure StatusCode.MalformedInput "boolean token must be true, false, 1 or 0").

(** ** Lines: [LineAssembler] is the text of the line so far *)

Definition spaced (line : string) : string := if bool_decide (line = "") then "" else line +:+ " ".

Definition Line_Begin (record : string) : string := record.
Definition Line_Add (line token : string) : string := spaced line +:+ EncodeToken token.
Definition Line_AddU64 (line : string) (v : Z) : string := spaced line +:+ FormatU64 v.
Definition Line_AddU32 := Line_AddU64.
Definition Line_AddU16 := Line_AddU64.
Definition double_or_nan `{Platform} (v : double) : string := ValueOr (FormatDouble v) "nan".
Definition Line_AddDouble `{Platform} (line : string) (v : double) : string := spaced line +:+ double_or_nan v.
Definition Line_AddKeyRaw (line key value : string) : string := spaced line +:+ key +:+ "=" +:+ value.
Definition Line_AddKeyU64 (line key : string) (v : Z) : string := spaced line +:+ key +:+ "=" +:+ FormatU64 v.
Definition Line_AddKeyDouble `{Platform} (line key : string) (v : double) : string :=
  spaced line +:+ key +:+ "=" +:+ double_or_nan v.
Definition Line_AddKeyToken (line key value : string) : string :=
  spaced line +:+ key +:+ "=" +:+ EncodeToken value.

Definition is_blank (c : ascii) : bool := Ascii.eqb c " " || Ascii.eqb c (char_of 9).

(** The maximal runs of non-blank characters; [word] is the run being read. *)
Fixpoint split_words (word : list ascii) (l : list ascii) : list string :=
  let emit rest := if (length word =? 0)%nat then rest else of_chars (rev word) :: rest in
  match l with
  | [] => emit []
  | c :: rest => if is_blank c then emit (split_words [] rest) else split_words (c :: word) rest
  end.

Definition SplitTokens (line : string) : Expected (list string) :=
  if bool_decide (line = "") then Error (Failure StatusCode.MalformedInput "empty line")
  else if kMaxTextLineBytes <? string_size line then
    Error (Failure StatusCode.LimitExceeded "line exceeds the maximum text line length")
  else
    let tokens := split_words [] (chars line) in
    if existsb (fun t => kMaxTokenBytes <? string_size t) tokens then
      Error (Failure StatusCode.LimitExceeded "token exceeds the maximum token length")
    else
      match tokens with
      | [] => Error (Failure StatusCode.MalformedInput "line contains no tokens")
      | _ => Value tokens
      end.

Fixpoint strip_prefix (prefix s : string) : option string :=
  match prefix, s with
  | EmptyString, _ => Some s
  | String c p, String d t => if Ascii.eqb c d then strip_prefix p t else None
  | String _ _, EmptyString => None
  end.

(** The value of a token spelled [key=value]. *)
Definition keyed_value (key token : string) : option string :=
  match strip_prefix key token with
  | Some (String c v) => if Ascii.eqb c "=" then Some v else None
  | _ => None
  end.

Definition FindKeyedField (tokens : list string) (first_index : nat) (key : string) : Expected string :=
  match omap (keyed_value key) (skipn first_index tokens) with
  | [] => Error (Failure StatusCode.NotFound ("missing field '" +:+ key +:+ "'"))
  | [v] => Value v
  | _ => Error (Failure StatusCode.MalformedInput ("duplicate field '" +:+ key +:+ "'"))
  end.

(** ** Binary payloads *)

(** [ByteWriter]: the bytes so far. *)
Definition le_bytes (n : nat) (v : Z) : list Z := map (fun i => Z.land (Z.shiftr v (Z.of_nat i * 8)) 255) (seq 0 n).

Definition Writer_U8 (b : list Z) (v : Z) : list Z := b ++ [v].
Definition Writer_U16 (b : list Z) (v : Z) : list Z := b ++ le_bytes 2 v.
Definition Writer_U32 (b : list Z) (v : Z) : list Z := b ++ le_bytes 4 v.
Definition Writer_U64 (b : list Z) (v : Z) : list Z := b ++ le_bytes 8 v.
Definition Writer_Bool (b : list Z) (v : bool) : list Z := Writer_U8 b (if v then 1 else 0).
Definition Writer_Bytes (b : list Z) (bytes : list Z) : list Z := Writer_U32 b (wrap32 (size bytes)) ++ bytes.
Definition Writer_Digest (b : list Z) (d : Digest256) : list Z := b ++ digest_bytes d.
Definition Writer_Incarnation (b : list Z) (i : IncarnationId) : list Z := b ++ incarnation_bytes i.

(** [ByteReader]: a failed read answers the status and leaves the reader where
    the failing [Take] found it. *)
Record ByteReader := MkReader { bytes_ : list Z; offset_ : nat }.

Definition remaining (r : ByteReader) : nat := length (bytes_ r) - offset_ r.
Definition AtEnd (r : ByteReader) : bool := (offset_ r =? length (bytes_ r))%nat.

Definition Take (r : ByteReader) (count : nat) : Expected (list Z) * ByteReader :=
  if (remaining r <? count)%nat then (Error (Failure StatusCode.MalformedInput "payload is truncated"), r)
  else (Value (firstn count (skipn (offset_ r) (bytes_ r))), MkReader (bytes_ r) (offset_ r + count)).

(** [data[0] | data[1] << 8 | ...] *)
Fixpoint le_value (data : list Z) : Z :=
  match data with
  | [] => 0
  | b :: rest => Z.lor b (Z.shiftl (le_value rest) 8)
  end.

Definition Reader_uint (n : nat) (r : ByteReader) : Expected Z * ByteReader :=
  let '(slice, r') := Take r n in
  (match slice with Value data => Value (le_value data) | Error s => Error s end, r').

Definition Reader_U8 := Reader_uint 1.
Definition Reader_U16 := Reader_uint 2.
Definition Reader_U32 := Reader_uint 4.
Definition Reader_U64 := Reader_uint 8.

Definition Reader_Bool (r : ByteReader) : Expected bool * ByteReader :=
  let '(value, r') := Reader_U8 r in
  (match value with
   | Error s => Error s
   | Value v =>
       if 1 <? v then Error (Failure StatusCode.MalformedInput "boolean byte must be 0 or 1") else Value (v =? 1)
   end, r').

Definition Reader_Bytes (r : ByteReader) : Expected (list Z) * ByteReader :=
  let '(len, r') := Reader_U32 r in
  match len with
  | Error s => (Error s, r')
  | Value n => Take r' (Z.to_nat n)
  end.

Definition Reader_Digest (r : ByteReader) : Expected Digest256 * ByteReader :=
  let '(slice, r') := Take r 32 in
  (match slice with Value d => Value (MkDigest d) | Error s => Error s end, r').

Definition Reader_Incarnation (r : ByteReader) : Expected IncarnationId * ByteReader :=
  let '(slice, r') := Take r 16 in
  (match slice with Value d => Value (MkIncarnation d) | Error s => Error s end, r').

Definition ExpectEnd (r : ByteReader) : Status :=
  if negb (AtEnd r) then Failure StatusCode.MalformedInput "payload has trailing bytes" else OkStatus.

(** ** Text digests

    Every digest of the runtime is the hash of a sequence of text pieces.  The
    interface is what the clients use; [sha_hasher] is the implementation. *)

Class Hasher := hash_pieces : list string -> Digest256.

#[export] Instance sha_hasher : Hasher :=
  fun pieces => Sha_Finalize (fold_left Sha_UpdateText pieces Sha_Reset).

(** ** Lemmas: checked arithmetic and numbers *)

Lemma AddCheckedU64_some a b s :
  in_width 64 a -> in_width 64 b -> AddCheckedU64 a b = Some s -> s = a + b /\ in_width 64 s.
Proof.
  unfold AddCheckedU64, in_width. intros Ha Hb.
  destruct (Z.ltb_spec (u64_max - b) a); intros [= <-]. unfold u64_max in *. lia.
Qed.

Lemma ParseUnsigned_to_string n maximum what :
  in_width 64 n -> n <= maximum -> ParseUnsigned (to_string n) maximum what = Value n.
Proof.
  intros Hn Hmax. unfold ParseUnsigned.
  rewrite bool_decide_eq_false_2 by apply to_string_nonempty.
  rewrite (proj2 (forallb_forall _ _)) by (apply to_string_digits; destruct Hn; done).
  cbn [negb]. cbv zeta. rewrite decimal_value_to_string by done.
  destruct Hn as [H0 H1]. unfold u64_max.
  rewrite (proj2 (Z.ltb_ge _ _)), (proj2 (Z.ltb_ge _ _)) by lia. done.
Qed.

(** ** Lemmas: tokens *)

Lemma upper_hex_digit d :
  0 <= d < 16 -> IsHexDigit (upper_hex d) = true /\ HexValue (upper_hex d) = d.
Proof.
  intros Hd. assert (d = 0 \/ d = 1 \/ d = 2 \/ d = 3 \/ d = 4 \/ d = 5 \/ d = 6 \/ d = 7 \/ d = 8 \/
    d = 9 \/ d = 10 \/ d = 11 \/ d = 12 \/ d = 13 \/ d = 14 \/ d = 15) as H by lia.
  repeat destruct H as [->|H]; try (split; reflexivity). subst. split; reflexivity.
Qed.

Lemma byte_width c : in_width 8 (byte_of c).
Proof. pose proof (byte_of_range c). unfold in_width. lia. Qed.

Lemma raw_not_percent c : IsRawTokenCharacter c = true -> Ascii.eqb c "%" = false.
Proof. destruct (Ascii.eqb_spec c "%") as [->|]; [|done]. by vm_compute. Qed.

Lemma decode_escape_char c rest :
  decode_chars (escape_char c ++ rest) = cons c <$> decode_chars rest.
Proof.
  unfold escape_char. destruct (IsRawTokenCharacter c) eqn:Hraw.
  - simpl. by rewrite raw_not_percent.
  - pose proof (hex_high_nibble _ (byte_width c)) as Hh. pose proof (hex_low_nibble (byte_of c)) as Hl.
    destruct (upper_hex_digit _ Hh) as [Hh1 Hh2], (upper_hex_digit _ Hl) as [Hl1 Hl2].
    cbn [app decode_chars]. rewrite Hh1, Hl1, Hh2, Hl2. cbn [Ascii.eqb Bool.eqb andb].
    rewrite nibbles by apply byte_width. unfold wrap8, wrap.
    rewrite Z.mod_small by apply byte_width. by rewrite char_of_byte_of.
Qed.

Lemma decode_escaped l : decode_chars (concat (map escape_char l)) = Some l.
Proof. induction l as [|c l IH]; [done|]. cbn [map concat]. by rewrite decode_escape_char, IH. Qed.

Lemma decode_raw l : forallb IsRawTokenCharacter l = true -> decode_chars l = Some l.
Proof.
  induction l as [|c l IH]; simpl; [done|]. intros [Hc Hl]%andb_true_iff.
  rewrite raw_not_percent by done. by rewrite IH.
Qed.

Lemma escape_char_length c : (1 <= length (escape_char c) <= 3)%nat.
Proof. unfold escape_char. destruct (IsRawTokenCharacter c); simpl; lia. Qed.

Lemma escaped_length l : (length l <= length (concat (map escape_char l)) <= 3 * length l)%nat.
Proof.
  induction l as [|c l IH]; [simpl; lia|]. cbn [map concat]. rewrite length_app.
  pose proof (escape_char_length c). simpl length in *. lia.
Qed.

Lemma string_empty_size s : string_size s <= 0 -> s = "".
Proof. destruct s; [done|]. unfold string_size. simpl. lia. Qed.

Lemma of_chars_size l : string_size (of_chars l) = size l.
Proof. by rewrite string_size_chars, chars_of_chars. Qed.

(** The encoded text of a nonempty value is the escaped characters. *)
Lemma EncodeToken_escaped raw :
  raw <> "" -> EncodeToken raw = raw /\ needs_escaping raw = false \/
  EncodeToken raw = of_chars (concat (map escape_char (chars raw))).
Proof.
  intros Hne. unfold EncodeToken. destruct (needs_escaping raw); simpl; [|by left].
  right. rewrite bool_decide_eq_false_2; [done|]. intros E. apply Hne, string_empty_size.
  apply (f_equal string_size) in E. rewrite of_chars_size in E.
  change (string_size "") with 0 in E. pose proof (escaped_length (chars raw)).
  rewrite string_size_chars. unfold size in *. lia.
Qed.

Lemma blank_not_raw c : IsRawTokenCharacter c = true -> is_blank c = false.
Proof.
  unfold is_blank. destruct (Ascii.eqb_spec c " ") as [->|]; [by vm_compute|].
  destruct (Ascii.eqb_spec c (char_of 9)) as [->|]; [by vm_compute|done].
Qed.

Lemma escape_char_no_blank c x : In x (escape_char c) -> is_blank x = false.
Proof.
  unfold escape_char. destruct (IsRawTokenCharacter c) eqn:Hc.
  - intros [<-|[]]. by apply blank_not_raw.
  - assert (forall d, 0 <= d < 16 -> is_blank (upper_hex d) = false) as Hup.
    { intros d Hd. destruct (upper_hex_digit d Hd) as [Hx _].
      unfold is_blank. destruct (Ascii.eqb_spec (upper_hex d) " ") as [E|]; [by rewrite E in Hx|].
      destruct (Ascii.eqb_spec (upper_hex d) (char_of 9)) as [E|]; [by rewrite E in Hx|done]. }
    intros [<-|[<-|[<-|[]]]]; [done| |]; apply Hup; [apply hex_high_nibble, byte_width|apply hex_low_nibble].
Qed.

Definition no_blanks (t : string) : Prop := forall c, In c (chars t) -> is_blank c = false.

Lemma EncodeToken_no_blanks raw : no_blanks (EncodeToken raw).
Proof.
  unfold EncodeToken, no_blanks. destruct (needs_escaping raw) eqn:Hn; simpl negb; cbv iota.
  - cbv zeta. case_bool_decide; [by intros c [<-|[]]|]. rewrite chars_of_chars. intros c Hc.
    apply in_concat in Hc as (x & Hx & Hc). apply in_map_iff in Hx as (c0 & <- & _).
    by apply escape_char_no_blank in Hc.
  - unfold needs_escaping in Hn. destruct (_ || _); [done|]. apply negb_false_iff in Hn.
    rewrite forallb_forall in Hn. intros c Hc. by apply blank_not_raw, Hn.
Qed.

Lemma EncodeToken_nonempty raw : EncodeToken raw <> "".
Proof.
  destruct (decide (raw = "")) as [->|Hne]; [done|].
  unfold EncodeToken. destruct (needs_escaping raw); simpl; [|done]. by case_bool_decide.
Qed.

(** A token reads back: the lemma behind [token_roundtrip]. *)
Lemma DecodeToken_EncodeToken (raw : string) :
  string_size raw <= kMaxTokenBytes -> DecodeToken (EncodeToken raw) = Value raw.
Proof.
  intros Hsize. destruct (decide (raw = "")) as [->|Hne]; [done|].
  unfold DecodeToken. rewrite bool_decide_eq_false_2 by apply EncodeToken_nonempty.
  destruct (EncodeToken_escaped raw Hne) as [[E Hn]|E].
  - rewrite E, (proj2 (Z.ltb_ge _ _)) by (unfold kMaxTokenBytes in *; lia).
    unfold needs_escaping in Hn. destruct (_ || _); [done|]. apply negb_false_iff in Hn.
    destruct (String.eqb_spec raw "%") as [->|]; [done|]. by rewrite decode_raw, of_chars_chars.
  - pose proof (escaped_length (chars raw)). rewrite E, (proj2 (Z.ltb_ge _ _)).
    2:{ rewrite of_chars_size. rewrite string_size_chars in Hsize. unfold size, kMaxTokenBytes in *. lia. }
    destruct (String.eqb_spec (of_chars (concat (map escape_char (chars raw)))) "%") as [Ep|].
    { apply (f_equal (fun s => decode_chars (chars s))) in Ep. by rewrite chars_of_chars, decode_escaped in Ep. }
    by rewrite chars_of_chars, decode_escaped, of_chars_chars.
Qed.

(** ** Lemmas: splitting *)

Lemma split_words_token w l rest :
  (forall c, In c l -> is_blank c = false) ->
  split_words w (l ++ " "%char :: rest) =
  (if (length (rev l ++ w) =? 0)%nat then split_words [] rest
   else of_chars (rev w ++ l) :: split_words [] rest).
Proof.
  revert w; induction l as [|c l IH]; intros w Hl; simpl.
  - by rewrite app_nil_r.
  - rewrite Hl by (by left). rewrite IH by (intros; apply Hl; by right).
    cbn [rev]. by rewrite <- !app_assoc.
Qed.

Lemma split_words_last w l :
  (forall c, In c l -> is_blank c = false) ->
  split_words w l = if (length (rev l ++ w) =? 0)%nat then [] else [of_chars (rev w ++ l)].
Proof.
  revert w; induction l as [|c l IH]; intros w Hl; simpl.
  - by rewrite app_nil_r.
  - rewrite Hl by (by left). rewrite IH by (intros; apply Hl; by right).
    cbn [rev]. by rewrite <- !app_assoc.
Qed.

Definition word (t : string) : Prop := t <> "" /\ no_blanks t.

Lemma split_words_cons t rest :
  word t -> split_words [] (chars t ++ " "%char :: rest) = t :: split_words [] rest.
Proof.
  intros [Hne Hb]. rewrite split_words_token by done. rewrite app_nil_r, length_rev.
  destruct (Nat.eqb_spec (length (chars t)) 0) as [E|]; [|simpl; by rewrite of_chars_chars].
  destruct Hne. apply string_empty_size. rewrite string_size_chars. unfold size. lia.
Qed.

Lemma split_words_one t : word t -> split_words [] (chars t) = [t].
Proof.
  intros [Hne Hb]. rewrite split_words_last by done. rewrite app_nil_r, length_rev.
  destruct (Nat.eqb_spec (length (chars t)) 0) as [E|]; [|simpl; by rewrite of_chars_chars].
  destruct Hne. apply string_empty_size. rewrite string_size_chars. unfold size. lia.
Qed.

(** The text of a line whose words are [t] and [ts]. *)
Definition join_words (t : string) (ts : list string) : string :=
  fold_left (fun line x => spaced line +:+ x) ts t.

Lemma join_words_nonempty t ts : t <> "" -> join_words t ts <> "".
Proof.
  revert t; induction ts as [|x ts IH]; intros t Ht; [done|]. apply IH. unfold spaced.
  rewrite bool_decide_eq_false_2 by done. by destruct t.
Qed.

Lemma join_words_chars t ts :
  t <> "" -> chars (join_words t ts) = chars t ++ concat (map (fun x => " "%char :: chars x) ts).
Proof.
  unfold join_words. revert t; induction ts as [|x ts IH]; intros t Ht; cbn [fold_left map concat].
  - by rewrite app_nil_r.
  - rewrite IH.
    + unfold spaced. rewrite bool_decide_eq_false_2 by done. rewrite !chars_app. simpl. by rewrite <- !app_assoc.
    + unfold spaced. rewrite bool_decide_eq_false_2 by done. by destruct t.
Qed.

Lemma split_words_join t ts : word t -> Forall word ts -> split_words [] (chars (join_words t ts)) = t :: ts.
Proof.
  intros Ht Hts. rewrite join_words_chars by apply Ht.
  revert t Ht; induction Hts as [|x ts Hx Hts IH]; intros t Ht; cbn [map concat].
  - rewrite app_nil_r. by apply split_words_one.
  - cbn [app]. rewrite split_words_cons by done. f_equal. by apply IH.
Qed.

Lemma SplitTokens_join t ts :
  word t -> Forall word ts -> string_size (join_words t ts) <= kMaxTextLineBytes ->
  Forall (fun x => string_size x <= kMaxTokenBytes) (t :: ts) ->
  SplitTokens (join_words t ts) = Value (t :: ts).
Proof.
  intros Ht Hts Hsize Hall. unfold SplitTokens.
  rewrite bool_decide_eq_false_2 by apply join_words_nonempty, Ht.
  rewrite (proj2 (Z.ltb_ge _ _)) by done. rewrite split_words_join by done.
  destruct (existsb _ _) eqn:E; [|done]. apply existsb_exists in E as (x & Hx & Hlt).
  rewrite List.Forall_forall in Hall. apply Hall in Hx. lia.
Qed.

(** ** Lemmas: little-endian payloads *)

Lemma le_bytes_S n v : le_bytes (S n) v = Z.land v 255 :: le_bytes n (Z.shiftr v 8).
Proof.
  unfold le_bytes. cbn [seq map]. change (Z.of_nat 0 * 8) with 0. rewrite Z.shiftr_0_r. f_equal.
  rewrite <- seq_shift, map_map. apply map_ext. intros i.
  rewrite Z.shiftr_shiftr by lia. do 2 f_equal. lia.
Qed.

Lemma le_bytes_length n v : length (le_bytes n v) = n.
Proof. unfold le_bytes. by rewrite length_map, length_seq. Qed.

Lemma le_value_le_bytes n v : 0 <= v < 2 ^ (8 * Z.of_nat n) -> le_value (le_bytes n v) = v.
Proof.
  revert v; induction n as [|n IH]; intros v Hv; [simpl in *; lia|].
  rewrite le_bytes_S. cbn [le_value]. rewrite IH.
  - change 255 with (Z.ones 8). rewrite Z.land_ones, Z.shiftr_div_pow2, Z.shiftl_mul_pow2 by lia.
    pose proof (Z.add_lor_land (v mod 2 ^ 8) (v / 2 ^ 8 * 2 ^ 8)) as Hadd.
    pose proof (Z.div_mod v (2 ^ 8) ltac:(lia)).
    enough (Z.land (v mod 2 ^ 8) (v / 2 ^ 8 * 2 ^ 8) = 0) by lia.
    rewrite <- Z.shiftl_mul_pow2, <- Z.land_ones by lia. apply Z.bits_inj'. intros i Hi.
    rewrite !Z.land_spec, Z.bits_0, Z.testbit_ones_nonneg by lia.
    destruct (Z.ltb_spec i 8); [rewrite Z.shiftl_spec_low by lia|]; by rewrite ?andb_false_r.
  - rewrite Z.shiftr_div_pow2 by lia. split; [apply Z.div_pos; lia|].
    apply Z.div_lt_upper_bound; [lia|]. rewrite <- Z.pow_add_r by lia.
    replace (8 + 8 * Z.of_nat n) with (8 * Z.of_nat (S n)) by lia. lia.
Qed.

(** A reader placed after [before], with [rest] still to read. *)
Definition reader_at (before rest : list Z) : ByteReader := MkReader (before ++ rest) (length before).

Lemma Take_at before data after :
  Take (reader_at before (data ++ after)) (length data) = (Value data, reader_at (before ++ data) after).
Proof.
  unfold Take, reader_at, remaining; simpl. rewrite !length_app.
  rewrite (proj2 (Nat.ltb_ge _ _)) by lia. rewrite <- app_assoc.
  by rewrite drop_app_length, take_app_length.
Qed.

Lemma Reader_uint_at n before v after :
  0 <= v < 2 ^ (8 * Z.of_nat n) ->
  Reader_uint n (reader_at before (le_bytes n v ++ after)) = (Value v, reader_at (before ++ le_bytes n v) after).
Proof.
  intros Hv. unfold Reader_uint. pose proof (Take_at before (le_bytes n v) after) as E.
  rewrite le_bytes_length in E. rewrite E.
  by rewrite le_value_le_bytes.
Qed.

(** ** Theorems *)

(** Checked arithmetic is exact or refused.  [AddCheckedU64] and
    [MulCheckedU64] answer the mathematical sum and product when it fits 64
    bits, and refuse exactly when it does not. *)
Theorem checked_arithmetic_exact (a b : Z) :
  in_width 64 a -> in_width 64 b ->
  AddCheckedU64 a b = (if a + b <=? u64_max then Some (a + b) else None) /\
  MulCheckedU64 a b = (if a * b <=? u64_max then Some (a * b) else None).
Proof.
  unfold AddCheckedU64, MulCheckedU64, in_width. intros Ha Hb. split.
  - destruct (Z.ltb_spec (u64_max - b) a), (Z.leb_spec (a + b) u64_max); try lia; done.
  - destruct (Z.eqb_spec a 0) as [->|Hne]; cbn [negb andb].
    + destruct (Z.leb_spec (0 * b) u64_max); [done|]. unfold u64_max in *. lia.
    + assert (0 < a) as Hpos by lia. unfold wrap64, wrap.
      destruct (Z.ltb_spec (u64_max / a) b) as [Hlt|Hle].
      * destruct (Z.leb_spec (a * b) u64_max) as [Hfit|]; [|done].
        assert (b <= u64_max / a) by (apply Z.div_le_lower_bound; lia). lia.
      * pose proof (Z.mul_div_le u64_max a Hpos) as Hd.
        assert (a * b <= u64_max) as Hfit by nia.
        rewrite (proj2 (Z.leb_le _ _)) by done. f_equal. apply Z.mod_small. unfold u64_max in *. nia.
Qed.

Lemma checked_arithmetic_exact_witness :
  in_width 64 (2 ^ 63) /\ in_width 64 2 /\
  AddCheckedU64 (2 ^ 63) 2 = Some (2 ^ 63 + 2) /\ MulCheckedU64 (2 ^ 63) 2 = None.
Proof.
  split; [by vm_compute|]. split; [by vm_compute|].
  apply (checked_arithmetic_exact (2 ^ 63) 2); by vm_compute.
Defined.

(** Tokens read back.  Every value a line can carry, the empty string and
    arbitrary bytes included, is encoded as a nonempty blank-free token that
    decodes to the value; so no two values share a spelling. *)
Theorem token_roundtrip (raw : string) :
  string_size raw <= kMaxTokenBytes ->
  DecodeToken (EncodeToken raw) = Value raw /\ EncodeToken raw <> "" /\ no_blanks (EncodeToken raw).
Proof.
  intros Hsize. split; [by apply DecodeToken_EncodeToken|].
  split; [apply EncodeToken_nonempty|apply EncodeToken_no_blanks].
Qed.

Lemma token_roundtrip_witness :
  string_size "a b%c" <= kMaxTokenBytes /\ EncodeToken "a b%c" = "a%20b%25c" /\
  DecodeToken (EncodeToken "a b%c") = Value "a b%c".
Proof. split; [by vm_compute|]. split; [by vm_compute|]. apply (token_roundtrip "a b%c"). by vm_compute. Defined.

(** Lines read back.  A record line assembled from any values within the
    line and token bounds splits into the record name and the encoded values. *)
Theorem line_roundtrip (record : string) (values : list string) :
  word record -> string_size record <= kMaxTokenBytes ->
  Forall (fun v => string_size (EncodeToken v) <= kMaxTokenBytes) values ->
  string_size (fold_left Line_Add values (Line_Begin record)) <= kMaxTextLineBytes ->
  SplitTokens (fold_left Line_Add values (Line_Begin record)) = Value (record :: map EncodeToken values).
Proof.
  intros Hr Hrs Hv. unfold Line_Begin.
  assert (forall l, fold_left Line_Add values l = join_words l (map EncodeToken values)) as E.
  { clear. unfold join_words, Line_Add. induction values as [|v vs IH]; intros l; simpl; [done|]. by rewrite IH. }
  rewrite E. intros Hs. apply SplitTokens_join; [done| |done|].
  - apply List.Forall_forall. intros x (v & <- & _)%in_map_iff.
    split; [apply EncodeToken_nonempty|apply EncodeToken_no_blanks].
  - constructor; [done|]. apply List.Forall_forall. intros x (v & <- & Hin)%in_map_iff.
    rewrite List.Forall_forall in Hv. auto.
Qed.

Lemma line_roundtrip_witness :
  word "node" /\ SplitTokens (fold_left Line_Add ["n 1"; ""; "a:b"] (Line_Begin "node")) =
  Value ["node"; "n%201"; "%"; "a:b"].
Proof.
  split.
  - split; [done|]. intros c. simpl. intros H. repeat destruct H as [<-|H]; done.
  - apply (line_roundtrip "node" ["n 1"; ""; "a:b"]).
    + split; [done|]. intros c. simpl. intros H. repeat destruct H as [<-|H]; done.
    + by vm_compute.
    + repeat constructor; by vm_compute.
    + by vm_compute.
Defined.

(** Numbers read back at their width, and a value that does not fit the
    width asked for is refused rather than truncated. *)
Theorem number_roundtrip (n : Z) :
  in_width 64 n ->
  ParseU64 (FormatU64 n) = Value n /\
  (if n <=? u32_max then ParseU32 (FormatU64 n) = Value n else expected_ok (ParseU32 (FormatU64 n)) = false) /\
  (if n <=? u16_max then ParseU16 (FormatU64 n) = Value n else expected_ok (ParseU16 (FormatU64 n)) = false).
Proof.
  intros Hn. unfold ParseU64, ParseU32, ParseU16, FormatU64.
  assert (forall maximum what, maximum < n -> expected_ok (ParseUnsigned (to_string n) maximum what) = false) as Hno.
  { intros maximum what Hlt. unfold ParseUnsigned.
    repeat case_goal; try done. exfalso. rewrite decimal_value_to_string in * by done. lia. }
  split; [apply ParseUnsigned_to_string; [done|]; destruct Hn; unfold u64_max; lia|].
  split.
  - destruct (Z.leb_spec n u32_max); [by apply ParseUnsigned_to_string|by apply Hno].
  - destruct (Z.leb_spec n u16_max); [by apply ParseUnsigned_to_string|by apply Hno].
Qed.

Lemma number_roundtrip_witness :
  in_width 64 65536 /\ ParseU64 (FormatU64 65536) = Value 65536 /\ ParseU32 (FormatU64 65536) = Value 65536 /\
  expected_ok (ParseU16 (FormatU64 65536)) = false.
Proof. split; [by vm_compute|]. apply (number_roundtrip 65536). by vm_compute. Defined.

(** Binary payloads read back.  Reading the fields of a payload in the
    order they were written answers the values, leaves nothing unread, and
    [ExpectEnd] accepts the end. *)
Theorem payload_roundtrip (a b c : Z) (flag : bool) (data : list Z) :
  in_width 16 a -> in_width 32 b -> in_width 64 c -> size data <= u32_max ->
  let payload := Writer_Bytes (Writer_Bool (Writer_U64 (Writer_U32 (Writer_U16 [] a) b) c) flag) data in
  let '(a', r1) := Reader_U16 (MkReader payload 0) in
  let '(b', r2) := Reader_U32 r1 in
  let '(c', r3) := Reader_U64 r2 in
  let '(flag', r4) := Reader_Bool r3 in
  let '(data', r5) := Reader_Bytes r4 in
  a' = Value a /\ b' = Value b /\ c' = Value c /\ flag' = Value flag /\ data' = Value data /\
  ExpectEnd r5 = OkStatus.
Proof.
  intros Ha Hb Hc Hd. cbv zeta.
  unfold Writer_Bytes, Writer_Bool, Writer_U8, Writer_U64, Writer_U32, Writer_U16.
  set (v := if flag then 1 else 0).
  assert (wrap32 (size data) = size data) as ->.
  { unfold wrap32, wrap, u32_max, size in *. apply Z.mod_small. lia. }
  rewrite <- !app_assoc. cbn [app].
  change (v :: ?x) with ([v] ++ x).
  assert ([v] = le_bytes 1 v) as -> by (by destruct flag).
  unfold Reader_U16, Reader_U32, Reader_U64, Reader_Bool, Reader_U8, Reader_Bytes, Reader_U32.
  change (MkReader ?x 0) with (reader_at [] x).
  rewrite (Reader_uint_at 2 _ a) by done. cbv beta iota.
  rewrite (Reader_uint_at 4 _ b) by done. cbv beta iota.
  rewrite (Reader_uint_at 8 _ c) by done. cbv beta iota.
  rewrite (Reader_uint_at 1 _ v) by (by destruct flag). cbv beta iota.
  rewrite (Reader_uint_at 4 _ (size data)) by (unfold size, u32_max in *; simpl; lia). cbv beta iota.
  replace (Z.to_nat (size data)) with (length data) by (unfold size; lia).
  pose proof (Take_at ((((([] ++ le_bytes 2 a) ++ le_bytes 4 b) ++ le_bytes 8 c) ++ le_bytes 1 v) ++
    le_bytes 4 (size data)) data []) as E.
  rewrite app_nil_r in E. rewrite E. cbv beta iota.
  repeat split; [by destruct flag|].
  unfold ExpectEnd, AtEnd, reader_at. simpl. by rewrite app_nil_r, Nat.eqb_refl.
Qed.

Lemma payload_roundtrip_witness :
  in_width 16 7 /\
  fst (Reader_U16 (MkReader (Writer_Bytes (Writer_Bool (Writer_U64 (Writer_U32 (Writer_U16 [] 7) 8) 9) true) [1; 2]) 0))
    = Value 7.
Proof.
  split; [by vm_compute|].
  pose proof (payload_roundtrip 7 8 9 true [1; 2] ltac:(by vm_compute) ltac:(by vm_compute)
    ltac:(by vm_compute) ltac:(by vm_compute)) as H.
  exact (proj1 H).
Defined.
