(* ===== verification/Topology.v ===== *)
(** * Topology: evidence, records and the sealed snapshot

    [include/opp/evidence.hpp], [src/evidence.cpp], [include/opp/topology.hpp]
    and the reading half of [src/topology.cpp]: the record types, the snapshot
    with its adjacency, and the lookups every other component makes.  The
    builder that produces a snapshot is in [Builder]. *)

From S2P Require Import Prelude Status Ids Doubles Spectrum.

(** ** Tri-state evidence ([Evidence<T>], [Knowledge]) *)

Inductive Evidence (A : Type) :=
| Known (value : A)
| Unknown
| Conflicting.
Arguments Known {A} value.
Arguments Unknown {A}.
Arguments Conflicting {A}.

Definition HasValue {A} (e : Evidence A) : bool := match e with Known _ => true | _ => false end.
Definition IsUnknown {A} (e : Evidence A) : bool := match e with Unknown => true | _ => false end.
Definition IsConflicting {A} (e : Evidence A) : bool := match e with Conflicting => true | _ => false end.
Definition KnowledgeName {A} (e : Evidence A) : string :=
  match e with Known _ => "known" | Unknown => "unknown" | Conflicting => "conflicting" end.

(** [operator==]: states first, values only between known ones. *)
Definition Evidence_eqb {A} (eqb : A -> A -> bool) (a b : Evidence A) : bool :=
  match a, b with
  | Known x, Known y => eqb x y
  | Unknown, Unknown | Conflicting, Conflicting => true
  | _, _ => false
  end.

Definition eqb_of {A} `{EqDecision A} (a b : A) : bool := bool_decide (a = b).

Module AdminState.
Inductive t := Up | Down | Maintenance.
#[global] Instance eq_dec : EqDecision t.
Proof. solve_decision. Defined.
End AdminState.

Definition AdminStateName (s : AdminState.t) : string :=
  match s with AdminState.Up => "up" | AdminState.Down => "down" | AdminState.Maintenance => "maintenance" end.

Definition ParseAdminState (t : string) : option AdminState.t :=
  if String.eqb t "up" then Some AdminState.Up
  else if String.eqb t "down" then Some AdminState.Down
  else if String.eqb t "maintenance" then Some AdminState.Maintenance
  else None.

Module Coverage.
Inductive t := Complete | Partial.
#[global] Instance eq_dec : EqDecision t.
Proof. solve_decision. Defined.
End Coverage.

Definition CoverageName (c : Coverage.t) : string :=
  match c with Coverage.Complete => "complete" | Coverage.Partial => "partial" end.

Record SourceRecord := MkSource {
  src_id : SourceId;
  src_generation : Generation;
  src_coverage : Coverage.t;
  src_description : string;
}.

(** ** Records *)

Module NodeKind.
Inductive t := Terminal | ReconfigurableOadm | OpticalCrossConnect | Amplifier | Regenerator.
#[global] Instance eq_dec : EqDecision t.
Proof. solve_decision. Defined.
End NodeKind.

Module PortRole.
Inductive t := Client | Line | Add | Drop | Express | Monitor.
#[global] Instance eq_dec : EqDecision t.
Proof. solve_decision. Defined.
End PortRole.

Module CrossConnectOp.
Inductive t := Express | Convert | Regenerate.
#[global] Instance eq_dec : EqDecision t.
Proof. solve_decision. Defined.
End CrossConnectOp.

Definition NodeKindName (k : NodeKind.t) : string :=
  match k with
  | NodeKind.Terminal => "terminal"
  | NodeKind.ReconfigurableOadm => "roadm"
  | NodeKind.OpticalCrossConnect => "oxc"
  | NodeKind.Amplifier => "amplifier"
  | NodeKind.Regenerator => "regenerator"
  end.

Definition PortRoleName (r : PortRole.t) : string :=
  match r with
  | PortRole.Client => "client" | PortRole.Line => "line" | PortRole.Add => "add"
  | PortRole.Drop => "drop" | PortRole.Express => "express" | PortRole.Monitor => "monitor"
  end.

Definition CrossConnectOpName (op : CrossConnectOp.t) : string :=
  match op with
  | CrossConnectOp.Express => "express" | CrossConnectOp.Convert => "convert"
  | CrossConnectOp.Regenerate => "regenerate"
  end.

(** The parsers scan a table of names; [named] is that scan. *)
Definition named {A} (table : list (string * A)) (t : string) : option A :=
  snd <$> List.find (fun entry => String.eqb t (fst entry)) table.

Definition ParseNodeKind : string -> option NodeKind.t :=
  named [("terminal", NodeKind.Terminal); ("roadm", NodeKind.ReconfigurableOadm);
         ("oxc", NodeKind.OpticalCrossConnect); ("amplifier", NodeKind.Amplifier);
         ("regenerator", NodeKind.Regenerator)].

Definition ParsePortRole : string -> option PortRole.t :=
  named [("client", PortRole.Client); ("line", PortRole.Line); ("add", PortRole.Add);
         ("drop", PortRole.Drop); ("express", PortRole.Express); ("monitor", PortRole.Monitor)].

Definition ParseCrossConnectOp : string -> option CrossConnectOp.t :=
  named [("express", CrossConnectOp.Express); ("convert", CrossConnectOp.Convert);
         ("regenerate", CrossConnectOp.Regenerate)].

Record NodeRecord := MkNode {
  n_id : NodeId;
  n_kind : NodeKind.t;
  n_failure_domains : list FailureDomainId;
  n_transit_cost : Z;
  n_coverage : Coverage.t;
  n_admin : Evidence AdminState.t;
  n_source : SourceId;
  n_generation : Generation;
}.

Record PortRecord := MkPort {
  p_key : PortKey;
  p_role : PortRole.t;
  p_transmit_profile : Evidence (option ProfileId);
  p_blocked_slots : Evidence SlotMask;
  p_failure_domains : list FailureDomainId;
  p_transit_cost : Z;
  p_admin : Evidence AdminState.t;
  p_source : SourceId;
  p_generation : Generation;
}.

Record SpanRecord := MkSpan {
  s_id : SpanId;
  s_from : PortKey;
  s_to : PortKey;
  s_bidirectional : bool;
  s_length_m : Evidence Z;
  s_loss_db : Evidence double;
  s_osnr_db : Evidence double;
  s_blocked_slots : Evidence SlotMask;
  s_failure_domains : list FailureDomainId;
  s_cost : Z;
  s_admin : Evidence AdminState.t;
  s_source : SourceId;
  s_generation : Generation;
}.

Record CrossConnectRecord := MkCrossConnect {
  x_id : CrossConnectId;
  x_from : PortKey;
  x_to : PortKey;
  x_op : CrossConnectOp.t;
  x_blocked_slots : Evidence SlotMask;
  x_failure_domains : list FailureDomainId;
  x_cost : Z;
  x_admin : Evidence AdminState.t;
  x_source : SourceId;
  x_generation : Generation;
}.

Record ReachProfile := MkProfile {
  r_id : ProfileId;
  r_max_distance_m : Evidence Z;
  r_max_span_count : Evidence Z;
  r_max_loss_db : Evidence double;
  r_min_osnr_db : Evidence double;
  r_source : SourceId;
  r_generation : Generation;
}.

(** The defaulted [operator==] of the records; a double compares by value. *)

Definition NodeRecord_eqb (a b : NodeRecord) : bool :=
  eqb_of (n_id a) (n_id b) && eqb_of (n_kind a) (n_kind b) &&
  eqb_of (n_failure_domains a) (n_failure_domains b) && (n_transit_cost a =? n_transit_cost b) &&
  eqb_of (n_coverage a) (n_coverage b) && Evidence_eqb eqb_of (n_admin a) (n_admin b) &&
  eqb_of (n_source a) (n_source b) && (n_generation a =? n_generation b).

Definition PortRecord_eqb (a b : PortRecord) : bool :=
  eqb_of (p_key a) (p_key b) && eqb_of (p_role a) (p_role b) &&
  Evidence_eqb eqb_of (p_transmit_profile a) (p_transmit_profile b) &&
  Evidence_eqb eqb_of (p_blocked_slots a) (p_blocked_slots b) &&
  eqb_of (p_failure_domains a) (p_failure_domains b) && (p_transit_cost a =? p_transit_cost b) &&
  Evidence_eqb eqb_of (p_admin a) (p_admin b) && eqb_of (p_source a) (p_source b) &&
  (p_generation a =? p_generation b).

Definition SpanRecord_eqb (a b : SpanRecord) : bool :=
  eqb_of (s_id a) (s_id b) && eqb_of (s_from a) (s_from b) && eqb_of (s_to a) (s_to b) &&
  eqb_of (s_bidirectional a) (s_bidirectional b) && Evidence_eqb Z.eqb (s_length_m a) (s_length_m b) &&
  Evidence_eqb deqb (s_loss_db a) (s_loss_db b) && Evidence_eqb deqb (s_osnr_db a) (s_osnr_db b) &&
  Evidence_eqb eqb_of (s_blocked_slots a) (s_blocked_slots b) &&
  eqb_of (s_failure_domains a) (s_failure_domains b) && (s_cost a =? s_cost b) &&
  Evidence_eqb eqb_of (s_admin a) (s_admin b) && eqb_of (s_source a) (s_source b) &&
  (s_generation a =? s_generation b).

Definition CrossConnectRecord_eqb (a b : CrossConnectRecord) : bool :=
  eqb_of (x_id a) (x_id b) && eqb_of (x_from a) (x_from b) && eqb_of (x_to a) (x_to b) &&
  eqb_of (x_op a) (x_op b) && Evidence_eqb eqb_of (x_blocked_slots a) (x_blocked_slots b) &&
  eqb_of (x_failure_domains a) (x_failure_domains b) && (x_cost a =? x_cost b) &&
  Evidence_eqb eqb_of (x_admin a) (x_admin b) && eqb_of (x_source a) (x_source b) &&
  (x_generation a =? x_generation b).

Definition ReachProfile_eqb (a b : ReachProfile) : bool :=
  eqb_of (r_id a) (r_id b) && Evidence_eqb Z.eqb (r_max_distance_m a) (r_max_distance_m b) &&
  Evidence_eqb Z.eqb (r_max_span_count a) (r_max_span_count b) &&
  Evidence_eqb deqb (r_max_loss_db a) (r_max_loss_db b) &&
  Evidence_eqb deqb (r_min_osnr_db a) (r_min_osnr_db b) && eqb_of (r_source a) (r_source b) &&
  (r_generation a =? r_generation b).

(** ** The snapshot

    Indices into the record vectors are natural numbers; the adjacency vectors
    are indexed by port index, as in the code. *)

Record SpanArc := MkArc { span_index : nat; reversed : bool }.

Module EvidenceFreshness.
Inductive t := Fresh | Restored.
#[global] Instance eq_dec : EqDecision t.
Proof. solve_decision. Defined.
End EvidenceFreshness.

Definition EvidenceFreshnessName (f : EvidenceFreshness.t) : string :=
  match f with EvidenceFreshness.Fresh => "fresh" | EvidenceFreshness.Restored => "restored" end.

Record TopologySnapshot := MkSnapshot {
  t_id : SnapshotId;
  t_generation : Generation;
  t_spectrum : SpectrumModel;
  t_digest : Digest256;
  t_sources : list SourceRecord;
  t_nodes : list NodeRecord;
  t_ports : list PortRecord;
  t_spans : list SpanRecord;
  t_cross_connects : list CrossConnectRecord;
  t_profiles : list ReachProfile;
  t_conflicted : list ResourceKey;
  t_unresolved : list ResourceKey;
  t_coverage_complete : bool;
  t_freshness : EvidenceFreshness.t;
  t_restored_from_incarnation : IncarnationId;
  t_restored_from_epoch : Epoch;
  t_span_arcs : list (list SpanArc);
  t_out_cross_connects : list (list nat);
  t_unresolved_at_port : list Z;
}.

(** ** Lookups: [std::lower_bound] on the record's key *)

Definition NodeIndex (t : TopologySnapshot) (id : NodeId) : option nat := find_by_key n_id id (t_nodes t).
Definition FindNode (t : TopologySnapshot) (id : NodeId) : option NodeRecord :=
  NodeIndex t id ≫= fun i => t_nodes t !! i.

Definition PortIndex (t : TopologySnapshot) (key : PortKey) : option nat := find_by_key p_key key (t_ports t).
Definition FindPort (t : TopologySnapshot) (key : PortKey) : option PortRecord :=
  PortIndex t key ≫= fun i => t_ports t !! i.

Definition FindReachProfile (t : TopologySnapshot) (id : ProfileId) : option ReachProfile :=
  find_by_key r_id id (t_profiles t) ≫= fun i => t_profiles t !! i.

Definition OutgoingSpanArcs (t : TopologySnapshot) (port_index : nat) : list SpanArc :=
  match t_span_arcs t !! port_index with Some arcs => arcs | None => [] end.

Definition OutgoingCrossConnects (t : TopologySnapshot) (port_index : nat) : list nat :=
  match t_out_cross_connects t !! port_index with Some l => l | None => [] end.

Definition find_source (t : TopologySnapshot) (id : SourceId) : option SourceRecord :=
  find_by_key src_id id (t_sources t) ≫= fun i => t_sources t !! i.

Definition SourceGeneration (t : TopologySnapshot) (id : SourceId) : Generation :=
  match find_source t id with Some s => src_generation s | None => 0 end.

Definition HasSource (t : TopologySnapshot) (id : SourceId) : bool :=
  match find_source t id with Some _ => true | None => false end.

Definition IsConflicted (t : TopologySnapshot) (key : ResourceKey) : bool := contains_sorted (t_conflicted t) key.

Definition HasUnresolvedArcs (t : TopologySnapshot) (port_index : nat) : bool :=
  match t_unresolved_at_port t !! port_index with Some n => negb (n =? 0) | None => false end.

Definition ArcCount (t : TopologySnapshot) : Z :=
  fold_left (fun total l => total + size l) (t_out_cross_connects t)
    (fold_left (fun total l => total + size l) (t_span_arcs t) 0).

Definition MarkRestored (t : TopologySnapshot) (producer : IncarnationId) (epoch : Epoch) : TopologySnapshot :=
  MkSnapshot (t_id t) (t_generation t) (t_spectrum t) (t_digest t) (t_sources t) (t_nodes t) (t_ports t)
    (t_spans t) (t_cross_connects t) (t_profiles t) (t_conflicted t) (t_unresolved t) (t_coverage_complete t)
    EvidenceFreshness.Restored producer epoch (t_span_arcs t) (t_out_cross_connects t) (t_unresolved_at_port t).

(** ** What a sealed snapshot promises its readers *)

Definition arc_tail (sp : SpanRecord) (rev : bool) : PortKey := if rev then s_to sp else s_from sp.
Definition arc_head (sp : SpanRecord) (rev : bool) : PortKey := if rev then s_from sp else s_to sp.

(** A directed arc of the snapshot leaves port [i]. *)
Definition arc_leaves (t : TopologySnapshot) (i : nat) (a : SpanArc) : Prop :=
  exists sp, t_spans t !! span_index a = Some sp /\
    PortIndex t (arc_tail sp (reversed a)) = Some i /\
    is_Some (PortIndex t (arc_head sp (reversed a))) /\ (reversed a = true -> s_bidirectional sp = true).

Definition xc_leaves (t : TopologySnapshot) (i : nat) (x : nat) : Prop :=
  exists xc, t_cross_connects t !! x = Some xc /\
    PortIndex t (x_from xc) = Some i /\ is_Some (PortIndex t (x_to xc)).

(** Failure domains are listed once, in order: binary search applies. *)
Definition increasing (domains : list FailureDomainId) : Prop := StronglySorted (key_lt (fun d => d)) domains.

Definition domains_sorted (nodes : list NodeRecord) (ports : list PortRecord) (spans : list SpanRecord)
(xs : list CrossConnectRecord) : Prop :=
  Forall (fun n => increasing (n_failure_domains n)) nodes /\
  Forall (fun p => increasing (p_failure_domains p)) ports /\
  Forall (fun s => increasing (s_failure_domains s)) spans /\
  Forall (fun x => increasing (x_failure_domains x)) xs.

(** The interface of a snapshot: what [SnapshotBuilder::Build] establishes and
    the search, the planner and the validator rely on. *)
Record wf_snapshot (t : TopologySnapshot) : Prop := {
  wf_sources : StronglySorted (key_lt src_id) (t_sources t);
  wf_nodes : StronglySorted (key_lt n_id) (t_nodes t);
  wf_ports : StronglySorted (key_lt p_key) (t_ports t);
  wf_profiles : StronglySorted (key_lt r_id) (t_profiles t);
  wf_conflicted : StronglySorted (key_lt (fun k : ResourceKey => k)) (t_conflicted t);
  wf_span_arcs_length : length (t_span_arcs t) = length (t_ports t);
  wf_out_cross_connects_length : length (t_out_cross_connects t) = length (t_ports t);
  wf_span_arcs : forall i a, In a (OutgoingSpanArcs t i) <-> (i < length (t_ports t))%nat /\ arc_leaves t i a;
  wf_cross_connects : forall i x,
    In x (OutgoingCrossConnects t i) <-> (i < length (t_ports t))%nat /\ xc_leaves t i x;
  wf_domains : domains_sorted (t_nodes t) (t_ports t) (t_spans t) (t_cross_connects t);
}.

(** Spans and cross-connects are named; [AddSpan] and [AddCrossConnect] see to it. *)
Definition identified (t : TopologySnapshot) : Prop :=
  Forall (fun s => str (s_id s) <> "") (t_spans t) /\ Forall (fun x => str (x_id x) <> "") (t_cross_connects t).

(** ** Lemmas: lookups *)

Section lookups.
Context (t : TopologySnapshot).

Lemma PortIndex_some key i :
  PortIndex t key = Some i -> exists p, t_ports t !! i = Some p /\ p_key p = key.
Proof. apply find_by_key_some. Qed.

Lemma PortIndex_lt key i : PortIndex t key = Some i -> (i < length (t_ports t))%nat.
Proof. intros (p & Hp & _)%PortIndex_some. by eapply lookup_lt_Some. Qed.

Lemma FindPort_some key p : FindPort t key = Some p -> p_key p = key /\ In p (t_ports t).
Proof.
  unfold FindPort. destruct (PortIndex t key) as [i|] eqn:E; [|done]. simpl. intros Hp.
  apply PortIndex_some in E as (p' & Hp' & Hk). rewrite Hp in Hp'. injection Hp' as <-.
  split; [done|]. by eapply list_elem_of_In, list_elem_of_lookup_2.
Qed.

Lemma FindNode_some id n : FindNode t id = Some n -> n_id n = id /\ In n (t_nodes t).
Proof.
  unfold FindNode, NodeIndex. destruct (find_by_key n_id id (t_nodes t)) as [i|] eqn:E; [|done].
  simpl. intros Hp. apply find_by_key_some in E as (p' & Hp' & Hk). rewrite Hp in Hp'. injection Hp' as <-.
  split; [done|]. by eapply list_elem_of_In, list_elem_of_lookup_2.
Qed.

Lemma PortIndex_complete (W : wf_snapshot t) i p :
  t_ports t !! i = Some p -> PortIndex t (p_key p) = Some i.
Proof. intros Hp. by eapply find_by_key_complete; [apply (wf_ports _ W)|..]. Qed.

Lemma PortIndex_inj key key' i : PortIndex t key = Some i -> PortIndex t key' = Some i -> key = key'.
Proof.
  intros (p & Hp & <-)%PortIndex_some (q & Hq & <-)%PortIndex_some. congruence.
Qed.

Lemma IsConflicted_in (W : wf_snapshot t) key : IsConflicted t key = true <-> In key (t_conflicted t).
Proof.
  apply contains_sorted_in. pose proof (wf_conflicted _ W) as Hs. induction Hs as [|x l Hs IH Hx]; constructor.
  - done.
  - eapply Forall_impl; [exact Hx|]. intros y. apply ltb_asym.
Qed.
End lookups.

(** ** Names read back *)

Lemma ParseNodeKind_Name k : ParseNodeKind (NodeKindName k) = Some k.
Proof. by destruct k. Qed.
Lemma ParsePortRole_Name r : ParsePortRole (PortRoleName r) = Some r.
Proof. by destruct r. Qed.
Lemma ParseCrossConnectOp_Name op : ParseCrossConnectOp (CrossConnectOpName op) = Some op.
Proof. by destruct op. Qed.
Lemma ParseAdminState_Name s : ParseAdminState (AdminStateName s) = Some s.
Proof. by destruct s. Qed.
