(* ===== verification/SnapshotText.v ===== *)
(** * SnapshotText: the canonical text of a snapshot and its digests

    [src/snapshot_io.cpp]: the printing half and the two digests. *)

From S2P Require Import Prelude Status Ids Doubles Spectrum Sha256 Canonical Topology.

Definition kUnknown : string := "unknown".
Definition kConflicting : string := "conflicting".
Definition kAbsent : string := "-".
Definition newline : string := String (char_of 10) "".

Definition kSnapshotMagic : string := "OPP-SNAPSHOT".
Definition kSnapshotFormatVersion : Z := 1.
Definition kSnapshotDigestDomain : string := "OPP-SNAPSHOT-v1".

Definition JoinDomains (domains : list FailureDomainId) : string := String.concat "," (map str domains).

(** [AddU64Evidence], [AddU32Evidence], [AddDoubleEvidence], [AddMask],
    [AddAdmin] and [AddProfileEvidence] differ in the printer of a known value. *)
Definition add_evidence {A} (add_known : string -> string -> A -> string) (line key : string) (e : Evidence A) : string :=
  match e with
  | Known v => add_known line key v
  | Unknown => Line_AddKeyRaw line key kUnknown
  | Conflicting => Line_AddKeyRaw line key kConflicting
  end.

Definition AddU64Evidence : string -> string -> Evidence Z -> string := add_evidence Line_AddKeyU64.
Definition AddU32Evidence : string -> string -> Evidence Z -> string := add_evidence Line_AddKeyU64.
Definition AddMask : string -> string -> Evidence SlotMask -> string :=
  add_evidence (fun line key m => Line_AddKeyRaw line key (mask_ToHex m)).
Definition AddAdmin : string -> string -> Evidence AdminState.t -> string :=
  add_evidence (fun line key a => Line_AddKeyRaw line key (AdminStateName a)).
Definition AddProfileEvidence : string -> string -> Evidence (option ProfileId) -> string :=
  add_evidence (fun line key p =>
    Line_AddKeyRaw line key (match p with Some id => str id | None => kAbsent end)).
Definition AddDomains (line : string) (domains : list FailureDomainId) : string :=
  match domains with [] => line | _ => Line_AddKeyRaw line "domains" (JoinDomains domains) end.

(** [ParseEvidenceProfile] reads the token back. *)
Definition ParseEvidenceProfile (token : string) : Expected (Evidence (option ProfileId)) :=
  if String.eqb token kUnknown then Value Unknown
  else if String.eqb token kConflicting then Value Conflicting
  else if String.eqb token kAbsent then Value (Known None)
  else let! id := id_Parse token in Value (Known (Some id)).

Section text.
Context `{Platform}.

Definition AddDoubleEvidence : string -> string -> Evidence double -> string := add_evidence Line_AddKeyDouble.

Definition source_line (s : SourceRecord) : string :=
  let line := Line_Begin "source" in
  let line := Line_Add line (str (src_id s)) in
  let line := Line_AddU64 line (src_generation s) in
  Line_Add line (CoverageName (src_coverage s)).

Definition profile_line (r : ReachProfile) : string :=
  let line := Line_Begin "profile" in
  let line := Line_Add line (str (r_id r)) in
  let line := AddU64Evidence line "dist" (r_max_distance_m r) in
  let line := AddU32Evidence line "spans" (r_max_span_count r) in
  let line := AddDoubleEvidence line "loss" (r_max_loss_db r) in
  let line := AddDoubleEvidence line "osnr" (r_min_osnr_db r) in
  let line := Line_AddKeyRaw line "src" (str (r_source r)) in
  Line_AddKeyU64 line "gen" (r_generation r).

Definition node_line (n : NodeRecord) : string :=
  let line := Line_Begin "node" in
  let line := Line_Add line (str (n_id n)) in
  let line := Line_Add line (NodeKindName (n_kind n)) in
  let line := Line_Add line (CoverageName (n_coverage n)) in
  let line := AddAdmin line "admin" (n_admin n) in
  let line := Line_AddKeyU64 line "cost" (n_transit_cost n) in
  let line := Line_AddKeyRaw line "src" (str (n_source n)) in
  let line := Line_AddKeyU64 line "gen" (n_generation n) in
  AddDomains line (n_failure_domains n).

Definition port_line (p : PortRecord) : string :=
  let line := Line_Begin "port" in
  let line := Line_Add line (str (node (p_key p))) in
  let line := Line_Add line (str (port (p_key p))) in
  let line := Line_Add line (PortRoleName (p_role p)) in
  let line := AddAdmin line "admin" (p_admin p) in
  let line := AddProfileEvidence line "tx" (p_transmit_profile p) in
  let line := AddMask line "slots" (p_blocked_slots p) in
  let line := Line_AddKeyU64 line "cost" (p_transit_cost p) in
  let line := Line_AddKeyRaw line "src" (str (p_source p)) in
  let line := Line_AddKeyU64 line "gen" (p_generation p) in
  AddDomains line (p_failure_domains p).

Definition span_line (s : SpanRecord) : string :=
  let line := Line_Begin "span" in
  let line := Line_Add line (str (s_id s)) in
  let line := Line_Add line (str (node (s_from s))) in
  let line := Line_Add line (str (port (s_from s))) in
  let line := Line_Add line (str (node (s_to s))) in
  let line := Line_Add line (str (port (s_to s))) in
  let line := Line_Add line (if s_bidirectional s then "bidir" else "single") in
  let line := AddU64Evidence line "len" (s_length_m s) in
  let line := AddDoubleEvidence line "loss" (s_loss_db s) in
  let line := AddDoubleEvidence line "osnr" (s_osnr_db s) in
  let line := AddMask line "slots" (s_blocked_slots s) in
  let line := AddAdmin line "admin" (s_admin s) in
  let line := Line_AddKeyU64 line "cost" (s_cost s) in
  let line := Line_AddKeyRaw line "src" (str (s_source s)) in
  let line := Line_AddKeyU64 line "gen" (s_generation s) in
  AddDomains line (s_failure_domains s).

Definition cross_connect_line (x : CrossConnectRecord) : string :=
  let line := Line_Begin "xc" in
  let line := Line_Add line (str (x_id x)) in
  let line := Line_Add line (str (node (x_from x))) in
  let line := Line_Add line (str (port (x_from x))) in
  let line := Line_Add line (str (node (x_to x))) in
  let line := Line_Add line (str (port (x_to x))) in
  let line := Line_Add line (CrossConnectOpName (x_op x)) in
  let line := AddMask line "slots" (x_blocked_slots x) in
  let line := AddAdmin line "admin" (x_admin x) in
  let line := Line_AddKeyU64 line "cost" (x_cost x) in
  let line := Line_AddKeyRaw line "src" (str (x_source x)) in
  let line := Line_AddKeyU64 line "gen" (x_generation x) in
  AddDomains line (x_failure_domains x).

Definition snapshot_lines (t : TopologySnapshot) : list string :=
  [kSnapshotMagic +:+ " " +:+ FormatU32 kSnapshotFormatVersion;
   Line_Add (Line_Begin "id") (str (t_id t));
   Line_AddU64 (Line_Begin "generation") (t_generation t);
   Line_Add (Line_Begin "grid") (GridKindName (grid (t_spectrum t)));
   Line_AddU16 (Line_Begin "slots") (slot_count (t_spectrum t))] ++
  map source_line (t_sources t) ++ map profile_line (t_profiles t) ++ map node_line (t_nodes t) ++
  map port_line (t_ports t) ++ map span_line (t_spans t) ++ map cross_connect_line (t_cross_connects t).

(** Every line ends with a newline. *)
Definition text_of_lines (lines : list string) : string :=
  fold_right (fun line rest => line +:+ newline +:+ rest) "" lines.

Definition SnapshotToText (t : TopologySnapshot) : string := text_of_lines (snapshot_lines t).

Definition ComputeSnapshotDigest `{Hasher} (t : TopologySnapshot) : Digest256 :=
  hash_pieces [kSnapshotDigestDomain; newline; SnapshotToText t].

(** The text cut at its newlines; a final line without one is a line. *)
Fixpoint text_lines (line : list ascii) (l : list ascii) : list string :=
  match l with
  | [] => match line with [] => [] | _ => [of_chars (rev line)] end
  | c :: rest => if Ascii.eqb c (char_of 10) then of_chars (rev line) :: text_lines [] rest else text_lines (c :: line) rest
  end.

Definition line_belongs (source : SourceId) (line : string) : bool :=
  if bool_decide (line = "") then false
  else
    match SplitTokens line with
    | Error _ => false
    | Value values =>
        if String.eqb (hd "" values) "source" then
          match values with _ :: v :: _ => String.eqb v (str source) | _ => false end
        else
          match FindKeyedField values 1 "src" with
          | Value v => String.eqb v (str source)
          | Error _ => false
          end
    end.

Definition SourceContributionDigest `{Hasher} (t : TopologySnapshot) (source : SourceId) : Digest256 :=
  hash_pieces (["OPP-SOURCE-v1"; newline] ++
    concat (map (fun line => [line; newline])
      (List.filter (line_belongs source) (text_lines [] (chars (SnapshotToText t)))))).
End text.

(** ** Theorems *)

(** A transmitter profile whose name is a state name does not read back.
    [AddProfileEvidence] prints a known profile by its bare identity, and the
    reader takes the identities "unknown" and "conflicting", which the identity
    alphabet allows, for the evidence states; every other known profile reads
    back. *)
Theorem profile_evidence_roundtrip (id : ProfileId) :
  IsValidIdText (str id) = true ->
  ParseEvidenceProfile (str id) =
  (if String.eqb (str id) kUnknown then Value Unknown
   else if String.eqb (str id) kConflicting then Value Conflicting
   else Value (Known (Some id))).
Proof.
  intros Hv. unfold ParseEvidenceProfile. destruct (String.eqb (str id) kUnknown); [done|].
  destruct (String.eqb (str id) kConflicting); [done|].
  destruct (String.eqb_spec (str id) kAbsent) as [E|]; [|by rewrite id_Parse_str].
  by rewrite E in Hv.
Qed.

Lemma profile_evidence_roundtrip_witness :
  IsValidIdText "unknown" = true /\ ParseEvidenceProfile "unknown" = Value Unknown.
Proof. split; [done|]. by apply (profile_evidence_roundtrip (MkId "unknown")). Defined.
