(* ===== verification/Builder.v ===== *)
(** * Builder: collecting records and sealing a snapshot

    [SnapshotBuilder] of [include/opp/topology.hpp] and [src/topology.cpp].
    The builder is a state; each [Add] answers its status and the next state.
    A sealed builder refuses everything, so what its vectors hold after a
    failed [Build] (normalised, or moved from) is never read; the model leaves
    them as they were. *)

From S2P Require Import Prelude Status Ids Doubles Spectrum Canonical Topology SnapshotText.

Record SnapshotBuildOptions := MkBuildOptions {
  allow_unresolved_references : bool;
  reject_self_loops : bool;
}.

Definition default_build_options : SnapshotBuildOptions := MkBuildOptions true true.

Record SnapshotBuilder := MkBuilder {
  b_id : SnapshotId;
  b_generation : Generation;
  b_spectrum : SpectrumModel;
  b_options : SnapshotBuildOptions;
  b_sources : list SourceRecord;
  b_nodes : list NodeRecord;
  b_ports : list PortRecord;
  b_spans : list SpanRecord;
  b_cross_connects : list CrossConnectRecord;
  b_profiles : list ReachProfile;
  b_built : bool;
}.

Definition new_builder (options : SnapshotBuildOptions) : SnapshotBuilder :=
  MkBuilder (MkId "") 0 default_spectrum options [] [] [] [] [] [] false.

Definition SetId (b : SnapshotBuilder) (id : SnapshotId) : SnapshotBuilder :=
  MkBuilder id (b_generation b) (b_spectrum b) (b_options b) (b_sources b) (b_nodes b) (b_ports b) (b_spans b)
    (b_cross_connects b) (b_profiles b) (b_built b).
Definition SetGeneration (b : SnapshotBuilder) (generation : Generation) : SnapshotBuilder :=
  MkBuilder (b_id b) generation (b_spectrum b) (b_options b) (b_sources b) (b_nodes b) (b_ports b) (b_spans b)
    (b_cross_connects b) (b_profiles b) (b_built b).
Definition SetSpectrum (b : SnapshotBuilder) (spectrum : SpectrumModel) : SnapshotBuilder :=
  MkBuilder (b_id b) (b_generation b) spectrum (b_options b) (b_sources b) (b_nodes b) (b_ports b) (b_spans b)
    (b_cross_connects b) (b_profiles b) (b_built b).

(** The records held, all kinds at once. *)
Definition with_records (b : SnapshotBuilder) sources nodes ports spans cross_connects profiles : SnapshotBuilder :=
  MkBuilder (b_id b) (b_generation b) (b_spectrum b) (b_options b) sources nodes ports spans cross_connects profiles
    (b_built b).
Definition seal (b : SnapshotBuilder) : SnapshotBuilder :=
  MkBuilder (b_id b) (b_generation b) (b_spectrum b) (b_options b) (b_sources b) (b_nodes b) (b_ports b) (b_spans b)
    (b_cross_connects b) (b_profiles b) true.

(** ** Adding records *)

(** The guards of every [Add], in the order of the code. *)
Definition add_guards (b : SnapshotBuilder) (unnamed : bool) (unnamed_detail : string) (count maximum : Z)
  (full_detail : string) : Status :=
  if b_built b then Failure StatusCode.Refused "snapshot builder has already been sealed"
  else if unnamed then Failure StatusCode.InvalidArgument unnamed_detail
  else if maximum <=? count then Failure StatusCode.LimitExceeded full_detail
  else OkStatus.

Definition guarded (s : Status) (b b' : SnapshotBuilder) : Status * SnapshotBuilder :=
  if failed s then (s, b) else (OkStatus, b').

Definition AddSource (b : SnapshotBuilder) (r : SourceRecord) : Status * SnapshotBuilder :=
  guarded (add_guards b (id_empty (src_id r)) "source id must not be empty" (size (b_sources b)) kMaxSources
             "snapshot declares more sources than the supported maximum")
    b (with_records b (b_sources b ++ [r]) (b_nodes b) (b_ports b) (b_spans b) (b_cross_connects b) (b_profiles b)).

Definition AddNode (b : SnapshotBuilder) (r : NodeRecord) : Status * SnapshotBuilder :=
  guarded (add_guards b (id_empty (n_id r)) "node id must not be empty" (size (b_nodes b)) kMaxNodes
             "snapshot declares more nodes than the supported maximum")
    b (with_records b (b_sources b) (b_nodes b ++ [r]) (b_ports b) (b_spans b) (b_cross_connects b) (b_profiles b)).

Definition AddPort (b : SnapshotBuilder) (r : PortRecord) : Status * SnapshotBuilder :=
  guarded (add_guards b (id_empty (node (p_key r)) || id_empty (port (p_key r)))
             "port key must name both a node and a port" (size (b_ports b)) kMaxPorts
             "snapshot declares more ports than the supported maximum")
    b (with_records b (b_sources b) (b_nodes b) (b_ports b ++ [r]) (b_spans b) (b_cross_connects b) (b_profiles b)).

Definition AddSpan (b : SnapshotBuilder) (r : SpanRecord) : Status * SnapshotBuilder :=
  guarded (add_guards b (id_empty (s_id r)) "span id must not be empty" (size (b_spans b)) kMaxSpans
             "snapshot declares more spans than the supported maximum")
    b (with_records b (b_sources b) (b_nodes b) (b_ports b) (b_spans b ++ [r]) (b_cross_connects b) (b_profiles b)).

Definition AddCrossConnect (b : SnapshotBuilder) (r : CrossConnectRecord) : Status * SnapshotBuilder :=
  guarded (add_guards b (id_empty (x_id r)) "cross-connect id must not be empty" (size (b_cross_connects b))
             kMaxCrossConnects "snapshot declares more cross-connects than the supported maximum")
    b (with_records b (b_sources b) (b_nodes b) (b_ports b) (b_spans b) (b_cross_connects b ++ [r]) (b_profiles b)).

Definition AddReachProfile (b : SnapshotBuilder) (r : ReachProfile) : Status * SnapshotBuilder :=
  guarded (add_guards b (id_empty (r_id r)) "reach profile id must not be empty" (size (b_profiles b))
             kMaxReachProfiles "snapshot declares more reach profiles than the supported maximum")
    b (with_records b (b_sources b) (b_nodes b) (b_ports b) (b_spans b) (b_cross_connects b) (b_profiles b ++ [r])).

(** ** Validation *)

(** The first failure met by a loop that returns on failure. *)
Fixpoint for_each {A} (check : A -> Status) (l : list A) : Status :=
  match l with
  | [] => OkStatus
  | x :: rest => check! check x ;; for_each check rest
  end.

Definition ValidateFiniteNonNegative (value : Evidence double) (field : string) (maximum : double)
  (maximum_text : string) : Status :=
  match value with
  | Known raw =>
      if negb (isfinite raw) || dlt raw d0 || dgt raw maximum then
        Failure StatusCode.MalformedInput (field +:+ " must be a finite value in [0, " +:+ maximum_text +:+ "]")
      else OkStatus
  | _ => OkStatus
  end.

Definition ValidateMaskWithinModel (mask : Evidence SlotMask) (model : SpectrumModel) (what : string) : Status :=
  match mask with
  | Known value =>
      match List.find (mask_Test value)
              (List.filter (fun slot => slot_count model <=? slot) (range kMaxSpectrumSlots)) with
      | Some slot =>
          Failure StatusCode.MalformedInput
            (what +:+ " marks slot " +:+ to_string slot +:+ " which is outside the declared spectrum model")
      | None => OkStatus
      end
  | _ => OkStatus
  end.

(** One record of [NormaliseDomains]. *)
Definition normalise_record {R} (get : R -> list FailureDomainId) (put : list FailureDomainId -> R -> R) (what : string)
  (r : R) : Expected R :=
  let domains := sort_unique (get r) in
  if kMaxDomainsPerResource <? size domains then
    Error (Failure StatusCode.LimitExceeded (what +:+ " declares more failure domains than the supported maximum"))
  else Value (put domains r).

Fixpoint map_expected {A B} (f : A -> Expected B) (l : list A) : Expected (list B) :=
  match l with
  | [] => Value []
  | x :: rest => let! y := f x in let! ys := map_expected f rest in Value (y :: ys)
  end.

Definition NormaliseDomains {R} (get : R -> list FailureDomainId) (put : list FailureDomainId -> R -> R)
  (what : string) : list R -> Expected (list R) := map_expected (normalise_record get put what).

Definition node_put_domains (d : list FailureDomainId) (n : NodeRecord) : NodeRecord :=
  MkNode (n_id n) (n_kind n) d (n_transit_cost n) (n_coverage n) (n_admin n) (n_source n) (n_generation n).
Definition port_put_domains (d : list FailureDomainId) (p : PortRecord) : PortRecord :=
  MkPort (p_key p) (p_role p) (p_transmit_profile p) (p_blocked_slots p) d (p_transit_cost p) (p_admin p)
    (p_source p) (p_generation p).
Definition span_put_domains (d : list FailureDomainId) (s : SpanRecord) : SpanRecord :=
  MkSpan (s_id s) (s_from s) (s_to s) (s_bidirectional s) (s_length_m s) (s_loss_db s) (s_osnr_db s)
    (s_blocked_slots s) d (s_cost s) (s_admin s) (s_source s) (s_generation s).
Definition cross_connect_put_domains (d : list FailureDomainId) (x : CrossConnectRecord) : CrossConnectRecord :=
  MkCrossConnect (x_id x) (x_from x) (x_to x) (x_op x) (x_blocked_slots x) d (x_cost x) (x_admin x) (x_source x)
    (x_generation x).

(** [1.0e6] as [std::to_string] prints it. *)
Definition kMillionText : string := "1000000.000000".

Definition validate_span (model : SpectrumModel) (s : SpanRecord) : Status :=
  check! ValidateFiniteNonNegative (s_loss_db s) "span.loss_db" d1e6 kMillionText ;;
  check! ValidateFiniteNonNegative (s_osnr_db s) "span.osnr_db" d1e6 kMillionText ;;
  ValidateMaskWithinModel (s_blocked_slots s) model "span.blocked_slots".

Definition validate_profile (r : ReachProfile) : Status :=
  check! ValidateFiniteNonNegative (r_max_loss_db r) "profile.max_loss_db" d1e6 kMillionText ;;
  check! ValidateFiniteNonNegative (r_min_osnr_db r) "profile.min_osnr_db" d1e6 kMillionText ;;
  match r_max_span_count r with
  | Known n =>
      if n =? 0 then Failure StatusCode.MalformedInput "profile.max_span_count must be at least 1 when published"
      else OkStatus
  | _ => OkStatus
  end.

Definition validate_cost_owner (n : NodeRecord) : Status :=
  if (0 <? n_transit_cost n) && id_empty (n_id n) then
    Failure StatusCode.Internal "cost accounting invariant violated for an unnamed node"
  else OkStatus.

(** [for (i = 1; ...) if (sources_[i].id == sources_[i - 1].id) return] *)
Fixpoint distinct_sources (l : list SourceRecord) : Status :=
  match l with
  | a :: (b :: _) as rest =>
      if bool_decide (src_id b = src_id a) then
        Failure StatusCode.ConflictingEvidence
          ("source '" +:+ str (src_id b) +:+ "' is declared more than once in one snapshot")
      else distinct_sources rest
  | _ => OkStatus
  end.

(** ** Sorting and de-duplication *)

Section dedup.
Context {R K : Type} `{EqDecision K} (key_of : R -> K) (eqb : R -> R -> bool) (resource_of : R -> ResourceKey).

(** The loop over the sorted records, from the last unique one: what is kept
    after it, and the conflicts noted. *)
Fixpoint dedup_from (last : R) (records : list R) : list R * list ResourceKey :=
  match records with
  | [] => ([], [])
  | r :: rest =>
      if bool_decide (key_of last = key_of r) then
        let '(kept, conflicts) := dedup_from last rest in
        (kept, if eqb last r then conflicts else resource_of r :: conflicts)
      else
        let '(kept, conflicts) := dedup_from r rest in
        (r :: kept, conflicts)
  end.

Definition SortAndDeduplicate (less : R -> R -> bool) (records : list R) : list R * list ResourceKey :=
  match sort_by less records with
  | [] => ([], [])
  | r :: rest => let '(kept, conflicts) := dedup_from r rest in (r :: kept, conflicts)
  end.
End dedup.

(** The order of spans and cross-connects: from, to, id. *)
Definition arc_key {R I} (from to : R -> PortKey) (id : R -> I) (r : R) : PortKey * (PortKey * I) :=
  (from r, (to r, id r)).

(** ** Adjacency *)

Record Adjacency := MkAdjacency {
  adj_arcs : list (list SpanArc);
  adj_cross_connects : list (list nat);
  adj_unresolved_at : list Z;
  adj_unresolved : list ResourceKey;
}.

Definition empty_adjacency (ports : nat) : Adjacency :=
  MkAdjacency (repeat [] ports) (repeat [] ports) (repeat 0 ports) [].

Definition push_arc (a : Adjacency) (i : nat) (arc : SpanArc) : Adjacency :=
  MkAdjacency (alter (fun arcs => arcs ++ [arc]) i (adj_arcs a)) (adj_cross_connects a) (adj_unresolved_at a)
    (adj_unresolved a).
Definition push_cross_connect (a : Adjacency) (i x : nat) : Adjacency :=
  MkAdjacency (adj_arcs a) (alter (fun l => l ++ [x]) i (adj_cross_connects a)) (adj_unresolved_at a)
    (adj_unresolved a).
Definition note (a : Adjacency) (key : ResourceKey) (at_port : option nat) : Adjacency :=
  MkAdjacency (adj_arcs a) (adj_cross_connects a)
    (match at_port with
     | Some i => alter (fun n => wrap32 (n + 1)) i (adj_unresolved_at a)
     | None => adj_unresolved_at a
     end)
    (adj_unresolved a ++ [key]).
Definition note_unresolved (a : Adjacency) (key : PortKey) (at_port : option nat) : Adjacency :=
  note a (ForPort key) at_port.

Section adjacency.
Context (options : SnapshotBuildOptions) (nodes : list NodeRecord) (ports : list PortRecord).

Definition port_index_of (key : PortKey) : option nat := find_by_key p_key key ports.

(** Ports whose node has no record are unresolved. *)
Fixpoint link_ports (i : nat) (l : list PortRecord) (a : Adjacency) : Adjacency :=
  match l with
  | [] => a
  | p :: rest =>
      let a := match find_by_key n_id (node (p_key p)) nodes with
               | Some _ => a
               | None => note a (ForNode (node (p_key p))) (Some i)
               end in
      link_ports (S i) rest a
  end.

(** What both arc loops do with the endpoints of record [i]. *)
Definition link_ends (a : Adjacency) (from to : PortKey) (connect : nat -> nat -> Adjacency -> Adjacency) : Adjacency :=
  let from_index := port_index_of from in
  let to_index := port_index_of to in
  let a := match from_index with None => note_unresolved a from to_index | Some _ => a end in
  let a := match to_index with None => note_unresolved a to from_index | Some _ => a end in
  match from_index, to_index with
  | Some f, Some g => connect f g a
  | _, _ => a
  end.

Definition connect_span (i : nat) (s : SpanRecord) (f g : nat) (a : Adjacency) : Adjacency :=
  let a := push_arc a f (MkArc i false) in
  if s_bidirectional s then push_arc a g (MkArc i true) else a.

Fixpoint link_spans (i : nat) (l : list SpanRecord) (a : Adjacency) : Expected Adjacency :=
  match l with
  | [] => Value a
  | s :: rest =>
      if reject_self_loops options && bool_decide (s_from s = s_to s) then
        Error (Failure StatusCode.MalformedInput ("span '" +:+ str (s_id s) +:+ "' starts and ends on the same port"))
      else link_spans (S i) rest (link_ends a (s_from s) (s_to s) (connect_span i s))
  end.

Definition connect_cross_connect (i : nat) (f g : nat) (a : Adjacency) : Adjacency := push_cross_connect a f i.

Fixpoint link_cross_connects (i : nat) (l : list CrossConnectRecord) (a : Adjacency) : Expected Adjacency :=
  match l with
  | [] => Value a
  | x :: rest =>
      if reject_self_loops options && bool_decide (x_from x = x_to x) then
        Error (Failure StatusCode.MalformedInput
          ("cross-connect '" +:+ str (x_id x) +:+ "' starts and ends on the same port"))
      else link_cross_connects (S i) rest (link_ends a (x_from x) (x_to x) (connect_cross_connect i))
  end.
End adjacency.

Definition span_id_at (spans : list SpanRecord) (i : nat) : SpanId :=
  match spans !! i with Some s => s_id s | None => MkId "" end.
Definition cross_connect_id_at (xs : list CrossConnectRecord) (i : nat) : CrossConnectId :=
  match xs !! i with Some x => x_id x | None => MkId "" end.

Definition arc_less (spans : list SpanRecord) (a b : SpanArc) : bool :=
  if negb (span_index a =? span_index b)%nat then span_id_at spans (span_index a) <o span_id_at spans (span_index b)
  else negb (reversed a) && reversed b.

(** ** Sealing *)

(** The six record vectors after validation, sorting and de-duplication, and
    the conflicted identities. *)
Record Sorted_records := MkSorted {
  so_sources : list SourceRecord;
  so_nodes : list NodeRecord;
  so_ports : list PortRecord;
  so_spans : list SpanRecord;
  so_cross_connects : list CrossConnectRecord;
  so_profiles : list ReachProfile;
  so_conflicted : list ResourceKey;
}.

(** Lines 273-330 of [Build]: everything that can fail before sorting. *)
Definition validate_records (b : SnapshotBuilder) :
  Expected (list SourceRecord * list NodeRecord * list PortRecord * list SpanRecord * list CrossConnectRecord) :=
  let guard s := if failed s then Error s else Value tt in
  let! _ := guard (Spectrum_Validate (b_spectrum b)) in
  let sources := sort_by (by_key src_id) (b_sources b) in
  let! _ := guard (distinct_sources sources) in
  let! nodes := NormaliseDomains n_failure_domains node_put_domains "node" (b_nodes b) in
  let! ports := NormaliseDomains p_failure_domains port_put_domains "port" (b_ports b) in
  let! spans := NormaliseDomains s_failure_domains span_put_domains "span" (b_spans b) in
  let! xs := NormaliseDomains x_failure_domains cross_connect_put_domains "cross-connect" (b_cross_connects b) in
  let! _ := guard (for_each validate_cost_owner nodes) in
  let! _ := guard (for_each (validate_span (b_spectrum b)) spans) in
  let! _ := guard (for_each (fun p => ValidateMaskWithinModel (p_blocked_slots p) (b_spectrum b) "port.blocked_slots")
                     ports) in
  let! _ := guard (for_each (fun x => ValidateMaskWithinModel (x_blocked_slots x) (b_spectrum b)
                                        "crossconnect.blocked_slots") xs) in
  let! _ := guard (for_each validate_profile (b_profiles b)) in
  Value (sources, nodes, ports, spans, xs).

(** Lines 332-364. *)
Definition sort_records sources nodes ports spans cross_connects profiles : Sorted_records :=
  let '(nodes, c1) := SortAndDeduplicate n_id NodeRecord_eqb (fun n => ForNode (n_id n)) (by_key n_id) nodes in
  let '(ports, c2) := SortAndDeduplicate p_key PortRecord_eqb (fun p => ForPort (p_key p)) (by_key p_key) ports in
  let '(spans, c3) := SortAndDeduplicate s_id SpanRecord_eqb (fun s => ForSpan (s_id s))
                        (by_key (arc_key s_from s_to s_id)) spans in
  let '(xs, c4) := SortAndDeduplicate x_id CrossConnectRecord_eqb (fun x => ForCrossConnect (x_id x))
                     (by_key (arc_key x_from x_to x_id)) cross_connects in
  let '(profiles, c5) := SortAndDeduplicate r_id ReachProfile_eqb (fun r => ForReachProfile (r_id r))
                           (by_key r_id) profiles in
  MkSorted sources nodes ports spans xs profiles (sort_unique (c1 ++ c2 ++ c3 ++ c4 ++ c5)).

(** Lines 379-448. *)
Definition link (options : SnapshotBuildOptions) (r : Sorted_records) : Expected Adjacency :=
  let a := link_ports (so_nodes r) 0 (so_ports r) (empty_adjacency (length (so_ports r))) in
  let! a := link_spans options (so_ports r) 0 (so_spans r) a in
  let! a := link_cross_connects options (so_ports r) 0 (so_cross_connects r) a in
  if negb (allow_unresolved_references options) && negb (bool_decide (adj_unresolved a = [])) then
    Error (Failure StatusCode.NotFound
      ("snapshot references a resource with no record: " +:+
       ResourceKeyToString (hd empty_resource (adj_unresolved a))))
  else Value a.

Definition coverage_of (sources : list SourceRecord) (nodes : list NodeRecord)
  (unresolved conflicted : list ResourceKey) : bool :=
  bool_decide (unresolved = []) && bool_decide (conflicted = []) &&
  forallb (fun s => bool_decide (src_coverage s = Coverage.Complete)) sources &&
  forallb (fun n => bool_decide (n_coverage n = Coverage.Complete)) nodes.

(** Lines 450-479, but for the digest. *)
Definition assemble (b : SnapshotBuilder) (r : Sorted_records) (a : Adjacency) (digest : Digest256) : TopologySnapshot :=
  let unresolved := sort_unique (adj_unresolved a) in
  MkSnapshot (b_id b) (b_generation b) (b_spectrum b) digest (so_sources r) (so_nodes r) (so_ports r) (so_spans r)
    (so_cross_connects r) (so_profiles r) (so_conflicted r) unresolved
    (coverage_of (so_sources r) (so_nodes r) unresolved (so_conflicted r))
    EvidenceFreshness.Fresh zero_incarnation 0
    (map (sort_by (arc_less (so_spans r))) (adj_arcs a))
    (map (sort_by (by_key (cross_connect_id_at (so_cross_connects r)))) (adj_cross_connects a))
    (adj_unresolved_at a).

Section build.
Context `{Platform, Hasher}.

Definition build_snapshot (b : SnapshotBuilder) : Expected TopologySnapshot :=
  let! v := validate_records b in
  let '(sources, nodes, ports, spans, xs) := v in
  let r := sort_records sources nodes ports spans xs (b_profiles b) in
  let! a := link (b_options b) r in
  Value (assemble b r a (ComputeSnapshotDigest (assemble b r a zero_digest))).

Definition Build (b : SnapshotBuilder) : Expected TopologySnapshot * SnapshotBuilder :=
  if b_built b then (Error (Failure StatusCode.Refused "snapshot builder has already been sealed"), b)
  else
    match build_snapshot b with
    | Value t => (Value t, with_records (seal b) [] [] [] [] [] [])
    | Error s => (Error s, seal b)
    end.
End build.

(** ** Lemmas: the monadic loops *)

Lemma for_each_ok {A} (check : A -> Status) l :
  failed (for_each check l) = false -> forall x, In x l -> failed (check x) = false.
Proof.
  induction l as [|x l IH]; simpl; [done|]. destruct (failed (check x)) eqn:E; [by rewrite E|].
  intros Hl y [<-|Hy]; [done|]. by apply IH.
Qed.

Lemma map_expected_length {A B} (f : A -> Expected B) l ys :
  map_expected f l = Value ys -> length ys = length l.
Proof.
  revert ys; induction l as [|x l IH]; simpl; intros ys; [by intros [= <-]|].
  destruct (f x); [|done]. destruct (map_expected f l) as [zs|]; [|done]. intros [= <-]. simpl. by rewrite (IH zs).
Qed.

Lemma map_expected_forall {A B} (f : A -> Expected B) (P : B -> Prop) l ys :
  (forall x y, f x = Value y -> P y) -> map_expected f l = Value ys -> Forall P ys.
Proof.
  intros Hf. revert ys; induction l as [|x l IH]; simpl; intros ys; [by intros [= <-]|].
  destruct (f x) as [y|] eqn:E; [|done]. destruct (map_expected f l) as [zs|]; [|done]. intros [= <-].
  constructor; [by eapply Hf|]. by apply IH.
Qed.

(** ** Lemmas: de-duplication *)

Section dedup_lemmas.
Context {R K : Type} `{Ordered K, EqDecision K} (key : R -> K) (eqb : R -> R -> bool) (res : R -> ResourceKey).

Lemma dedup_from_kept last l :
  fst (dedup_from key eqb res last l) = unique_from (fun x y => bool_decide (key x = key y)) last l.
Proof.
  revert last; induction l as [|x l IH]; intros last; simpl; [done|].
  case_bool_decide.
  - rewrite <- IH. by destruct (dedup_from key eqb res last l).
  - rewrite <- IH. by destruct (dedup_from key eqb res x l).
Qed.

Lemma SortAndDeduplicate_kept less l :
  fst (SortAndDeduplicate key eqb res less l) =
  unique_by (fun x y => bool_decide (key x = key y)) (sort_by less l).
Proof.
  unfold SortAndDeduplicate. destruct (sort_by less l) as [|x rest]; [done|]. simpl.
  rewrite <- dedup_from_kept. by destruct (dedup_from key eqb res x rest).
Qed.

Lemma SortAndDeduplicate_sorted l :
  StronglySorted (key_lt key) (fst (SortAndDeduplicate key eqb res (by_key key) l)).
Proof. rewrite SortAndDeduplicate_kept. apply unique_by_sorted, sort_by_sorted. Qed.

Lemma SortAndDeduplicate_in less l x : In x (fst (SortAndDeduplicate key eqb res less l)) -> In x l.
Proof.
  rewrite SortAndDeduplicate_kept. intros Hx%unique_by_in.
  eapply Permutation_in; [|exact Hx]. apply sort_by_perm.
Qed.

(** A conflict is noted exactly for records that follow, in the sorted order,
    a kept record of the same identity they differ from. *)
Lemma dedup_from_conflict last l c :
  In c (snd (dedup_from key eqb res last l)) ->
  exists a b, In a (last :: l) /\ In b l /\ key a = key b /\ eqb a b = false /\ c = res b.
Proof.
  revert last; induction l as [|x l IH]; intros last; simpl; [done|].
  case_bool_decide as Hk.
  - specialize (IH last). destruct (dedup_from key eqb res last l) as [kept cs]; simpl in *.
    assert (In c cs -> exists a b, In a (last :: x :: l) /\ In b (x :: l) /\ key a = key b /\
                                   eqb a b = false /\ c = res b) as Hcs.
    { intros (a & b & Ha & Hb & ?)%IH. exists a, b. simpl in *. naive_solver. }
    destruct (eqb last x) eqn:E; [by apply Hcs|]. intros [<-|?]; [|by apply Hcs].
    exists last, x. simpl. auto 6.
  - specialize (IH x). destruct (dedup_from key eqb res x l) as [kept cs]; simpl in *.
    intros (a & b & Ha & Hb & ?)%IH. exists a, b. simpl in *. naive_solver.
Qed.
End dedup_lemmas.

Lemma distinct_sources_sorted l :
  StronglySorted (key_le src_id) l -> failed (distinct_sources l) = false -> StronglySorted (key_lt src_id) l.
Proof.
  induction 1 as [|x l Hl IH Hx]; intros Hd; [constructor|].
  destruct l as [|y l]; [repeat constructor|]. cbn [distinct_sources] in Hd.
  case_bool_decide as E; [done|]. specialize (IH Hd). constructor; [done|].
  assert (key_lt src_id x y) as Hxy.
  { apply Forall_inv in Hx. unfold key_lt, key_le in *. destruct (src_id x <o src_id y) eqn:E'; [done|].
    exfalso. apply E. symmetry. by apply ltb_total. }
  constructor; [done|]. inversion_clear IH as [|? ? _ Hy]. eapply Forall_impl; [exact Hy|].
  intros z Hz. unfold key_lt in *. by eapply ltb_trans.
Qed.

Lemma sort_unique_sorted {A} `{Ordered A, EqDecision A} (l : list A) :
  StronglySorted (key_lt (fun x => x)) (sort_unique l).
Proof. apply (unique_by_sorted (fun x : A => x)), (sort_by_sorted (fun x : A => x)). Qed.

Lemma unique_by_nil {A} (eqb : A -> A -> bool) l : unique_by eqb l = [] <-> l = [].
Proof. by destruct l. Qed.

Lemma sort_by_nil {A} (lt : A -> A -> bool) l : sort_by lt l = [] <-> l = [].
Proof.
  split; [|by intros ->]. intros E. pose proof (sort_by_perm lt l) as Hp. rewrite E in Hp.
  by apply Permutation_nil_l in Hp.
Qed.

Lemma sort_unique_nil {A} `{Ordered A, EqDecision A} (l : list A) : sort_unique l = [] <-> l = [].
Proof. unfold sort_unique, sort. by rewrite unique_by_nil, sort_by_nil. Qed.

(** ** Lemmas: adjacency *)

Definition at_index {A} (ls : list (list A)) (i : nat) : list A := match ls !! i with Some l => l | None => [] end.

Lemma at_index_alter {A} (ls : list (list A)) (i j : nat) (x y : A) :
  (i < length ls)%nat ->
  In y (at_index (alter (fun l => l ++ [x]) i ls) j) <-> In y (at_index ls j) \/ (j = i /\ y = x).
Proof.
  intros Hi. unfold at_index. destruct (decide (j = i)) as [->|Hne].
  - rewrite list_lookup_alter_eq. destruct (ls !! i) as [l|] eqn:E.
    + simpl. rewrite in_app_iff. simpl. naive_solver.
    + apply lookup_ge_None in E. lia.
  - rewrite list_lookup_alter_ne by done. naive_solver.
Qed.

Lemma at_index_map {A} (f : list A -> list A) ls i :
  (forall l x, In x (f l) <-> In x l) -> forall x, In x (at_index (map f ls) i) <-> In x (at_index ls i).
Proof.
  intros Hf x. unfold at_index. rewrite list_lookup_fmap. destruct (ls !! i); simpl; [apply Hf|done].
Qed.

Lemma sort_by_in {A} (lt : A -> A -> bool) l x : In x (sort_by lt l) <-> In x l.
Proof. split; apply Permutation_in; [|symmetry]; apply sort_by_perm. Qed.

Section link_lemmas.
Context (ports : list PortRecord).
Abbreviation index_of := (port_index_of ports).

Lemma index_of_lt key i : index_of key = Some i -> (i < length ports)%nat.
Proof. intros (p & Hp & _)%find_by_key_some. by eapply lookup_lt_Some. Qed.

(** Noting an unresolved reference leaves the arcs alone. *)
Lemma link_ends_cases a from to connect :
  exists a', adj_arcs a' = adj_arcs a /\ adj_cross_connects a' = adj_cross_connects a /\
    link_ends ports a from to connect =
    match index_of from, index_of to with Some f, Some g => connect f g a' | _, _ => a' end.
Proof.
  unfold link_ends. destruct (index_of from), (index_of to); simpl.
  all: eexists; split; [|split; [|reflexivity]]; done.
Qed.

Definition new_arc (i : nat) (l : list SpanRecord) (p : nat) (arc : SpanArc) : Prop :=
  exists k s, l !! k = Some s /\ span_index arc = (i + k)%nat /\
    index_of (arc_tail s (reversed arc)) = Some p /\ is_Some (index_of (arc_head s (reversed arc))) /\
    (reversed arc = true -> s_bidirectional s = true).

Lemma connect_span_arcs i s f g a p arc :
  length (adj_arcs a) = length ports -> index_of (s_from s) = Some f -> index_of (s_to s) = Some g ->
  length (adj_arcs (connect_span i s f g a)) = length ports /\
  adj_cross_connects (connect_span i s f g a) = adj_cross_connects a /\
  (In arc (at_index (adj_arcs (connect_span i s f g a)) p) <->
   In arc (at_index (adj_arcs a) p) \/ new_arc i [s] p arc).
Proof.
  intros Hlen Hf Hg. pose proof (index_of_lt _ _ Hf). pose proof (index_of_lt _ _ Hg).
  assert (new_arc i [s] p arc <-> (p = f /\ arc = MkArc i false) \/
            (s_bidirectional s = true /\ p = g /\ arc = MkArc i true)) as ->.
  { unfold new_arc, arc_tail, arc_head. split.
    - intros ([|k] & s' & Hs & Hi & Ht & Hh & Hb); [|by destruct k]. injection Hs as <-.
      destruct arc as [j rev]; simpl in *. destruct rev.
      + right. split; [auto|]. rewrite Ht in Hg. injection Hg as <-. split; [done|]. f_equal. lia.
      + left. rewrite Ht in Hf. injection Hf as <-. split; [done|]. f_equal. lia.
    - intros [[-> ->]|(Hb & -> & ->)]; exists 0%nat, s; simpl; rewrite ?Hf, ?Hg; split_and!; eauto; lia. }
  unfold connect_span, push_arc. destruct (s_bidirectional s); simpl.
  - rewrite !length_alter. split; [done|]. split; [done|].
    rewrite !at_index_alter by (rewrite ?length_alter; lia). naive_solver.
  - rewrite length_alter. split; [done|]. split; [done|].
    rewrite at_index_alter by lia. naive_solver.
Qed.

Lemma new_arc_cons i s l p arc : new_arc i (s :: l) p arc <-> new_arc i [s] p arc \/ new_arc (S i) l p arc.
Proof.
  unfold new_arc. split.
  - intros ([|k] & s' & Hs & Hi & Hr).
    + left. exists 0%nat, s'. auto.
    + right. exists k, s'. simpl in Hs. split; [done|]. split; [lia|done].
  - intros [([|k] & s' & Hs & Hi & Hr)|(k & s' & Hs & Hi & Hr)].
    + exists 0%nat, s'. auto.
    + by destruct k.
    + exists (S k), s'. split; [done|]. split; [lia|done].
Qed.

Lemma link_spans_arcs options i l a a' :
  length (adj_arcs a) = length ports -> link_spans options ports i l a = Value a' ->
  length (adj_arcs a') = length ports /\ adj_cross_connects a' = adj_cross_connects a /\
  forall p arc, In arc (at_index (adj_arcs a') p) <-> In arc (at_index (adj_arcs a) p) \/ new_arc i l p arc.
Proof.
  revert i a; induction l as [|s l IH]; intros i a Hlen; simpl.
  - intros [= <-]. split; [done|]. split; [done|]. intros p arc. split; [auto|].
    intros [?|(k & s & Hs & _)]; [done|]. by destruct k.
  - destruct (_ && _); [done|].
    destruct (link_ends_cases a (s_from s) (s_to s) (connect_span i s)) as (b & Hb1 & Hb2 & ->).
    rewrite <- Hb1 in Hlen. intros Hl.
    destruct (index_of (s_from s)) as [f|] eqn:Hf; [destruct (index_of (s_to s)) as [g|] eqn:Hg|].
    + destruct (connect_span_arcs i s f g b 0 (MkArc 0 false) Hlen Hf Hg) as (Hlen' & Hx & _).
      destruct (IH _ _ Hlen' Hl) as (Hl1 & Hl2 & Hl3). split; [done|]. split; [congruence|].
      intros p arc. rewrite Hl3, new_arc_cons. destruct (connect_span_arcs i s f g b p arc Hlen Hf Hg) as (_ & _ & ->).
      rewrite Hb1. tauto.
    + destruct (IH _ _ Hlen Hl) as (Hl1 & Hl2 & Hl3). split; [done|]. split; [congruence|].
      intros p arc. rewrite Hl3, new_arc_cons, Hb1. split; [tauto|]. intros [?|[(k & s' & Hs & _ & Ht & Hh & _)|?]]; auto.
      exfalso. destruct k as [|[]]; [|done..]. injection Hs as <-.
      unfold arc_tail, arc_head in *. destruct (reversed arc), Hh; congruence.
    + destruct (IH _ _ Hlen Hl) as (Hl1 & Hl2 & Hl3). split; [done|]. split; [congruence|].
      intros p arc. rewrite Hl3, new_arc_cons, Hb1. split; [tauto|]. intros [?|[(k & s' & Hs & _ & Ht & Hh & _)|?]]; auto.
      exfalso. destruct k as [|[]]; [|done..]. injection Hs as <-.
      unfold arc_tail, arc_head in *. destruct (reversed arc), Hh; congruence.
Qed.
End link_lemmas.

Section link_lemmas2.
Context (ports : list PortRecord).
Abbreviation index_of := (port_index_of ports).

Definition new_cross_connect (i : nat) (l : list CrossConnectRecord) (p : nat) (x : nat) : Prop :=
  exists k xc, l !! k = Some xc /\ x = (i + k)%nat /\
    index_of (x_from xc) = Some p /\ is_Some (index_of (x_to xc)).

Lemma new_cross_connect_cons i xc l p x :
  new_cross_connect i (xc :: l) p x <->
  (x = i /\ index_of (x_from xc) = Some p /\ is_Some (index_of (x_to xc))) \/ new_cross_connect (S i) l p x.
Proof.
  unfold new_cross_connect. split.
  - intros ([|k] & xc' & Hx & Hi & Hr).
    + left. injection Hx as <-. split; [lia|done].
    + right. exists k, xc'. simpl in Hx. split; [done|]. split; [lia|done].
  - intros [(-> & Hr)|(k & xc' & Hx & Hi & Hr)].
    + exists 0%nat, xc. split; [done|]. split; [lia|done].
    + exists (S k), xc'. split; [done|]. split; [lia|done].
Qed.

Lemma link_cross_connects_arcs options i l a a' :
  length (adj_cross_connects a) = length ports -> link_cross_connects options ports i l a = Value a' ->
  length (adj_cross_connects a') = length ports /\ adj_arcs a' = adj_arcs a /\
  forall p x, In x (at_index (adj_cross_connects a') p) <->
              In x (at_index (adj_cross_connects a) p) \/ new_cross_connect i l p x.
Proof.
  revert i a; induction l as [|xc l IH]; intros i a Hlen; simpl.
  - intros [= <-]. split; [done|]. split; [done|]. intros p x. split; [auto|].
    intros [?|(k & s & Hs & _)]; [done|]. by destruct k.
  - destruct (_ && _); [done|].
    destruct (link_ends_cases ports a (x_from xc) (x_to xc) (connect_cross_connect i)) as (b & Hb1 & Hb2 & ->).
    rewrite <- Hb2 in Hlen. intros Hl.
    assert (forall c, length (adj_cross_connects c) = length ports -> adj_arcs c = adj_arcs b ->
      link_cross_connects options ports (S i) l c = Value a' ->
      (forall p x, In x (at_index (adj_cross_connects c) p) <->
        In x (at_index (adj_cross_connects b) p) \/
        (x = i /\ index_of (x_from xc) = Some p /\ is_Some (index_of (x_to xc)))) ->
      length (adj_cross_connects a') = length ports /\ adj_arcs a' = adj_arcs a /\
      forall p x, In x (at_index (adj_cross_connects a') p) <->
        In x (at_index (adj_cross_connects a) p) \/ new_cross_connect i (xc :: l) p x) as Hstep.
    { intros c Hc Hca Hcl Hin. destruct (IH _ _ Hc Hcl) as (Hl1 & Hl2 & Hl3).
      split; [done|]. split; [congruence|]. intros p x.
      rewrite Hl3, Hin, new_cross_connect_cons, Hb2. tauto. }
    destruct (index_of (x_from xc)) as [f|] eqn:Hf; [destruct (index_of (x_to xc)) as [g|] eqn:Hg|].
    + apply (Hstep (connect_cross_connect i f g b)); [|done|done|].
      * simpl. by rewrite length_alter.
      * intros p x. simpl. pose proof (index_of_lt _ _ _ Hf). rewrite at_index_alter by lia.
        split; [naive_solver|]. intros [?|(-> & [= ->] & _)]; auto.
    + apply (Hstep b); [done..|]. intros p x. split; [auto|]. intros [?|(_ & _ & [])]; done.
    + apply (Hstep b); [done..|]. intros p x. split; [auto|]. intros [?|(_ & ? & _)]; done.
Qed.

Lemma link_ports_arcs nodes i l a :
  adj_arcs (link_ports nodes i l a) = adj_arcs a /\
  adj_cross_connects (link_ports nodes i l a) = adj_cross_connects a.
Proof.
  revert i a; induction l as [|p l IH]; intros i a; simpl; [done|].
  destruct (IH (S i) (match find_by_key n_id (node (p_key p)) nodes with
                      | Some _ => a | None => note a (ForNode (node (p_key p))) (Some i) end)) as [-> ->].
  by destruct (find_by_key _ _ _).
Qed.
End link_lemmas2.

(** The adjacency of a successful [link], from the records alone. *)
Lemma link_spec options r a :
  link options r = Value a ->
  length (adj_arcs a) = length (so_ports r) /\ length (adj_cross_connects a) = length (so_ports r) /\
  (forall p arc, In arc (at_index (adj_arcs a) p) <-> new_arc (so_ports r) 0 (so_spans r) p arc) /\
  (forall p x, In x (at_index (adj_cross_connects a) p) <->
               new_cross_connect (so_ports r) 0 (so_cross_connects r) p x).
Proof.
  unfold link. set (a0 := link_ports (so_nodes r) 0 (so_ports r) (empty_adjacency (length (so_ports r)))).
  destruct (link_ports_arcs (so_nodes r) 0 (so_ports r) (empty_adjacency (length (so_ports r)))) as [Ha Hx].
  fold a0 in Ha, Hx. simpl in Ha, Hx.
  destruct (link_spans options (so_ports r) 0 (so_spans r) a0) as [a1|] eqn:E1; [|done].
  destruct (link_cross_connects options (so_ports r) 0 (so_cross_connects r) a1) as [a2|] eqn:E2; [|done].
  destruct (_ && _); [done|]. intros [= <-].
  assert (forall A (p : nat) n (y : A), In y (at_index (repeat [] n) p) -> False) as Hempty.
  { intros A p n y. unfold at_index. destruct (repeat [] n !! p) as [l|] eqn:E; [|done].
    apply list_elem_of_lookup_2, list_elem_of_In, repeat_spec in E. by subst. }
  destruct (link_spans_arcs _ _ _ _ _ _ ltac:(rewrite Ha; apply repeat_length) E1) as (L1 & X1 & S1).
  destruct (link_cross_connects_arcs _ _ _ _ _ _ ltac:(rewrite X1, Hx; apply repeat_length) E2) as (L2 & X2 & S2).
  split; [congruence|]. split; [done|]. split.
  - intros p arc. rewrite X2, S1, Ha. split; [|by right]. intros [?%Hempty|?]; done.
  - intros p x. rewrite S2, X1, Hx. split; [|by right]. intros [?%Hempty|?]; done.
Qed.

(** ** Lemmas: sealing *)

Section sealing.
Context `{Platform, Hasher}.

Lemma build_snapshot_inv b t :
  build_snapshot b = Value t ->
  exists sources nodes ports spans xs a d,
    validate_records b = Value (sources, nodes, ports, spans, xs) /\
    link (b_options b) (sort_records sources nodes ports spans xs (b_profiles b)) = Value a /\
    t = assemble b (sort_records sources nodes ports spans xs (b_profiles b)) a d /\
    d = ComputeSnapshotDigest t.
Proof.
  unfold build_snapshot. destruct (validate_records b) as [v|] eqn:E; [|done].
  destruct v as [[[[sources nodes] ports] spans] xs]. cbv zeta.
  destruct (link _ _) as [a|] eqn:El; [|done]. intros [= <-].
  do 7 eexists. split; [done|]. split; [exact El|]. split; done.
Qed.

Lemma validate_records_sources b sources nodes ports spans xs :
  validate_records b = Value (sources, nodes, ports, spans, xs) -> StronglySorted (key_lt src_id) sources.
Proof.
  unfold validate_records. intros Hv.
  destruct (failed (Spectrum_Validate (b_spectrum b))); [done|]. cbv zeta beta in Hv.
  destruct (failed (distinct_sources _)) eqn:Hd; [done|].
  apply distinct_sources_sorted in Hd; [|apply sort_by_sorted].
  repeat case_in Hv; try discriminate. by injection Hv as <- _ _ _ _.
Qed.

(** The sorted vectors of a sealed snapshot. *)
Lemma sort_records_sorted sources nodes ports spans xs profiles :
  let r := sort_records sources nodes ports spans xs profiles in
  so_sources r = sources /\ StronglySorted (key_lt n_id) (so_nodes r) /\
  StronglySorted (key_lt p_key) (so_ports r) /\ StronglySorted (key_lt r_id) (so_profiles r) /\
  StronglySorted (key_lt (fun k : ResourceKey => k)) (so_conflicted r).
Proof.
  unfold sort_records.
  pose proof (SortAndDeduplicate_sorted n_id NodeRecord_eqb (fun n => ForNode (n_id n)) nodes) as Hn.
  pose proof (SortAndDeduplicate_sorted p_key PortRecord_eqb (fun p => ForPort (p_key p)) ports) as Hp.
  pose proof (SortAndDeduplicate_sorted r_id ReachProfile_eqb (fun r => ForReachProfile (r_id r)) profiles) as Hr.
  destruct (SortAndDeduplicate n_id _ _ _ nodes), (SortAndDeduplicate p_key _ _ _ ports),
    (SortAndDeduplicate s_id _ _ _ spans), (SortAndDeduplicate x_id _ _ _ xs),
    (SortAndDeduplicate r_id _ _ _ profiles). simpl in *.
  split_and!; [done..|]. apply sort_unique_sorted.
Qed.

Lemma normalise_record_increasing {R} (get : R -> list FailureDomainId) put what r r' :
  (forall d r, get (put d r) = d) -> normalise_record get put what r = Value r' -> increasing (get r').
Proof.
  unfold normalise_record. cbv zeta. destruct (_ <? _); [done|]. intros Hg [= <-]. rewrite Hg. apply sort_unique_sorted.
Qed.

Lemma validate_records_domains b sources nodes ports spans xs :
  validate_records b = Value (sources, nodes, ports, spans, xs) -> domains_sorted nodes ports spans xs.
Proof.
  unfold validate_records. cbv zeta beta. destruct (failed (Spectrum_Validate _)); [done|].
  destruct (failed (distinct_sources _)); [done|].
  destruct (NormaliseDomains n_failure_domains _ _ (b_nodes b)) as [ns|] eqn:En; [|done].
  destruct (NormaliseDomains p_failure_domains _ _ (b_ports b)) as [ps|] eqn:Ep; [|done].
  destruct (NormaliseDomains s_failure_domains _ _ (b_spans b)) as [ss|] eqn:Es; [|done].
  destruct (NormaliseDomains x_failure_domains _ _ (b_cross_connects b)) as [cs|] eqn:Ex; [|done].
  intros Hv. repeat case_in Hv; try discriminate. injection Hv as _ <- <- <- <-.
  split_and!; eapply map_expected_forall; try eassumption; intros x y; by apply normalise_record_increasing.
Qed.

Lemma sort_records_domains sources nodes ports spans xs profiles :
  let r := sort_records sources nodes ports spans xs profiles in
  domains_sorted nodes ports spans xs ->
  domains_sorted (so_nodes r) (so_ports r) (so_spans r) (so_cross_connects r).
Proof.
  unfold sort_records.
  pose proof (SortAndDeduplicate_in n_id NodeRecord_eqb (fun n => ForNode (n_id n)) (by_key n_id) nodes) as Hn.
  pose proof (SortAndDeduplicate_in p_key PortRecord_eqb (fun p => ForPort (p_key p)) (by_key p_key) ports) as Hp.
  pose proof (SortAndDeduplicate_in s_id SpanRecord_eqb (fun s => ForSpan (s_id s))
    (by_key (arc_key s_from s_to s_id)) spans) as Hs.
  pose proof (SortAndDeduplicate_in x_id CrossConnectRecord_eqb (fun x => ForCrossConnect (x_id x))
    (by_key (arc_key x_from x_to x_id)) xs) as Hx.
  destruct (SortAndDeduplicate n_id _ _ _ nodes), (SortAndDeduplicate p_key _ _ _ ports),
    (SortAndDeduplicate s_id _ _ _ spans), (SortAndDeduplicate x_id _ _ _ xs),
    (SortAndDeduplicate r_id _ _ _ profiles). simpl in *. unfold domains_sorted. rewrite !List.Forall_forall. naive_solver.
Qed.

Lemma assemble_wf b r a d :
  domains_sorted (so_nodes r) (so_ports r) (so_spans r) (so_cross_connects r) ->
  StronglySorted (key_lt src_id) (so_sources r) -> StronglySorted (key_lt n_id) (so_nodes r) ->
  StronglySorted (key_lt p_key) (so_ports r) -> StronglySorted (key_lt r_id) (so_profiles r) ->
  StronglySorted (key_lt (fun k : ResourceKey => k)) (so_conflicted r) ->
  link (b_options b) r = Value a -> wf_snapshot (assemble b r a d).
Proof.
  intros Hd Hs Hn Hp Hr Hc (L1 & L2 & S1 & S2)%link_spec. split; simpl; [done..| | | | |done].
  - by rewrite length_map.
  - by rewrite length_map.
  - intros i arc. change (OutgoingSpanArcs _ i) with (at_index (map (sort_by (arc_less (so_spans r))) (adj_arcs a)) i).
    rewrite at_index_map by (intros; apply sort_by_in). rewrite S1. unfold new_arc, arc_leaves. simpl. split.
    + intros (k & s & Hk & -> & Ht & Hh & Hb). split; [by eapply index_of_lt|]. exists s. auto.
    + intros (_ & s & Hk & Ht & Hh & Hb). exists (span_index arc), s. auto.
  - intros i x. change (OutgoingCrossConnects _ i) with
      (at_index (map (sort_by (by_key (cross_connect_id_at (so_cross_connects r)))) (adj_cross_connects a)) i).
    rewrite at_index_map by (intros; apply sort_by_in). rewrite S2. unfold new_cross_connect, xc_leaves. simpl. split.
    + intros (k & s & Hk & -> & Ht & Hh). split; [by eapply index_of_lt|]. exists s. auto.
    + intros (_ & s & Hk & Ht & Hh). exists x, s. auto.
Qed.

Lemma Build_inv b t b' : Build b = (Value t, b') -> b_built b = false /\ build_snapshot b = Value t.
Proof.
  unfold Build. destruct (b_built b); [done|]. destruct (build_snapshot b); [|done]. by intros [= -> _].
Qed.

Lemma Build_wf b t b' : Build b = (Value t, b') -> wf_snapshot t.
Proof.
  intros [_ Hb]%Build_inv. apply build_snapshot_inv in Hb as (sources & nodes & ports & spans & xs & a & d & Hv & Hl & -> & _).
  destruct (sort_records_sorted sources nodes ports spans xs (b_profiles b)) as (Es & ? & ? & ? & ?).
  apply assemble_wf; [|rewrite Es; by eapply validate_records_sources|done..].
  by eapply sort_records_domains, validate_records_domains.
Qed.
End sealing.

(** ** Lemmas: the order of submission *)

Lemma map_expected_perm {A B} (f : A -> Expected B) l l' ys :
  l ≡ₚ l' -> map_expected f l = Value ys -> exists ys', map_expected f l' = Value ys' /\ ys ≡ₚ ys'.
Proof.
  intros Hp; revert ys; induction Hp as [|x l l' Hp IH|x y l|l1 l2 l3 _ IH1 _ IH2]; intros ys; simpl.
  - intros [= <-]. by exists [].
  - destruct (f x) as [z|]; [|done]. destruct (map_expected f l) as [zs|]; [|done]. intros [= <-].
    destruct (IH zs eq_refl) as (zs' & -> & Hzs). exists (z :: zs'). by rewrite Hzs.
  - destruct (f y) as [z|]; [|done]. destruct (f x) as [w|]; [|done].
    destruct (map_expected f l) as [zs|]; [|done]. intros [= <-]. exists (w :: z :: zs). split; [done|constructor].
  - intros (zs & Hzs & Hp1)%IH1. destruct (IH2 _ Hzs) as (ws & Hws & Hp2). exists ws. by rewrite Hp1.
Qed.

Lemma for_each_perm {A} (check : A -> Status) l l' :
  l ≡ₚ l' -> failed (for_each check l) = failed (for_each check l').
Proof.
  intros Hp. apply eq_iff_eq_true. rewrite <- !not_false_iff_true. apply not_iff_compat.
  assert (forall l, failed (for_each check l) = false <-> forall x, In x l -> failed (check x) = false) as Hall.
  { clear. intros l. split; [apply for_each_ok|]. induction l as [|x l IH]; simpl; [done|]. intros Hl.
    rewrite (Hl x) by auto. apply IH. auto. }
  rewrite !Hall. split; intros Hx x Hin; apply Hx; eapply Permutation_in; [symmetry| |exact Hp|]; done.
Qed.

Lemma map_expected_map {A B K} (f : A -> Expected B) (g : A -> K) (h : B -> K) l ys :
  (forall x y, f x = Value y -> h y = g x) -> map_expected f l = Value ys -> map h ys = map g l.
Proof.
  intros Hf; revert ys; induction l as [|x l IH]; simpl; intros ys; [by intros [= <-]|].
  destruct (f x) as [z|] eqn:E; [|done]. destruct (map_expected f l) as [zs|]; [|done]. intros [= <-]. simpl.
  by rewrite (Hf _ _ E), (IH zs).
Qed.

Lemma normalise_record_key {R K} (key : R -> K) get put what (r r' : R) :
  (forall d r, key (put d r) = key r) -> normalise_record get put what r = Value r' -> key r' = key r.
Proof. unfold normalise_record. cbv zeta. destruct (_ <? _); [done|]. intros Hk [= <-]. apply Hk. Qed.

Section dedup_order.
Context {R K S : Type} `{Ordered K, EqDecision K, Ordered S, EqDecision S}.
Context (key : R -> K) (sort_key : R -> S) (eqb : R -> R -> bool) (res : R -> ResourceKey).
Context (sort_key_key : forall x y, sort_key x = sort_key y -> key x = key y).

Lemma dedup_from_distinct last l :
  List.NoDup (map key (last :: l)) -> dedup_from key eqb res last l = (l, []).
Proof.
  revert last; induction l as [|x l IH]; intros last Hnd; simpl; [done|].
  simpl in Hnd. inversion_clear Hnd as [|? ? Hni Hnd']. rewrite bool_decide_eq_false_2; [|intros E; apply Hni; by left].
  by rewrite IH.
Qed.

(** Records of distinct identities are only sorted: none is dropped, no
    conflict is noted, and the order they came in does not matter. *)
Lemma SortAndDeduplicate_distinct l l' :
  l ≡ₚ l' -> List.NoDup (map key l) ->
  SortAndDeduplicate key eqb res (by_key sort_key) l = (sort_by (by_key sort_key) l, []) /\
  SortAndDeduplicate key eqb res (by_key sort_key) l' = SortAndDeduplicate key eqb res (by_key sort_key) l.
Proof.
  intros Hp Hnd.
  assert (sort_by (by_key sort_key) l = sort_by (by_key sort_key) l') as E.
  { apply sort_by_perm_eq; [done|]. clear -Hnd sort_key_key. induction l as [|x l IH]; simpl in *; [constructor|].
    inversion_clear Hnd as [|? ? Hni Hnd']. constructor; [|auto]. intros (y & Hy & Hin)%in_map_iff.
    apply Hni. rewrite <- (sort_key_key _ _ Hy). by apply in_map. }
  unfold SortAndDeduplicate. rewrite <- E. split; [|done].
  assert (List.NoDup (map key (sort_by (by_key sort_key) l))) as Hs.
  { eapply Permutation_NoDup; [|exact Hnd]. symmetry. apply Permutation_map, sort_by_perm. }
  destruct (sort_by (by_key sort_key) l) as [|x rest]; [done|]. by rewrite dedup_from_distinct.
Qed.
End dedup_order.

(** Two builders that received the same records in some order each. *)
Record same_records (b b' : SnapshotBuilder) : Prop := {
  same_id : b_id b' = b_id b;
  same_generation : b_generation b' = b_generation b;
  same_spectrum : b_spectrum b' = b_spectrum b;
  same_options : b_options b' = b_options b;
  same_built : b_built b' = b_built b;
  same_sources : b_sources b ≡ₚ b_sources b';
  same_nodes : b_nodes b ≡ₚ b_nodes b';
  same_ports : b_ports b ≡ₚ b_ports b';
  same_spans : b_spans b ≡ₚ b_spans b';
  same_cross_connects : b_cross_connects b ≡ₚ b_cross_connects b';
  same_profiles : b_profiles b ≡ₚ b_profiles b';
}.

Record distinct_records (b : SnapshotBuilder) : Prop := {
  distinct_nodes : List.NoDup (map n_id (b_nodes b));
  distinct_ports : List.NoDup (map p_key (b_ports b));
  distinct_spans : List.NoDup (map s_id (b_spans b));
  distinct_cross_connects : List.NoDup (map x_id (b_cross_connects b));
  distinct_profiles : List.NoDup (map r_id (b_profiles b));
}.

Lemma validate_records_perm b b' sources nodes ports spans xs :
  same_records b b' -> validate_records b = Value (sources, nodes, ports, spans, xs) ->
  exists nodes' ports' spans' xs',
    validate_records b' = Value (sources, nodes', ports', spans', xs') /\
    nodes ≡ₚ nodes' /\ ports ≡ₚ ports' /\ spans ≡ₚ spans' /\ xs ≡ₚ xs'.
Proof.
  intros S. unfold validate_records. rewrite (same_spectrum _ _ S).
  destruct (failed (Spectrum_Validate (b_spectrum b))); [done|]. cbv zeta beta.
  destruct (failed (distinct_sources (sort_by _ (b_sources b)))) eqn:Ed; [done|].
  assert (sort_by (by_key src_id) (b_sources b') = sort_by (by_key src_id) (b_sources b)) as ->.
  { apply distinct_sources_sorted in Ed; [|apply sort_by_sorted]. apply sorted_lt_nodup in Ed.
    symmetry. apply sort_by_perm_eq; [apply (same_sources _ _ S)|].
    eapply Permutation_NoDup; [|exact Ed]. apply Permutation_map, sort_by_perm. }
  rewrite Ed.
  destruct (NormaliseDomains n_failure_domains _ _ (b_nodes b)) as [ns|] eqn:En; [|done].
  apply (map_expected_perm _ _ _ _ (same_nodes _ _ S)) in En as (ns' & En & Pn).
  destruct (NormaliseDomains p_failure_domains _ _ (b_ports b)) as [ps|] eqn:Ep; [|done].
  apply (map_expected_perm _ _ _ _ (same_ports _ _ S)) in Ep as (ps' & Ep & Pp).
  destruct (NormaliseDomains s_failure_domains _ _ (b_spans b)) as [ss|] eqn:Es; [|done].
  apply (map_expected_perm _ _ _ _ (same_spans _ _ S)) in Es as (ss' & Es & Ps).
  destruct (NormaliseDomains x_failure_domains _ _ (b_cross_connects b)) as [cs|] eqn:Ex; [|done].
  apply (map_expected_perm _ _ _ _ (same_cross_connects _ _ S)) in Ex as (cs' & Ex & Px).
  unfold NormaliseDomains. rewrite En, Ep, Es, Ex.
  rewrite <- !(for_each_perm _ _ _ Pn), <- !(for_each_perm _ _ _ Ps), <- !(for_each_perm _ _ _ Pp),
    <- !(for_each_perm _ _ _ Px), <- !(for_each_perm _ _ _ (same_profiles _ _ S)).
  do 5 (match goal with |- context [if failed ?s then _ else _] => destruct (failed s); [done|] end).
  intros [= <- <- <- <- <-]. exists ns', ps', ss', cs'. auto.
Qed.

Lemma validate_records_keys b sources nodes ports spans xs :
  validate_records b = Value (sources, nodes, ports, spans, xs) ->
  map n_id nodes = map n_id (b_nodes b) /\ map p_key ports = map p_key (b_ports b) /\
  map s_id spans = map s_id (b_spans b) /\ map x_id xs = map x_id (b_cross_connects b).
Proof.
  unfold validate_records. destruct (failed (Spectrum_Validate (b_spectrum b))); [done|]. cbv zeta beta.
  destruct (failed (distinct_sources (sort_by _ (b_sources b)))); [done|].
  destruct (NormaliseDomains n_failure_domains _ _ (b_nodes b)) as [ns|] eqn:En; [|done].
  destruct (NormaliseDomains p_failure_domains _ _ (b_ports b)) as [ps|] eqn:Ep; [|done].
  destruct (NormaliseDomains s_failure_domains _ _ (b_spans b)) as [ss|] eqn:Es; [|done].
  destruct (NormaliseDomains x_failure_domains _ _ (b_cross_connects b)) as [cs|] eqn:Ex; [|done].
  do 5 (match goal with |- context [if failed ?s then _ else _] => destruct (failed s); [done|] end).
  intros [= <- <- <- <- <-].
  split_and!; eapply map_expected_map; try eassumption; intros x y; by apply normalise_record_key.
Qed.

Lemma sort_records_perm sources nodes nodes' ports ports' spans spans' xs xs' profiles profiles' :
  nodes ≡ₚ nodes' -> ports ≡ₚ ports' -> spans ≡ₚ spans' -> xs ≡ₚ xs' -> profiles ≡ₚ profiles' ->
  List.NoDup (map n_id nodes) -> List.NoDup (map p_key ports) -> List.NoDup (map s_id spans) ->
  List.NoDup (map x_id xs) -> List.NoDup (map r_id profiles) ->
  sort_records sources nodes' ports' spans' xs' profiles' = sort_records sources nodes ports spans xs profiles.
Proof.
  intros Pn Pp Ps Px Pr Dn Dp Ds Dx Dr. unfold sort_records.
  destruct (SortAndDeduplicate_distinct n_id n_id NodeRecord_eqb (fun n => ForNode (n_id n)) ltac:(done) _ _ Pn Dn) as [_ ->].
  destruct (SortAndDeduplicate_distinct p_key p_key PortRecord_eqb (fun p => ForPort (p_key p)) ltac:(done) _ _ Pp Dp) as [_ ->].
  destruct (SortAndDeduplicate_distinct s_id (arc_key s_from s_to s_id) SpanRecord_eqb (fun s => ForSpan (s_id s))
              ltac:(unfold arc_key; congruence) _ _ Ps Ds) as [_ ->].
  destruct (SortAndDeduplicate_distinct x_id (arc_key x_from x_to x_id) CrossConnectRecord_eqb
              (fun x => ForCrossConnect (x_id x)) ltac:(unfold arc_key; congruence) _ _ Px Dx) as [_ ->].
  destruct (SortAndDeduplicate_distinct r_id r_id ReachProfile_eqb (fun r => ForReachProfile (r_id r)) ltac:(done) _ _ Pr Dr) as [_ ->].
  done.
Qed.

Lemma build_snapshot_perm `{Platform, Hasher} b b' t :
  same_records b b' -> distinct_records b -> build_snapshot b = Value t -> build_snapshot b' = Value t.
Proof.
  intros S D. unfold build_snapshot. destruct (validate_records b) as [v|] eqn:E; [|done].
  destruct v as [[[[sources nodes] ports] spans] xs]. pose proof (validate_records_keys _ _ _ _ _ _ E) as (Kn & Kp & Ks & Kx).
  destruct (validate_records_perm _ _ _ _ _ _ _ S E) as (ns & ps & ss & cs & -> & Pn & Pp & Ps & Px).
  rewrite (sort_records_perm sources nodes ns ports ps spans ss xs cs (b_profiles b) (b_profiles b') Pn Pp Ps Px
             (same_profiles _ _ S)).
  - rewrite (same_options _ _ S). destruct (link _ _) as [a|]; [|done].
    unfold assemble. by rewrite (same_id _ _ S), (same_generation _ _ S), (same_spectrum _ _ S).
  - rewrite Kn. apply D.
  - rewrite Kp. apply D.
  - rewrite Ks. apply D.
  - rewrite Kx. apply D.
  - apply D.
Qed.

(** ** A small network for the witnesses

    Two terminals, one fibre, a transmitter profile on each line port. *)

Module Sample.
Definition up : Evidence AdminState.t := Known AdminState.Up.
Definition src : SourceId := MkId "inv".
Definition source : SourceRecord := MkSource src 3 Coverage.Complete "".
Definition node_named (n : string) : NodeRecord :=
  MkNode (MkId n) NodeKind.Terminal [] 1 Coverage.Complete up src 3.
Definition port_of (n p : string) : PortRecord :=
  MkPort (MkPortKey (MkId n) (MkId p)) PortRole.Line (Known (Some (MkId "P"))) (Known mask_None) [] 0 up src 3.
Definition span_between (id n p n' p' : string) (cost : Z) : SpanRecord :=
  MkSpan (MkId id) (MkPortKey (MkId n) (MkId p)) (MkPortKey (MkId n') (MkId p')) true (Known 80000)
    (Known d10) (Known (double_of 30)) (Known mask_None) [MkId "duct"] cost up src 3.
Definition profile : ReachProfile :=
  MkProfile (MkId "P") (Known 500000) (Known 4) (Known (double_of 40)) (Known d10) src 3.

Definition builder (nodes : list NodeRecord) (ports : list PortRecord) (spans : list SpanRecord)
  (xs : list CrossConnectRecord) : SnapshotBuilder :=
  MkBuilder (MkId "snap") 7 (MkSpectrum GridKind.Fixed50GHz 8) default_build_options [source] nodes ports spans xs
    [profile] false.

Definition two_nodes : SnapshotBuilder :=
  builder [node_named "B"; node_named "A"] [port_of "B" "1"; port_of "A" "1"]
    [span_between "s" "A" "1" "B" "1" 5] [].

(** A cheap stand-in for the digest of the witnesses. *)
#[local] Instance toy_hasher : Hasher :=
  fun pieces => MkDigest (repeat (wrap8 (fold_left (fun n s => n + string_size s) pieces 0)) 32).

Definition snapshot_of (b : SnapshotBuilder) : TopologySnapshot :=
  match fst (Build b) with
  | Value t => t
  | Error _ => assemble b (MkSorted [] [] [] [] [] [] []) (empty_adjacency 0) zero_digest
  end.
End Sample.

(** ** Theorems *)

Section theorems.
Context `{Platform, Hasher}.

(** C29: a sealed snapshot is well formed.  Whatever was submitted, a successful
    [Build] yields sources, nodes, ports and profiles with strictly increasing
    identities (so every lookup by [std::lower_bound] is right), a sorted list of
    conflicts, and an adjacency that holds exactly the directed arcs of the
    records whose two endpoints have a port record, both directions of a
    bidirectional span and only the forward one of a unidirectional span. *)
Theorem Build_wf_snapshot (b b' : SnapshotBuilder) (t : TopologySnapshot) :
  Build b = (Value t, b') -> wf_snapshot t.
Proof. apply Build_wf. Qed.

(** C30: sealing does not depend on the order of submission.  Builders that
    received the same records in different orders, every identity once, seal
    equal snapshots, digest included. *)
Theorem Build_order_independent (b b' : SnapshotBuilder) (t : TopologySnapshot) :
  same_records b b' -> distinct_records b -> fst (Build b) = Value t -> fst (Build b') = Value t.
Proof.
  intros S D. unfold Build. rewrite (same_built _ _ S). destruct (b_built b); [done|].
  destruct (build_snapshot b) as [u|] eqn:E; [|done]. simpl. intros [= ->].
  by rewrite (build_snapshot_perm b b' t S D E).
Qed.

(** What complete coverage means.  A snapshot sealed with complete coverage
    has no conflict, no unresolved reference, only exhaustive sources and only
    completely described nodes; and any one of those missing makes it
    incomplete. *)
Theorem Build_coverage (b b' : SnapshotBuilder) (t : TopologySnapshot) :
  Build b = (Value t, b') ->
  t_coverage_complete t = true <->
  t_unresolved t = [] /\ t_conflicted t = [] /\
  (forall s, In s (t_sources t) -> src_coverage s = Coverage.Complete) /\
  (forall n, In n (t_nodes t) -> n_coverage n = Coverage.Complete).
Proof.
  intros [_ Hb]%Build_inv. apply build_snapshot_inv in Hb as (? & ? & ? & ? & ? & a & d & _ & _ & -> & _). simpl.
  unfold coverage_of. rewrite !andb_true_iff, !bool_decide_eq_true, !forallb_forall.
  setoid_rewrite bool_decide_eq_true. tauto.
Qed.

(** A builder is sealed once.  The first [Build], successful or not, seals
    the builder; every later [Build] or [Add] is refused and changes nothing. *)
Theorem Build_seals (b : SnapshotBuilder) (node : NodeRecord) (port : PortRecord) (span : SpanRecord)
  (xc : CrossConnectRecord) (source : SourceRecord) (profile : ReachProfile) :
  let b' := snd (Build b) in
  let refused := Failure StatusCode.Refused "snapshot builder has already been sealed" in
  Build b' = (Error refused, b') /\ AddSource b' source = (refused, b') /\ AddNode b' node = (refused, b') /\
  AddPort b' port = (refused, b') /\ AddSpan b' span = (refused, b') /\ AddCrossConnect b' xc = (refused, b') /\
  AddReachProfile b' profile = (refused, b').
Proof.
  assert (b_built (snd (Build b)) = true) as E.
  { unfold Build. destruct (b_built b) eqn:E; [done|]. by destruct (build_snapshot b). }
  cbv zeta. unfold AddSource, AddNode, AddPort, AddSpan, AddCrossConnect, AddReachProfile, add_guards.
  rewrite E. split_and!; [|done..]. unfold Build at 1. by rewrite E.
Qed.
End theorems.

(** The record counts of a builder stay within the hard bounds. *)
Definition within_bounds (b : SnapshotBuilder) : Prop :=
  size (b_sources b) <= kMaxSources /\ size (b_nodes b) <= kMaxNodes /\ size (b_ports b) <= kMaxPorts /\
  size (b_spans b) <= kMaxSpans /\ size (b_cross_connects b) <= kMaxCrossConnects /\
  size (b_profiles b) <= kMaxReachProfiles.

Inductive builder_step (b : SnapshotBuilder) : SnapshotBuilder -> Prop :=
| step_source r : builder_step b (snd (AddSource b r))
| step_node r : builder_step b (snd (AddNode b r))
| step_port r : builder_step b (snd (AddPort b r))
| step_span r : builder_step b (snd (AddSpan b r))
| step_cross_connect r : builder_step b (snd (AddCrossConnect b r))
| step_profile r : builder_step b (snd (AddReachProfile b r))
| step_build `{Platform, Hasher} : builder_step b (snd (Build b)).

Inductive builder_reachable (options : SnapshotBuildOptions) : SnapshotBuilder -> Prop :=
| reachable_new : builder_reachable options (new_builder options)
| reachable_step b b' : builder_reachable options b -> builder_step b b' -> builder_reachable options b'.

Lemma guarded_cases b unnamed d1 count maximum d2 b' :
  let g := guarded (add_guards b unnamed d1 count maximum d2) b b' in
  snd g = b \/ (snd g = b' /\ count < maximum).
Proof.
  cbv zeta. unfold guarded, add_guards. destruct (b_built b); [by left|]. destruct unnamed; [by left|].
  destruct (Z.leb_spec maximum count); [by left|]. by right.
Qed.

Lemma size_snoc {A} (l : list A) x : size (l ++ [x]) = size l + 1.
Proof. unfold size. rewrite length_app. simpl. lia. Qed.

Lemma builder_step_bounds b b' : within_bounds b -> builder_step b b' -> within_bounds b'.
Proof.
  intros B [r|r|r|r|r|r|? ?].
  1-6: unfold AddSource, AddNode, AddPort, AddSpan, AddCrossConnect, AddReachProfile.
  1-6: match goal with |- within_bounds (snd (guarded (add_guards _ ?u ?d1 ?c ?m ?d2) _ ?bb)) =>
         destruct (guarded_cases b u d1 c m d2 bb) as [->|[-> Hlt]]; [done|] end;
       revert B; unfold within_bounds; simpl; rewrite size_snoc; naive_solver lia.
  unfold Build. destruct (b_built b); [done|]. destruct (build_snapshot b); [|done].
  by vm_compute.
Qed.

(** The record counts are bounded.  However a builder is driven, it never
    holds more records of a kind than the published limit. *)
Theorem builder_bounded (options : SnapshotBuildOptions) (b : SnapshotBuilder) :
  builder_reachable options b -> within_bounds b.
Proof. induction 1 as [|b b' _ IH Hs]; [by vm_compute|]. by eapply builder_step_bounds. Qed.

(** The retained duplicate depends on the order of submission.  Two records
    of one node that disagree are reported as a conflict in both orders, but
    the sort compares identities only, so the record submitted first is the one
    that is kept, and the sealed snapshots differ. *)
Theorem duplicate_retention_by_order :
  let cheap := Sample.node_named "A" in
  let dear := MkNode (MkId "A") NodeKind.Terminal [] 9 Coverage.Complete Sample.up Sample.src 3 in
  let first := sort_records [] [cheap; dear] [] [] [] [] in
  let second := sort_records [] [dear; cheap] [] [] [] [] in
  so_conflicted first = [ForNode (MkId "A")] /\ so_conflicted second = [ForNode (MkId "A")] /\
  so_nodes first = [cheap] /\ so_nodes second = [dear].
Proof. by vm_compute. Qed.

(** A duplicated span identity with other endpoints goes unnoticed.  Spans
    are sorted by endpoints before adjacent identities are compared, so two
    spans named alike on different port pairs can both be kept and no conflict
    recorded. *)
Theorem duplicate_span_unnoticed :
  let s1 := Sample.span_between "s" "A" "1" "B" "1" 5 in
  let s2 := Sample.span_between "t" "A" "1" "C" "1" 5 in
  let s3 := Sample.span_between "s" "A" "1" "D" "1" 5 in
  let r := sort_records [] [] [] [s1; s2; s3] [] [] in
  so_spans r = [s1; s2; s3] /\ so_conflicted r = [].
Proof. by vm_compute. Qed.

(** ** Witnesses *)

Section witnesses.
Existing Instance Sample.toy_hasher.

Lemma Build_wf_snapshot_witness :
  exists t b', Build Sample.two_nodes = (Value t, b') /\ map n_id (t_nodes t) = [MkId "A"; MkId "B"] /\ wf_snapshot t.
Proof.
  exists (Sample.snapshot_of Sample.two_nodes), (snd (Build Sample.two_nodes)).
  assert (Build Sample.two_nodes = (Value (Sample.snapshot_of Sample.two_nodes), snd (Build Sample.two_nodes))) as E
    by (by vm_compute).
  split; [exact E|]. split; [by vm_compute|]. exact (Build_wf_snapshot _ _ _ E).
Defined.

Lemma Build_order_independent_witness :
  let b' := Sample.builder [Sample.node_named "A"; Sample.node_named "B"] [Sample.port_of "A" "1"; Sample.port_of "B" "1"]
    [Sample.span_between "s" "A" "1" "B" "1" 5] [] in
  fst (Build b') = Value (Sample.snapshot_of Sample.two_nodes).
Proof.
  cbv zeta. apply (Build_order_independent Sample.two_nodes).
  - split; try done; apply perm_swap.
  - split; simpl; repeat constructor; simpl; try tauto; intros [[=]|[]].
  - by vm_compute.
Defined.

Lemma Build_coverage_witness :
  t_coverage_complete (Sample.snapshot_of Sample.two_nodes) = true <->
  t_unresolved (Sample.snapshot_of Sample.two_nodes) = [] /\
  t_conflicted (Sample.snapshot_of Sample.two_nodes) = [] /\
  (forall s, In s (t_sources (Sample.snapshot_of Sample.two_nodes)) -> src_coverage s = Coverage.Complete) /\
  (forall n, In n (t_nodes (Sample.snapshot_of Sample.two_nodes)) -> n_coverage n = Coverage.Complete).
Proof. apply (Build_coverage Sample.two_nodes (snd (Build Sample.two_nodes))). by vm_compute. Defined.

Lemma builder_bounded_witness :
  let b := snd (AddNode (new_builder default_build_options) (Sample.node_named "A")) in
  b_nodes b = [Sample.node_named "A"] /\ within_bounds b.
Proof.
  cbv zeta. split; [done|]. apply (builder_bounded default_build_options).
  eapply reachable_step; [apply reachable_new|apply step_node].
Defined.
End witnesses.
