(* ===== verification/Synthetic.v ===== *)
(** * Synthetic: deterministic networks for tests and demonstrations

    [src/synthetic.cpp] and [include/opp/synthetic.hpp]: the generator of
    synthetic snapshots and the hand-shaped example network.  Each loop of the
    code is a fold over its counter that threads the builder and stops at the
    first refused record; the pseudo-random generator is threaded through the
    draws a span makes, in their order. *)

From S2P Require Import Prelude Status Ids Doubles Rounding Spectrum Canonical Topology SnapshotText Builder.

(** ** The generator of pseudo-random numbers: splitmix64 *)

Record SplitMix64 := MkRandom { random_state : Z }.

Definition Next (r : SplitMix64) : Z * SplitMix64 :=
  let state := wrap64 (random_state r + 0x9E3779B97F4A7C15) in
  let value := wrap64 (Z.lxor state (Z.shiftr state 30) * 0xBF58476D1CE4E5B9) in
  let value := wrap64 (Z.lxor value (Z.shiftr value 27) * 0x94D049BB133111EB) in
  (Z.lxor value (Z.shiftr value 31), MkRandom state).

Definition Below (bound : Z) (r : SplitMix64) : Z * SplitMix64 :=
  if bound =? 0 then (0, r)
  else let '(value, r) := Next r in (wrap32 (value mod bound), r).

(** [static_cast<double>(Next() >> 11) * (1.0 / 9007199254740992.0)] *)
Definition UnitDouble (r : SplitMix64) : double * SplitMix64 :=
  let '(value, r) := Next r in
  (dmul (double_of (Z.shiftr value 11)) (ddiv (double_of 1) (double_of 9007199254740992)), r).

Definition Numbered (prefix : string) (index : Z) : string := prefix +:+ to_string index.

(** ** Options *)

Definition kMaxGeneratedNodes : Z := 4096.

Record SyntheticOptions := MkSynthetic {
  syn_seed : Z;
  syn_node_count : Z;
  syn_degree : Z;
  syn_slot_count : Z;
  syn_grid : GridKind.t;
  syn_client_ports : Z;
  syn_include_regenerators : bool;
  syn_slot_blocking_one_in : Z;
  syn_publish_osnr : bool;
  syn_publish_length : bool;
  syn_generation : Generation;
  syn_id : string;
  syn_source_id : string;
}.

Definition default_synthetic_options : SyntheticOptions :=
  MkSynthetic 1 8 3 32 GridKind.Fixed50GHz 2 true 8 true true 1 "synthetic" "synthetic-generator".

(** The refusals before anything is generated. *)
Definition synthetic_guards (o : SyntheticOptions) : Status :=
  if syn_node_count o <? 2 then
    Failure StatusCode.InvalidArgument "a synthetic topology needs at least two nodes"
  else if kMaxGeneratedNodes <? syn_node_count o then
    Failure StatusCode.LimitExceeded "the requested synthetic topology exceeds the node bound"
  else if syn_degree o <? 2 then
    Failure StatusCode.InvalidArgument "a synthetic topology needs a degree of at least two"
  else if syn_node_count o <=? syn_degree o then
    Failure StatusCode.InvalidArgument "the requested degree is too large for the requested node count"
  else if (syn_slot_count o =? 0) || (kMaxSpectrumSlots <? syn_slot_count o) then
    Failure StatusCode.InvalidArgument "the requested slot count is outside the supported range"
  else if syn_client_ports o =? 0 then
    Failure StatusCode.InvalidArgument "a synthetic topology needs at least one client port per node"
  else OkStatus.

(** ** The graph: a ring and [degree] strides across it *)

Definition Edge : Type := Z * Z.

Definition add_edge (edges : list Edge) (lhs rhs : Z) : list Edge :=
  let edge := (Z.min lhs rhs, Z.max lhs rhs) in
  if existsb (fun e => bool_decide (e = edge)) edges then edges else edges ++ [edge].

Definition ring_step (n : Z) (edges : list Edge) (i : Z) : list Edge := add_edge edges i (wrap32 (i + 1) mod n).

Definition stride_of (o : SyntheticOptions) : Z := Z.max 2 (syn_node_count o / Z.max 2 (syn_degree o)).

Definition stride_step (n stride hop : Z) (edges : list Edge) (i : Z) : list Edge :=
  let target := wrap32 (i + wrap32 (stride * wrap32 (hop + 1))) mod n in
  if target =? i then edges else add_edge edges i target.

Definition graph_edges (o : SyntheticOptions) : list Edge :=
  let n := syn_node_count o in
  let ring := fold_left (ring_step n) (range n) [] in
  let all := fold_left (fun edges hop => fold_left (stride_step n (stride_of o) hop) (range n) edges)
               (range (syn_degree o)) ring in
  sort_by (by_key (fun e : Edge => e)) all.

(** [std::vector<std::vector<std::uint32_t>> neighbours(node_count)], filled
    from the edges. *)
Definition push_neighbours (rows : list (list Z)) (e : Edge) : list (list Z) :=
  alter (fun l => l ++ [e.1]) (Z.to_nat e.2) (alter (fun l => l ++ [e.2]) (Z.to_nat e.1) rows).

Definition neighbours_of (n : Z) (edges : list Edge) : list (list Z) :=
  fold_left push_neighbours edges (repeat [] (Z.to_nat n)).

Definition neighbours_at (rows : list (list Z)) (i : Z) : list Z := nth (Z.to_nat i) rows [].

(** ** Records *)

Definition synthetic_source : SourceId := MkId "synthetic-generator".
Definition synthetic_profile : ProfileId := MkId "reach-synthetic".
Definition admin_up : Evidence AdminState.t := Known AdminState.Up.
Definition rack_of (i : Z) : FailureDomainId := MkId (Numbered "rack" (i / 2)).
Definition node_name (i : Z) : NodeId := MkId (Numbered "n" i).
Definition client_name (k : Z) : PortId := MkId (Numbered "c" k).
Definition line_name (k : Z) : PortId := MkId (Numbered "l" k).

Section records.
Context (o : SyntheticOptions).

Definition is_regenerator (i : Z) : bool := syn_include_regenerators o && (i mod 5 =? 4).

Definition synthetic_source_record : SourceRecord := MkSource synthetic_source (syn_generation o) Coverage.Complete "".

Definition synthetic_profile_record : ReachProfile :=
  MkProfile synthetic_profile (Known 800000) (Known 8) (Known (double_of 60)) (Known (double_of 12)) synthetic_source
    (syn_generation o).

Definition node_record (i : Z) : NodeRecord :=
  MkNode (node_name i) (if is_regenerator i then NodeKind.Regenerator else NodeKind.ReconfigurableOadm)
    [MkId (Numbered "site" (i / 4)); rack_of i] 1 Coverage.Complete admin_up synthetic_source (syn_generation o).

Definition port_record (i : Z) (name : PortId) (role : PortRole.t) (transmitter : option ProfileId) : PortRecord :=
  MkPort (MkPortKey (node_name i) name) role (Known transmitter) (Known mask_None) [rack_of i] 1 admin_up
    synthetic_source (syn_generation o).

Definition client_port (i client : Z) : PortRecord :=
  port_record i (client_name client) PortRole.Client (Some synthetic_profile).
Definition line_port (i neighbour : Z) : PortRecord :=
  port_record i (line_name neighbour) PortRole.Line
    (if is_regenerator i then Some synthetic_profile else None).

Definition cross_connect_record (i counter : Z) (from to : PortId) (op : CrossConnectOp.t) : CrossConnectRecord :=
  MkCrossConnect (MkId (Numbered "xc" (wrap32 (wrap32 (i * 1000) + counter))))
    (MkPortKey (node_name i) from) (MkPortKey (node_name i) to) op (Known mask_None) [rack_of i] 1 admin_up
    synthetic_source (syn_generation o).

(** [span_random.Next() ^ (slot * 0x9E3779B97F4A7C15)] decides each slot. *)
Definition block_step (state : SlotMask * SplitMix64) (slot : Z) : SlotMask * SplitMix64 :=
  let '(blocked, r) := state in
  let '(value, r) := Next r in
  let mixed := Z.lxor value (wrap64 (slot * 0x9E3779B97F4A7C15)) in
  (if mixed mod syn_slot_blocking_one_in o =? 0 then mask_Set blocked slot else blocked, r).

Definition blocked_slots (r : SplitMix64) : SlotMask * SplitMix64 :=
  if 0 <? syn_slot_blocking_one_in o then fold_left block_step (range (syn_slot_count o)) (mask_None, r)
  else (mask_None, r).

(** [26.0 + UnitDouble() * 8.0], drawn only when it is published. *)
Definition drawn_osnr (r : SplitMix64) : Evidence double * SplitMix64 :=
  if syn_publish_osnr o then
    let '(unit, r) := UnitDouble r in (Known (dadd (double_of 26) (dmul unit (double_of 8))), r)
  else (Unknown, r).

(** [static_cast<double>(length_m) * 0.0002] *)
Definition loss_of (length_m : Z) : double := dmul (double_of length_m) (ddiv (double_of 2) (double_of 10000)).

Definition edge_text (e : Edge) : string := to_string e.1 +:+ "-" +:+ to_string e.2.

Definition span_seed (e : Edge) : Z := wrap64 (wrap64 (wrap64 (syn_seed o * 1000003) + wrap64 (e.1 * 1009)) + e.2).

Definition span_record (e : Edge) : SpanRecord :=
  let '(extra, r) := Below 100000 (MkRandom (span_seed e)) in
  let length_m := wrap64 (20000 + extra) in
  let '(osnr, r) := drawn_osnr r in
  let '(blocked, r) := blocked_slots r in
  let '(surcharge, r) := Below 3 r in
  MkSpan (MkId ("s" +:+ edge_text e)) (MkPortKey (node_name e.1) (line_name e.2))
    (MkPortKey (node_name e.2) (line_name e.1)) true
    (if syn_publish_length o then Known length_m else Unknown)
    (Known (loss_of length_m)) osnr (Known blocked) [MkId ("span" +:+ edge_text e)] (wrap32 (1 + surcharge)) admin_up
    synthetic_source (syn_generation o).
End records.

(** ** Feeding the builder *)

(** [status = builder.AddX(record); if (status.failed()) return status;] *)
Definition added (outcome : Status * SnapshotBuilder) : Expected SnapshotBuilder :=
  let '(status, b) := outcome in if failed status then Error status else Value b.

(** A loop that returns at the first failure. *)
Fixpoint each {A S} (step : A -> S -> Expected S) (l : list A) (s : S) : Expected S :=
  match l with
  | [] => Value s
  | x :: rest => let! s := step x s in each step rest s
  end.

Section generate.
Context `{Platform, Hasher} (o : SyntheticOptions).

Definition add_node_and_ports (rows : list (list Z)) (i : Z) (b : SnapshotBuilder) : Expected SnapshotBuilder :=
  let! b := added (AddNode b (node_record o i)) in
  let! b := each (fun client b => added (AddPort b (client_port o i client))) (range (syn_client_ports o)) b in
  each (fun neighbour b => added (AddPort b (line_port o i neighbour))) (neighbours_at rows i) b.

(** The lambda [add_cross_connect] and the [counter] it captures. *)
Definition add_cross_connect (i : Z) (from to : PortId) (op : CrossConnectOp.t) (state : Z * SnapshotBuilder) :
  Expected (Z * SnapshotBuilder) :=
  let '(counter, b) := state in
  let! b := added (AddCrossConnect b (cross_connect_record o i counter from to op)) in
  Value (wrap32 (counter + 1), b).

Definition add_client_arcs (i client neighbour : Z) (state : Z * SnapshotBuilder) : Expected (Z * SnapshotBuilder) :=
  let! state := add_cross_connect i (client_name client) (line_name neighbour) CrossConnectOp.Express state in
  add_cross_connect i (line_name neighbour) (client_name client) CrossConnectOp.Express state.

Definition add_transit_arc (i from to : Z) (state : Z * SnapshotBuilder) : Expected (Z * SnapshotBuilder) :=
  if from =? to then Value state
  else
    add_cross_connect i (line_name from) (line_name to)
      (if is_regenerator o i then CrossConnectOp.Regenerate else CrossConnectOp.Express) state.

Definition add_node_cross_connects (rows : list (list Z)) (i : Z) (b : SnapshotBuilder) : Expected SnapshotBuilder :=
  let near := neighbours_at rows i in
  let! state := each (fun client => each (add_client_arcs i client) near) (range (syn_client_ports o)) (0, b) in
  let! state := each (fun from => each (add_transit_arc i from) near) near state in
  Value (snd state).

(** Everything up to [return builder.Build()]. *)
Definition synthetic_builder : Expected SnapshotBuilder :=
  let! _ := if failed (synthetic_guards o) then Error (synthetic_guards o) else Value tt in
  let id := if expected_ok (id_Parse (t := SnapshotTag) (syn_id o)) then MkId (syn_id o) else MkId "synthetic" in
  let b := SetId (new_builder default_build_options) id in
  let b := SetGeneration b (syn_generation o) in
  let b := SetSpectrum b (MkSpectrum (syn_grid o) (syn_slot_count o)) in
  let! b := added (AddSource b (synthetic_source_record o)) in
  let! b := added (AddReachProfile b (synthetic_profile_record o)) in
  let edges := graph_edges o in
  let rows := neighbours_of (syn_node_count o) edges in
  let! b := each (add_node_and_ports rows) (range (syn_node_count o)) b in
  let! b := each (add_node_cross_connects rows) (range (syn_node_count o)) b in
  each (fun e b => added (AddSpan b (span_record o e))) edges b.

Definition GenerateSyntheticTopology : Expected TopologySnapshot :=
  let! b := synthetic_builder in
  fst (Build b).
End generate.

(** ** The example network *)

Definition example_source : SourceId := MkId "example-evidence".
Definition example_profile : ProfileId := MkId "reach-400km".
Definition example_names : list string := ["a"; "b"; "c"].
Definition example_site (name : string) : FailureDomainId :=
  MkId (if bool_decide (name = "b") then "site-b" else "site-a").

Definition example_node (name : string) : NodeRecord :=
  MkNode (MkId name) NodeKind.ReconfigurableOadm [example_site name] 1 Coverage.Complete admin_up example_source 7.

Definition example_port (name port_name : string) : PortRecord :=
  let client := bool_decide (port_name = "in") || bool_decide (port_name = "out") in
  MkPort (MkPortKey (MkId name) (MkId port_name)) (if client then PortRole.Client else PortRole.Line)
    (Known (if client then Some example_profile else None)) (Known mask_None) [example_site name] 1 admin_up
    example_source 7.

Definition example_key (name port_name : string) : PortKey := MkPortKey (MkId name) (MkId port_name).

Definition example_cross_connect (spec : string * string * string * string) : CrossConnectRecord :=
  let '(id, name, from, to) := spec in
  MkCrossConnect (MkId id) (example_key name from) (example_key name to) CrossConnectOp.Express (Known mask_None) [] 1
    admin_up example_source 7.

Definition example_cross_connects : list (string * string * string * string) :=
  [("xa1", "a", "in", "east"); ("xa2", "a", "in", "west"); ("xa3", "a", "west", "out");
   ("xb1", "b", "west", "east"); ("xb2", "b", "east", "west"); ("xb3", "b", "west", "out");
   ("xc1", "c", "west", "out"); ("xc2", "c", "east", "out")].

Record SpanSpec := MkSpanSpec {
  spec_id : string;
  spec_from : PortKey;
  spec_to : PortKey;
  spec_length_m : Z;
  spec_loss_db : Z;
  spec_osnr_db : Z;
  spec_domain : string;
  spec_cost : Z;
}.

Definition example_spans : list SpanSpec :=
  [MkSpanSpec "s-ab" (example_key "a" "east") (example_key "b" "west") 80000 12 30 "span-ab" 3;
   MkSpanSpec "s-bc" (example_key "b" "east") (example_key "c" "west") 120000 14 28 "span-bc" 4;
   MkSpanSpec "s-ac" (example_key "a" "west") (example_key "c" "east") 260000 40 22 "span-ac" 2].

Definition example_span (spec : SpanSpec) : SpanRecord :=
  MkSpan (MkId (spec_id spec)) (spec_from spec) (spec_to spec) true (Known (spec_length_m spec))
    (Known (double_of (spec_loss_db spec))) (Known (double_of (spec_osnr_db spec))) (Known mask_None)
    [MkId (spec_domain spec)] (spec_cost spec) admin_up example_source 7.

Section example.
Context `{Platform, Hasher}.

Definition example_builder : Expected SnapshotBuilder :=
  let b := SetId (new_builder default_build_options) (MkId "example") in
  let b := SetGeneration b 42 in
  let b := SetSpectrum b (MkSpectrum GridKind.Fixed50GHz 8) in
  let! b := added (AddSource b (MkSource example_source 7 Coverage.Complete "")) in
  let! b := added (AddReachProfile b (MkProfile example_profile (Known 400000) (Known 4) (Known (double_of 30))
                                        (Known (double_of 14)) example_source 7)) in
  let! b := each (fun name b => added (AddNode b (example_node name))) example_names b in
  let! b := each (fun name => each (fun port_name b => added (AddPort b (example_port name port_name)))
                                ["in"; "out"; "east"; "west"]) example_names b in
  let! b := each (fun spec b => added (AddCrossConnect b (example_cross_connect spec))) example_cross_connects b in
  each (fun spec b => added (AddSpan b (example_span spec))) example_spans b.

Definition BuildExampleTopology : Expected TopologySnapshot :=
  let! b := example_builder in
  fst (Build b).
End example.

(** ** Lemmas: a builder whose records refer to one another seals completely *)

Lemma for_each_accepts {A} (check : A -> Status) l :
  (forall x, In x l -> failed (check x) = false) -> failed (for_each check l) = false.
Proof. induction l as [|x l IH]; simpl; intros Hl; [done|]. rewrite (Hl x) by auto. auto. Qed.

Lemma find_by_key_in {A K} `{Ordered K, EqDecision K} (key : A -> K) k l :
  StronglySorted (key_lt key) l -> In k (map key l) -> is_Some (find_by_key key k l).
Proof.
  intros Hs (x & <- & Hx)%in_map_iff. apply list_elem_of_In, list_elem_of_lookup in Hx as [i Hi].
  exists i. by eapply find_by_key_complete.
Qed.

Lemma sort_unique_size {A} `{Ordered A, EqDecision A} (l : list A) : size (sort_unique l) <= size l.
Proof.
  unfold size, sort_unique, sort. assert (forall e (u : list A), (length (unique_by e u) <= length u)%nat) as Hu.
  { intros e [|x u]; simpl; [lia|]. pose proof (unique_from_length e x u). lia. }
  rewrite <- (Permutation_length (sort_by_perm ltb l)). apply inj_le, Hu.
Qed.

Lemma normalise_all {R} (get : R -> list FailureDomainId) put what l :
  Forall (fun r => size (get r) <= kMaxDomainsPerResource) l ->
  NormaliseDomains get put what l = Value (map (fun r => put (sort_unique (get r)) r) l).
Proof.
  induction 1 as [|r l Hr Hl IH]; [done|]. unfold NormaliseDomains in *. cbn [map_expected map].
  unfold normalise_record at 1. cbv zeta. pose proof (sort_unique_size (get r)).
  rewrite (proj2 (Z.ltb_ge _ _)) by lia. by rewrite IH.
Qed.

(** Both ends of an arc have a port record, and they differ. *)
Definition joined (keys : list PortKey) (from to : PortKey) : Prop := In from keys /\ In to keys /\ from <> to.

Record complete_records (b : SnapshotBuilder) : Prop := {
  cr_open : b_built b = false;
  cr_spectrum : failed (Spectrum_Validate (b_spectrum b)) = false;
  cr_sources : failed (distinct_sources (sort_by (by_key src_id) (b_sources b))) = false /\
    Forall (fun s => src_coverage s = Coverage.Complete) (b_sources b);
  cr_distinct : distinct_records b;
  cr_nodes : Forall (fun n => size (n_failure_domains n) <= kMaxDomainsPerResource /\ str (n_id n) <> "" /\
    n_coverage n = Coverage.Complete) (b_nodes b);
  cr_ports : Forall (fun p => size (p_failure_domains p) <= kMaxDomainsPerResource /\
    p_blocked_slots p = Known mask_None /\ In (node (p_key p)) (map n_id (b_nodes b))) (b_ports b);
  cr_spans : Forall (fun s => size (s_failure_domains s) <= kMaxDomainsPerResource /\
    failed (validate_span (b_spectrum b) s) = false /\ joined (map p_key (b_ports b)) (s_from s) (s_to s)) (b_spans b);
  cr_cross_connects : Forall (fun x => size (x_failure_domains x) <= kMaxDomainsPerResource /\
    x_blocked_slots x = Known mask_None /\ joined (map p_key (b_ports b)) (x_from x) (x_to x)) (b_cross_connects b);
  cr_profiles : Forall (fun r => failed (validate_profile r) = false) (b_profiles b);
}.

Lemma blank_mask_fits model what : ValidateMaskWithinModel (Known mask_None) model what = OkStatus.
Proof.
  unfold ValidateMaskWithinModel. destruct (List.find _ _) as [slot|] eqn:E; [|done].
  apply find_some in E as [Hin Ht]. apply filter_In in Hin as [[Hr _]%in_range _].
  by rewrite mask_None_Test in Ht by done.
Qed.

(** The vectors after validation. *)
Definition normal_nodes (b : SnapshotBuilder) : list NodeRecord :=
  map (fun r => node_put_domains (sort_unique (n_failure_domains r)) r) (b_nodes b).
Definition normal_ports (b : SnapshotBuilder) : list PortRecord :=
  map (fun r => port_put_domains (sort_unique (p_failure_domains r)) r) (b_ports b).
Definition normal_spans (b : SnapshotBuilder) : list SpanRecord :=
  map (fun r => span_put_domains (sort_unique (s_failure_domains r)) r) (b_spans b).
Definition normal_cross_connects (b : SnapshotBuilder) : list CrossConnectRecord :=
  map (fun r => cross_connect_put_domains (sort_unique (x_failure_domains r)) r) (b_cross_connects b).

Lemma validate_complete b :
  complete_records b ->
  validate_records b = Value (sort_by (by_key src_id) (b_sources b), normal_nodes b, normal_ports b, normal_spans b,
    normal_cross_connects b).
Proof.
  intros [Ho Hs [Hd Hc] _ Hn Hp Hsp Hx Hr]. rewrite List.Forall_forall in *. unfold validate_records. cbv zeta beta.
  rewrite Hs, Hd, !normalise_all by (apply List.Forall_forall; intros r Hin; naive_solver).
  rewrite for_each_accepts; [rewrite for_each_accepts; [rewrite for_each_accepts; [rewrite for_each_accepts; [rewrite for_each_accepts|]|]|]|].
  - done.
  - exact Hr.
  - intros x (r & <- & Hin)%in_map_iff. destruct (Hx r Hin) as (_ & E & _). cbn. by rewrite E, blank_mask_fits.
  - intros x (r & <- & Hin)%in_map_iff. destruct (Hp r Hin) as (_ & E & _). cbn. by rewrite E, blank_mask_fits.
  - intros x (r & <- & Hin)%in_map_iff. by apply (Hsp r).
  - intros x (r & <- & Hin)%in_map_iff. unfold validate_cost_owner, id_empty. cbn.
    rewrite (bool_decide_eq_false_2 (str (n_id r) = "")) by (by apply Hn). by rewrite andb_false_r.
Qed.

Section link_resolved.
Context (options : SnapshotBuildOptions) (ports : list PortRecord).
Context (ports_sorted : StronglySorted (key_lt p_key) ports).

Lemma link_ports_resolved nodes i l a :
  StronglySorted (key_lt n_id) nodes -> Forall (fun p => In (node (p_key p)) (map n_id nodes)) l ->
  adj_unresolved (link_ports nodes i l a) = adj_unresolved a.
Proof.
  intros Hs Hl. revert i a; induction Hl as [|p l Hp Hl IH]; intros i a; simpl; [done|].
  destruct (find_by_key_in n_id _ _ Hs Hp) as [k ->]. apply IH.
Qed.

Lemma link_ends_joined a from to connect :
  joined (map p_key ports) from to -> exists f g, link_ends ports a from to connect = connect f g a.
Proof.
  intros (Hf & Ht & _). unfold link_ends, port_index_of.
  destruct (find_by_key_in p_key _ _ ports_sorted Hf) as [f ->], (find_by_key_in p_key _ _ ports_sorted Ht) as [g ->].
  by exists f, g.
Qed.

Lemma link_spans_resolved i l a :
  Forall (fun s => joined (map p_key ports) (s_from s) (s_to s)) l ->
  exists a', link_spans options ports i l a = Value a' /\ adj_unresolved a' = adj_unresolved a.
Proof.
  intros Hl. revert i a; induction Hl as [|s l Hs Hl IH]; intros i a; simpl; [eauto|].
  rewrite (bool_decide_eq_false_2 (s_from s = s_to s)) by apply Hs. rewrite andb_false_r.
  destruct (link_ends_joined a _ _ (connect_span i s) Hs) as (f & g & ->).
  destruct (IH (S i) (connect_span i s f g a)) as (a' & -> & Ea). exists a'. split; [done|].
  rewrite Ea. unfold connect_span. by destruct (s_bidirectional s).
Qed.

Lemma link_cross_connects_resolved i l a :
  Forall (fun x => joined (map p_key ports) (x_from x) (x_to x)) l ->
  exists a', link_cross_connects options ports i l a = Value a' /\ adj_unresolved a' = adj_unresolved a.
Proof.
  intros Hl. revert i a; induction Hl as [|x l Hx Hl IH]; intros i a; simpl; [eauto|].
  rewrite (bool_decide_eq_false_2 (x_from x = x_to x)) by apply Hx. rewrite andb_false_r.
  destruct (link_ends_joined a _ _ (connect_cross_connect i) Hx) as (f & g & ->).
  destruct (IH (S i) (connect_cross_connect i f g a)) as (a' & -> & Ea). by exists a'.
Qed.
End link_resolved.

Lemma link_complete options r :
  StronglySorted (key_lt n_id) (so_nodes r) -> StronglySorted (key_lt p_key) (so_ports r) ->
  Forall (fun p => In (node (p_key p)) (map n_id (so_nodes r))) (so_ports r) ->
  Forall (fun s => joined (map p_key (so_ports r)) (s_from s) (s_to s)) (so_spans r) ->
  Forall (fun x => joined (map p_key (so_ports r)) (x_from x) (x_to x)) (so_cross_connects r) ->
  exists a, link options r = Value a /\ adj_unresolved a = [].
Proof.
  intros Hn Hp Hpn Hs Hx. unfold link.
  set (a0 := link_ports (so_nodes r) 0 (so_ports r) (empty_adjacency (length (so_ports r)))).
  assert (adj_unresolved a0 = []) as E0 by (unfold a0; by rewrite link_ports_resolved).
  destruct (link_spans_resolved options _ Hp 0 _ a0 Hs) as (a1 & -> & E1).
  destruct (link_cross_connects_resolved options _ Hp 0 _ a1 Hx) as (a2 & -> & E2).
  rewrite E1, E0 in E2. exists a2. rewrite E2, andb_false_r. done.
Qed.

Lemma sort_records_distinct sources nodes ports spans xs profiles :
  List.NoDup (map n_id nodes) -> List.NoDup (map p_key ports) -> List.NoDup (map s_id spans) ->
  List.NoDup (map x_id xs) -> List.NoDup (map r_id profiles) ->
  sort_records sources nodes ports spans xs profiles =
  MkSorted sources (sort_by (by_key n_id) nodes) (sort_by (by_key p_key) ports)
    (sort_by (by_key (arc_key s_from s_to s_id)) spans) (sort_by (by_key (arc_key x_from x_to x_id)) xs)
    (sort_by (by_key r_id) profiles) [].
Proof.
  intros Dn Dp Ds Dx Dr. unfold sort_records.
  destruct (SortAndDeduplicate_distinct n_id n_id NodeRecord_eqb (fun n => ForNode (n_id n)) ltac:(done) nodes nodes ltac:(done) Dn) as [-> _].
  destruct (SortAndDeduplicate_distinct p_key p_key PortRecord_eqb (fun p => ForPort (p_key p)) ltac:(done) ports ports ltac:(done) Dp) as [-> _].
  destruct (SortAndDeduplicate_distinct s_id (arc_key s_from s_to s_id) SpanRecord_eqb (fun s => ForSpan (s_id s))
              ltac:(unfold arc_key; congruence) spans spans ltac:(done) Ds) as [-> _].
  destruct (SortAndDeduplicate_distinct x_id (arc_key x_from x_to x_id) CrossConnectRecord_eqb
              (fun x => ForCrossConnect (x_id x)) ltac:(unfold arc_key; congruence) xs xs ltac:(done) Dx) as [-> _].
  destruct (SortAndDeduplicate_distinct r_id r_id ReachProfile_eqb (fun r => ForReachProfile (r_id r)) ltac:(done) profiles profiles ltac:(done) Dr) as [-> _].
  done.
Qed.

(** Distinct keys sort strictly. *)
Lemma sort_by_strict {A K} `{Ordered K, EqDecision K} (key : A -> K) l :
  List.NoDup (map key l) -> StronglySorted (key_lt key) (sort_by (by_key key) l).
Proof.
  intros Hnd. pose proof (sort_by_sorted key l) as Hs.
  assert (List.NoDup (map key (sort_by (by_key key) l))) as Hd.
  { eapply Permutation_NoDup; [|exact Hnd]. symmetry. apply Permutation_map, sort_by_perm. }
  clear Hnd. induction Hs as [|x r Hr IH Hx]; [constructor|]. simpl in Hd. inversion_clear Hd as [|? ? Hni Hd'].
  constructor; [auto|]. rewrite List.Forall_forall in *. intros y Hy. unfold key_lt. specialize (Hx y Hy). unfold key_le in Hx.
  destruct (key x <o key y) eqn:E; [done|]. destruct Hni. rewrite (ltb_total _ _ E Hx). by apply in_map.
Qed.

Lemma map_map_same {A B} (f : A -> A) (g : A -> B) l : (forall x, g (f x) = g x) -> map g (map f l) = map g l.
Proof. intros Hfg. rewrite map_map. by apply map_ext. Qed.

Lemma build_complete `{Platform, Hasher} b :
  complete_records b ->
  exists t, fst (Build b) = Value t /\ t_unresolved t = [] /\ t_conflicted t = [] /\ t_coverage_complete t = true /\
    t_id t = b_id b /\ t_generation t = b_generation b /\ t_spectrum t = b_spectrum b /\
    t_nodes t ≡ₚ normal_nodes b /\ t_ports t ≡ₚ normal_ports b /\ t_spans t ≡ₚ normal_spans b /\
    t_cross_connects t ≡ₚ normal_cross_connects b.
Proof.
  intros C. unfold Build. rewrite (cr_open b C). unfold build_snapshot. rewrite (validate_complete b C). cbv zeta beta iota.
  assert (map n_id (normal_nodes b) = map n_id (b_nodes b)) as Kn by (by apply map_map_same).
  assert (map p_key (normal_ports b) = map p_key (b_ports b)) as Kp by (by apply map_map_same).
  assert (map s_id (normal_spans b) = map s_id (b_spans b)) as Ks by (by apply map_map_same).
  assert (map x_id (normal_cross_connects b) = map x_id (b_cross_connects b)) as Kx by (by apply map_map_same).
  destruct C as [_ _ [_ Hc] [Dn Dp Ds Dx Dr] Hn Hp Hs Hx _].
  rewrite <- Kn in Dn. rewrite <- Kp in Dp. rewrite <- Ks in Ds. rewrite <- Kx in Dx.
  rewrite sort_records_distinct by done.
  assert (forall A K (key : A -> K) (lt : A -> A -> bool) l k, In k (map key (sort_by lt l)) <-> In k (map key l)) as Hin.
  { intros A K key lt l k. split; apply Permutation_in, Permutation_map; [|symmetry]; apply sort_by_perm. }
  assert (forall lt keys from to, keys = map p_key (b_ports b) -> joined keys from to ->
            joined (map p_key (sort_by lt (normal_ports b))) from to) as Hj.
  { intros lt keys from to -> (? & ? & ?). split_and!; [by rewrite Hin, Kp..|done]. }
  match goal with |- context [link _ ?r] => destruct (link_complete (b_options b) r) as (a & -> & Ea); cbn [so_nodes so_ports so_spans so_cross_connects] end.
  - by apply sort_by_strict.
  - by apply sort_by_strict.
  - rewrite List.Forall_forall in *. intros p Hpin%sort_by_in. rewrite Hin, Kn.
    apply in_map_iff in Hpin as (q & <- & Hq). exact (proj2 (proj2 (Hp q Hq))).
  - rewrite List.Forall_forall in *. intros s Hsin%sort_by_in. apply in_map_iff in Hsin as (q & <- & Hq).
    apply (Hj _ _ _ _ eq_refl). exact (proj2 (proj2 (Hs q Hq))).
  - rewrite List.Forall_forall in *. intros s Hsin%sort_by_in. apply in_map_iff in Hsin as (q & <- & Hq).
    apply (Hj _ _ _ _ eq_refl). exact (proj2 (proj2 (Hx q Hq))).
  - eexists. split; [reflexivity|]. cbn -[sort_unique]. rewrite Ea. change (sort_unique []) with (@nil ResourceKey).
    split_and!; try done; [|apply sort_by_perm..].
    unfold coverage_of. rewrite !bool_decide_eq_true_2 by done. cbn [andb].
    rewrite andb_true_iff, !forallb_forall. rewrite List.Forall_forall in *. split.
    + intros s Hsin%sort_by_in. by apply bool_decide_eq_true_2, Hc.
    + intros n Hnin%sort_by_in. apply in_map_iff in Hnin as (q & <- & Hq). apply bool_decide_eq_true_2. exact (proj2 (proj2 (Hn q Hq))).
Qed.
