(* ===== verification/SyntheticFacts.v ===== *)
(** * SyntheticFacts: what the generator of synthetic networks produces

    The graph is a simple one around a ring, the pseudo-random draws stay in
    range, every record is accepted as long as the builder's bounds hold, and
    the snapshot seals completely. *)

From Stdlib Require Import SpecFloat.
From S2P Require Import Prelude Status Ids Doubles Rounding Spectrum Canonical Topology SnapshotText Builder Synthetic.

(** ** Lemmas: the edges *)

Definition edge_ok (n : Z) (e : Edge) : Prop := 0 <= e.1 /\ e.1 < e.2 /\ e.2 < n.

Definition graph_ok (n : Z) (edges : list Edge) : Prop := Forall (edge_ok n) edges /\ List.NoDup edges.

Definition joins (edges : list Edge) (i j : Z) : Prop := In (Z.min i j, Z.max i j) edges.

Lemma add_edge_spec edges i j e : In e (add_edge edges i j) <-> In e edges \/ e = (Z.min i j, Z.max i j).
Proof.
  unfold add_edge. cbv zeta. destruct (existsb _ _) eqn:E.
  - apply existsb_exists in E as (x & Hx & ->%bool_decide_eq_true). naive_solver.
  - rewrite in_app_iff. simpl. naive_solver.
Qed.

Lemma add_edge_ok n edges i j :
  graph_ok n edges -> 0 <= i < n -> 0 <= j < n -> i <> j -> graph_ok n (add_edge edges i j).
Proof.
  intros [Hf Hd] Hi Hj Hne. unfold add_edge. cbv zeta. destruct (existsb _ _) eqn:E; [done|]. split.
  - apply Forall_app. split; [done|]. constructor; [|done]. unfold edge_ok; simpl. lia.
  - apply Permutation_NoDup with ((Z.min i j, Z.max i j) :: edges); [apply Permutation_cons_append|].
    constructor; [|done]. intros Hin. assert (existsb (fun e => bool_decide (e = (Z.min i j, Z.max i j))) edges = true); [|congruence].
    apply existsb_exists. eexists. split; [exact Hin|]. by apply bool_decide_eq_true_2.
Qed.

Section fold_edges.
Context (step : list Edge -> Z -> list Edge) (n : Z).
Context (step_grows : forall edges i e, In e edges -> In e (step edges i)).
Context (step_ok : forall edges i, 0 <= i < n -> graph_ok n edges -> graph_ok n (step edges i)).

Lemma fold_grows l edges e : In e edges -> In e (fold_left step l edges).
Proof. revert edges; induction l as [|i l IH]; simpl; auto. Qed.

Lemma fold_ok l edges : Forall (fun i => 0 <= i < n) l -> graph_ok n edges -> graph_ok n (fold_left step l edges).
Proof. intros Hl; revert edges; induction Hl as [|i l Hi Hl IH]; simpl; auto. Qed.

Lemma fold_reaches l edges i e : In i l -> (forall edges, In e (step edges i)) -> In e (fold_left step l edges).
Proof.
  revert edges; induction l as [|j l IH]; simpl; intros edges Hin Hs; [done|].
  destruct Hin as [->|Hin]; [by apply fold_grows, Hs|by apply IH].
Qed.
End fold_edges.

Lemma fold_invariant {A B} (P : A -> Prop) (step : A -> B -> A) l a :
  P a -> (forall a x, P a -> P (step a x)) -> P (fold_left step l a).
Proof. intros Ha Hs; revert a Ha; induction l as [|x l IH]; simpl; auto. Qed.

Lemma range_bounds n : Forall (fun i => 0 <= i < n) (range n).
Proof. apply List.Forall_forall. intros i. apply in_range. Qed.

Lemma successor_neq n i : 2 <= n <= kMaxGeneratedNodes -> 0 <= i < n ->
  wrap32 (i + 1) mod n <> i /\ 0 <= wrap32 (i + 1) mod n < n /\ wrap32 (i + 1) mod n = (i + 1) mod n.
Proof.
  unfold kMaxGeneratedNodes. intros Hn Hi. rewrite wrap_small by width_lia.
  split; [|split; [apply Z.mod_pos_bound; lia|done]].
  destruct (Z.eq_dec (i + 1) n) as [E|]; [rewrite E, Z.mod_same; lia|rewrite Z.mod_small; lia].
Qed.

(** What the generated graph is: its edges are listed once each in
    increasing order, lower end first, and the ring is among them. *)
Lemma graph_edges_spec o :
  2 <= syn_node_count o <= kMaxGeneratedNodes ->
  graph_ok (syn_node_count o) (graph_edges o) /\ StronglySorted (key_lt (fun e : Edge => e)) (graph_edges o) /\
  forall i, 0 <= i < syn_node_count o -> joins (graph_edges o) i ((i + 1) mod syn_node_count o).
Proof.
  intros Hn. set (n := syn_node_count o) in *. unfold graph_edges. fold n.
  set (ring := fold_left (ring_step n) (range n) []).
  set (stride_all := fun edges hop => fold_left (stride_step n (stride_of o) hop) (range n) edges).
  assert (forall edges i e, In e edges -> In e (ring_step n edges i)) as Gr by (intros; apply add_edge_spec; auto).
  assert (forall hop edges i e, In e edges -> In e (stride_step n (stride_of o) hop edges i)) as Gs.
  { intros hop edges i e He. unfold stride_step. cbv zeta. destruct (_ =? _); [done|]. apply add_edge_spec. auto. }
  assert (forall edges i e, In e edges -> In e (stride_all edges i)) as Ga by (intros; apply fold_grows; auto).
  assert (graph_ok n ring) as Or.
  { apply (fold_ok _ n); [|apply range_bounds|by split; constructor]. intros edges i Hi He.
    destruct (successor_neq n i Hn Hi) as (? & ? & _). apply add_edge_ok; auto. }
  assert (graph_ok n (fold_left stride_all (range (syn_degree o)) ring)) as Oa.
  { apply (fold_invariant (graph_ok n)); [done|].
    intros edges hop He. apply (fold_ok _ n); [|apply range_bounds|done]. intros es i Hi Hes.
    unfold stride_step. cbv zeta. destruct (Z.eqb_spec (wrap32 (i + wrap32 (stride_of o * wrap32 (hop + 1))) mod n) i); [done|].
    apply add_edge_ok; auto. apply Z.mod_pos_bound. lia. }
  set (all := fold_left stride_all _ ring) in *. split; [|split].
  - destruct Oa as [Hf Hd]. split.
    + by rewrite sort_by_perm.
    + eapply Permutation_NoDup; [|exact Hd]. symmetry. apply sort_by_perm.
  - apply sort_by_strict. rewrite map_id. apply Oa.
  - intros i Hi. unfold joins. apply sort_by_in. apply fold_grows; [done|].
    apply (fold_reaches (ring_step n)) with i; [done|by apply in_range|]. intros edges.
    destruct (successor_neq n i Hn Hi) as (_ & _ & E). apply add_edge_spec. right. by rewrite E.
Qed.

(** ** Lemmas: the neighbour lists *)

(** What one edge contributes to the list of node [i]. *)
Definition seen_from (i : Z) (e : Edge) : list Z :=
  if e.1 =? i then [e.2] else if e.2 =? i then [e.1] else [].

Lemma nth_alter {A} (f : A -> A) (d : A) (l : list A) (j k : nat) :
  (j < length l)%nat -> nth k (alter f j l) d = if bool_decide (j = k) then f (nth k l d) else nth k l d.
Proof.
  intros Hj. rewrite !nth_lookup. case_bool_decide as E.
  - subst k. rewrite list_lookup_alter_eq. destruct (lookup_lt_is_Some_2 l j Hj) as [x ->]. done.
  - by rewrite list_lookup_alter_ne.
Qed.

Lemma neighbours_at_spec n edges i :
  Forall (edge_ok n) edges -> 0 <= i < n ->
  neighbours_at (neighbours_of n edges) i = flat_map (seen_from i) edges.
Proof.
  intros Hf Hi. unfold neighbours_of.
  assert (forall rows, length rows = Z.to_nat n ->
    neighbours_at (fold_left push_neighbours edges rows) i = neighbours_at rows i ++ flat_map (seen_from i) edges) as Hg.
  { induction Hf as [|e edges (H0 & H1 & H2) Hf IH]; intros rows Hl; simpl; [by rewrite app_nil_r|].
    rewrite IH by (unfold push_neighbours; by rewrite !length_alter). rewrite app_assoc. f_equal.
    unfold neighbours_at, push_neighbours, seen_from.
    rewrite !nth_alter by (rewrite ?length_alter; lia).
    destruct (Z.eqb_spec e.1 i) as [<-|Hne1].
    - rewrite bool_decide_eq_false_2 by lia. by rewrite bool_decide_eq_true_2.
    - rewrite (bool_decide_eq_false_2 (Z.to_nat e.1 = _)) by lia.
      destruct (Z.eqb_spec e.2 i) as [<-|Hne2].
      + by rewrite bool_decide_eq_true_2.
      + rewrite bool_decide_eq_false_2 by lia. by rewrite app_nil_r. }
  rewrite Hg by apply repeat_length. unfold neighbours_at. rewrite nth_repeat. done.
Qed.

Lemma seen_from_in n i j e : edge_ok n e -> In j (seen_from i e) <-> i <> j /\ e = (Z.min i j, Z.max i j).
Proof.
  intros (H0 & H1 & H2). unfold seen_from. destruct e as [a b]; simpl in *.
  destruct (Z.eqb_spec a i) as [->|Ha]; [|destruct (Z.eqb_spec b i) as [->|Hb]]; simpl.
  - split; [intros [<-|[]]; split; [lia|f_equal; lia]|]. intros [Hne [= E1 E2]]. left. lia.
  - split; [intros [<-|[]]; split; [lia|f_equal; lia]|]. intros [Hne [= E1 E2]]. left. lia.
  - split; [done|]. intros [Hne [= E1 E2]]. lia.
Qed.

(** Neighbourhood is the graph's adjacency, each neighbour listed once. *)
Lemma neighbours_spec n edges i :
  graph_ok n edges -> 0 <= i < n ->
  List.NoDup (neighbours_at (neighbours_of n edges) i) /\
  forall j, In j (neighbours_at (neighbours_of n edges) i) <-> i <> j /\ joins edges i j.
Proof.
  intros [Hf Hd] Hi. rewrite neighbours_at_spec by done.
  assert (forall es, Forall (edge_ok n) es -> forall j, In j (flat_map (seen_from i) es) <-> i <> j /\ joins es i j) as Hin.
  { intros es Hes j. rewrite in_flat_map. rewrite List.Forall_forall in Hes. unfold joins. split.
    - intros (e & He & Hj). apply (seen_from_in n) in Hj as [Hne ->]; auto.
    - intros [Hne He]. exists (Z.min i j, Z.max i j). split; [done|]. apply (seen_from_in n); auto. }
  split; [|auto]. induction Hf as [|e edges He Hf IH]; simpl; [constructor|]. inversion_clear Hd as [|? ? Hni Hd'].
  specialize (IH Hd'). assert (forall j, In j (seen_from i e) -> ~ In j (flat_map (seen_from i) edges)) as Hx.
  { intros j Hj Hj'. apply (Hin edges Hf) in Hj' as [_ Hj']. apply (seen_from_in n) in Hj as [_ ->]; auto. }
  unfold seen_from at 1 in Hx. unfold seen_from at 1.
  destruct (e.1 =? i); [|destruct (e.2 =? i)]; simpl in *; [constructor; [|done]..|done]; apply Hx; auto.
Qed.

(** ** Lemmas: names *)

Lemma append_inj_l p a b : p +:+ a = p +:+ b -> a = b.
Proof. intros E. apply (f_equal chars) in E. rewrite !chars_app in E. by apply app_inv_head, (inj chars) in E. Qed.

Lemma to_string_inj a b : in_width 64 a -> in_width 64 b -> to_string a = to_string b -> a = b.
Proof. intros Ha Hb E. by rewrite <- (decimal_value_to_string a), E, decimal_value_to_string. Qed.

Lemma Numbered_inj p a b : in_width 64 a -> in_width 64 b -> Numbered p a = Numbered p b -> a = b.
Proof. intros Ha Hb E%append_inj_l. by apply to_string_inj. Qed.

Lemma id_inj {t} (a b : string) : MkId (t := t) a = MkId b -> a = b.
Proof. by intros [=]. Qed.

Lemma edge_text_inj e f : edge_ok kMaxGeneratedNodes e -> edge_ok kMaxGeneratedNodes f -> edge_text e = edge_text f -> e = f.
Proof.
  unfold edge_ok, kMaxGeneratedNodes. intros He Hf E. unfold edge_text in E.
  change ("-" +:+ ?s) with (String "-"%char s) in E.
  pose proof (split_at_app "-" (to_string e.1) (to_string e.2) ltac:(apply digits_not; [lia|done])) as S1.
  rewrite E, split_at_app in S1 by (apply digits_not; [lia|done]). injection S1 as E1 E2.
  apply to_string_inj in E1; [|width_lia..]. apply to_string_inj in E2; [|width_lia..].
  destruct e, f; simpl in *; congruence.
Qed.

(** ** Lemmas: the draws of a span *)

Lemma Next_range r : in_width 64 (fst (Next r)).
Proof.
  unfold Next. cbv zeta. cbn [fst].
  assert (forall u, in_width 64 u -> in_width 64 (Z.lxor u (Z.shiftr u 31))) as Hx; [|apply Hx, wrap_range; lia].
  intros u [H0 H1].
  assert (0 <= Z.shiftr u 31) by (by apply Z.shiftr_nonneg).
  assert (Z.shiftr u 31 <= u) as Hs.
  { rewrite Z.shiftr_div_pow2 by lia. apply Z.div_le_upper_bound; [done|]. change (2 ^ 31) with 2147483648. lia. }
  split; [apply Z.lxor_nonneg; lia|]. destruct (Z.eq_dec (Z.lxor u (Z.shiftr u 31)) 0) as [->|Hne]; [done|].
  apply Z.log2_lt_pow2; [pose proof (proj2 (Z.lxor_nonneg u (Z.shiftr u 31))); lia|].
  eapply Z.le_lt_trans; [by apply Z.log2_lxor|]. pose proof (Z.log2_le_mono _ _ Hs).
  rewrite Z.max_l by done. destruct (Z.eq_dec u 0) as [->|]; [done|]. apply Z.log2_lt_pow2; lia.
Qed.

Lemma Below_range bound r : 0 < bound < 2 ^ 32 -> 0 <= fst (Below bound r) < bound.
Proof.
  intros Hb. unfold Below. rewrite (proj2 (Z.eqb_neq _ _)) by lia.
  destruct (Next r) as [v r']. cbn [fst]. pose proof (Z.mod_pos_bound v bound ltac:(lia)).
  rewrite wrap_small; [done|]. unfold in_width. lia.
Qed.

(** The unit double is below 2, as far as its exponent tells. *)
Lemma UnitDouble_small r : small 3 (fst (UnitDouble r)).
Proof.
  unfold UnitDouble. pose proof (Next_range r) as [H0 H1]. destruct (Next r) as [v r']. cbn [fst] in *.
  assert (0 <= Z.shiftr v 11 < 2 ^ 53) as Hv.
  { split; [by apply Z.shiftr_nonneg|]. rewrite Z.shiftr_div_pow2 by lia. apply Z.div_lt_upper_bound; [done|].
    change (2 ^ 11 * 2 ^ 53) with (2 ^ 64). lia. }
  assert (small (-52) (ddiv (double_of 1) (double_of 9007199254740992))) as Hr by (by vm_compute).
  apply (small_le (53 + 1 + -52 + 1)); [|lia]. apply dmul_small; [|exact Hr|lia]. apply double_of_small; [exact Hv|lia].
Qed.

(** The signal-to-noise ratio of a draw of 53 bits is the double nearest to
    [26 + 8 n / 2 ^ 53], between 26 and 34. *)
Definition osnr_of (n : Z) : double :=
  dadd (double_of 26) (dmul (dmul (double_of n) (ddiv (double_of 1) (double_of 9007199254740992))) (double_of 8)).

Lemma osnr_range n : 0 <= n < 2 ^ 53 ->
  osnr_of n = nearest (26 * 2 ^ 50 + n) (-50) /\ dle (double_of 26) (osnr_of n) = true /\ dle (osnr_of n) (double_of 34) = true.
Proof.
  intros Hn. unfold osnr_of. destruct (Z.eq_dec n 0) as [->|Hne]; [vm_compute; repeat split|].
  destruct (double_of_normal n ltac:(lia)) as (m & Hm & -> & Em). pose proof (digits_range n ltac:(lia)) as Hd.
  change (ddiv (double_of 1) (double_of 9007199254740992)) with (S754_finite false (2 ^ 52) (-105)).
  change (double_of 8) with (S754_finite false (2 ^ 52) (-49)).
  change (double_of 26) with (S754_finite false (13 * 2 ^ 49) (-48)).
  change (double_of 34) with (S754_finite false (17 * 2 ^ 48) (-47)).
  rewrite !dmul_power by (exact Hm || lia).
  replace (Zdigits2 n - 53 + -105 + 52 + -49 + 52) with (Zdigits2 n - 103) by lia. set (d := Zdigits2 n) in *.
  assert (0 < 2 ^ (53 - d)) by (apply Z.pow_pos_nonneg; lia).
  assert (2 ^ (-48 - (d - 103)) = 2 ^ 2 * 2 ^ (53 - d)) as E48 by (rewrite <- Z.pow_add_r by lia; f_equal; lia).
  assert (2 ^ (-47 - (d - 103)) = 2 ^ 3 * 2 ^ (53 - d)) as E47 by (rewrite <- Z.pow_add_r by lia; f_equal; lia).
  split.
  - rewrite dadd_nearest, E48, Em by lia.
    change (Zpos (13 * 2 ^ 49)) with (26 * 2 ^ 48). 
    replace (26 * 2 ^ 48 * (2 ^ 2 * 2 ^ (53 - d)) + n * 2 ^ (53 - d)) with ((26 * 2 ^ 50 + n) * 2 ^ (53 - d)) by lia.
    destruct (26 * 2 ^ 50 + n) as [|p|p] eqn:Ep; try lia. replace (d - 103) with (-50 - (53 - d)) by lia.
    assert (53 <= Zdigits2 (Zpos p) <= 60) as Hp.
    { split; [|apply digits_le; lia]. destruct (Z.le_gt_cases 53 (Zdigits2 (Zpos p))) as [|Hlt]; [done|].
      pose proof (digits_upper (Zpos p) ltac:(lia)). assert (2 ^ Zdigits2 (Zpos p) <= 2 ^ 52) by (apply Z.pow_le_mono_r; lia). lia. }
    apply nearest_scaled; lia.
  - assert (normal (13 * 2 ^ 49) /\ normal (17 * 2 ^ 48)) as [N26 N34] by (vm_compute; repeat split; congruence).
    apply dadd_between; [exact N26|exact Hm|lia..|exact N26|exact N34|lia|lia|].
    rewrite E48, E47, Em. change (Zpos (13 * 2 ^ 49)) with (26 * 2 ^ 48). change (Zpos (17 * 2 ^ 48)) with (34 * 2 ^ 47). nia.
Qed.

Lemma loss_range length_m : 20000 <= length_m < 120000 ->
  dle (double_of 4) (loss_of length_m) = true /\ dle (loss_of length_m) (double_of 24) = true.
Proof.
  intros Hl. unfold loss_of.
  let v := eval vm_compute in (ddiv (double_of 2) (double_of 10000)) in
  change (ddiv (double_of 2) (double_of 10000)) with v.
  change (double_of 4) with (S754_finite false (2 ^ 52) (-50)). change (double_of 24) with (S754_finite false (3 * 2 ^ 51) (-48)).
  apply dmul_integer_between; [lia|unfold normal; lia|lia|unfold normal; lia|unfold normal; lia|lia|lia|].
  lia.
Qed.

(** ** Lemmas: the draws of a seed, by their number

    The generator adds one constant to its state per draw, so the [k]-th value
    of a seed needs no earlier one. *)

Definition golden : Z := 0x9E3779B97F4A7C15.
Definition at_draw (seed k : Z) : SplitMix64 := MkRandom (wrap64 (seed + k * golden)).
Definition draw (seed k : Z) : Z := fst (Next (at_draw seed k)).

Lemma Next_at seed k : Next (at_draw seed k) = (draw seed k, at_draw seed (k + 1)).
Proof.
  unfold draw. destruct (Next (at_draw seed k)) as [v r] eqn:E. cbn [fst]. f_equal.
  assert (r = snd (Next (at_draw seed k))) as -> by (by rewrite E). clear E.
  change (snd (Next (at_draw seed k))) with (MkRandom (wrap64 (wrap64 (seed + k * golden) + golden))).
  unfold at_draw, wrap. rewrite Z.add_mod_idemp_l by done. f_equal. f_equal. lia.
Qed.

Lemma Below_at bound seed k :
  0 < bound < 2 ^ 32 -> Below bound (at_draw seed k) = (draw seed k mod bound, at_draw seed (k + 1)).
Proof.
  intros Hb. unfold Below. rewrite (proj2 (Z.eqb_neq _ _)), Next_at by lia.
  pose proof (Z.mod_pos_bound (draw seed k) bound ltac:(lia)). by rewrite wrap_small by (unfold in_width; lia).
Qed.

Lemma draw_bits seed k : 0 <= Z.shiftr (draw seed k) 11 < 2 ^ 53.
Proof.
  unfold draw. pose proof (Next_range (at_draw seed k)) as [H0 H1]. split; [by apply Z.shiftr_nonneg|].
  rewrite Z.shiftr_div_pow2 by lia. apply Z.div_lt_upper_bound; [done|]. change (2 ^ 11 * 2 ^ 53) with (2 ^ 64). lia.
Qed.

Lemma UnitDouble_at seed k :
  dadd (double_of 26) (dmul (fst (UnitDouble (at_draw seed k))) (double_of 8)) = osnr_of (Z.shiftr (draw seed k) 11) /\
  snd (UnitDouble (at_draw seed k)) = at_draw seed (k + 1).
Proof. unfold UnitDouble. rewrite Next_at. done. Qed.

Section span_draws.
Context (o : SyntheticOptions).

(** The slot is blocked by the value drawn for it. *)
Definition slot_hit (value slot : Z) : bool := Z.lxor value (wrap64 (slot * golden)) mod syn_slot_blocking_one_in o =? 0.

Lemma block_steps n a m seed j :
  wf_mask m -> Z.of_nat (a + n) <= 256 ->
  let '(m', r) := fold_left (block_step o) (map Z.of_nat (seq a n)) (m, at_draw seed j) in
  r = at_draw seed (j + Z.of_nat n) /\ wf_mask m' /\
  forall i, slot_in_range i ->
    mask_Test m' i = (mask_Test m i ||
      bool_decide (Z.of_nat a <= i < Z.of_nat (a + n)) && slot_hit (draw seed (j + (i - Z.of_nat a))) i)%bool.
Proof.
  revert a m j; induction n as [|n IH]; intros a m j Hm Hn; cbn [seq map fold_left].
  { rewrite Z.add_0_r. split; [done|]. split; [done|]. intros i Hi. rewrite bool_decide_eq_false_2 by lia. by rewrite orb_false_r. }
  unfold block_step at 2. rewrite Next_at. cbv zeta. fold golden. fold (slot_hit (draw seed j) (Z.of_nat a)).
  set (m1 := if slot_hit (draw seed j) (Z.of_nat a) then mask_Set m (Z.of_nat a) else m).
  assert (wf_mask m1) as Hm1 by (unfold m1; case_goal; [by apply mask_Set_wf|done]).
  specialize (IH (S a) m1 (j + 1) Hm1 ltac:(lia)).
  destruct (fold_left _ _ _) as [m' r]. destruct IH as (-> & Hm' & Ht). split; [f_equal; lia|]. split; [done|].
  intros i Hi. rewrite Ht by done. replace (j + 1 + (i - Z.of_nat (S a))) with (j + (i - Z.of_nat a)) by lia.
  assert (mask_Test m1 i = (mask_Test m i || bool_decide (Z.of_nat a = i) && slot_hit (draw seed j) (Z.of_nat a))%bool) as ->.
  { unfold m1. destruct (slot_hit _ _); [|by rewrite andb_false_r, orb_false_r].
    rewrite mask_Set_Test by (done || unfold slot_in_range; lia). by rewrite andb_true_r, orb_comm. }
  destruct (Z.eq_dec (Z.of_nat a) i) as [<-|Hne].
  - rewrite (bool_decide_eq_true_2 (Z.of_nat a = _)), (bool_decide_eq_false_2 (Z.of_nat (S a) <= _ < _)),
      (bool_decide_eq_true_2 (Z.of_nat a <= _ < _)) by lia.
    rewrite Z.sub_diag, Z.add_0_r. simpl. by rewrite orb_false_r.
  - rewrite (bool_decide_eq_false_2 (_ = _)) by done. simpl. rewrite orb_false_r. f_equal. f_equal.
    apply bool_decide_ext. lia.
Qed.

Lemma loss_small length_m : 0 <= length_m < 2 ^ 17 -> small 19 (loss_of length_m).
Proof.
  intros Hv. assert (small (-11) (ddiv (double_of 2) (double_of 10000))) as Hr by (by vm_compute).
  apply (small_le (17 + 1 + -11 + 1)); [|lia]. apply dmul_small; [|exact Hr|lia]. apply double_of_small; [exact Hv|lia].
Qed.

Lemma drawn_osnr_small r v : fst (drawn_osnr o r) = Known v -> small 19 v.
Proof.
  unfold drawn_osnr. destruct (syn_publish_osnr o); [|done]. pose proof (UnitDouble_small r) as Hu.
  destruct (UnitDouble r) as [unit r']. cbn [fst] in *.
  intros E. assert (v = dadd (double_of 26) (dmul unit (double_of 8))) as -> by congruence. clear E.
  assert (small 8 (double_of 26) /\ small 4 (double_of 8)) as [H26 H8] by (by vm_compute).
  revert H26 H8. generalize (double_of 26) (double_of 8). intros a b Ha Hb.
  apply (small_le (8 + 2)); [|lia]. apply dadd_small; [done| |lia].
  apply (small_le (3 + 4 + 1)); [|lia]. by apply dmul_small.
Qed.

Lemma blocked_slots_spec r :
  syn_slot_count o <= 256 ->
  wf_mask (fst (blocked_slots o r)) /\
  forall i, slot_in_range i -> mask_Test (fst (blocked_slots o r)) i = true -> i < syn_slot_count o.
Proof.
  intros Hc. unfold blocked_slots. destruct (_ <? _); cbn [fst].
  2: { split; [apply mask_None_wf|]. intros i [Hi _]. by rewrite mask_None_Test. }
  assert (forall l m r, Forall (fun s => 0 <= s < syn_slot_count o) l -> wf_mask m ->
    (forall i, slot_in_range i -> mask_Test m i = true -> i < syn_slot_count o) ->
    let m' := fst (fold_left (block_step o) l (m, r)) in
    wf_mask m' /\ forall i, slot_in_range i -> mask_Test m' i = true -> i < syn_slot_count o) as Hl.
  { intros l m r' Hl; revert m r'. induction Hl as [|s l Hs Hl IH]; intros m r' Hm Ht; [done|]. cbn [fold_left].
    unfold block_step at 2 4. destruct (Next r') as [v r2]. cbv zeta. apply IH; destruct (_ =? 0); auto with opp.
    intros i Hi. rewrite mask_Set_Test by (done || unfold slot_in_range; lia).
    destruct (bool_decide (s = i)) eqn:E; [apply bool_decide_eq_true in E; lia|]. auto. }
  apply Hl; [apply range_bounds|apply mask_None_wf|]. intros i [Hi _]. by rewrite mask_None_Test.
Qed.

(** Every generated span passes the builder's validation. *)
Lemma span_record_valid e :
  syn_slot_count o <= 256 ->
  failed (validate_span (MkSpectrum (syn_grid o) (syn_slot_count o)) (span_record o e)) = false.
Proof.
  intros Hc. unfold span_record.
  pose proof (Below_range 100000 (MkRandom (span_seed o e)) ltac:(lia)) as Hx.
  destruct (Below 100000 _) as [extra r1]. cbn [fst] in Hx.
  pose proof (drawn_osnr_small r1) as Ho. destruct (drawn_osnr o r1) as [osnr r2]. cbn [fst] in Ho.
  pose proof (blocked_slots_spec r2 Hc) as [_ Hb]. destruct (blocked_slots o r2) as [blocked r3]. cbn [fst] in Hb.
  destruct (Below 3 r3) as [surcharge r4]. unfold validate_span. cbn [s_loss_db s_osnr_db s_blocked_slots].
  assert (forall v field maximum_text, small 19 v -> ValidateFiniteNonNegative (Known v) field d1e6 maximum_text = OkStatus) as Hv.
  { intros v field text Hs. unfold ValidateFiniteNonNegative. by rewrite small_range. }
  rewrite Hv by (apply loss_small; rewrite wrap_small by width_lia; lia).
  assert (ValidateFiniteNonNegative osnr "span.osnr_db" d1e6 kMillionText = OkStatus) as ->.
  { destruct osnr; [by apply Hv, Ho|done..]. }
  unfold ValidateMaskWithinModel. destruct (List.find _ _) as [slot|] eqn:E; [|done].
  apply find_some in E as [Hin Ht]. apply filter_In in Hin as [Hr%in_range Hge%Z.leb_le]. cbn [slot_count] in Hge.
  apply Hb in Ht; [lia|done].
Qed.

Lemma span_record_keys e :
  s_id (span_record o e) = MkId ("s" +:+ edge_text e) /\
  s_from (span_record o e) = MkPortKey (node_name e.1) (line_name e.2) /\
  s_to (span_record o e) = MkPortKey (node_name e.2) (line_name e.1) /\
  s_bidirectional (span_record o e) = true /\ size (s_failure_domains (span_record o e)) <= kMaxDomainsPerResource.
Proof.
  unfold span_record. destruct (Below 100000 _) as [extra r1], (drawn_osnr o r1) as [osnr r2],
    (blocked_slots o r2) as [blocked r3], (Below 3 r3) as [surcharge r4]. done.
Qed.
End span_draws.

(** ** Lemmas: the loops collect records *)

(** A loop whose step appends to a collection that still fits. *)
Lemma each_collect {A R S} (fits : list R -> Prop) (st : list R -> S) (f : A -> S -> Expected S) (g : A -> list R) l rs :
  (forall a b, fits (a ++ b) -> fits a) ->
  (forall x rs, In x l -> fits (rs ++ g x) -> f x (st rs) = Value (st (rs ++ g x))) ->
  fits (rs ++ flat_map g l) -> each f l (st rs) = Value (st (rs ++ flat_map g l)).
Proof.
  intros Hpre. revert rs; induction l as [|x l IH]; intros rs Hs Hf; cbn [each flat_map] in *; [by rewrite app_nil_r|].
  rewrite Hs; [|by left|eapply Hpre; by rewrite <- app_assoc]. rewrite IH; [by rewrite <- app_assoc| |by rewrite <- app_assoc].
  intros y ys Hy. apply Hs. by right.
Qed.

Lemma size_nonneg {A} (l : list A) : 0 <= size l.
Proof. unfold size. lia. Qed.

Lemma fits_prefix {A} (base maximum : Z) (a b : list A) : base + size (a ++ b) <= maximum -> base + size a <= maximum.
Proof. rewrite size_app. pose proof (size_nonneg b). lia. Qed.

Lemma flat_map_single {A B} (f : A -> B) l : flat_map (fun x => [f x]) l = map f l.
Proof. induction l as [|x l IH]; simpl; congruence. Qed.

(** One more record of a kind, as long as there is room and it is named. *)
Lemma added_ok b unnamed d1 count maximum d2 b' :
  b_built b = false -> unnamed = false -> count < maximum ->
  added (guarded (add_guards b unnamed d1 count maximum d2) b b') = Value b'.
Proof. intros Hb -> Hc. unfold guarded, add_guards. rewrite Hb, (proj2 (Z.leb_gt _ _)) by done. done. Qed.

(** ** What the generator collects *)

Section collected.
Context (o : SyntheticOptions).

Definition synthetic_rows : list (list Z) := neighbours_of (syn_node_count o) (graph_edges o).
Definition near (i : Z) : list Z := neighbours_at synthetic_rows i.

Definition node_ports (i : Z) : list PortRecord :=
  map (client_port o i) (range (syn_client_ports o)) ++ map (line_port o i) (near i).

Definition Arc : Type := PortId * PortId * CrossConnectOp.t.

Definition client_arcs (client neighbour : Z) : list Arc :=
  [(client_name client, line_name neighbour, CrossConnectOp.Express);
   (line_name neighbour, client_name client, CrossConnectOp.Express)].
Definition transit_arcs (i from to : Z) : list Arc :=
  if from =? to then []
  else [(line_name from, line_name to,
         if is_regenerator o i then CrossConnectOp.Regenerate else CrossConnectOp.Express)].
Definition node_arcs (i : Z) : list Arc :=
  flat_map (fun client => flat_map (client_arcs client) (near i)) (range (syn_client_ports o)) ++
  flat_map (fun from => flat_map (transit_arcs i from) (near i)) (near i).

(** The records of a node's arcs, numbered from zero. *)
Definition number (i : Z) (arcs : list Arc) : list CrossConnectRecord :=
  imap (fun k '(from, to, op) => cross_connect_record o i (Z.of_nat k) from to op) arcs.

Definition collected (ns : list NodeRecord) (ps : list PortRecord) (ss : list SpanRecord)
  (xs : list CrossConnectRecord) : SnapshotBuilder :=
  MkBuilder (if expected_ok (id_Parse (t := SnapshotTag) (syn_id o)) then MkId (syn_id o) else MkId "synthetic")
    (syn_generation o) (MkSpectrum (syn_grid o) (syn_slot_count o)) default_build_options [synthetic_source_record o]
    ns ps ss xs [synthetic_profile_record o] false.

Definition all_nodes : list NodeRecord := map (node_record o) (range (syn_node_count o)).
Definition all_ports : list PortRecord := flat_map node_ports (range (syn_node_count o)).
Definition all_spans : list SpanRecord := map (span_record o) (graph_edges o).
Definition all_cross_connects : list CrossConnectRecord :=
  flat_map (fun i => number i (node_arcs i)) (range (syn_node_count o)).

(** The builder's bounds leave room for all of it. *)
Definition synthetic_fits : Prop :=
  size all_ports <= kMaxPorts /\ size all_spans <= kMaxSpans /\ size all_cross_connects <= kMaxCrossConnects.

Lemma nodes_collected :
  syn_node_count o <= kMaxNodes -> size all_ports <= kMaxPorts ->
  each (add_node_and_ports o synthetic_rows) (range (syn_node_count o)) (collected [] [] [] []) =
  Value (collected all_nodes all_ports [] []).
Proof.
  intros Hn Hp.
  set (st := fun l => collected (map (node_record o) l) (flat_map node_ports l) [] []).
  set (fits := fun l : list Z => size l <= kMaxNodes /\ size (flat_map node_ports l) <= kMaxPorts).
  change (collected [] [] [] []) with (st []).
  replace (collected all_nodes all_ports [] []) with (st ([] ++ flat_map (fun i => [i]) (range (syn_node_count o))))
    by (unfold st; rewrite flat_map_single, map_id; done).
  apply (each_collect fits).
  - intros a b [H1 H2]. rewrite flat_map_app in H2. split; [by apply (fits_prefix 0) in H1|by apply (fits_prefix 0) in H2].
  - intros i l _ [H1 H2]. rewrite flat_map_app, !size_app in *. cbn [flat_map] in H2. rewrite app_nil_r in H2.
    assert (size (node_ports i) = size (range (syn_client_ports o)) + size (near i)) as Hi
      by (unfold node_ports, size; rewrite length_app, !length_map; lia).
    unfold st. rewrite map_app, flat_map_app. cbn [map flat_map].
    rewrite app_nil_r. unfold add_node_and_ports, AddNode.
    rewrite added_ok; [|done|done|]; [|unfold collected, size in *; cbn; rewrite length_map; cbn in H1; lia].
    change (with_records _ _ _ _ _ _ _) with (collected (map (node_record o) l ++ [node_record o i]) (flat_map node_ports l) [] []).
    set (ns := map (node_record o) l ++ [node_record o i]).
    assert (forall g ks ps, size ps + size ks <= kMaxPorts -> (forall x : Z, id_empty (node (p_key (g x))) || id_empty (port (p_key (g x))) = false)%bool ->
      each (fun x b => added (AddPort b (g x))) ks (collected ns ps [] []) = Value (collected ns (ps ++ map g ks) [] [])) as Hports.
    { intros g ks ps Hfit Hname. rewrite <- (flat_map_single g).
      apply (each_collect (fun ps => 0 + size ps <= kMaxPorts) (fun ps => collected ns ps [] [])); [apply fits_prefix| |].
      - intros x qs _ Hq. rewrite size_snoc in Hq. apply added_ok; [done|apply Hname|]. cbn -[size kMaxPorts]. lia.
      - rewrite flat_map_single, size_app. unfold size in *. rewrite length_map. lia. }
    pose proof (size_nonneg (near i)). rewrite Hports by (done || lia).
    change (neighbours_at synthetic_rows i) with (near i).
    rewrite Hports; [by rewrite <- app_assoc| |done]. rewrite size_app. unfold size in *. rewrite length_map. lia.
  - split.
    + cbn [app]. rewrite flat_map_single, map_id. unfold size, range. rewrite length_map, length_seq.
      unfold kMaxNodes in *. lia.
    + cbn [app]. rewrite flat_map_single, map_id. done.
Qed.

Lemma numbered_size i arcs : size (number i arcs) = size arcs.
Proof. unfold number, size. by rewrite length_imap. Qed.

Lemma arc_collected i from to op ns ps xs arcs :
  size xs + size arcs < kMaxCrossConnects ->
  add_cross_connect o i from to op (size arcs, collected ns ps [] (xs ++ number i arcs)) =
  Value (size (arcs ++ [(from, to, op)]), collected ns ps [] (xs ++ number i (arcs ++ [(from, to, op)]))).
Proof.
  intros Hfit. unfold add_cross_connect, AddCrossConnect.
  rewrite added_ok; [|done|done|]; [|cbn -[size number kMaxCrossConnects]; rewrite size_app, numbered_size; lia].
  assert (wrap32 (size arcs + 1) = size (arcs ++ [(from, to, op)])) as ->.
  { rewrite size_snoc. apply wrap_small. unfold size, kMaxCrossConnects in *. width_lia. }
  unfold number. rewrite imap_app. cbn [imap]. rewrite Nat.add_0_r, app_assoc. done.
Qed.

Lemma node_cross_connects_collected i ns ps xs :
  size xs + size (number i (node_arcs i)) <= kMaxCrossConnects ->
  add_node_cross_connects o synthetic_rows i (collected ns ps [] xs) =
  Value (collected ns ps [] (xs ++ number i (node_arcs i))).
Proof.
  intros Hfit. rewrite numbered_size in Hfit. unfold add_node_cross_connects. cbv zeta.
  change (neighbours_at synthetic_rows i) with (near i).
  set (st := fun arcs => (size arcs, collected ns ps [] (xs ++ number i arcs))).
  set (fits := fun arcs : list Arc => size xs + size arcs <= kMaxCrossConnects).
  assert (forall a b, fits (a ++ b) -> fits a) as Hpre by (intros a b; apply fits_prefix).
  assert ((0, collected ns ps [] xs) = st []) as -> by (unfold st; cbn; by rewrite app_nil_r).
  rewrite (each_collect fits st _ (fun client => flat_map (client_arcs client) (near i))); [|done| |].
  - rewrite (each_collect fits st _ (fun from => flat_map (transit_arcs i from) (near i))); [done..| |].
    + intros from arcs _ Hf. apply (each_collect fits st); [done| |done]. intros to as' _ Ha.
      unfold add_transit_arc, transit_arcs in *. destruct (from =? to); [by rewrite app_nil_r|].
      apply arc_collected. unfold fits in Ha. rewrite size_snoc in Ha. lia.
    + unfold fits, node_arcs, size in *. done.
  - intros client arcs _ Hf. apply (each_collect fits st); [done| |done]. intros to as' _ Ha.
    unfold add_client_arcs, fits in *. rewrite size_app in Ha. change (size (client_arcs client to)) with 2 in Ha.
    unfold st at 1. rewrite arc_collected by lia. rewrite arc_collected by (rewrite size_snoc; lia).
    by rewrite <- app_assoc.
  - eapply Hpre. unfold fits, size. exact Hfit.
Qed.

(** As long as the bounds hold nothing is refused, and the builder holds the
    records of the description. *)
Lemma synthetic_builder_collects :
  synthetic_guards o = OkStatus -> syn_node_count o <= kMaxGeneratedNodes -> synthetic_fits ->
  synthetic_builder o = Value (collected all_nodes all_ports all_spans all_cross_connects).
Proof.
  intros Hg Hn (Hp & Hs & Hx). unfold synthetic_builder. rewrite Hg. cbn [failed]. cbv zeta.
  change (failed OkStatus) with false. cbv iota.
  unfold AddSource at 1. rewrite added_ok by done. unfold AddReachProfile at 1. rewrite added_ok by done.
  fold synthetic_rows. match goal with |- context [each _ _ ?b] => change b with (collected [] [] [] []) end.
  rewrite nodes_collected by (unfold kMaxGeneratedNodes, kMaxNodes in *; lia || done).
  rewrite (each_collect (fun xs => 0 + size xs <= kMaxCrossConnects) (fun xs => collected all_nodes all_ports [] xs) _
             (fun i => number i (node_arcs i))); [|apply fits_prefix| |done].
  - fold all_cross_connects. cbn [app]. unfold all_spans. rewrite <- (flat_map_single (span_record o)).
    apply (each_collect (fun ss => 0 + size ss <= kMaxSpans) (fun ss => collected all_nodes all_ports ss all_cross_connects)
             _ (fun e => [span_record o e]) _ []);
      [apply fits_prefix| |by rewrite flat_map_single].
    intros e ss _ Hf. rewrite size_snoc in Hf. unfold AddSpan. rewrite added_ok; [done|done| |cbn; lia].
    unfold id_empty. by rewrite (proj1 (span_record_keys o e)).
  - intros i xs _ Hf. rewrite size_app in Hf. apply node_cross_connects_collected. lia.
Qed.
End collected.

(** ** Lemmas: distinct keys *)

Lemma NoDup_map_in {A B} (f : A -> B) l :
  List.NoDup l -> (forall x y, In x l -> In y l -> f x = f y -> x = y) -> List.NoDup (map f l).
Proof.
  induction 1 as [|x l Hx Hl IH]; simpl; intros Hf; constructor.
  - intros (y & E & Hy)%in_map_iff. assert (y = x) as ->; [|done]. apply Hf; auto.
  - apply IH. intros y z Hy Hz. apply Hf; auto.
Qed.

Lemma NoDup_app_keys {A K} (key : A -> K) a b :
  List.NoDup (map key a) -> List.NoDup (map key b) -> (forall x y, In x a -> In y b -> key x <> key y) ->
  List.NoDup (map key (a ++ b)).
Proof.
  induction a as [|x a IH]; simpl; intros Ha Hb Hd; [done|]. inversion_clear Ha as [|? ? Hni Ha']. constructor.
  - rewrite map_app, in_app_iff. intros [?|(y & E & Hy)%in_map_iff]; [done|]. by apply (Hd x y); auto.
  - apply IH; auto.
Qed.

Lemma NoDup_flat_map_keys {A B K} (key : B -> K) (g : A -> list B) l :
  List.NoDup l -> (forall x, In x l -> List.NoDup (map key (g x))) ->
  (forall x y a b, In x l -> In y l -> In a (g x) -> In b (g y) -> key a = key b -> x = y) ->
  List.NoDup (map key (flat_map g l)).
Proof.
  induction 1 as [|x l Hx Hl IH]; simpl; intros Hd Hk; [constructor|]. apply NoDup_app_keys; auto.
  - apply IH; [auto|]. intros y z a b Hy Hz. apply Hk; auto.
  - intros a b Ha (y & Hy & Hb)%in_flat_map E. apply Hx. by rewrite (Hk x y a b (or_introl eq_refl) (or_intror Hy) Ha Hb E).
Qed.

Lemma range_NoDup n : List.NoDup (range n).
Proof. unfold range. apply NoDup_map_in; [apply seq_NoDup|]. intros; lia. Qed.

(** ** The records refer to one another *)

(** The options as their types bound them. *)
Record wf_synthetic (o : SyntheticOptions) : Prop := {
  wf_node_count : in_width 32 (syn_node_count o);
  wf_client_ports : in_width 32 (syn_client_ports o);
  wf_slot_count : in_width 16 (syn_slot_count o);
}.

Section complete.
Context (o : SyntheticOptions) (W : wf_synthetic o) (G : synthetic_guards o = OkStatus).
Context (arcs_numbered : forall i, 0 <= i < syn_node_count o -> size (node_arcs o i) <= 1000).

Lemma guards_inv :
  2 <= syn_node_count o <= kMaxGeneratedNodes /\ 1 <= syn_slot_count o <= 256.
Proof.
  clear arcs_numbered. revert G. unfold synthetic_guards. pose proof (wf_slot_count o W) as [? _].
  repeat case_goal; try done. unfold kMaxSpectrumSlots in *. crush_hyps. lia.
Qed.

Lemma node_name_inj i j :
  0 <= i < syn_node_count o -> 0 <= j < syn_node_count o -> node_name i = node_name j -> i = j.
Proof.
  pose proof guards_inv as [Hn _]. unfold kMaxGeneratedNodes in Hn. intros Hi Hj E%id_inj.
  apply Numbered_inj in E; [done|width_lia..].
Qed.

Lemma near_spec i : 0 <= i < syn_node_count o ->
  List.NoDup (near o i) /\ forall j, In j (near o i) <-> i <> j /\ joins (graph_edges o) i j.
Proof. intros Hi. apply neighbours_spec; [|done]. by apply graph_edges_spec, guards_inv. Qed.

Lemma near_range i j : 0 <= i < syn_node_count o -> In j (near o i) -> 0 <= j < syn_node_count o.
Proof.
  intros Hi Hj. apply (near_spec i Hi) in Hj as [_ Hj].
  destruct (graph_edges_spec o (proj1 guards_inv)) as [[Hf _] _].
  rewrite List.Forall_forall in Hf. destruct (Hf _ Hj) as (? & ? & ?). simpl in *. lia.
Qed.

Lemma nodes_named : map n_id (all_nodes o) = map node_name (range (syn_node_count o)).
Proof. unfold all_nodes. by rewrite map_map. Qed.

Lemma client_key_in i k : 0 <= i < syn_node_count o -> In k (range (syn_client_ports o)) ->
  In (MkPortKey (node_name i) (client_name k)) (map p_key (all_ports o)).
Proof.
  intros Hi Hk. apply in_map_iff. exists (client_port o i k). split; [done|]. apply in_flat_map. exists i.
  rewrite in_range. split; [done|]. apply in_app_iff. left. by apply in_map.
Qed.

Lemma line_key_in i j : 0 <= i < syn_node_count o -> In j (near o i) ->
  In (MkPortKey (node_name i) (line_name j)) (map p_key (all_ports o)).
Proof.
  intros Hi Hj. apply in_map_iff. exists (line_port o i j). split; [done|]. apply in_flat_map. exists i.
  rewrite in_range. split; [done|]. apply in_app_iff. right. by apply in_map.
Qed.

Lemma ports_distinct : List.NoDup (map p_key (all_ports o)).
Proof.
  pose proof (wf_client_ports o W) as Hc. pose proof guards_inv as [Hn _]. unfold kMaxGeneratedNodes in Hn.
  unfold all_ports. apply NoDup_flat_map_keys.
  - apply range_NoDup.
  - intros i Hi%in_range. unfold node_ports. apply NoDup_app_keys.
    + rewrite map_map. apply NoDup_map_in; [apply range_NoDup|]. intros x y Hx%in_range Hy%in_range E.
      apply (f_equal (fun k => str (port k))) in E. change (Numbered "c" x = Numbered "c" y) in E. unfold in_width in Hc.
      apply Numbered_inj in E; [done|width_lia..].
    + rewrite map_map. apply NoDup_map_in; [by apply near_spec|]. intros x y Hx Hy E.
      apply (f_equal (fun k => str (port k))) in E. change (Numbered "l" x = Numbered "l" y) in E.
      pose proof (near_range i x Hi Hx). pose proof (near_range i y Hi Hy). apply Numbered_inj in E; [done|width_lia..].
    + intros x y (a & <- & _)%in_map_iff (b & <- & _)%in_map_iff. simpl. intros [=].
  - intros i j a b Hi%in_range Hj%in_range Ha Hb E.
    assert (forall k p, In p (node_ports o k) -> node (p_key p) = node_name k) as Hnode.
    { intros k p. unfold node_ports. rewrite in_app_iff, !in_map_iff. intros [(? & <- & _)|(? & <- & _)]; done. }
    apply node_name_inj; [done..|]. by rewrite <- (Hnode i a), <- (Hnode j b), E.
Qed.

Lemma edges_in e : In e (graph_edges o) -> edge_ok (syn_node_count o) e /\ In e.2 (near o e.1) /\ In e.1 (near o e.2).
Proof.
  intros He. destruct (graph_edges_spec o (proj1 guards_inv)) as [[Hf _] _]. rewrite List.Forall_forall in Hf.
  pose proof (Hf e He) as Hok. split; [done|]. destruct Hok as (H0 & H1 & H2). unfold joins.
  rewrite (proj2 (near_spec e.1 ltac:(lia))), (proj2 (near_spec e.2 ltac:(lia))). unfold joins.
  rewrite !Z.min_l, !Z.max_r, Z.min_r, Z.max_l by lia. destruct e; simpl in *. split; (split; [lia|done]).
Qed.

Lemma spans_distinct : List.NoDup (map s_id (all_spans o)).
Proof.
  destruct (graph_edges_spec o (proj1 guards_inv)) as [[Hf Hd] _]. pose proof guards_inv as [Hn _].
  unfold all_spans. rewrite map_map. apply NoDup_map_in; [done|]. rewrite List.Forall_forall in Hf.
  intros e f He Hf' E. rewrite (proj1 (span_record_keys o e)), (proj1 (span_record_keys o f)) in E.
  apply id_inj, append_inj_l in E. pose proof (Hf e He) as (?&?&?). pose proof (Hf f Hf') as (?&?&?).
  apply edge_text_inj; [unfold edge_ok in *; lia..|done].
Qed.

Lemma spans_joined s : In s (all_spans o) -> joined (map p_key (all_ports o)) (s_from s) (s_to s).
Proof.
  intros (e & <- & He)%in_map_iff. destruct (edges_in e He) as ((H0 & H1 & H2) & N1 & N2).
  destruct (span_record_keys o e) as (_ & -> & -> & _). split_and!; [apply line_key_in; [lia|done]..|].
  intros E. apply (f_equal node) in E. apply node_name_inj in E; lia.
Qed.

(** The arcs of a node join two of its ports. *)
Lemma node_arcs_joined i from to op :
  0 <= i < syn_node_count o -> In (from, to, op) (node_arcs o i) ->
  joined (map p_key (all_ports o)) (MkPortKey (node_name i) from) (MkPortKey (node_name i) to).
Proof.
  intros Hi. unfold node_arcs. rewrite in_app_iff, !in_flat_map. intros [(k & Hk & Hin)|(j & Hj & Hin)].
  - apply in_flat_map in Hin as (j & Hj & Hin). unfold client_arcs in Hin. destruct Hin as [E|[E|[]]]; injection E as <- <- <-.
    + split_and!; [by apply client_key_in|by apply line_key_in|by intros [=]].
    + split_and!; [by apply line_key_in|by apply client_key_in|by intros [=]].
  - apply in_flat_map in Hin as (j' & Hj' & Hin). unfold transit_arcs in Hin.
    destruct (Z.eqb_spec j j') as [|Hne]; [done|]. destruct Hin as [E|[]]. injection E as <- <- <-.
    split_and!; [by apply line_key_in..|]. intros E.
    apply (f_equal (fun k => str (port k))) in E. change (Numbered "l" j = Numbered "l" j') in E.
    pose proof guards_inv as [Hn _]. unfold kMaxGeneratedNodes in Hn.
    pose proof (near_range i j Hi Hj). pose proof (near_range i j' Hi Hj'). apply Numbered_inj in E; [done|width_lia..].
Qed.

Lemma number_in i x : In x (number o i (node_arcs o i)) ->
  exists k from to op, (k < length (node_arcs o i))%nat /\ In (from, to, op) (node_arcs o i) /\
    x = cross_connect_record o i (Z.of_nat k) from to op.
Proof.
  unfold number. intros Hx%list_elem_of_In%list_elem_of_lookup. destruct Hx as [k Hk].
  apply list_lookup_imap_Some in Hk as ([[from to] op] & E & ->).
  exists k, from, to, op. split; [by eapply lookup_lt_Some|].
  split; [|done]. by eapply list_elem_of_In, list_elem_of_lookup_2.
Qed.

Lemma cross_connect_id i k : 0 <= i < syn_node_count o -> 0 <= k < 1000 ->
  wrap32 (wrap32 (i * 1000) + k) = i * 1000 + k.
Proof.
  pose proof guards_inv as [Hn _]. unfold kMaxGeneratedNodes in Hn. intros Hi Hk.
  rewrite (wrap_small 32 (i * 1000)) by width_lia. apply wrap_small. width_lia.
Qed.

Lemma cross_connects_distinct : List.NoDup (map x_id (all_cross_connects o)).
Proof.
  pose proof guards_inv as [Hn _]. unfold kMaxGeneratedNodes in Hn. unfold all_cross_connects.
  assert (forall i k, 0 <= i < syn_node_count o -> (k < length (node_arcs o i))%nat -> 0 <= Z.of_nat k < 1000) as Hk.
  { intros i k Hi Hk. specialize (arcs_numbered i Hi). unfold size in arcs_numbered. lia. }
  apply NoDup_flat_map_keys; [apply range_NoDup| |].
  - intros i Hi%in_range. apply NoDup_ListNoDup, NoDup_alt. intros k l x.
    assert (forall k, map x_id (number o i (node_arcs o i)) !! k = Some x ->
      (k < length (node_arcs o i))%nat /\ x = MkId (Numbered "xc" (wrap32 (wrap32 (i * 1000) + Z.of_nat k)))) as Hx.
    { intros n (y & -> & Hy)%list_lookup_fmap_Some. apply list_lookup_imap_Some in Hy as ([[from to] op] & E & ->).
      split; [by eapply lookup_lt_Some|done]. }
    intros [K1 E1]%Hx [K2 E2]%Hx. pose proof (Hk i k Hi K1). pose proof (Hk i l Hi K2).
    rewrite E1 in E2. apply id_inj in E2. rewrite !cross_connect_id in E2 by done.
    apply Numbered_inj in E2; [lia|width_lia..].
  - intros i j a b Hi%in_range Hj%in_range (k & f1 & t1 & op1 & K1 & _ & ->)%number_in (l & f2 & t2 & op2 & K2 & _ & ->)%number_in E.
    pose proof (Hk i k Hi K1). pose proof (Hk j l Hj K2). cbn in E. rewrite !cross_connect_id in E by done.
    apply id_inj, Numbered_inj in E; [lia|width_lia..].
Qed.

Lemma collected_complete :
  complete_records (collected o (all_nodes o) (all_ports o) (all_spans o) (all_cross_connects o)).
Proof.
  pose proof guards_inv as [Hn Hs]. split; cbn [b_built b_spectrum b_sources b_nodes b_ports b_spans b_cross_connects b_profiles collected].
  - done.
  - unfold Spectrum_Validate. cbn [slot_count]. rewrite (proj2 (Z.eqb_neq _ _)) by lia.
    rewrite (proj2 (Z.ltb_ge _ _)) by (unfold kMaxSpectrumSlots; lia). done.
  - split; [done|]. by repeat constructor.
  - split; cbn [b_nodes b_ports b_spans b_cross_connects b_profiles collected].
    + rewrite nodes_named. apply NoDup_map_in; [apply range_NoDup|]. intros x y Hx%in_range Hy%in_range. by apply node_name_inj.
    + apply ports_distinct.
    + apply spans_distinct.
    + apply cross_connects_distinct.
    + repeat constructor. by intros [].
  - apply List.Forall_forall. intros r (i & <- & _)%in_map_iff. done.
  - apply List.Forall_forall. intros p (i & Hi & Hp)%in_flat_map. rewrite nodes_named.
    assert (In (node_name i) (map node_name (range (syn_node_count o)))) as Hin by (by apply in_map).
    unfold node_ports in Hp. apply in_app_iff in Hp as [Hp|Hp]; apply in_map_iff in Hp as (k & <- & _); done.
  - apply List.Forall_forall. intros s Hin. pose proof Hin as (e & <- & He)%in_map_iff.
    destruct (span_record_keys o e) as (_ & _ & _ & _ & Hd). split; [done|]. split; [apply span_record_valid; lia|].
    by apply spans_joined.
  - apply List.Forall_forall. intros x (i & Hi%in_range & Hx)%in_flat_map.
    apply number_in in Hx as (k & from & to & op & _ & Hin & ->). split; [done|]. split; [done|]. by apply (node_arcs_joined i from to op).
  - by repeat constructor.
Qed.
End complete.

(** ** The example network *)

Definition example_records : SnapshotBuilder :=
  match example_builder with Value b => b | Error _ => new_builder default_build_options end.

Lemma example_builder_ok : example_builder = Value example_records.
Proof. vm_compute. reflexivity. Qed.

#[local] Instance mask_evidence_eq_dec : EqDecision (Evidence SlotMask).
Proof. solve_decision. Defined.

#[local] Instance In_decision {A} `{EqDecision A} (x : A) l : Decision (In x l).
Proof. destruct (decide (x ∈ l)); [left|right]; by rewrite <- list_elem_of_In. Defined.

#[local] Instance joined_dec keys from to : Decision (joined keys from to).
Proof. unfold joined. apply _. Defined.

Lemma example_records_complete : complete_records example_records.
Proof.
  split.
  - reflexivity.
  - reflexivity.
  - split; [reflexivity|]. apply (bool_decide_unpack _). by vm_compute.
  - split; apply NoDup_ListNoDup, (bool_decide_unpack _); by vm_compute.
  - apply (bool_decide_unpack _). by vm_compute.
  - apply (bool_decide_unpack _). by vm_compute.
  - apply (bool_decide_unpack _). by vm_compute.
  - apply (bool_decide_unpack _). by vm_compute.
  - apply (bool_decide_unpack _). by vm_compute.
Qed.

(** ** Theorems *)

(** What the span of an edge is, by the numbered draws of the edge's seed: the
    first gives the length, and the loss with it; the second the signal-to-noise
    ratio when that is published; then there is one for each slot when slots are
    blocked; the last gives the cost. *)
Definition edge_seed (o : SyntheticOptions) (e : Edge) : Z := syn_seed o * 1000003 + e.1 * 1009 + e.2.
Definition first_slot_draw (o : SyntheticOptions) : Z := if syn_publish_osnr o then 2 else 1.
Definition cost_draw (o : SyntheticOptions) : Z :=
  first_slot_draw o + (if 0 <? syn_slot_blocking_one_in o then syn_slot_count o else 0).

Definition between (low v high : double) : Prop := dle low v = true /\ dle v high = true.

Record drawn_span (o : SyntheticOptions) (e : Edge) (s : SpanRecord) : Prop := {
  ds_ends : s_id s = MkId ("s" +:+ edge_text e) /\ s_from s = MkPortKey (node_name e.1) (line_name e.2) /\
    s_to s = MkPortKey (node_name e.2) (line_name e.1) /\ s_bidirectional s = true;
  ds_length : let length_m := 20000 + draw (edge_seed o e) 0 mod 100000 in
    20000 <= length_m < 120000 /\ s_length_m s = (if syn_publish_length o then Known length_m else Unknown) /\
    s_loss_db s = Known (loss_of length_m) /\ between (double_of 4) (loss_of length_m) (double_of 24);
  ds_osnr : let osnr := nearest (26 * 2 ^ 50 + Z.shiftr (draw (edge_seed o e) 1) 11) (-50) in
    s_osnr_db s = (if syn_publish_osnr o then Known osnr else Unknown) /\ between (double_of 26) osnr (double_of 34);
  ds_blocked : exists blocked, s_blocked_slots s = Known blocked /\
    forall slot, slot_in_range slot ->
      mask_Test blocked slot = true <->
      slot < syn_slot_count o /\ 0 < syn_slot_blocking_one_in o /\
      Z.lxor (draw (edge_seed o e) (first_slot_draw o + slot)) (wrap64 (slot * golden)) mod syn_slot_blocking_one_in o = 0;
  ds_cost : s_cost s = 1 + draw (edge_seed o e) (cost_draw o) mod 3;
  ds_domain : s_failure_domains s = [MkId ("span" +:+ edge_text e)];
}.

Lemma seed_draw o e : MkRandom (span_seed o e) = at_draw (edge_seed o e) 0.
Proof.
  unfold span_seed, at_draw, edge_seed, wrap. f_equal. rewrite Z.mul_0_l, Z.add_0_r.
  rewrite Z.add_mod_idemp_l by done. rewrite <- Z.add_assoc, Z.add_mod_idemp_l by done.
  rewrite (Z.add_comm (syn_seed o * _)), <- Z.add_assoc, Z.add_mod_idemp_l by done. f_equal. lia.
Qed.

Lemma drawn_osnr_at o seed :
  drawn_osnr o (at_draw seed 1) =
  (if syn_publish_osnr o then Known (osnr_of (Z.shiftr (draw seed 1) 11)) else Unknown, at_draw seed (first_slot_draw o)).
Proof.
  unfold drawn_osnr, first_slot_draw. destruct (syn_publish_osnr o); [|done].
  destruct (UnitDouble_at seed 1) as [E1 E2]. destruct (UnitDouble (at_draw seed 1)) as [unit r]. cbn [fst snd] in *.
  by rewrite E1, E2.
Qed.

Lemma blocked_slots_at o seed j :
  0 <= syn_slot_count o <= 256 ->
  let '(blocked, r) := blocked_slots o (at_draw seed j) in
  r = at_draw seed (j + (if 0 <? syn_slot_blocking_one_in o then syn_slot_count o else 0)) /\
  forall slot, slot_in_range slot ->
    mask_Test blocked slot = true <->
    slot < syn_slot_count o /\ 0 < syn_slot_blocking_one_in o /\
    Z.lxor (draw seed (j + slot)) (wrap64 (slot * golden)) mod syn_slot_blocking_one_in o = 0.
Proof.
  intros Hc. unfold blocked_slots. destruct (Z.ltb_spec 0 (syn_slot_blocking_one_in o)) as [Hpos|Hz].
  - pose proof (block_steps o (Z.to_nat (syn_slot_count o)) 0 mask_None seed j mask_None_wf ltac:(lia)) as Hs.
    unfold range. destruct (fold_left _ _ _) as [blocked r]. destruct Hs as (-> & _ & Ht). rewrite Z2Nat.id by lia.
    split; [done|]. intros slot Hs. pose proof Hs as [Hs0 Hs1]. rewrite Ht, mask_None_Test by done.
    replace (j + (slot - Z.of_nat 0)) with (j + slot) by lia. cbn [orb Nat.add]. rewrite Z2Nat.id by lia.
    unfold slot_hit. rewrite andb_true_iff, bool_decide_eq_true, Z.eqb_eq. change (Z.of_nat 0) with 0. lia.
  - rewrite Z.add_0_r. split; [done|]. intros slot [Hs _]. rewrite mask_None_Test by done. split; [done|lia].
Qed.

Lemma span_record_drawn o e :
  0 <= syn_slot_count o <= 256 ->
  drawn_span o e (span_put_domains (sort_unique (s_failure_domains (span_record o e))) (span_record o e)).
Proof.
  intros Hc. unfold span_record. rewrite seed_draw, Below_at by lia. set (seed := edge_seed o e).
  rewrite (Z.add_0_l 1), drawn_osnr_at. pose proof (blocked_slots_at o seed (first_slot_draw o) Hc) as Hblocked.
  destruct (blocked_slots o _) as [blocked r]. destruct Hblocked as [-> Hblocked]. rewrite Below_at by lia.
  fold (cost_draw o). pose proof (Z.mod_pos_bound (draw seed 0) 100000 ltac:(lia)).
  pose proof (Z.mod_pos_bound (draw seed (cost_draw o)) 3 ltac:(lia)).
  rewrite (wrap_small 64), (wrap_small 32) by width_lia.
  destruct (osnr_range _ (draw_bits seed 1)) as [Eo Ho]. rewrite Eo in *.
  split; cbn [s_id s_from s_to s_bidirectional s_length_m s_loss_db s_osnr_db s_blocked_slots s_cost s_failure_domains span_put_domains];
    fold seed; try done.
  - cbv zeta. split; [lia|]. split; [done|]. split; [done|]. apply loss_range. lia.
  - by exists blocked.
Qed.

(** The two ends of a span, as node identities. *)
Definition span_between_nodes (s : SpanRecord) (a b : NodeId) : Prop :=
  (node (s_from s) = a /\ node (s_to s) = b) \/ (node (s_from s) = b /\ node (s_to s) = a).

Section theorems.
Context `{Platform, Hasher}.

(** C17: the generator succeeds, and completely.  Whenever the options pass the
    guards, what they describe stays within the builder's bounds and no node has
    more than a thousand cross-connects, a snapshot is generated: it is well
    formed, no record in it refers to a missing one, no two records conflict and
    its coverage is complete, so a planner may conclude from what it lacks.  Its
    nodes and spans are exactly those of the graph, and each node has a span to
    its successor on the ring.  Every span is the one its edge and the seed
    determine: a length of 20 to 120 km and a loss of 4 to 24 dB, the
    signal-to-noise ratio nearest to [26 + 8 u] for the drawn fraction [u] and so
    between 26 and 34 dB, exactly the slots blocked that are in the grid and
    whose draw is a multiple of the option, a cost of one to three; length and
    ratio are published as the options say. *)
Theorem generated_network (o : SyntheticOptions) :
  wf_synthetic o -> synthetic_guards o = OkStatus -> synthetic_fits o ->
  (forall i, 0 <= i < syn_node_count o -> size (node_arcs o i) <= 1000) ->
  exists t, GenerateSyntheticTopology o = Value t /\
    wf_snapshot t /\ t_unresolved t = [] /\ t_conflicted t = [] /\ t_coverage_complete t = true /\
    map n_id (t_nodes t) ≡ₚ map node_name (range (syn_node_count o)) /\
    map s_id (t_spans t) ≡ₚ map (fun e => MkId ("s" +:+ edge_text e)) (graph_edges o) /\
    (forall i, 0 <= i < syn_node_count o -> exists s, In s (t_spans t) /\
       span_between_nodes s (node_name i) (node_name ((i + 1) mod syn_node_count o))) /\
    Forall (fun s => exists e, In e (graph_edges o) /\ drawn_span o e s) (t_spans t).
Proof.
  intros W G F A. pose proof (guards_inv o W G) as [Hn Hslots].
  destruct (build_complete _ (collected_complete o W G A)) as (t & E & U & Cf & Cv & _ & _ & _ & Pn & _ & Ps & _).
  exists t. unfold GenerateSyntheticTopology. rewrite synthetic_builder_collects by (done || lia). split; [done|].
  split. { destruct (Build _) as [r b'] eqn:EB. cbn in E. subst r. by eapply Build_wf. }
  do 3 (split; [done|]). unfold normal_nodes in Pn. unfold normal_spans in Ps. cbn [collected b_nodes b_spans] in Pn, Ps.
  split; [rewrite Pn, map_map_same, nodes_named by done; done|].
  assert (forall s, In s (t_spans t) <-> exists e, In e (graph_edges o) /\
            s = span_put_domains (sort_unique (s_failure_domains (span_record o e))) (span_record o e)) as Hin.
  { intros s. assert (forall l l' : list SpanRecord, l ≡ₚ l' -> In s l <-> In s l') as Hp
      by (intros; split; apply Permutation_in; [done|by symmetry]).
    rewrite (Hp _ _ Ps). unfold all_spans. rewrite map_map, in_map_iff. naive_solver. }
  split; [|split].
  - rewrite Ps, map_map_same by done. unfold all_spans. rewrite map_map.
    erewrite map_ext; [done|]. intros e. apply span_record_keys.
  - intros i Hi. destruct (graph_edges_spec o Hn) as (_ & _ & Hring). specialize (Hring i Hi). unfold joins in Hring.
    eexists. split; [apply Hin; eauto|]. unfold span_between_nodes.
    match goal with |- context [span_record o ?e] => destruct (span_record_keys o e) as (_ & Ef & Et & _) end.
    cbn [s_from s_to span_put_domains]. rewrite Ef, Et. cbn [node fst snd].
    destruct (Z.le_ge_cases i ((i + 1) mod syn_node_count o));
      [left; by rewrite Z.min_l, Z.max_r by done|right; by rewrite Z.min_r, Z.max_l by done].
  - apply List.Forall_forall. intros s (e & He & ->)%Hin. exists e. split; [done|]. apply span_record_drawn. lia.
Qed.

(** The example network is published whole: it seals with complete coverage,
    three nodes, twelve ports, eight cross-connects and three spans. *)
Theorem example_network :
  exists t, BuildExampleTopology = Value t /\ wf_snapshot t /\ t_coverage_complete t = true /\
    size (t_nodes t) = 3 /\ size (t_ports t) = 12 /\ size (t_cross_connects t) = 8 /\ size (t_spans t) = 3.
Proof.
  destruct (build_complete _ example_records_complete) as (t & E & _ & _ & Cv & _ & _ & _ & Pn & Pp & Ps & Px).
  exists t. unfold BuildExampleTopology. rewrite example_builder_ok. split; [done|].
  split. { destruct (Build _) as [r b'] eqn:EB. cbn in E. subst r. by eapply Build_wf. }
  split; [done|]. unfold size. rewrite Pn, Pp, Ps, Px. clear. vm_compute. repeat split.
Qed.
End theorems.

(** Identities repeat beyond a thousand cross-connects: the thousand and first
    of a node is named like the first of the next node. *)
Theorem cross_connect_names_collide (o : SyntheticOptions) (from to from' to' : PortId) (op op' : CrossConnectOp.t) :
  x_id (cross_connect_record o 0 1000 from to op) = x_id (cross_connect_record o 1 0 from' to' op') /\
  x_from (cross_connect_record o 0 1000 from to op) <> x_from (cross_connect_record o 1 0 from' to' op').
Proof. split; [done|]. intros E. by apply (f_equal node) in E. Qed.

(** The degree is not the number of neighbours: with the default options, of
    degree three, every node has five. *)
Theorem degree_exceeded :
  syn_degree default_synthetic_options = 3 /\
  map size (neighbours_of (syn_node_count default_synthetic_options) (graph_edges default_synthetic_options)) = repeat 5 8.
Proof. split; vm_compute; reflexivity. Qed.

(** ** Witnesses *)

Definition small_options : SyntheticOptions :=
  MkSynthetic 7 4 2 16 GridKind.Fixed50GHz 1 true 4 true true 3 "synthetic" "synthetic-generator".

Section witnesses.
Existing Instance Sample.toy_hasher.

Lemma generated_network_witness :
  exists t, GenerateSyntheticTopology small_options = Value t /\
    wf_snapshot t /\ t_unresolved t = [] /\ t_conflicted t = [] /\ t_coverage_complete t = true /\
    map n_id (t_nodes t) ≡ₚ map node_name (range 4) /\
    map s_id (t_spans t) ≡ₚ map (fun e => MkId ("s" +:+ edge_text e)) (graph_edges small_options) /\
    (forall i, 0 <= i < 4 -> exists s, In s (t_spans t) /\
       span_between_nodes s (node_name i) (node_name ((i + 1) mod 4))) /\
    Forall (fun s => exists e, In e (graph_edges small_options) /\ drawn_span small_options e s) (t_spans t).
Proof.
  apply (generated_network small_options).
  - by split.
  - reflexivity.
  - split_and!; vm_compute; discriminate.
  - intros i Hi. change (syn_node_count small_options) with 4 in Hi.
    assert (i = 0 \/ i = 1 \/ i = 2 \/ i = 3) as [->|[->|[->| ->]]] by lia; vm_compute; discriminate.
Defined.
End witnesses.
