(* ===== verification/Request.v ===== *)
(** * Request: constraint sets and planning requests

    [include/opp/constraints.hpp], [src/constraints.cpp],
    [include/opp/request.hpp], [src/request.cpp] and the printing half of
    [src/request_io.cpp].  A [std::map] is the list of its entries by
    increasing key. *)

From S2P Require Import Prelude Status Ids Doubles Spectrum Sha256 Canonical Topology SnapshotText.

Module Disjointness.
Inductive t := None | Node | Span | FailureDomain.
#[global] Instance eq_dec : EqDecision t.
Proof. solve_decision. Defined.
End Disjointness.

Definition DisjointnessName (d : Disjointness.t) : string :=
  match d with
  | Disjointness.None => "none" | Disjointness.Node => "node" | Disjointness.Span => "span"
  | Disjointness.FailureDomain => "domain"
  end.

Definition ParseDisjointness : string -> option Disjointness.t :=
  named [("none", Disjointness.None); ("node", Disjointness.Node); ("span", Disjointness.Span);
         ("domain", Disjointness.FailureDomain)].

Record ConstraintSet := MkConstraints {
  excluded_nodes : list NodeId;
  excluded_ports : list PortKey;
  excluded_spans : list SpanId;
  excluded_cross_connects : list CrossConnectId;
  excluded_failure_domains : list FailureDomainId;
  max_members_per_failure_domain : list (FailureDomainId * Z);
  max_total_distance_m : option Z;
  max_total_span_count : option Z;
  max_total_loss_db : option double;
  min_segment_osnr_db : option double;
  allow_regeneration : bool;
  allow_wavelength_conversion : bool;
  require_spectrum_continuity_across_regeneration : bool;
  allow_repeated_resources : bool;
}.

Definition default_constraints : ConstraintSet :=
  MkConstraints [] [] [] [] [] [] None None None None true true false false.

Definition RequireSortedUnique {A} `{Ordered A, EqDecision A} (values : list A) (what : string) : Status :=
  if kMaxExclusionEntries <? size values then
    Failure StatusCode.LimitExceeded (what +:+ " exceeds the maximum number of entries")
  else if has_adjacent eqb_of (sort values) then
    Failure StatusCode.DuplicateIdentity (what +:+ " contains a duplicate entry")
  else OkStatus.

Definition ValidateOptionalNonNegative (value : option double) (what : string) : Status :=
  match value with
  | Some v =>
      if negb (dge v d0) || dgt v d1e9 then
        Failure StatusCode.InvalidArgument (what +:+ " must be a finite value in [0, 1e9]")
      else OkStatus
  | None => OkStatus
  end.

(** The first entry, by key, of the member limits that is zero. *)
Definition member_limits_positive (limits : list (FailureDomainId * Z)) : Status :=
  match List.find (fun entry => snd entry =? 0) limits with
  | Some entry =>
      Failure StatusCode.InvalidArgument
        ("max_members_per_failure_domain for '" +:+ str (fst entry) +:+ "' must be at least 1")
  | None => OkStatus
  end.

Definition Constraints_Validate (c : ConstraintSet) : Status :=
  check! RequireSortedUnique (excluded_nodes c) "excluded_nodes" ;;
  check! RequireSortedUnique (excluded_ports c) "excluded_ports" ;;
  check! RequireSortedUnique (excluded_spans c) "excluded_spans" ;;
  check! RequireSortedUnique (excluded_cross_connects c) "excluded_cross_connects" ;;
  check! RequireSortedUnique (excluded_failure_domains c) "excluded_failure_domains" ;;
  check! (if kMaxDomainMemberLimits <? size (max_members_per_failure_domain c) then
            Failure StatusCode.LimitExceeded "max_members_per_failure_domain exceeds the maximum number of entries"
          else OkStatus) ;;
  check! member_limits_positive (max_members_per_failure_domain c) ;;
  check! (if bool_decide (max_total_span_count c = Some 0) then
            Failure StatusCode.InvalidArgument "max_total_span_count must be at least 1"
          else OkStatus) ;;
  check! ValidateOptionalNonNegative (max_total_loss_db c) "max_total_loss_db" ;;
  ValidateOptionalNonNegative (min_segment_osnr_db c) "min_segment_osnr_db".

Definition kRequestFormatVersion : Z := 1.

Record PlanningRequest := MkRequest {
  format_version : Z;
  q_id : RequestId;
  q_source : PortKey;
  q_destination : PortKey;
  channel_width_slots : Z;
  max_candidates : Z;
  max_regenerations : Z;
  max_hops : Z;
  max_total_cost : option Z;
  q_disjointness : Disjointness.t;
  constraints : ConstraintSet;
  required_source_generations : list (SourceId * Generation);
  required_snapshot_generation : option Generation;
  expected_snapshot_digest : option Digest256;
  accept_restored_evidence : bool;
  max_search_expansions : Z;
  max_search_labels : Z;
}.

(** A request with the default of every field but its name and its ends. *)
Definition default_request (id : RequestId) (source destination : PortKey) : PlanningRequest :=
  MkRequest kRequestFormatVersion id source destination 1 1 kDefaultMaxRegenerations kDefaultMaxHops None
    Disjointness.None default_constraints [] None None false kDefaultSearchExpansions kDefaultSearchLabels.

(** [require ok failure]: the guard [if (!ok) return failure]. *)
Definition require (ok : bool) (code : StatusCode.t) (detail : string) : Status :=
  if ok then OkStatus else Failure code detail.

Definition Request_Validate (r : PlanningRequest) : Status :=
  check! require (format_version r =? kRequestFormatVersion) StatusCode.Unsupported
           ("request format revision " +:+ to_string (format_version r) +:+ " is not supported") ;;
  check! require (negb (id_empty (q_id r))) StatusCode.InvalidArgument "request id must not be empty" ;;
  check! require (negb (id_empty (node (q_source r)) || id_empty (port (q_source r)))) StatusCode.InvalidArgument
           "source must name both a node and a port" ;;
  check! require (negb (id_empty (node (q_destination r)) || id_empty (port (q_destination r))))
           StatusCode.InvalidArgument "destination must name both a node and a port" ;;
  check! require (negb (bool_decide (q_source r = q_destination r))) StatusCode.InvalidArgument
           "source and destination must differ" ;;
  check! require (negb (channel_width_slots r =? 0)) StatusCode.InvalidArgument
           "channel width must be at least one slot" ;;
  check! require (channel_width_slots r <=? kMaxSpectrumSlots) StatusCode.InvalidArgument
           "channel width exceeds the supported spectrum capacity" ;;
  check! require (negb (max_candidates r =? 0)) StatusCode.InvalidArgument "max_candidates must be at least 1" ;;
  check! require (max_candidates r <=? kMaxCandidates) StatusCode.LimitExceeded
           ("max_candidates exceeds the supported maximum of " +:+ to_string kMaxCandidates) ;;
  check! require (max_regenerations r <=? kMaxRequestedRegenerations) StatusCode.LimitExceeded
           "max_regenerations exceeds the supported maximum" ;;
  check! require (negb (max_hops r =? 0)) StatusCode.InvalidArgument "max_hops must be at least 1" ;;
  check! require (max_hops r <=? kMaxRequestedHops) StatusCode.LimitExceeded
           "max_hops exceeds the supported maximum" ;;
  check! require (negb ((max_search_expansions r =? 0) || (kMaxSearchExpansionsCeiling <? max_search_expansions r)))
           StatusCode.LimitExceeded "max_search_expansions must be within the supported range" ;;
  check! require (negb ((max_search_labels r =? 0) || (kMaxSearchLabelsCeiling <? max_search_labels r)))
           StatusCode.LimitExceeded "max_search_labels must be within the supported range" ;;
  check! require (size (required_source_generations r) <=? kMaxRequiredGenerations) StatusCode.LimitExceeded
           "required_source_generations exceeds the supported number of entries" ;;
  check! Constraints_Validate (constraints r) ;;
  check! require (negb (require_spectrum_continuity_across_regeneration (constraints r))) StatusCode.Unsupported
           ("this model restarts the transparent segment at a regeneration, so spectrum continuity " +:+
            "across a regeneration cannot be required") ;;
  require (negb (allow_repeated_resources (constraints r))) StatusCode.Unsupported
    ("this model restricts a candidate to a resource-simple route; repeated resources are not " +:+ "modelled").

(** ** Canonical text and digest *)

Definition kRequestMagic : string := "OPP-REQUEST".
Definition kRequestDigestDomain : string := "OPP-REQUEST-v1".

Definition bool_token (b : bool) : string := if b then "true" else "false".

(** One line, with the tokens or the number it carries. *)
Definition token_line (record : string) (tokens : list string) : string :=
  fold_left Line_Add tokens (Line_Begin record).
Definition u64_line (record : string) (v : Z) : string := Line_AddU64 (Line_Begin record) v.
Definition optional_line {A} (line : A -> string) (o : option A) : list string :=
  match o with Some v => [line v] | None => [] end.

Section text.
Context `{Platform}.

Definition double_line (record : string) (v : double) : string := Line_AddDouble (Line_Begin record) v.

Definition constraint_lines (c : ConstraintSet) : list string :=
  map (fun id => token_line "exclude-node" [str id]) (excluded_nodes c) ++
  map (fun key => token_line "exclude-port" [str (node key); str (port key)]) (excluded_ports c) ++
  map (fun id => token_line "exclude-span" [str id]) (excluded_spans c) ++
  map (fun id => token_line "exclude-crossconnect" [str id]) (excluded_cross_connects c) ++
  map (fun id => token_line "exclude-domain" [str id]) (excluded_failure_domains c) ++
  map (fun entry => Line_AddU32 (token_line "domain-limit" [str (fst entry)]) (snd entry))
    (max_members_per_failure_domain c) ++
  optional_line (u64_line "max-distance") (max_total_distance_m c) ++
  optional_line (u64_line "max-spans") (max_total_span_count c) ++
  optional_line (double_line "max-loss") (max_total_loss_db c) ++
  optional_line (double_line "min-osnr") (min_segment_osnr_db c) ++
  [token_line "allow-regeneration" [bool_token (allow_regeneration c)];
   token_line "allow-conversion" [bool_token (allow_wavelength_conversion c)];
   token_line "require-spectrum-continuity-across-regeneration"
     [bool_token (require_spectrum_continuity_across_regeneration c)];
   token_line "allow-repeated-resources" [bool_token (allow_repeated_resources c)]].

Definition request_lines (r : PlanningRequest) : list string :=
  [kRequestMagic +:+ " " +:+ FormatU32 kRequestFormatVersion;
   token_line "id" [str (q_id r)];
   token_line "source" [str (node (q_source r)); str (port (q_source r))];
   token_line "destination" [str (node (q_destination r)); str (port (q_destination r))];
   u64_line "width" (channel_width_slots r);
   u64_line "candidates" (max_candidates r);
   u64_line "regenerations" (max_regenerations r);
   u64_line "hops" (max_hops r)] ++
  optional_line (u64_line "cost") (max_total_cost r) ++
  [token_line "disjointness" [DisjointnessName (q_disjointness r)];
   token_line "accept-restored-evidence" [bool_token (accept_restored_evidence r)];
   u64_line "search-expansions" (max_search_expansions r);
   u64_line "search-labels" (max_search_labels r)] ++
  map (fun entry => Line_AddU64 (token_line "srcgen" [str (fst entry)]) (snd entry)) (required_source_generations r) ++
  optional_line (u64_line "snapshot-generation") (required_snapshot_generation r) ++
  optional_line (fun d => token_line "snapshot-digest" [Digest_ToHex d]) (expected_snapshot_digest r) ++
  constraint_lines (constraints r).

Definition RequestToText (r : PlanningRequest) : string := text_of_lines (request_lines r).

Definition ComputeRequestDigest `{Hasher} (r : PlanningRequest) : Digest256 :=
  hash_pieces [kRequestDigestDomain; newline; RequestToText r].

Definition RequestCanonicalBytes (r : PlanningRequest) : string := RequestToText r.
End text.

(** ** Lemmas and theorems: what validation accepts *)

Lemma check_ok (s k : Status) :
  failed (check! s ;; k) = false <-> failed s = false /\ failed k = false.
Proof. cbv zeta. destruct (failed s) eqn:E; [rewrite E|]; naive_solver. Qed.

Lemma require_ok b c detail : c <> StatusCode.Ok -> failed (require b c detail) = false <-> b = true.
Proof.
  intros Hc. destruct b; [done|]. unfold require, failed, status_ok. simpl.
  by rewrite bool_decide_eq_false_2.
Qed.

Lemma has_adjacent_sorted {A} `{Ordered A, EqDecision A} (l : list A) :
  StronglySorted (key_le (fun x : A => x)) l -> has_adjacent eqb_of l = false <-> List.NoDup l.
Proof.
  induction 1 as [|x l Hl IH Hx]; [split; [constructor|done]|].
  destruct l as [|y l]; [split; [by repeat constructor; intros []|done]|].
  cbn [has_adjacent]. rewrite orb_false_iff, IH. unfold eqb_of. rewrite bool_decide_eq_false. split.
  - intros [Hxy Hnd]. constructor; [|done]. intros [->|Hin]; [done|].
    inversion_clear Hl as [|? ? _ Hy]. rewrite List.Forall_forall in Hx, Hy.
    specialize (Hx y (or_introl eq_refl)). specialize (Hy x Hin). unfold key_le in *.
    apply Hxy. by apply ltb_total.
  - intros Hnd. inversion_clear Hnd as [|? ? Hni Hnd']. split; [|done]. intros ->. apply Hni. by left.
Qed.

Lemma RequireSortedUnique_ok {A} `{Ordered A, EqDecision A} (l : list A) what :
  failed (RequireSortedUnique l what) = false <-> size l <= kMaxExclusionEntries /\ List.NoDup l.
Proof.
  unfold RequireSortedUnique. destruct (Z.ltb_spec kMaxExclusionEntries (size l)) as [|Hs].
  { split; [done|lia]. }
  assert (has_adjacent eqb_of (sort l) = false <-> List.NoDup l) as E.
  { rewrite has_adjacent_sorted by apply sort_sorted.
    split; apply Permutation_NoDup; [|symmetry]; apply sort_by_perm. }
  destruct (has_adjacent eqb_of (sort l)); [naive_solver|]. split; [|done]. intros _. split; [done|]. by apply E.
Qed.

Definition loss_in_range (v : option double) : Prop :=
  match v with Some x => dge x d0 = true /\ dgt x d1e9 = false | None => True end.

Lemma ValidateOptionalNonNegative_ok v what :
  failed (ValidateOptionalNonNegative v what) = false <-> loss_in_range v.
Proof. destruct v as [x|]; [|done]. simpl. destruct (dge x d0), (dgt x d1e9); simpl; naive_solver. Qed.

Lemma member_limits_ok limits :
  failed (member_limits_positive limits) = false <-> forall d n, In (d, n) limits -> n <> 0.
Proof.
  unfold member_limits_positive. destruct (List.find _ limits) as [[d n]|] eqn:E.
  - apply List.find_some in E as [Hin Hz]. simpl in Hz. split; [done|]. intros Hall. exfalso.
    apply (Hall _ _ Hin). lia.
  - split; [|done]. intros _ d n Hin. pose proof (List.find_none _ _ E _ Hin) as Hz. simpl in Hz. lia.
Qed.

(** The constraint sets that validation accepts. *)
Record valid_constraints (c : ConstraintSet) : Prop := {
  valid_nodes : size (excluded_nodes c) <= kMaxExclusionEntries /\ List.NoDup (excluded_nodes c);
  valid_ports : size (excluded_ports c) <= kMaxExclusionEntries /\ List.NoDup (excluded_ports c);
  valid_spans : size (excluded_spans c) <= kMaxExclusionEntries /\ List.NoDup (excluded_spans c);
  valid_cross_connects : size (excluded_cross_connects c) <= kMaxExclusionEntries /\
    List.NoDup (excluded_cross_connects c);
  valid_domains : size (excluded_failure_domains c) <= kMaxExclusionEntries /\
    List.NoDup (excluded_failure_domains c);
  valid_limits : size (max_members_per_failure_domain c) <= kMaxDomainMemberLimits /\
    forall d n, In (d, n) (max_members_per_failure_domain c) -> n <> 0;
  valid_spans_ceiling : max_total_span_count c <> Some 0;
  valid_loss_ceiling : loss_in_range (max_total_loss_db c);
  valid_osnr_floor : loss_in_range (min_segment_osnr_db c);
}.

Lemma Constraints_Validate_ok c : failed (Constraints_Validate c) = false <-> valid_constraints c.
Proof.
  unfold Constraints_Validate. rewrite !check_ok, !RequireSortedUnique_ok, !ValidateOptionalNonNegative_ok,
    member_limits_ok.
  assert (failed (if kMaxDomainMemberLimits <? size (max_members_per_failure_domain c) then
            Failure StatusCode.LimitExceeded "max_members_per_failure_domain exceeds the maximum number of entries"
          else OkStatus) = false <-> size (max_members_per_failure_domain c) <= kMaxDomainMemberLimits) as ->.
  { destruct (Z.ltb_spec kMaxDomainMemberLimits (size (max_members_per_failure_domain c))); split; try done; lia. }
  assert (failed (if bool_decide (max_total_span_count c = Some 0) then
            Failure StatusCode.InvalidArgument "max_total_span_count must be at least 1"
          else OkStatus) = false <-> max_total_span_count c <> Some 0) as ->.
  { case_bool_decide; naive_solver. }
  split.
  - intros (?&?&?&?&?&?&?&?&?&?). split; auto.
  - intros []. naive_solver.
Qed.

(** The requests that validation accepts, of fields at their machine width. *)
Record valid_request (r : PlanningRequest) : Prop := {
  valid_version : format_version r = kRequestFormatVersion;
  valid_id : str (q_id r) <> "";
  valid_source : str (node (q_source r)) <> "" /\ str (port (q_source r)) <> "";
  valid_destination : str (node (q_destination r)) <> "" /\ str (port (q_destination r)) <> "";
  valid_ends : q_source r <> q_destination r;
  valid_width : channel_width_slots r <> 0 /\ channel_width_slots r <= kMaxSpectrumSlots;
  valid_candidates : max_candidates r <> 0 /\ max_candidates r <= kMaxCandidates;
  valid_regenerations : max_regenerations r <= kMaxRequestedRegenerations;
  valid_hops : max_hops r <> 0 /\ max_hops r <= kMaxRequestedHops;
  valid_expansions : max_search_expansions r <> 0 /\ max_search_expansions r <= kMaxSearchExpansionsCeiling;
  valid_labels : max_search_labels r <> 0 /\ max_search_labels r <= kMaxSearchLabelsCeiling;
  valid_generations : size (required_source_generations r) <= kMaxRequiredGenerations;
  valid_constraint_set : valid_constraints (constraints r);
  valid_continuity : require_spectrum_continuity_across_regeneration (constraints r) = false;
  valid_simple : allow_repeated_resources (constraints r) = false;
}.

Lemma Request_Validate_ok (r : PlanningRequest) : failed (Request_Validate r) = false <-> valid_request r.
Proof.
  unfold Request_Validate. rewrite !check_ok, Constraints_Validate_ok, !require_ok by done.
  unfold id_empty.
  rewrite !negb_true_iff, !orb_false_iff, !bool_decide_eq_false, !Z.leb_le, !Z.eqb_neq, !Z.ltb_ge, !Z.eqb_eq.
  split.
  - intros (?&?&?&?&?&?&?&?&?&?&?&?&?&?&?&?&?&?). split; auto.
  - intros []. naive_solver.
Qed.

(** Validation accepts exactly the well-formed requests.  A request passes
    [PlanningRequest::Validate] when, and only when, every named bound holds,
    the two ends are named and differ, no exclusion is listed twice, every
    limit is positive, and no semantics the model does not implement is asked
    for. *)
Theorem Request_Validate_spec (r : PlanningRequest) : failed (Request_Validate r) = false <-> valid_request r.
Proof. apply Request_Validate_ok. Qed.
