(* ===== verification/Outcome.v ===== *)
(** * Outcome: the vocabulary of planning results

    The enumerations and small records of [include/opp/result.hpp], with their
    names from [src/result.cpp]: outcomes, cut reasons, limitation bits,
    witnesses, cut counts and statistics.  The result envelope itself is in
    [Result]. *)

From S2P Require Import Prelude Status Ids Topology.

Module PlanOutcome.
Inductive t := Feasible | Infeasible | Indeterminate | Unsupported | Cancelled | Refused.
#[global] Instance eq_dec : EqDecision t.
Proof. solve_decision. Defined.
End PlanOutcome.

Definition PlanOutcomeName (o : PlanOutcome.t) : string :=
  match o with
  | PlanOutcome.Feasible => "FEASIBLE"
  | PlanOutcome.Infeasible => "INFEASIBLE"
  | PlanOutcome.Indeterminate => "INDETERMINATE"
  | PlanOutcome.Unsupported => "UNSUPPORTED"
  | PlanOutcome.Cancelled => "CANCELLED"
  | PlanOutcome.Refused => "REFUSED"
  end.

Module CutReason.
Inductive t :=
| None | SourceAbsent | DestinationAbsent | SourceAdminDown | DestinationAdminDown | NodeExcluded |
PortExcluded | SpanExcluded | FailureDomainExcluded | FailureDomainMemberLimit | SpanAdminDown |
CrossConnectAdminDown | NoOutgoingArc | PortSpectrumEmpty | SegmentProfileAbsent |
SegmentProfileUnknown | ReachDistanceExceeded | ReachSpanCountExceeded | ReachLossExceeded |
ReachOsnrBelowMinimum | TotalDistanceExceeded | TotalSpanCountExceeded | TotalLossExceeded |
RegenerationNotAllowed | RegenerationLimitExceeded | ConversionNotAllowed | HopLimitExceeded |
CostLimitExceeded | LoopPrevented | Dominated | UnresolvedReference | SearchTruncated |
UnknownQualityField | UnknownSpectrum | ConflictingEvidence | PartialCoverage |
TransmitProfileUnknown.
#[global] Instance eq_dec : EqDecision t.
Proof. solve_decision. Defined.
End CutReason.

(** [CutSlot]: the value of the enumerator. *)
Definition CutSlot (r : CutReason.t) : nat :=
  match r with
  | CutReason.None => 0
  | CutReason.SourceAbsent => 1
  | CutReason.DestinationAbsent => 2
  | CutReason.SourceAdminDown => 3
  | CutReason.DestinationAdminDown => 4
  | CutReason.NodeExcluded => 5
  | CutReason.PortExcluded => 6
  | CutReason.SpanExcluded => 7
  | CutReason.FailureDomainExcluded => 8
  | CutReason.FailureDomainMemberLimit => 9
  | CutReason.SpanAdminDown => 10
  | CutReason.CrossConnectAdminDown => 11
  | CutReason.NoOutgoingArc => 12
  | CutReason.PortSpectrumEmpty => 13
  | CutReason.SegmentProfileAbsent => 14
  | CutReason.SegmentProfileUnknown => 15
  | CutReason.ReachDistanceExceeded => 16
  | CutReason.ReachSpanCountExceeded => 17
  | CutReason.ReachLossExceeded => 18
  | CutReason.ReachOsnrBelowMinimum => 19
  | CutReason.TotalDistanceExceeded => 20
  | CutReason.TotalSpanCountExceeded => 21
  | CutReason.TotalLossExceeded => 22
  | CutReason.RegenerationNotAllowed => 23
  | CutReason.RegenerationLimitExceeded => 24
  | CutReason.ConversionNotAllowed => 25
  | CutReason.HopLimitExceeded => 26
  | CutReason.CostLimitExceeded => 27
  | CutReason.LoopPrevented => 28
  | CutReason.Dominated => 29
  | CutReason.UnresolvedReference => 30
  | CutReason.SearchTruncated => 31
  | CutReason.UnknownQualityField => 32
  | CutReason.UnknownSpectrum => 33
  | CutReason.ConflictingEvidence => 34
  | CutReason.PartialCoverage => 35
  | CutReason.TransmitProfileUnknown => 36
  end.

Definition CutReasonName (r : CutReason.t) : string :=
  match r with
  | CutReason.None => "none"
  | CutReason.SourceAbsent => "source_absent"
  | CutReason.DestinationAbsent => "destination_absent"
  | CutReason.SourceAdminDown => "source_admin_down"
  | CutReason.DestinationAdminDown => "destination_admin_down"
  | CutReason.NodeExcluded => "node_excluded"
  | CutReason.PortExcluded => "port_excluded"
  | CutReason.SpanExcluded => "span_excluded"
  | CutReason.FailureDomainExcluded => "failure_domain_excluded"
  | CutReason.FailureDomainMemberLimit => "failure_domain_member_limit"
  | CutReason.SpanAdminDown => "span_admin_down"
  | CutReason.CrossConnectAdminDown => "crossconnect_admin_down"
  | CutReason.NoOutgoingArc => "no_outgoing_arc"
  | CutReason.PortSpectrumEmpty => "port_spectrum_empty"
  | CutReason.SegmentProfileAbsent => "segment_profile_absent"
  | CutReason.SegmentProfileUnknown => "segment_profile_unknown"
  | CutReason.ReachDistanceExceeded => "reach_distance_exceeded"
  | CutReason.ReachSpanCountExceeded => "reach_span_count_exceeded"
  | CutReason.ReachLossExceeded => "reach_loss_exceeded"
  | CutReason.ReachOsnrBelowMinimum => "reach_osnr_below_minimum"
  | CutReason.TotalDistanceExceeded => "total_distance_exceeded"
  | CutReason.TotalSpanCountExceeded => "total_span_count_exceeded"
  | CutReason.TotalLossExceeded => "total_loss_exceeded"
  | CutReason.RegenerationNotAllowed => "regeneration_not_allowed"
  | CutReason.RegenerationLimitExceeded => "regeneration_limit_exceeded"
  | CutReason.ConversionNotAllowed => "conversion_not_allowed"
  | CutReason.HopLimitExceeded => "hop_limit_exceeded"
  | CutReason.CostLimitExceeded => "cost_limit_exceeded"
  | CutReason.LoopPrevented => "loop_prevented"
  | CutReason.Dominated => "dominated"
  | CutReason.UnresolvedReference => "unresolved_reference"
  | CutReason.SearchTruncated => "search_truncated"
  | CutReason.UnknownQualityField => "unknown_quality_field"
  | CutReason.UnknownSpectrum => "unknown_spectrum"
  | CutReason.ConflictingEvidence => "conflicting_evidence"
  | CutReason.PartialCoverage => "partial_coverage"
  | CutReason.TransmitProfileUnknown => "transmit_profile_unknown"
  end.

Definition kCutReasons : list CutReason.t :=
  [CutReason.None; CutReason.SourceAbsent; CutReason.DestinationAbsent; CutReason.SourceAdminDown;
   CutReason.DestinationAdminDown; CutReason.NodeExcluded; CutReason.PortExcluded; CutReason.SpanExcluded;
   CutReason.FailureDomainExcluded; CutReason.FailureDomainMemberLimit; CutReason.SpanAdminDown; CutReason.CrossConnectAdminDown;
   CutReason.NoOutgoingArc; CutReason.PortSpectrumEmpty; CutReason.SegmentProfileAbsent; CutReason.SegmentProfileUnknown;
   CutReason.ReachDistanceExceeded; CutReason.ReachSpanCountExceeded; CutReason.ReachLossExceeded; CutReason.ReachOsnrBelowMinimum;
   CutReason.TotalDistanceExceeded; CutReason.TotalSpanCountExceeded; CutReason.TotalLossExceeded; CutReason.RegenerationNotAllowed;
   CutReason.RegenerationLimitExceeded; CutReason.ConversionNotAllowed; CutReason.HopLimitExceeded; CutReason.CostLimitExceeded;
   CutReason.LoopPrevented; CutReason.Dominated; CutReason.UnresolvedReference; CutReason.SearchTruncated;
   CutReason.UnknownQualityField; CutReason.UnknownSpectrum; CutReason.ConflictingEvidence; CutReason.PartialCoverage;
   CutReason.TransmitProfileUnknown].

Definition kCutReasonCount : nat := S (CutSlot CutReason.TransmitProfileUnknown).

Definition FindCutReasonByName (name : string) : option CutReason.t :=
  List.find (fun r => String.eqb (CutReasonName r) name) kCutReasons.

(** ** Limitation bits *)

Definition kLimitationNone : Z := 0.
Definition kLimitationUnknownAdjacency : Z := 1.
Definition kLimitationUnknownQualityField : Z := 2.
Definition kLimitationUnknownSpectrum : Z := 4.
Definition kLimitationConflictingEvidence : Z := 8.
Definition kLimitationStaleEvidence : Z := 16.
Definition kLimitationRestoredEvidence : Z := 32.
Definition kLimitationSearchTruncated : Z := 64.
Definition kLimitationUnresolvedReference : Z := 128.
Definition kLimitationDisjointnessGreedy : Z := 256.
Definition kLimitationOptimalityNotProven : Z := 512.

Definition kLimitationNames : list (Z * string) :=
  [(kLimitationUnknownAdjacency, "unknown_adjacency");
   (kLimitationUnknownQualityField, "unknown_quality_field");
   (kLimitationUnknownSpectrum, "unknown_spectrum");
   (kLimitationConflictingEvidence, "conflicting_evidence");
   (kLimitationStaleEvidence, "stale_evidence");
   (kLimitationRestoredEvidence, "restored_evidence");
   (kLimitationSearchTruncated, "search_truncated");
   (kLimitationUnresolvedReference, "unresolved_reference");
   (kLimitationDisjointnessGreedy, "disjointness_greedy");
   (kLimitationOptimalityNotProven, "optimality_not_proven")].

(** The names of the bits set, separated by commas; [none] when none is. *)
Definition describe_bits (table : list (Z * string)) (bits : Z) : string :=
  let names := map snd (List.filter (fun entry => negb (Z.land bits (fst entry) =? 0)) table) in
  match names with [] => "none" | _ => String.concat "," names end.

Definition DescribeLimitations (limitations : Z) : string := describe_bits kLimitationNames limitations.

Record Witness := MkWitness { w_reason : CutReason.t; w_resource : ResourceKey; w_detail : string }.
Record CutCount := MkCutCount { c_reason : CutReason.t; c_count : Z }.

#[export] Instance Witness_eq_dec : EqDecision Witness.
Proof. solve_decision. Defined.
#[export] Instance CutCount_eq_dec : EqDecision CutCount.
Proof. solve_decision. Defined.

Record PlanningStatistics := MkStatistics {
  labels_created : Z;
  labels_expanded : Z;
  labels_dominated : Z;
  peak_frontier : Z;
  arcs_examined : Z;
  states_visited : Z;
  st_truncated : bool;
}.

Definition no_statistics : PlanningStatistics := MkStatistics 0 0 0 0 0 0 false.

(** ** Eligibility bits ([include/opp/plan.hpp]) *)

Definition kReasonAdminUp : Z := 1.
Definition kReasonNotExcluded : Z := 2.
Definition kReasonPortAdmitted : Z := 4.
Definition kReasonSpectrumAvailable : Z := 8.
Definition kReasonWithinReachDistance : Z := 16.
Definition kReasonWithinReachSpans : Z := 32.
Definition kReasonWithinReachLoss : Z := 64.
Definition kReasonWithinReachOsnr : Z := 128.
Definition kReasonRegenerationBoundary : Z := 256.
Definition kReasonWavelengthConversion : Z := 512.
Definition kReasonFailureDomainWithinLimit : Z := 1024.
Definition kReasonSourceEvidencePresent : Z := 2048.
Definition kReasonSegmentStart : Z := 4096.
Definition kReasonTransmitProfileKnown : Z := 8192.

(** ** Names read back *)

Lemma FindCutReasonByName_Name (r : CutReason.t) : FindCutReasonByName (CutReasonName r) = Some r.
Proof. by destruct r. Qed.

Lemma CutSlot_inj (r s : CutReason.t) : CutSlot r = CutSlot s -> r = s.
Proof. destruct r; destruct s; by intros [=]. Qed.

Lemma CutSlot_lt (r : CutReason.t) : (CutSlot r < kCutReasonCount)%nat.
Proof. destruct r; unfold kCutReasonCount; simpl; lia. Qed.
