(* ===== verification/SearchFacts.v ===== *)
(** * SearchFacts: what the search reads, and its labels

    [src/search.hpp] and lines 18-462 of [src/search.cpp]: the facts prepared
    once per search, the labels and their parent chains, the frontier order, the
    dominance test and the failure-domain count.  A vector index is a natural
    number and [kNoIndex] is [None]; a pair (value, value_known) is an option. *)

From S2P Require Import Prelude Status Ids Doubles Spectrum Canonical Topology Request Outcome.

(** ** Facts about a resource *)

Module Fact.
Inductive t := Good | Blocked | Missing.
#[global] Instance eq_dec : EqDecision t.
Proof. solve_decision. Defined.
End Fact.

Definition ClassifyAdmin (admin : Evidence AdminState.t) : Fact.t :=
  match admin with
  | Known s => if bool_decide (s = AdminState.Up) then Fact.Good else Fact.Blocked
  | _ => Fact.Missing
  end.

Record PortInfo := MkPortInfo {
  pi_base_mask : SlotMask;
  pi_mask_known : bool;
  pi_admin : Fact.t;
  pi_conflicting : bool;
  pi_partial_coverage : bool;
  pi_unresolved_arcs : bool;
  pi_transmit : Fact.t;
  pi_transmit_absent : bool;
  pi_profile_index : option nat;
  pi_node_index : option nat;
}.

Record SpanInfo := MkSpanInfo {
  si_length_m : option Z;
  si_loss_db : option double;
  si_osnr_db : option double;
  si_base_mask : SlotMask;
  si_mask_known : bool;
  si_admin : Fact.t;
  si_conflicting : bool;
  si_cost : Z;
  si_domains : list FailureDomainId;
}.

Record CrossConnectInfo := MkCrossConnectInfo {
  xi_base_mask : SlotMask;
  xi_mask_known : bool;
  xi_admin : Fact.t;
  xi_conflicting : bool;
  xi_cost : Z;
  xi_op : CrossConnectOp.t;
  xi_to_port : option nat;
  xi_domains : list FailureDomainId;
}.

Record ProfileInfo := MkProfileInfo {
  fi_max_distance_m : option Z;
  fi_max_span_count : option Z;
  fi_max_loss_db : option double;
  fi_min_osnr_db : option double;
}.

Definition published {A} (e : Evidence A) : option A := match e with Known v => Some v | _ => None end.

(** The starts of the runs of [width] free slots; the whole model when the
    blocked set is not published. *)
Definition base_mask (model : SpectrumModel) (width : Z) (blocked : Evidence SlotMask) : SlotMask :=
  match blocked with
  | Known b => FirstSlotMask (usable_slots (slot_count model) b) width
  | _ => FirstSlotMask (mask_All (slot_count model)) width
  end.

Definition port_facts (t : TopologySnapshot) (width : Z) (i : nat) (r : PortRecord) : PortInfo :=
  let node_index := find_by_key n_id (node (p_key r)) (t_nodes t) in
  let owner := node_index ≫= fun n => t_nodes t !! n in
  let profile_index := match p_transmit_profile r with
                       | Known (Some id) => find_by_key r_id id (t_profiles t)
                       | _ => None
                       end in
  MkPortInfo (base_mask (t_spectrum t) width (p_blocked_slots r)) (HasValue (p_blocked_slots r))
    (ClassifyAdmin (p_admin r))
    (IsConflicted t (ForPort (p_key r)) ||
     match owner with Some n => IsConflicted t (ForNode (n_id n)) | None => false end)
    (match owner with Some n => negb (bool_decide (n_coverage n = Coverage.Complete)) | None => true end)
    (HasUnresolvedArcs t i)
    (match profile_index with Some _ => Fact.Good | None => Fact.Missing end)
    (match p_transmit_profile r with Known None => true | _ => false end)
    profile_index node_index.

Definition span_facts (t : TopologySnapshot) (width : Z) (r : SpanRecord) : SpanInfo :=
  MkSpanInfo (published (s_length_m r)) (published (s_loss_db r)) (published (s_osnr_db r))
    (base_mask (t_spectrum t) width (s_blocked_slots r)) (HasValue (s_blocked_slots r))
    (ClassifyAdmin (s_admin r)) (IsConflicted t (ForSpan (s_id r))) (s_cost r) (s_failure_domains r).

Definition cross_connect_facts (t : TopologySnapshot) (width : Z) (r : CrossConnectRecord) : CrossConnectInfo :=
  MkCrossConnectInfo (base_mask (t_spectrum t) width (x_blocked_slots r)) (HasValue (x_blocked_slots r))
    (ClassifyAdmin (x_admin r)) (IsConflicted t (ForCrossConnect (x_id r))) (x_cost r) (x_op r)
    (PortIndex t (x_to r)) (x_failure_domains r).

Definition profile_facts (r : ReachProfile) : ProfileInfo :=
  MkProfileInfo (published (r_max_distance_m r)) (published (r_max_span_count r)) (published (r_max_loss_db r))
    (published (r_min_osnr_db r)).

(** The indexed reads of the code.  An index out of range is never read on a
    well-formed snapshot; the value then answered is arbitrary. *)

#[export] Instance StrongId_inhabited t : Inhabited (StrongId t) := populate (MkId "").
#[export] Instance PortKey_inhabited : Inhabited PortKey := populate (MkPortKey (MkId "") (MkId "")).
#[export] Instance NodeRecord_inhabited : Inhabited NodeRecord :=
  populate (MkNode (MkId "") NodeKind.Terminal [] 0 Coverage.Complete Unknown (MkId "") 0).
#[export] Instance PortRecord_inhabited : Inhabited PortRecord :=
  populate (MkPort inhabitant PortRole.Line Unknown Unknown [] 0 Unknown (MkId "") 0).
#[export] Instance SpanRecord_inhabited : Inhabited SpanRecord :=
  populate (MkSpan (MkId "") inhabitant inhabitant true Unknown Unknown Unknown Unknown [] 0 Unknown (MkId "") 0).
#[export] Instance CrossConnectRecord_inhabited : Inhabited CrossConnectRecord :=
  populate (MkCrossConnect (MkId "") inhabitant inhabitant CrossConnectOp.Express Unknown [] 0 Unknown (MkId "") 0).
#[export] Instance ReachProfile_inhabited : Inhabited ReachProfile :=
  populate (MkProfile (MkId "") Unknown Unknown Unknown Unknown (MkId "") 0).

(** Everything the search prepares before its loop. *)
Record Env := MkEnv {
  e_snapshot : TopologySnapshot;
  e_request : PlanningRequest;
  e_excluded_nodes : list NodeId;
  e_excluded_ports : list PortKey;
  e_excluded_spans : list SpanId;
  e_excluded_cross_connects : list CrossConnectId;
  e_excluded_domains : list FailureDomainId;
  e_port_info : list PortInfo;
  e_span_info : list SpanInfo;
  e_cross_connect_info : list CrossConnectInfo;
  e_profile_info : list ProfileInfo;
}.

Definition make_env (t : TopologySnapshot) (r : PlanningRequest) : Env :=
  let c := constraints r in
  let width := channel_width_slots r in
  MkEnv t r (sort (excluded_nodes c)) (sort (excluded_ports c)) (sort (excluded_spans c))
    (sort (excluded_cross_connects c)) (sort (excluded_failure_domains c))
    (imap (port_facts t width) (t_ports t)) (map (span_facts t width) (t_spans t))
    (map (cross_connect_facts t width) (t_cross_connects t)) (map profile_facts (t_profiles t)).

Definition dummy_port_info : PortInfo :=
  MkPortInfo mask_None false Fact.Missing false false false Fact.Missing false None None.
Definition dummy_span_info : SpanInfo := MkSpanInfo None None None mask_None false Fact.Missing false 0 [].
Definition dummy_cross_connect_info : CrossConnectInfo :=
  MkCrossConnectInfo mask_None false Fact.Missing false 0 CrossConnectOp.Express None [].
Definition dummy_profile_info : ProfileInfo := MkProfileInfo None None None None.

Definition at_or {A} (d : A) (l : list A) (i : nat) : A := match l !! i with Some x => x | None => d end.

Definition port_info (e : Env) (i : nat) : PortInfo := at_or dummy_port_info (e_port_info e) i.
Definition span_info (e : Env) (i : nat) : SpanInfo := at_or dummy_span_info (e_span_info e) i.
Definition cross_connect_info (e : Env) (i : nat) : CrossConnectInfo :=
  at_or dummy_cross_connect_info (e_cross_connect_info e) i.
Definition profile_info (e : Env) (i : nat) : ProfileInfo := at_or dummy_profile_info (e_profile_info e) i.
Definition port_record (e : Env) (i : nat) : PortRecord := t_ports (e_snapshot e) !!! i.
Definition span_record (e : Env) (i : nat) : SpanRecord := t_spans (e_snapshot e) !!! i.
Definition cross_connect_record (e : Env) (i : nat) : CrossConnectRecord := t_cross_connects (e_snapshot e) !!! i.
Definition node_record (e : Env) (i : nat) : NodeRecord := t_nodes (e_snapshot e) !!! i.
Definition profile_record (e : Env) (i : nat) : ReachProfile := t_profiles (e_snapshot e) !!! i.

Section osnr.
Context `{Platform}.
Definition OsnrToInverse (osnr_db : double) : double := pow10 (ddiv (dopp osnr_db) d10).
Definition InverseToOsnr (inverse : double) : double :=
  if dle inverse d0 then d1e9 else dmul (dopp d10) (log10 inverse).
End osnr.

(** ** Labels *)

Module ArcKind.
Inductive t := Span | CrossConnect.
#[global] Instance eq_dec : EqDecision t.
Proof. solve_decision. Defined.
End ArcKind.

Record ArcRef := MkArcRef { a_kind : ArcKind.t; a_index : nat; a_reversed : bool }.

#[export] Instance ArcRef_eq_dec : EqDecision ArcRef.
Proof. solve_decision. Defined.

Record Label := MkLabel {
  l_port : nat;
  l_parent : option nat;
  l_arc : ArcRef;
  l_is_start : bool;
  l_profile : option nat;
  l_mask : SlotMask;
  l_cost : Z;
  l_distance_m : Z;
  l_loss_db : double;
  l_osnr_inverse : double;
  l_span_count : Z;
  l_hops : Z;
  l_regenerations : Z;
  l_reason_bits : Z;
  l_proven : bool;
  l_sequence : Z;
  l_retained : bool;
  l_expanded : bool;
}.

Definition set_sequence (n : Z) (l : Label) : Label :=
  MkLabel (l_port l) (l_parent l) (l_arc l) (l_is_start l) (l_profile l) (l_mask l) (l_cost l) (l_distance_m l)
    (l_loss_db l) (l_osnr_inverse l) (l_span_count l) (l_hops l) (l_regenerations l) (l_reason_bits l) (l_proven l)
    n (l_retained l) (l_expanded l).
Definition set_retained (b : bool) (l : Label) : Label :=
  MkLabel (l_port l) (l_parent l) (l_arc l) (l_is_start l) (l_profile l) (l_mask l) (l_cost l) (l_distance_m l)
    (l_loss_db l) (l_osnr_inverse l) (l_span_count l) (l_hops l) (l_regenerations l) (l_reason_bits l) (l_proven l)
    (l_sequence l) b (l_expanded l).
Definition set_expanded (b : bool) (l : Label) : Label :=
  MkLabel (l_port l) (l_parent l) (l_arc l) (l_is_start l) (l_profile l) (l_mask l) (l_cost l) (l_distance_m l)
    (l_loss_db l) (l_osnr_inverse l) (l_span_count l) (l_hops l) (l_regenerations l) (l_reason_bits l) (l_proven l)
    (l_sequence l) (l_retained l) b.

(** The labels from [i] back to the start, along the parents: what the loops
    [for (cursor = i; ...; cursor = labels[cursor].parent)] visit.  Parents
    precede their children, so [S i] steps reach the start. *)
Fixpoint chain_from (fuel : nat) (labels : list Label) (i : nat) : list Label :=
  match fuel with
  | O => []
  | S f =>
      match labels !! i with
      | None => []
      | Some l => l :: match l_parent l with None => [] | Some p => chain_from f labels p end
      end
  end.
Definition chain (labels : list Label) (i : nat) : list Label := chain_from (S i) labels i.

Definition PortOnPath (labels : list Label) (i : nat) (port_index : nat) : bool :=
  existsb (fun l => (l_port l =? port_index)%nat) (chain labels i).

(** The arcs of a route, from the start. *)
Fixpoint arcs_back (ls : list Label) : list ArcRef :=
  match ls with
  | [] => []
  | l :: rest => if l_is_start l then [] else l_arc l :: arcs_back rest
  end.
Definition path_arcs (labels : list Label) (i : nat) : list ArcRef := rev (arcs_back (chain labels i)).

(** ** Frontier order *)

Record QueueEntry := MkEntry { q_cost : Z; q_hops : Z; q_regenerations : Z; q_sequence : Z; q_label : nat }.

(** [QueueOrder] puts the least (cost, hops, regenerations, sequence) on top. *)
Definition entry_key (q : QueueEntry) : Z * (Z * (Z * Z)) := (q_cost q, (q_hops q, (q_regenerations q, q_sequence q))).

Definition KeyLess (lhs rhs : Z * (Z * Z)) : bool := lhs <o rhs.

(** ** Dominance *)

Definition Dominates (candidate reference : Label) : bool :=
  if negb (l_proven candidate) && l_proven reference then false
  else if l_cost reference <? l_cost candidate then false
  else if l_distance_m reference <? l_distance_m candidate then false
  else if dgt (l_loss_db candidate) (l_loss_db reference) then false
  else if dgt (l_osnr_inverse candidate) (l_osnr_inverse reference) then false
  else if l_span_count reference <? l_span_count candidate then false
  else if l_hops reference <? l_hops candidate then false
  else if l_regenerations reference <? l_regenerations candidate then false
  else mask_IsSubsetOf (l_mask reference) (l_mask candidate).

(** ** Failure domains *)

Definition ContainsSorted {A} `{Ordered A} (values : list A) (value : A) : bool := contains_sorted values value.

Definition DomainsIntersect (domains excluded : list FailureDomainId) : bool :=
  existsb (ContainsSorted excluded) domains.

Section domains.
Context (e : Env).

Definition member (domains : list FailureDomainId) (domain : FailureDomainId) : Z :=
  if ContainsSorted domains domain then 1 else 0.

Definition arc_domains (a : ArcRef) : list FailureDomainId :=
  match a_kind a with
  | ArcKind.Span => si_domains (span_info e (a_index a))
  | ArcKind.CrossConnect => xi_domains (cross_connect_info e (a_index a))
  end.

(** The node of port [i], counted when it differs from the node of [from]. *)
Definition entered_node (i : nat) (from : option nat) (domain : FailureDomainId) : Z :=
  match pi_node_index (port_info e i) with
  | Some n =>
      if bool_decide (Some n = from) then 0 else member (n_failure_domains (node_record e n)) domain
  | None => 0
  end.

(** The members a hop adds: the arc, the port it arrives at, the node entered. *)
Definition hop_members (a : ArcRef) (target from_port : nat) (domain : FailureDomainId) : Z :=
  member (arc_domains a) domain + member (p_failure_domains (port_record e target)) domain +
  entered_node target (pi_node_index (port_info e from_port)) domain.

Definition start_members (start : nat) (domain : FailureDomainId) : Z :=
  member (p_failure_domains (port_record e start)) domain + entered_node start None domain.

Fixpoint count_back (ls : list Label) (domain : FailureDomainId) : Z :=
  match ls with
  | [] => 0
  | l :: rest =>
      if l_is_start l then start_members (l_port l) domain
      else
        match rest with
        | parent :: _ => hop_members (l_arc l) (l_port l) (l_port parent) domain + count_back rest domain
        | [] => 0
        end
  end.

(** [DomainCounter::Count]: the members of the route to label [parent], and of
    one more hop over [a] to [target]. *)
Definition DomainCount (labels : list Label) (parent : nat) (a : ArcRef) (target : nat) (domain : FailureDomainId) : Z :=
  count_back (chain labels parent) domain +
  match labels !! parent with Some l => hop_members a target (l_port l) domain | None => 0 end.

(** [transition_node_cost] *)
Definition transition_node_cost (from_port to_port : nat) : Z :=
  match pi_node_index (port_info e to_port) with
  | Some n => if bool_decide (Some n = pi_node_index (port_info e from_port)) then 0
              else n_transit_cost (node_record e n)
  | None => 0
  end.
End domains.
