(* ===== verification/SearchArcs.v ===== *)
(** * SearchArcs: extending a label over one arc

    Lines 252-266 and 635-1081 of [src/search.cpp].  The body of each expansion
    loop is a computation over a draft: the notes of the search (cut counts,
    witnesses, limitations) and the [proven] and [reason_bits] fields of the
    label being made.  [continue] ends the computation without a label. *)

From S2P Require Import Prelude Status Ids Doubles Spectrum Canonical Topology Request Outcome SearchFacts.

(** ** Notes *)

Record Notes := MkNotes { cut_counts : list Z; note_witnesses : list Witness; note_limitations : Z }.

Definition no_notes : Notes := MkNotes (repeat 0 kCutReasonCount) [] kLimitationNone.

Definition note_cut (r : CutReason.t) (n : Notes) : Notes :=
  MkNotes (alter (fun c => wrap64 (c + 1)) (CutSlot r) (cut_counts n)) (note_witnesses n) (note_limitations n).

Definition note_witness (r : CutReason.t) (resource : ResourceKey) (detail : string) (n : Notes) : Notes :=
  if kMaxWitnessEntries <=? size (note_witnesses n) then n
  else if existsb (fun w => bool_decide (w_reason w = r) && bool_decide (w_resource w = resource)) (note_witnesses n)
  then n
  else MkNotes (cut_counts n) (note_witnesses n ++ [MkWitness r resource detail]) (note_limitations n).

Definition note_limitation (bit : Z) (n : Notes) : Notes :=
  MkNotes (cut_counts n) (note_witnesses n) (Z.lor (note_limitations n) bit).

(** The cut counts reported, by reason. *)
Definition cut_report (n : Notes) : list CutCount :=
  omap (fun r => match cut_counts n !! CutSlot r with
                 | Some c => if c =? 0 then None else Some (MkCutCount r c)
                 | None => None
                 end) kCutReasons.

(** ** Drafts *)

Record Draft := MkDraft { d_notes : Notes; d_proven : bool; d_bits : Z }.

Definition Arc (A : Type) := Draft -> Draft * option A.

Definition arc_ret {A} (x : A) : Arc A := fun d => (d, Some x).
Definition arc_bind {A B} (m : Arc A) (k : A -> Arc B) : Arc B :=
  fun d => match m d with (d', Some x) => k x d' | (d', None) => (d', None) end.

Notation "x <~ m ;; k" := (arc_bind m (fun x => k)) (at level 100, m at next level, right associativity) : opp_scope.
Notation "m >> k" := (arc_bind m (fun _ => k)) (at level 100, right associativity) : opp_scope.

(** [note_cut(r); continue;] *)
Definition cut {A} (r : CutReason.t) : Arc A := fun d => (MkDraft (note_cut r (d_notes d)) (d_proven d) (d_bits d), None).
(** [if (b) { note_cut(r); continue; }] *)
Definition cut_if (b : bool) (r : CutReason.t) : Arc unit := if b then cut r else arc_ret tt.
(** [next.reason_bits |= bits;] *)
Definition mark (bits : Z) : Arc unit := fun d => (MkDraft (d_notes d) (d_proven d) (Z.lor (d_bits d) bits), Some tt).
Definition mark_if (b : bool) (bits : Z) : Arc unit := if b then mark bits else arc_ret tt.
(** [note_limitation(bit); note_witness(...);] *)
Definition remark (bit : Z) (r : CutReason.t) (resource : ResourceKey) (detail : string) : Arc unit :=
  fun d => (MkDraft (note_witness r resource detail (note_limitation bit (d_notes d))) (d_proven d) (d_bits d), Some tt).
(** [next.proven = false;] before the remark. *)
Definition doubt (bit : Z) (r : CutReason.t) (resource : ResourceKey) (detail : string) : Arc unit :=
  fun d => (MkDraft (note_witness r resource detail (note_limitation bit (d_notes d))) false (d_bits d), Some tt).
Definition doubt_if (b : bool) (bit : Z) (r : CutReason.t) (resource : ResourceKey) (detail : string) : Arc unit :=
  if b then doubt bit r resource detail else arc_ret tt.

Definition or_cut {A} (o : option A) (r : CutReason.t) : Arc A := match o with Some x => arc_ret x | None => cut r end.

(** ** Extending a label *)

Section expand.
Context `{Platform} (e : Env) (labels : list Label) (label_index : nat) (current : Label).

Abbreviation request := (e_request e).
Abbreviation limits := (constraints (e_request e)).

(** The three checked additions of the cost of a hop. *)
Definition hop_cost (arc_cost : Z) (to_port : nat) : option Z :=
  AddCheckedU64 (l_cost current) arc_cost ≫= fun c =>
  AddCheckedU64 c (p_transit_cost (port_record e to_port)) ≫= fun c =>
  AddCheckedU64 c (transition_node_cost e (l_port current) to_port).

Definition above {A} (le : A -> A -> bool) (value : A) (ceiling : option A) : bool :=
  match ceiling with Some c => negb (le value c) | None => false end.

Definition cost_above_limit (cost : Z) : bool := above Z.leb cost (max_total_cost request).

Definition members_exceeded (a : ArcRef) (target : nat) : bool :=
  existsb (fun limit => snd limit <? DomainCount e labels label_index a target (fst limit))
    (max_members_per_failure_domain limits).

(** The part both loops share once the arc is admitted: the facts of the
    target port, after its admin state. *)
Definition target_admin (target : PortInfo) (key : PortKey) : Arc unit :=
  match pi_admin target with
  | Fact.Good => mark kReasonAdminUp
  | Fact.Blocked => cut CutReason.DestinationAdminDown
  | Fact.Missing =>
      doubt kLimitationUnknownQualityField CutReason.DestinationAdminDown (ForPort key)
        "administrative state not published"
  end.

Definition target_doubts (target : PortInfo) (key : PortKey) : Arc unit :=
  doubt_if (pi_conflicting target) kLimitationConflictingEvidence CutReason.ConflictingEvidence (ForPort key)
    "two records disagree about this port" >>
  doubt_if (pi_partial_coverage target) kLimitationUnknownAdjacency CutReason.PartialCoverage (ForPort key)
    "the owning node does not publish complete adjacency" >>
  doubt_if (pi_unresolved_arcs target) kLimitationUnresolvedReference CutReason.UnresolvedReference (ForPort key)
    "an arc referencing this port has no record".

(** The fields of the next label that the operation of the cross-connect
    decides. *)
Record Segment := MkSegment {
  g_mask : SlotMask; g_profile : option nat; g_distance_m : Z; g_loss_db : double; g_osnr_inverse : double;
  g_span_count : Z; g_regenerations : Z;
}.

Definition apply_op (op : CrossConnectOp.t) (info : CrossConnectInfo) (target : PortInfo) (key : PortKey) : Arc Segment :=
  let keep mask := MkSegment mask (l_profile current) (l_distance_m current) (l_loss_db current)
                     (l_osnr_inverse current) (l_span_count current) (l_regenerations current) in
  match op with
  | CrossConnectOp.Express =>
      arc_ret (keep (mask_Intersect (mask_Intersect (l_mask current) (xi_base_mask info)) (pi_base_mask target)))
  | CrossConnectOp.Convert => mark kReasonWavelengthConversion >> arc_ret (keep (pi_base_mask target))
  | CrossConnectOp.Regenerate =>
      cut_if (pi_transmit_absent target) CutReason.SegmentProfileAbsent >>
      doubt_if (negb (bool_decide (pi_transmit target = Fact.Good))) kLimitationUnknownQualityField
        CutReason.TransmitProfileUnknown (ForPort key) "transmit reach profile not published" >>
      mark (Z.lor (Z.lor kReasonRegenerationBoundary kReasonSegmentStart) kReasonTransmitProfileKnown) >>
      arc_ret (MkSegment (pi_base_mask target) (pi_profile_index target) 0 d0 d0 0 (wrap32 (l_regenerations current + 1)))
  end.

Definition within_reach_bits : Z :=
  Z.lor (Z.lor (Z.lor kReasonWithinReachDistance kReasonWithinReachSpans) kReasonWithinReachLoss) kReasonWithinReachOsnr.

(** Makes the label out of the draft's verdict; [push_label] numbers it. *)
Definition make_label (port_index : nat) (arc : ArcRef) (cost : Z) (g : Segment) : Arc Label := fun d =>
  (d, Some (MkLabel port_index (Some label_index) arc false (g_profile g) (g_mask g) cost (g_distance_m g)
              (g_loss_db g) (g_osnr_inverse g) (g_span_count g) (wrap32 (l_hops current + 1)) (g_regenerations g)
              (d_bits d) (d_proven d) 0 false false)).

(** Lines 642-824. *)
Definition expand_cross_connect (x : nat) : Arc Label :=
  let record := cross_connect_record e x in
  let info := cross_connect_info e x in
  let is_op op := bool_decide (x_op record = op) in
  cut_if (ContainsSorted (e_excluded_cross_connects e) (x_id record) ||
          ContainsSorted (e_excluded_nodes e) (node (x_to record)) ||
          ContainsSorted (e_excluded_ports e) (x_to record)) CutReason.PortExcluded >>
  (if xi_conflicting info then
     remark kLimitationConflictingEvidence CutReason.ConflictingEvidence (ForCrossConnect (x_id record))
       "two records disagree about this cross-connect"
   else arc_ret tt) >>
  cut_if (bool_decide (xi_admin info = Fact.Blocked)) CutReason.CrossConnectAdminDown >>
  to_port <~ or_cut (xi_to_port info) CutReason.UnresolvedReference ;;
  cut_if (DomainsIntersect (xi_domains info) (e_excluded_domains e)) CutReason.FailureDomainExcluded >>
  cut_if (is_op CrossConnectOp.Regenerate && negb (allow_regeneration limits)) CutReason.RegenerationNotAllowed >>
  cut_if (is_op CrossConnectOp.Convert && negb (allow_wavelength_conversion limits)) CutReason.ConversionNotAllowed >>
  cut_if (is_op CrossConnectOp.Regenerate && (max_regenerations request <=? l_regenerations current))
    CutReason.RegenerationLimitExceeded >>
  cut_if (max_hops request <? wrap32 (l_hops current + 1)) CutReason.HopLimitExceeded >>
  cut_if (PortOnPath labels label_index to_port) CutReason.LoopPrevented >>
  cost <~ or_cut (hop_cost (xi_cost info) to_port) CutReason.CostLimitExceeded ;;
  cut_if (cost_above_limit cost) CutReason.CostLimitExceeded >>
  cut_if (members_exceeded (MkArcRef ArcKind.CrossConnect x false) to_port) CutReason.FailureDomainMemberLimit >>
  let target := port_info e to_port in
  let key := p_key (port_record e to_port) in
  (if bool_decide (xi_admin info = Fact.Good) then mark kReasonAdminUp
   else doubt kLimitationUnknownQualityField CutReason.CrossConnectAdminDown (ForCrossConnect (x_id record))
          "administrative state not published") >>
  target_admin target key >>
  target_doubts target key >>
  doubt_if (negb (xi_mask_known info) || negb (pi_mask_known target)) kLimitationUnknownSpectrum
    CutReason.UnknownSpectrum (ForCrossConnect (x_id record)) "spectrum capability not published" >>
  g <~ apply_op (x_op record) info target key ;;
  cut_if (mask_IsEmpty (g_mask g)) CutReason.PortSpectrumEmpty >>
  mark kReasonSpectrumAvailable >>
  mark_if (bool_decide (is_Some (g_profile g))) within_reach_bits >>
  mark kReasonFailureDomainWithinLimit >>
  make_label to_port (MkArcRef ArcKind.CrossConnect x false) cost g.

(** Impairment of a span, accumulated when it is published. *)
Definition accumulate_distance (info : SpanInfo) (id : SpanId) : Arc Z :=
  match si_length_m info with
  | Some length_m => or_cut (AddCheckedU64 (l_distance_m current) length_m) CutReason.TotalDistanceExceeded
  | None =>
      doubt kLimitationUnknownQualityField CutReason.UnknownQualityField (ForSpan id) "span length not published" >>
      arc_ret (l_distance_m current)
  end.

Definition accumulate_loss (info : SpanInfo) (id : SpanId) : Arc double :=
  match si_loss_db info with
  | Some loss => arc_ret (dadd (l_loss_db current) loss)
  | None =>
      doubt kLimitationUnknownQualityField CutReason.UnknownQualityField (ForSpan id) "span loss not published" >>
      arc_ret (l_loss_db current)
  end.

Definition accumulate_osnr (info : SpanInfo) (id : SpanId) : Arc double :=
  match si_osnr_db info with
  | Some osnr => arc_ret (dadd (l_osnr_inverse current) (OsnrToInverse osnr))
  | None =>
      doubt kLimitationUnknownQualityField CutReason.UnknownQualityField (ForSpan id) "span OSNR not published" >>
      arc_ret (l_osnr_inverse current)
  end.

(** [segment_osnr + 1.0e-9 < floor_db] *)
Definition osnr_below (osnr_inverse floor_db : double) : bool := dlt (dadd (InverseToOsnr osnr_inverse) epsilon9) floor_db.

(** [value > ceiling + 1.0e-9] *)
Definition loss_above (loss : double) (ceiling : option double) : bool :=
  match ceiling with Some c => dgt loss (dadd c epsilon9) | None => false end.

(** Lines 1011-1050: the reach budget of the segment's profile. *)
Definition check_reach (g : Segment) (from_key : PortKey) : Arc unit :=
  match l_profile current with
  | Some p =>
      let profile := profile_info e p in
      cut_if (above Z.leb (g_span_count g) (fi_max_span_count profile)) CutReason.ReachSpanCountExceeded >>
      cut_if (above Z.leb (g_distance_m g) (fi_max_distance_m profile)) CutReason.ReachDistanceExceeded >>
      cut_if (loss_above (g_loss_db g) (fi_max_loss_db profile)) CutReason.ReachLossExceeded >>
      (match fi_min_osnr_db profile with
       | Some minimum =>
           let floor_db := match min_segment_osnr_db limits with Some f => dmax minimum f | None => minimum end in
           cut_if (osnr_below (g_osnr_inverse g) floor_db) CutReason.ReachOsnrBelowMinimum >>
           mark kReasonWithinReachOsnr
       | None =>
           doubt kLimitationUnknownQualityField CutReason.UnknownQualityField
             (ForReachProfile (r_id (profile_record e p))) "reach profile minimum OSNR not published"
       end) >>
      mark_if (bool_decide (is_Some (fi_max_span_count profile))) kReasonWithinReachSpans >>
      mark_if (bool_decide (is_Some (fi_max_distance_m profile))) kReasonWithinReachDistance >>
      mark_if (bool_decide (is_Some (fi_max_loss_db profile))) kReasonWithinReachLoss
  | None =>
      doubt kLimitationUnknownQualityField CutReason.TransmitProfileUnknown (ForPort from_key)
        "no reach profile applies to this segment"
  end.

(** Lines 1052-1072: the ceilings of the request. *)
Definition profile_osnr_known : bool :=
  match l_profile current with Some p => bool_decide (is_Some (fi_min_osnr_db (profile_info e p))) | None => false end.

Definition check_ceilings (g : Segment) : Arc unit :=
  cut_if (match min_segment_osnr_db limits with
          | Some floor_db => negb profile_osnr_known && osnr_below (g_osnr_inverse g) floor_db
          | None => false
          end) CutReason.ReachOsnrBelowMinimum >>
  cut_if (above Z.leb (g_distance_m g) (max_total_distance_m limits)) CutReason.TotalDistanceExceeded >>
  cut_if (above Z.leb (g_span_count g) (max_total_span_count limits)) CutReason.TotalSpanCountExceeded >>
  cut_if (loss_above (g_loss_db g) (max_total_loss_db limits)) CutReason.TotalLossExceeded.

(** Lines 837-1074. *)
Definition expand_span (arc : SpanArc) : Arc Label :=
  let record := span_record e (span_index arc) in
  let info := span_info e (span_index arc) in
  let ref := MkArcRef ArcKind.Span (span_index arc) (reversed arc) in
  let to_key := arc_head record (reversed arc) in
  to_port <~ or_cut (PortIndex (e_snapshot e) to_key) CutReason.UnresolvedReference ;;
  let target := port_info e to_port in
  let key := p_key (port_record e to_port) in
  cut_if (ContainsSorted (e_excluded_spans e) (s_id record) || ContainsSorted (e_excluded_nodes e) (node to_key) ||
          ContainsSorted (e_excluded_ports e) to_key) CutReason.SpanExcluded >>
  cut_if (DomainsIntersect (si_domains info) (e_excluded_domains e)) CutReason.FailureDomainExcluded >>
  cut_if (bool_decide (si_admin info = Fact.Blocked)) CutReason.SpanAdminDown >>
  cut_if (max_hops request <? wrap32 (l_hops current + 1)) CutReason.HopLimitExceeded >>
  cut_if (negb (l_is_start current) && bool_decide (a_kind (l_arc current) = ArcKind.Span) &&
          (a_index (l_arc current) =? span_index arc)%nat) CutReason.LoopPrevented >>
  cut_if (PortOnPath labels label_index to_port) CutReason.LoopPrevented >>
  cost <~ or_cut (hop_cost (si_cost info) to_port) CutReason.CostLimitExceeded ;;
  cut_if (cost_above_limit cost) CutReason.CostLimitExceeded >>
  cut_if (members_exceeded ref to_port) CutReason.FailureDomainMemberLimit >>
  distance <~ accumulate_distance info (s_id record) ;;
  loss <~ accumulate_loss info (s_id record) ;;
  osnr_inverse <~ accumulate_osnr info (s_id record) ;;
  (if bool_decide (si_admin info = Fact.Good) then mark kReasonAdminUp
   else doubt kLimitationUnknownQualityField CutReason.SpanAdminDown (ForSpan (s_id record))
          "administrative state not published") >>
  doubt_if (si_conflicting info) kLimitationConflictingEvidence CutReason.ConflictingEvidence (ForSpan (s_id record))
    "two records disagree about this span" >>
  target_admin target key >>
  target_doubts target key >>
  doubt_if (negb (si_mask_known info) || negb (pi_mask_known target)) kLimitationUnknownSpectrum
    CutReason.UnknownSpectrum (ForSpan (s_id record)) "span spectrum availability not published" >>
  let mask := mask_Intersect (mask_Intersect (l_mask current) (si_base_mask info)) (pi_base_mask target) in
  cut_if (mask_IsEmpty mask) CutReason.PortSpectrumEmpty >>
  mark kReasonSpectrumAvailable >>
  let g := MkSegment mask (l_profile current) distance loss osnr_inverse (wrap32 (l_span_count current + 1))
             (l_regenerations current) in
  check_reach g (p_key (port_record e (l_port current))) >>
  check_ceilings g >>
  mark kReasonFailureDomainWithinLimit >>
  make_label to_port ref cost g.

(** The draft an expansion starts from. *)
Definition next_draft (n : Notes) : Draft :=
  MkDraft n (l_proven current) (Z.lor kReasonNotExcluded kReasonPortAdmitted).
End expand.

(** ** Lemmas: reasoning about drafts

    [wp m Q d]: if [m] makes a value from draft [d], the value and the draft it
    leaves satisfy [Q].  The rules below keep of a draft only what the proofs
    use: whether the label is still proven. *)

Definition wp {A} (m : Arc A) (Q : A -> Draft -> Prop) (d : Draft) : Prop :=
  match m d with (d', Some x) => Q x d' | (_, None) => True end.

Section wp_rules.
Context {A B : Type}.

Lemma wp_bind (m : Arc A) (k : A -> Arc B) Q d : wp m (fun x d' => wp (k x) Q d') d -> wp (arc_bind m k) Q d.
Proof. unfold wp, arc_bind. destruct (m d) as [d' [x|]]; done. Qed.

Lemma wp_ret (x : A) Q d : Q x d -> wp (arc_ret x) Q d.
Proof. done. Qed.

Lemma wp_cut r (Q : A -> Draft -> Prop) d : wp (cut r) Q d.
Proof. done. Qed.

Lemma wp_or_cut (o : option A) r Q d : (forall x, o = Some x -> Q x d) -> wp (or_cut o r) Q d.
Proof. intros HQ. destruct o as [x|]; [by apply HQ|done]. Qed.
End wp_rules.

Lemma wp_cut_if b r Q d : (b = false -> Q tt d) -> wp (cut_if b r) Q d.
Proof. intros HQ. destruct b; [done|by apply HQ]. Qed.

(** [d'] follows [d]: proven only if [d] was. *)
Definition keeps (d d' : Draft) : Prop := d_proven d' = true -> d_proven d = true.

Lemma wp_mark bits Q d : (forall d', keeps d d' -> Q tt d') -> wp (mark bits) Q d.
Proof. intros HQ. unfold wp, mark; cbn. apply HQ. by intros E. Qed.

Lemma wp_mark_if b bits Q d : (forall d', keeps d d' -> Q tt d') -> wp (mark_if b bits) Q d.
Proof. intros HQ. destruct b; [by apply wp_mark|apply wp_ret, HQ; by intros E]. Qed.

Lemma wp_remark_if (b : bool) bit r k t Q d :
  (forall d', keeps d d' -> Q tt d') -> wp (if b then remark bit r k t else arc_ret tt) Q d.
Proof. intros HQ. destruct b; unfold wp, remark; cbn; apply HQ; by intros E. Qed.

Lemma wp_doubt bit r k t Q d : (forall d', d_proven d' = false -> Q tt d') -> wp (doubt bit r k t) Q d.
Proof. intros HQ. unfold wp, doubt; cbn. by apply HQ. Qed.

Lemma wp_doubt_if b bit r k t Q d :
  (forall d', (d_proven d' = true -> d_proven d = true /\ b = false) -> Q tt d') -> wp (doubt_if b bit r k t) Q d.
Proof. intros HQ. destruct b; [apply wp_doubt; intros d' E; apply HQ; congruence|by apply HQ]. Qed.

(** [if (fact is good) mark; else doubt;] *)
Lemma wp_good_or_doubt (f : Fact.t) bits bit r k t Q d :
  (forall d', (d_proven d' = true -> d_proven d = true /\ f = Fact.Good) -> Q tt d') ->
  wp (if bool_decide (f = Fact.Good) then mark bits else doubt bit r k t) Q d.
Proof.
  intros HQ. case_bool_decide; [apply wp_mark; intros d' E; apply HQ; auto|].
  apply wp_doubt. intros d' E. apply HQ. congruence.
Qed.

Lemma wp_target_admin target key Q d :
  (forall d', pi_admin target <> Fact.Blocked ->
     (d_proven d' = true -> d_proven d = true /\ pi_admin target = Fact.Good) -> Q tt d') ->
  wp (target_admin target key) Q d.
Proof.
  intros HQ. unfold target_admin. destruct (pi_admin target).
  - apply wp_mark. intros d' E. apply HQ; auto.
  - apply wp_cut.
  - apply wp_doubt. intros d' E. apply HQ; congruence.
Qed.

(** What the facts of a port say when nothing about it is in doubt. *)
Definition settled_port (p : PortInfo) : Prop :=
  pi_conflicting p = false /\ pi_partial_coverage p = false /\ pi_unresolved_arcs p = false.

Lemma wp_target_doubts target key Q d :
  (forall d', (d_proven d' = true -> d_proven d = true /\ settled_port target) -> Q tt d') ->
  wp (target_doubts target key) Q d.
Proof.
  intros HQ. unfold target_doubts. apply wp_bind, wp_doubt_if. intros d1 H1.
  apply wp_bind, wp_doubt_if. intros d2 H2. apply wp_doubt_if. intros d3 H3.
  apply HQ. unfold settled_port. intros E. apply H3 in E as [E ?]. apply H2 in E as [E ?]. apply H1 in E. tauto.
Qed.

Ltac wp_step :=
  first [ apply wp_bind
        | apply wp_cut_if; intros ?
        | apply wp_mark; intros ? ?
        | apply wp_mark_if; intros ? ?
        | apply wp_remark_if; intros ? ?
        | apply wp_doubt_if; intros ? ?
        | apply wp_good_or_doubt; intros ? ?
        | apply wp_target_admin; intros ? ? ?
        | apply wp_target_doubts; intros ? ?
        | apply wp_or_cut; intros ? ?
        | apply wp_ret ].

(** Follows the chain of drafts back from a proven one. *)
Ltac proven_chain :=
  repeat match goal with
  | K : keeps ?d ?d', E : d_proven ?d' = true |- _ => apply K in E
  | K : d_proven ?d' = true -> _ /\ _, E : d_proven ?d' = true |- _ => apply K in E as [E ?]
  end.

Section expand_lemmas.
Context `{Platform} (e : Env) (labels : list Label) (label_index : nat) (current : Label).

(** What every hop onto a new label satisfies. *)
Record hop (l : Label) : Prop := {
  hop_not_start : l_is_start l = false;
  hop_hops : l_hops l = wrap32 (l_hops current + 1) /\ l_hops l <= max_hops (e_request e);
  hop_within_cost : cost_above_limit e (l_cost l) = false;
  hop_target_admin : pi_admin (port_info e (l_port l)) <> Fact.Blocked;
  hop_mask : mask_IsEmpty (l_mask l) = false;
  hop_domains : DomainsIntersect (arc_domains e (l_arc l)) (e_excluded_domains e) = false;
  hop_proven : l_proven l = true -> l_proven current = true /\ pi_admin (port_info e (l_port l)) = Fact.Good /\
    settled_port (port_info e (l_port l)) /\ pi_mask_known (port_info e (l_port l)) = true;
}.

(** How the new label stands to the labels before it. *)
Record placed (l : Label) : Prop := {
  placed_parent : l_parent l = Some label_index;
  placed_simple : PortOnPath labels label_index (l_port l) = false;
  placed_members : members_exceeded e labels label_index (l_arc l) (l_port l) = false;
  placed_flags : l_retained l = false /\ l_expanded l = false;
}.

(** The fields of a label that belong to its transparent segment. *)
Definition segment_of (l : Label) : Segment :=
  MkSegment (l_mask l) (l_profile l) (l_distance_m l) (l_loss_db l) (l_osnr_inverse l) (l_span_count l)
    (l_regenerations l).

Definition with_mask (mask : SlotMask) (g : Segment) : Segment :=
  MkSegment mask (g_profile g) (g_distance_m g) (g_loss_db g) (g_osnr_inverse g) (g_span_count g) (g_regenerations g).

(** What each operation does to the segment: an express connection narrows the
    channels and keeps the rest, a conversion opens the channels of the target
    port and keeps the rest, a regeneration starts a segment afresh under the
    target port's transmitter profile. *)
Definition op_segment (op : CrossConnectOp.t) (info : CrossConnectInfo) (target : PortInfo) (g : Segment)
  (proven : bool) : Prop :=
  let limits := constraints (e_request e) in
  match op with
  | CrossConnectOp.Express =>
      g = with_mask (mask_Intersect (mask_Intersect (l_mask current) (xi_base_mask info)) (pi_base_mask target))
            (segment_of current)
  | CrossConnectOp.Convert =>
      allow_wavelength_conversion limits = true /\ g = with_mask (pi_base_mask target) (segment_of current)
  | CrossConnectOp.Regenerate =>
      allow_regeneration limits = true /\ l_regenerations current < max_regenerations (e_request e) /\
      pi_transmit_absent target = false /\
      g = MkSegment (pi_base_mask target) (pi_profile_index target) 0 d0 d0 0 (wrap32 (l_regenerations current + 1)) /\
      (proven = true -> pi_transmit target = Fact.Good)
  end.

Record cross_connect_hop (x : nat) (l : Label) : Prop := {
  xh_hop : hop l;
  xh_arc : l_arc l = MkArcRef ArcKind.CrossConnect x false;
  xh_to : xi_to_port (cross_connect_info e x) = Some (l_port l);
  xh_cost : hop_cost e current (xi_cost (cross_connect_info e x)) (l_port l) = Some (l_cost l);
  xh_admitted : ContainsSorted (e_excluded_cross_connects e) (x_id (cross_connect_record e x)) = false /\
    ContainsSorted (e_excluded_nodes e) (node (x_to (cross_connect_record e x))) = false /\
    ContainsSorted (e_excluded_ports e) (x_to (cross_connect_record e x)) = false;
  xh_admin : xi_admin (cross_connect_info e x) <> Fact.Blocked;
  xh_op : op_segment (x_op (cross_connect_record e x)) (cross_connect_info e x) (port_info e (l_port l))
            (segment_of l) (l_proven l);
  xh_proven : l_proven l = true -> xi_admin (cross_connect_info e x) = Fact.Good /\
    xi_mask_known (cross_connect_info e x) = true;
}.

Lemma wp_apply_op op info target key Q d :
  bool_decide (op = CrossConnectOp.Regenerate) && negb (allow_regeneration (constraints (e_request e))) = false ->
  bool_decide (op = CrossConnectOp.Convert) && negb (allow_wavelength_conversion (constraints (e_request e))) = false ->
  bool_decide (op = CrossConnectOp.Regenerate) && (max_regenerations (e_request e) <=? l_regenerations current) = false ->
  (forall g d', (forall d'', keeps d' d'' -> op_segment op info target g (d_proven d'')) -> keeps d d' -> Q g d') ->
  wp (apply_op current op info target key) Q d.
Proof.
  intros Hr Hc Hm HQ. destruct op; simpl in *.
  - apply wp_ret, HQ; [done|]. by intros E.
  - apply negb_false_iff in Hc. repeat wp_step. by apply HQ.
  - apply negb_false_iff in Hr. apply Z.leb_gt in Hm. repeat wp_step. apply HQ.
    + intros d'' K. split; [done|]. split; [done|]. split; [done|]. split; [done|].
      intros E. apply K in E. proven_chain.
      match goal with F : negb _ = false |- _ => by apply negb_false_iff, bool_decide_eq_true in F end.
    + intros E. by proven_chain.
Qed.

Lemma wp_expand_cross_connect x d :
  d_proven d = l_proven current ->
  wp (expand_cross_connect e labels label_index current x) (fun l _ => placed l /\ cross_connect_hop x l) d.
Proof.
  intros Hd. unfold expand_cross_connect. cbv zeta.
  apply wp_bind, wp_cut_if. intros [[Ha1 Ha2]%orb_false_iff Ha3]%orb_false_iff.
  apply wp_bind, wp_remark_if. intros d1 K1.
  apply wp_bind, wp_cut_if. intros Hadmin%bool_decide_eq_false. apply wp_bind, wp_or_cut. intros to_port Hto.
  apply wp_bind, wp_cut_if. intros Hdom. apply wp_bind, wp_cut_if. intros Hregen.
  apply wp_bind, wp_cut_if. intros Hconv. apply wp_bind, wp_cut_if. intros Hregmax.
  apply wp_bind, wp_cut_if. intros Hhops%Z.ltb_ge. apply wp_bind, wp_cut_if. intros Hpath.
  apply wp_bind, wp_or_cut. intros cost Hcost. apply wp_bind, wp_cut_if. intros Hlimit.
  apply wp_bind, wp_cut_if. intros Hmembers. apply wp_bind, wp_good_or_doubt. intros d2 K2.
  apply wp_bind, wp_target_admin. intros d3 Htadmin K3. apply wp_bind, wp_target_doubts. intros d4 K4.
  apply wp_bind, wp_doubt_if. intros d5 K5. apply wp_bind, wp_apply_op; [done..|]. intros g d6 Hop K6.
  apply wp_bind, wp_cut_if. intros Hempty. apply wp_bind, wp_mark. intros d7 K7.
  apply wp_bind, wp_mark_if. intros d8 K8. apply wp_bind, wp_mark. intros d9 K9.
  unfold wp, make_label. split; [by split|]. split; simpl; try done.
  - split; simpl; try done. intros E. proven_chain. split; [by rewrite <- Hd|].
    split; [done|]. split; [done|]. match goal with K : _ || _ = false |- _ => apply orb_false_iff in K as [_ K] end.
    by apply negb_false_iff.
  - assert (segment_of (MkLabel to_port (Some label_index) (MkArcRef ArcKind.CrossConnect x false) false (g_profile g)
      (g_mask g) cost (g_distance_m g) (g_loss_db g) (g_osnr_inverse g) (g_span_count g) (wrap32 (l_hops current + 1))
      (g_regenerations g) (d_bits d9) (d_proven d9) 0 false false) = g) as -> by (by destruct g).
    apply Hop. intros E. by apply K7, K8, K9.
  - intros E. proven_chain. split; [done|].
    match goal with K : _ || _ = false |- _ => apply orb_false_iff in K as [K _] end. by apply negb_false_iff.
Qed.
(** The OSNR floor of a segment under profile [p]. *)
Definition osnr_floor (p : nat) : option double :=
  match fi_min_osnr_db (profile_info e p) with
  | Some minimum =>
      Some (match min_segment_osnr_db (constraints (e_request e)) with Some f => dmax minimum f | None => minimum end)
  | None => None
  end.

(** The segment respects every published field of its profile. *)
Definition within_reach (profile : option nat) (g : Segment) : Prop :=
  match profile with
  | Some p =>
      above Z.leb (g_span_count g) (fi_max_span_count (profile_info e p)) = false /\
      above Z.leb (g_distance_m g) (fi_max_distance_m (profile_info e p)) = false /\
      loss_above (g_loss_db g) (fi_max_loss_db (profile_info e p)) = false /\
      (forall floor_db, osnr_floor p = Some floor_db -> osnr_below (g_osnr_inverse g) floor_db = false)
  | None => True
  end.

(** The segment respects the ceilings of the request. *)
Definition within_ceilings (g : Segment) : Prop :=
  let limits := constraints (e_request e) in
  above Z.leb (g_distance_m g) (max_total_distance_m limits) = false /\
  above Z.leb (g_span_count g) (max_total_span_count limits) = false /\
  loss_above (g_loss_db g) (max_total_loss_db limits) = false.

Definition reach_published (profile : option nat) : Prop :=
  exists p, profile = Some p /\ is_Some (fi_min_osnr_db (profile_info e p)).

Definition all_published (info : SpanInfo) : Prop :=
  is_Some (si_length_m info) /\ is_Some (si_loss_db info) /\ is_Some (si_osnr_db info).

Definition span_distance (info : SpanInfo) : option Z :=
  match si_length_m info with
  | Some length_m => AddCheckedU64 (l_distance_m current) length_m
  | None => Some (l_distance_m current)
  end.
Definition span_loss (info : SpanInfo) : double :=
  match si_loss_db info with Some loss => dadd (l_loss_db current) loss | None => l_loss_db current end.
Definition span_osnr_inverse (info : SpanInfo) : double :=
  match si_osnr_db info with
  | Some osnr => dadd (l_osnr_inverse current) (OsnrToInverse osnr)
  | None => l_osnr_inverse current
  end.

Record span_hop (arc : SpanArc) (l : Label) : Prop := {
  sh_hop : hop l;
  sh_arc : l_arc l = MkArcRef ArcKind.Span (span_index arc) (reversed arc);
  sh_to : PortIndex (e_snapshot e) (arc_head (span_record e (span_index arc)) (reversed arc)) = Some (l_port l);
  sh_cost : hop_cost e current (si_cost (span_info e (span_index arc))) (l_port l) = Some (l_cost l);
  sh_admitted : ContainsSorted (e_excluded_spans e) (s_id (span_record e (span_index arc))) = false /\
    ContainsSorted (e_excluded_nodes e) (node (arc_head (span_record e (span_index arc)) (reversed arc))) = false /\
    ContainsSorted (e_excluded_ports e) (arc_head (span_record e (span_index arc)) (reversed arc)) = false;
  sh_admin : si_admin (span_info e (span_index arc)) <> Fact.Blocked;
  sh_segment : exists distance, span_distance (span_info e (span_index arc)) = Some distance /\
    segment_of l = MkSegment
      (mask_Intersect (mask_Intersect (l_mask current) (si_base_mask (span_info e (span_index arc))))
         (pi_base_mask (port_info e (l_port l))))
      (l_profile current) distance (span_loss (span_info e (span_index arc)))
      (span_osnr_inverse (span_info e (span_index arc))) (wrap32 (l_span_count current + 1)) (l_regenerations current);
  sh_reach : within_reach (l_profile current) (segment_of l);
  sh_ceilings : within_ceilings (segment_of l);
  sh_proven : l_proven l = true ->
    all_published (span_info e (span_index arc)) /\ si_admin (span_info e (span_index arc)) = Fact.Good /\
    si_conflicting (span_info e (span_index arc)) = false /\ si_mask_known (span_info e (span_index arc)) = true /\
    reach_published (l_profile current);
}.

Lemma wp_accumulate_distance info id Q d :
  (forall n d', span_distance info = Some n ->
     (d_proven d' = true -> d_proven d = true /\ is_Some (si_length_m info)) -> Q n d') ->
  wp (accumulate_distance current info id) Q d.
Proof.
  intros HQ. unfold accumulate_distance, span_distance in *. destruct (si_length_m info).
  - apply wp_or_cut. intros n Hn. apply HQ; [done|]. by split.
  - apply wp_bind, wp_doubt. intros d' E. apply wp_ret, HQ; [done|congruence].
Qed.

Lemma wp_accumulate_loss info id Q d :
  (forall d', (d_proven d' = true -> d_proven d = true /\ is_Some (si_loss_db info)) -> Q (span_loss info) d') ->
  wp (accumulate_loss current info id) Q d.
Proof.
  intros HQ. unfold accumulate_loss, span_loss in *. destruct (si_loss_db info).
  - apply wp_ret, HQ. by split.
  - apply wp_bind, wp_doubt. intros d' E. apply wp_ret, HQ. congruence.
Qed.

Lemma wp_accumulate_osnr info id Q d :
  (forall d', (d_proven d' = true -> d_proven d = true /\ is_Some (si_osnr_db info)) -> Q (span_osnr_inverse info) d') ->
  wp (accumulate_osnr current info id) Q d.
Proof.
  intros HQ. unfold accumulate_osnr, span_osnr_inverse in *. destruct (si_osnr_db info).
  - apply wp_ret, HQ. by split.
  - apply wp_bind, wp_doubt. intros d' E. apply wp_ret, HQ. congruence.
Qed.

Lemma wp_check_reach g key Q d :
  (forall d', within_reach (l_profile current) g ->
     (d_proven d' = true -> d_proven d = true /\ reach_published (l_profile current)) -> Q tt d') ->
  wp (check_reach e current g key) Q d.
Proof.
  intros HQ. unfold check_reach, within_reach, reach_published, osnr_floor in *.
  destruct (l_profile current) as [p|].
  - cbv zeta. apply wp_bind, wp_cut_if. intros Hs. apply wp_bind, wp_cut_if. intros Hd.
    apply wp_bind, wp_cut_if. intros Hl. apply wp_bind. destruct (fi_min_osnr_db (profile_info e p)) as [m|] eqn:Em.
    + apply wp_bind, wp_cut_if. intros Ho. apply wp_mark. intros d1 K1. repeat wp_step. apply HQ.
      * split_and!; [done..|]. by intros ? [= <-].
      * intros E. proven_chain. split; [done|]. exists p. rewrite Em. by split.
    + apply wp_doubt. intros d1 K1. repeat wp_step. apply HQ; [naive_solver|]. intros E. proven_chain. congruence.
  - apply wp_doubt. intros d1 K1. apply HQ; [done|congruence].
Qed.

Lemma wp_check_ceilings g Q d :
  (within_ceilings g -> Q tt d) -> wp (check_ceilings e current g) Q d.
Proof.
  intros HQ. unfold check_ceilings. apply wp_bind, wp_cut_if. intros _. repeat wp_step. by apply HQ.
Qed.

Lemma wp_expand_span arc d :
  d_proven d = l_proven current ->
  wp (expand_span e labels label_index current arc) (fun l _ => placed l /\ span_hop arc l) d.
Proof.
  intros Hd. unfold expand_span. cbv zeta.
  apply wp_bind, wp_or_cut. intros to_port Hto.
  apply wp_bind, wp_cut_if. intros [[Ha1 Ha2]%orb_false_iff Ha3]%orb_false_iff.
  apply wp_bind, wp_cut_if. intros Hdom. apply wp_bind, wp_cut_if. intros Hadmin%bool_decide_eq_false.
  apply wp_bind, wp_cut_if. intros Hhops%Z.ltb_ge. apply wp_bind, wp_cut_if. intros Hback.
  apply wp_bind, wp_cut_if. intros Hpath.
  apply wp_bind, wp_or_cut. intros cost Hcost. apply wp_bind, wp_cut_if. intros Hlimit.
  apply wp_bind, wp_cut_if. intros Hmembers.
  apply wp_bind, wp_accumulate_distance. intros distance d1 Hdist K1. apply wp_bind, wp_accumulate_loss. intros d2 K2.
  apply wp_bind, wp_accumulate_osnr. intros d3 K3. apply wp_bind, wp_good_or_doubt. intros d4 K4.
  apply wp_bind, wp_doubt_if. intros d5 K5.
  apply wp_bind, wp_target_admin. intros d6 Htadmin K6. apply wp_bind, wp_target_doubts. intros d7 K7.
  apply wp_bind, wp_doubt_if. intros d8 K8. apply wp_bind, wp_cut_if. intros Hempty.
  apply wp_bind, wp_mark. intros d9 K9. apply wp_bind, wp_check_reach. intros d10 Hreach K10.
  apply wp_bind, wp_check_ceilings. intros Hceil. apply wp_bind, wp_mark. intros d11 K11.
  unfold wp, make_label. split; [by split|]. split; simpl; try done.
  - split; simpl; try done. intros E. proven_chain. split; [by rewrite <- Hd|].
    split; [done|]. split; [done|]. match goal with K : _ || _ = false |- _ => apply orb_false_iff in K as [_ K] end.
    by apply negb_false_iff.
  - by exists distance.
  - intros E. proven_chain. unfold all_published. split_and!; try done.
    match goal with K : _ || _ = false |- _ => apply orb_false_iff in K as [K _] end. by apply negb_false_iff.
Qed.
End expand_lemmas.
