(* ===== verification/Search.v ===== *)
(** * Search: the label search

    [RunSearch] of [src/search.cpp].  The mutable state of the function is the
    record [Work]; one iteration of its loop is [step], and [run] iterates it.
    The caller's cancel token is read once per iteration: [cancelled n] is what
    the [n]-th read answers, so a token set from another thread, or from the
    observer, is any such function.  The observer is called with the statistics
    and does not touch the state. *)

From S2P Require Import Prelude Status Ids Doubles Spectrum Canonical Topology Request Outcome SearchFacts SearchArcs.

Record PlannerOptions := MkOptions { expansion_ceiling : Z; label_ceiling : Z; collect_witnesses : bool }.
Definition default_options : PlannerOptions :=
  MkOptions kMaxSearchExpansionsCeiling kMaxSearchLabelsCeiling true.

Record RawPath := MkPath { p_arcs : list ArcRef; p_cost : Z; p_hops : Z; p_regenerations : Z; p_proven : bool }.

Record SearchOutcome := MkSearchOutcome {
  o_status : Status;
  o_exhausted : bool;
  o_proved_optimum : bool;
  o_paths : list RawPath;
  o_limitations : Z;
  o_witnesses : list Witness;
  o_cuts : list CutCount;
  o_statistics : PlanningStatistics;
}.

(** ** The state of the search *)

Definition Bucket := (nat * option nat)%type.

Record Work := MkWork {
  k_labels : list Label;
  k_frontier : list QueueEntry;
  k_buckets : gmap Bucket (list nat);
  k_sequence : Z;
  k_notes : Notes;
  k_statistics : PlanningStatistics;
  k_destinations : list nat;
  k_destination_count : Z;
  k_destination_key : option (Z * (Z * Z));
  k_polls : nat;
}.

Definition with_statistics (s : PlanningStatistics) (w : Work) : Work :=
  MkWork (k_labels w) (k_frontier w) (k_buckets w) (k_sequence w) (k_notes w) s (k_destinations w)
    (k_destination_count w) (k_destination_key w) (k_polls w).
Definition with_notes (n : Notes) (w : Work) : Work :=
  MkWork (k_labels w) (k_frontier w) (k_buckets w) (k_sequence w) n (k_statistics w) (k_destinations w)
    (k_destination_count w) (k_destination_key w) (k_polls w).
Definition with_labels (l : list Label) (w : Work) : Work :=
  MkWork l (k_frontier w) (k_buckets w) (k_sequence w) (k_notes w) (k_statistics w) (k_destinations w)
    (k_destination_count w) (k_destination_key w) (k_polls w).
Definition with_buckets (b : gmap Bucket (list nat)) (w : Work) : Work :=
  MkWork (k_labels w) (k_frontier w) b (k_sequence w) (k_notes w) (k_statistics w) (k_destinations w)
    (k_destination_count w) (k_destination_key w) (k_polls w).
Definition with_frontier (f : list QueueEntry) (w : Work) : Work :=
  MkWork (k_labels w) f (k_buckets w) (k_sequence w) (k_notes w) (k_statistics w) (k_destinations w)
    (k_destination_count w) (k_destination_key w) (k_polls w).

Definition examined (s : PlanningStatistics) : PlanningStatistics :=
  MkStatistics (labels_created s) (labels_expanded s) (labels_dominated s) (peak_frontier s) (arcs_examined s + 1)
    (states_visited s) (st_truncated s).
Definition dominated_one (s : PlanningStatistics) : PlanningStatistics :=
  MkStatistics (labels_created s) (labels_expanded s) (labels_dominated s + 1) (peak_frontier s) (arcs_examined s)
    (states_visited s) (st_truncated s).
Definition expanded_one (buckets frontier : Z) (s : PlanningStatistics) : PlanningStatistics :=
  MkStatistics (labels_created s) (labels_expanded s + 1) (labels_dominated s) (Z.max (peak_frontier s) frontier)
    (arcs_examined s) buckets (st_truncated s).

(** [push_label] *)
Definition push_label (l : Label) (w : Work) : Work :=
  let l := set_sequence (k_sequence w) l in
  let entry := MkEntry (l_cost l) (l_hops l) (l_regenerations l) (l_sequence l) (length (k_labels w)) in
  MkWork (k_labels w ++ [l]) (insert_by (by_key entry_key) entry (k_frontier w)) (k_buckets w)
    (wrap64 (k_sequence w + 1)) (k_notes w) (k_statistics w) (k_destinations w) (k_destination_count w)
    (k_destination_key w) (k_polls w).

(** ** The start label (lines 464-548) *)

(** An early return keeps the status and the flag; the notes are dropped. *)
Definition early (status : Status) (exhausted : bool) (s : PlanningStatistics) : SearchOutcome :=
  MkSearchOutcome status exhausted false [] kLimitationNone [] [] s.

Section search.
Context `{Platform} (e : Env) (label_limit expansion_limit : Z) (cancelled : nat -> bool).

Definition start_label (start_port : nat) : Arc Label :=
  let info := port_info e start_port in
  let record := port_record e start_port in
  let key := ForPort (p_key record) in
  cut_if (ContainsSorted (e_excluded_ports e) (p_key record) ||
          ContainsSorted (e_excluded_nodes e) (node (p_key record)) ||
          DomainsIntersect (p_failure_domains record) (e_excluded_domains e)) CutReason.PortExcluded >>
  mark kReasonNotExcluded >>
  (match pi_admin info with
   | Fact.Blocked => cut CutReason.SourceAdminDown
   | Fact.Missing =>
       doubt kLimitationUnknownQualityField CutReason.SourceAdminDown key "administrative state not published"
   | Fact.Good => mark (Z.lor kReasonAdminUp kReasonPortAdmitted)
   end) >>
  target_doubts info (p_key record) >>
  doubt_if (negb (pi_mask_known info)) kLimitationUnknownSpectrum CutReason.UnknownSpectrum key
    "port spectrum capability not published" >>
  cut_if (pi_transmit_absent info) CutReason.SegmentProfileAbsent >>
  (if bool_decide (pi_transmit info = Fact.Good) then mark kReasonTransmitProfileKnown
   else doubt kLimitationUnknownQualityField CutReason.TransmitProfileUnknown key
          "transmit reach profile not published") >>
  cut_if (mask_IsEmpty (pi_base_mask info)) CutReason.PortSpectrumEmpty >>
  mark kReasonSpectrumAvailable >>
  let cost :=
    match pi_node_index info with
    | Some n => wrap64 (p_transit_cost record + n_transit_cost (node_record e n))
    | None => p_transit_cost record
    end in
  fun d => (d, Some (MkLabel start_port None (MkArcRef ArcKind.Span 0 false) true (pi_profile_index info)
                       (pi_base_mask info) cost 0 d0 d0 0 0 0 (d_bits d) (d_proven d) 0 false false)).

Definition initial_work (start : Label) (n : Notes) : Work :=
  push_label start (MkWork [] [] ∅ 0 n no_statistics [] 0 None 0).

(** ** Dominance against the bucket (lines 586-607) *)

(** One pass over the bucket: what is kept, the labels with the dropped ones no
    longer retained, and whether the current label is dominated. *)
Fixpoint scan_bucket (bucket : list nat) (labels : list Label) (current : Label) : list nat * list Label * bool :=
  match bucket with
  | [] => ([], labels, false)
  | other :: rest =>
      match labels !! other with
      | None => scan_bucket rest labels current
      | Some l =>
          if negb (l_retained l) then scan_bucket rest labels current
          else if Dominates l current then
            let '(kept, labels', _) := scan_bucket rest labels current in (other :: kept, labels', true)
          else if Dominates current l then
            scan_bucket rest (alter (set_retained false) other labels) current
          else
            let '(kept, labels', dominated) := scan_bucket rest labels current in (other :: kept, labels', dominated)
      end
  end.

(** ** Expansion of the arcs of a settled label *)

(** Both loops: examine the arc, make the label, push it unless the label limit
    is reached; the flag says the search is truncated. *)
Fixpoint expand_arcs {X} (expand : list Label -> X -> Arc Label) (current : Label) (arcs : list X) (w : Work) :
  Work * bool :=
  match arcs with
  | [] => (w, false)
  | x :: rest =>
      let w := with_statistics (examined (k_statistics w)) w in
      let '(d, next) := expand (k_labels w) x (next_draft current (k_notes w)) in
      let w := with_notes (d_notes d) w in
      match next with
      | None => expand_arcs expand current rest w
      | Some l =>
          if label_limit <=? size (k_labels w) then (with_notes (note_cut CutReason.SearchTruncated (k_notes w)) w, true)
          else expand_arcs expand current rest (push_label l w)
      end
  end.

Definition expand_label (i : nat) (current : Label) (w : Work) : Work * bool :=
  let cross labels x := expand_cross_connect e labels i current x in
  let span labels arc := expand_span e labels i current arc in
  let '(w, truncated) := expand_arcs cross current (OutgoingCrossConnects (e_snapshot e) (l_port current)) w in
  if truncated then (w, true)
  else expand_arcs span current (OutgoingSpanArcs (e_snapshot e) (l_port current)) w.

(** ** One iteration *)

Inductive Stop := FrontierEmpty | StopCancelled | StopTruncated | StopOnKey.

Definition bucket_of (l : Label) : Bucket := (l_port l, l_profile l).

(** Lines 584-616: settle the popped label, or drop it as dominated. *)
Definition settle (i : nat) (current : Label) (w : Work) : Work * bool :=
  let bucket := default [] (k_buckets w !! bucket_of current) in
  let '(kept, labels, dominated) := scan_bucket bucket (k_labels w) current in
  if dominated then
    (with_notes (note_cut CutReason.Dominated (k_notes w))
       (with_statistics (dominated_one (k_statistics w))
          (with_buckets (<[bucket_of current := kept]> (k_buckets w)) (with_labels labels w))), true)
  else
    let buckets := <[bucket_of current := kept ++ [i]]> (k_buckets w) in
    (with_statistics (expanded_one (Z.of_nat (map_size buckets)) (size (k_frontier w)) (k_statistics w))
       (with_buckets buckets
          (with_labels (alter (fun l => set_expanded true (set_retained true l)) i labels) w)), false).

(** Lines 625-633. *)
Definition settle_destination (i : nat) (current : Label) (w : Work) : Work :=
  MkWork (k_labels w) (k_frontier w) (k_buckets w) (k_sequence w) (k_notes w) (k_statistics w)
    (k_destinations w ++ [i]) (wrap32 (k_destination_count w + 1))
    (Some (l_cost current, (l_hops current, l_regenerations current))) (k_polls w).

Definition poll (w : Work) : Work :=
  MkWork (k_labels w) (k_frontier w) (k_buckets w) (k_sequence w) (k_notes w) (k_statistics w) (k_destinations w)
    (k_destination_count w) (k_destination_key w) (S (k_polls w)).

Definition enough_destinations (entry : QueueEntry) (w : Work) : bool :=
  match k_destination_key w with
  | Some last =>
      (max_candidates (e_request e) <=? k_destination_count w) &&
      KeyLess last (q_cost entry, (q_hops entry, q_regenerations entry))
  | None => false
  end.

Definition step (destination : nat) (w : Work) : Work + Stop * Work :=
  match k_frontier w with
  | [] => inr (FrontierEmpty, w)
  | entry :: frontier =>
      let asked := cancelled (k_polls w) in
      let w := poll w in
      if asked then inr (StopCancelled, w)
      else if expansion_limit <=? labels_expanded (k_statistics w) then
        inr (StopTruncated, with_notes (note_cut CutReason.SearchTruncated (k_notes w)) w)
      else
        let w := with_frontier frontier w in
        let i := q_label entry in
        match k_labels w !! i with
        | None => inl w
        | Some current =>
            if l_expanded current then inl w
            else if enough_destinations entry w then inr (StopOnKey, w)
            else
              let '(w, dominated) := settle i current w in
              if dominated then inl w
              else if (l_port current =? destination)%nat then inl (settle_destination i current w)
              else
                let '(w, truncated) := expand_label i current w in
                if truncated then inr (StopTruncated, w) else inl w
        end
  end.

Fixpoint run (fuel : nat) (destination : nat) (w : Work) : option (Stop * Work) :=
  match fuel with
  | O => None
  | S f => match step destination w with inl w' => run f destination w' | inr stop => Some stop end
  end.

(** ** The outcome (lines 1085-1138) *)

Definition retained_path (labels : list Label) (i : nat) : option RawPath :=
  match labels !! i with
  | Some l =>
      if l_retained l then
        Some (MkPath (path_arcs labels i) (l_cost l) (l_hops l) (l_regenerations l) (l_proven l))
      else None
  | None => None
  end.

Definition finish_statistics (truncated : bool) (w : Work) : PlanningStatistics :=
  let s := k_statistics w in
  MkStatistics (size (k_labels w)) (labels_expanded s) (labels_dominated s) (peak_frontier s) (arcs_examined s)
    (states_visited s) truncated.

Definition is_empty {A} (l : list A) : bool := match l with [] => true | _ => false end.

Definition finish (stop : Stop) (w : Work) : SearchOutcome :=
  let truncated := match stop with StopTruncated => true | _ => false end in
  let stopped_on_key := match stop with StopOnKey => true | _ => false end in
  let exhausted := is_empty (k_frontier w) && negb truncated in
  let paths := omap (retained_path (k_labels w)) (k_destinations w) in
  let limitations := if truncated then Z.lor (note_limitations (k_notes w)) kLimitationSearchTruncated
                     else note_limitations (k_notes w) in
  MkSearchOutcome OkStatus exhausted
    ((stopped_on_key || exhausted) && negb truncated && t_coverage_complete (e_snapshot e) &&
     (is_empty paths || existsb p_proven paths))
    paths limitations (note_witnesses (k_notes w)) (cut_report (k_notes w)) (finish_statistics truncated w).

(** The search from a start label; [None] would be running out of fuel. *)
Definition search_from (fuel : nat) (start : Label) (n : Notes) (destination : nat) : option SearchOutcome :=
  match run fuel destination (initial_work start n) with
  | None => None
  | Some (StopCancelled, w) =>
      Some (early (Failure StatusCode.Cancelled "the caller cancelled the search") false (k_statistics w))
  | Some (stop, w) => Some (finish stop w)
  end.
End search.

Definition search_fuel (label_limit : Z) : nat := S (S (Z.to_nat label_limit)).

Definition run_search `{Platform} (t : TopologySnapshot) (r : PlanningRequest) (options : PlannerOptions)
  (cancelled : nat -> bool) : option SearchOutcome :=
  let e := make_env t r in
  let label_limit := Z.min (label_ceiling options) (max_search_labels r) in
  let expansion_limit := Z.min (expansion_ceiling options) (max_search_expansions r) in
  match PortIndex t (q_source r), PortIndex t (q_destination r) with
  | Some start_port, Some destination =>
      match start_label e start_port (MkDraft no_notes true kReasonSegmentStart) with
      | (_, None) => Some (early OkStatus true no_statistics)
      | (d, Some start) =>
          search_from e label_limit expansion_limit cancelled (search_fuel label_limit) start (d_notes d) destination
      end
  | _, _ =>
      Some (early (Failure StatusCode.Internal "search requires both endpoints to exist in the snapshot") true
              no_statistics)
  end.

(** [run_search] always answers ([run_search_total] below); the fallback is
    never reached. *)
Definition RunSearch `{Platform} (t : TopologySnapshot) (r : PlanningRequest) (options : PlannerOptions)
  (cancelled : nat -> bool) : SearchOutcome :=
  default (early (Failure StatusCode.Internal "") false no_statistics) (run_search t r options cancelled).

(** ** Lemmas: labels only grow

    A step appends labels and sets the [retained], [expanded] and [sequence]
    fields; everything else of a label is fixed once it is pushed. *)

Definition core (l : Label) : Label := set_sequence 0 (set_retained false (set_expanded false l)).

Definition grows (ls ls' : list Label) : Prop :=
  forall i l, ls !! i = Some l -> exists l', ls' !! i = Some l' /\ core l' = core l.

#[export] Instance grows_refl : Reflexive grows.
Proof. intros ls i l Hl. eauto. Qed.
#[export] Instance grows_trans : Transitive grows.
Proof.
  intros a b c Hab Hbc i l Hl. destruct (Hab _ _ Hl) as (l1 & H1 & E1). destruct (Hbc _ _ H1) as (l2 & H2 & E2).
  exists l2. split; [done|congruence].
Qed.

Lemma grows_app ls ls' : grows ls (ls ++ ls').
Proof. intros i l Hl. exists l. split; [|done]. by apply lookup_app_l_Some. Qed.

Lemma grows_alter f i ls : (forall l, core (f l) = core l) -> grows ls (alter f i ls).
Proof.
  intros Hf j l Hl. destruct (decide (j = i)) as [->|Hne].
  - rewrite list_lookup_alter_eq, Hl. simpl. eauto.
  - rewrite list_lookup_alter_ne by done. eauto.
Qed.

Lemma core_fields l l' : core l = core l' ->
  l_port l = l_port l' /\ l_parent l = l_parent l' /\ l_arc l = l_arc l' /\ l_is_start l = l_is_start l' /\
  l_cost l = l_cost l' /\ l_hops l = l_hops l' /\ l_regenerations l = l_regenerations l' /\
  l_proven l = l_proven l'.
Proof. destruct l, l'. unfold core. simpl. intros [=]. subst. auto 10. Qed.

Definition older_parents (ls : list Label) : Prop :=
  forall i l p, ls !! i = Some l -> l_parent l = Some p -> (p < i)%nat.

Lemma chain_fuel ls i f : older_parents ls -> (i < f)%nat -> chain_from f ls i = chain ls i.
Proof.
  intros Hp. unfold chain. revert f. induction (lt_wf i) as [i _ IH]. intros f Hf.
  destruct f as [|f]; [lia|]. simpl. destruct (ls !! i) as [l|] eqn:E; [|done]. f_equal.
  destruct (l_parent l) as [p|] eqn:Ep; [|done]. pose proof (Hp _ _ _ E Ep).
  rewrite (IH p ltac:(lia) f ltac:(lia)). by rewrite (IH p ltac:(lia) i ltac:(lia)).
Qed.

Lemma chain_cons ls i l : older_parents ls -> ls !! i = Some l ->
  chain ls i = l :: match l_parent l with Some p => chain ls p | None => [] end.
Proof.
  intros Hp Hl. unfold chain at 1. simpl. rewrite Hl. f_equal. destruct (l_parent l) as [p|] eqn:Ep; [|done].
  apply chain_fuel; [done|]. by eapply Hp.
Qed.

Lemma chain_grows ls ls' i : grows ls ls' -> older_parents ls -> older_parents ls' -> (i < length ls)%nat ->
  map core (chain ls' i) = map core (chain ls i).
Proof.
  intros Hg Hp Hp'. induction (lt_wf i) as [i _ IH]. intros Hi.
  apply lookup_lt_is_Some_2 in Hi as [l Hl]. destruct (Hg _ _ Hl) as (l' & Hl' & Hc).
  rewrite (chain_cons ls i l), (chain_cons ls' i l') by done. simpl. f_equal; [done|].
  apply core_fields in Hc as (_ & E & _). rewrite E. destruct (l_parent l) as [p|] eqn:Ep; [|done].
  pose proof (Hp _ _ _ Hl Ep). apply IH; [done|]. apply lookup_lt_Some in Hl. lia.
Qed.

(** ** Routes: what a chain of labels spells *)

Section routes.
Context `{Platform} (e : Env).

(** A start label of the search. *)
Record start_ok (l : Label) : Prop := {
  so_is_start : l_is_start l = true;
  so_parent : l_parent l = None;
  so_port : PortIndex (e_snapshot e) (q_source (e_request e)) = Some (l_port l);
  so_zero : l_hops l = 0 /\ l_regenerations l = 0 /\ l_span_count l = 0 /\ l_distance_m l = 0 /\ l_loss_db l = d0 /\
    l_osnr_inverse l = d0;
  so_cost : l_cost l = match pi_node_index (port_info e (l_port l)) with
                       | Some n => wrap64 (p_transit_cost (port_record e (l_port l)) + n_transit_cost (node_record e n))
                       | None => p_transit_cost (port_record e (l_port l))
                       end;
  so_mask : l_mask l = pi_base_mask (port_info e (l_port l)) /\ mask_IsEmpty (l_mask l) = false;
  so_profile : l_profile l = pi_profile_index (port_info e (l_port l));
  so_admitted : ContainsSorted (e_excluded_ports e) (p_key (port_record e (l_port l))) = false /\
    ContainsSorted (e_excluded_nodes e) (node (p_key (port_record e (l_port l)))) = false /\
    DomainsIntersect (p_failure_domains (port_record e (l_port l))) (e_excluded_domains e) = false;
  so_admin : pi_admin (port_info e (l_port l)) <> Fact.Blocked /\ pi_transmit_absent (port_info e (l_port l)) = false;
  so_proven : l_proven l = true ->
    pi_admin (port_info e (l_port l)) = Fact.Good /\ settled_port (port_info e (l_port l)) /\
    pi_mask_known (port_info e (l_port l)) = true /\ pi_transmit (port_info e (l_port l)) = Fact.Good;
}.

(** One hop of a route, over a cross-connect or a span that leaves the port of
    the label before it. *)
Inductive route_step (current l : Label) : Prop :=
| over_cross_connect x :
    In x (OutgoingCrossConnects (e_snapshot e) (l_port current)) -> cross_connect_hop e current x l ->
    route_step current l
| over_span arc :
    In arc (OutgoingSpanArcs (e_snapshot e) (l_port current)) -> span_hop e current arc l -> route_step current l.

(** Labels from a port back to the start: each hop is admitted, no port is
    visited twice, and no failure domain has more members than its limit. *)
Inductive Route : list Label -> Prop :=
| route_start l : start_ok l -> Route [l]
| route_hop l current rest :
    Route (current :: rest) -> route_step current l ->
    ~ In (l_port l) (map l_port (current :: rest)) ->
    (forall domain limit, In (domain, limit) (max_members_per_failure_domain (constraints (e_request e))) ->
       count_back e (l :: current :: rest) domain <= limit) ->
    Route (l :: current :: rest).

Lemma hop_core current l : hop e current l -> hop e (core current) (core l).
Proof. destruct current, l. by intros []; split. Qed.

Lemma route_step_core current l : route_step current l -> route_step (core current) (core l).
Proof.
  intros [x Hin Hx|arc Hin Hx].
  - apply over_cross_connect with x; [by destruct current|]. destruct current, l. destruct Hx as [Hh]; split; try done.
    by apply hop_core in Hh.
  - apply over_span with arc; [by destruct current|]. destruct current, l. destruct Hx as [Hh]; split; try done.
    by apply hop_core in Hh.
Qed.

Lemma start_ok_core l : start_ok l -> start_ok (core l).
Proof. destruct l. by intros []; split. Qed.

(** ** The invariant of the search *)

(** Every label has a route; parents come first. *)
Record routed (ls : list Label) : Prop := {
  routed_older : older_parents ls;
  routed_all : forall i, (i < length ls)%nat -> Route (map core (chain ls i));
}.

Lemma grows_older ls ls' : grows ls ls' -> length ls' = length ls -> older_parents ls -> older_parents ls'.
Proof.
  intros Hg Hlen Ho i l' p Hl' Hp. assert (is_Some (ls !! i)) as [l Hl].
  { apply lookup_lt_is_Some. rewrite <- Hlen. by eapply lookup_lt_Some. }
  destruct (Hg _ _ Hl) as (l2 & Hl2 & Hc). rewrite Hl' in Hl2. injection Hl2 as <-.
  apply core_fields in Hc as (_ & E & _). eapply Ho; [exact Hl|congruence].
Qed.

Lemma routed_grows ls ls' : grows ls ls' -> length ls' = length ls -> routed ls -> routed ls'.
Proof.
  intros Hg Hlen [Ho Hr]. pose proof (grows_older _ _ Hg Hlen Ho) as Ho'. split; [done|].
  intros i Hi. rewrite (chain_grows ls ls') by (done || lia). apply Hr. lia.
Qed.

(** A new label with a route goes at the end. *)
Lemma routed_snoc ls l : routed ls -> (forall p, l_parent l = Some p -> (p < length ls)%nat) ->
  Route (core l :: match l_parent l with Some p => map core (chain ls p) | None => [] end) ->
  routed (ls ++ [l]).
Proof.
  intros [Ho Hr] Hp Hl.
  assert (older_parents (ls ++ [l])) as Ho'.
  { intros i k p Hk Hkp. apply lookup_app_Some in Hk as [Hk|[Hge Hk]]; [by eapply Ho|].
    apply list_lookup_singleton_Some in Hk as [Hi <-]. specialize (Hp _ Hkp). lia. }
  split; [done|]. intros i Hi. rewrite length_app in Hi. simpl in Hi.
  destruct (decide (i < length ls)%nat) as [Hlt|Hge].
  - rewrite (chain_grows ls) by (done || apply grows_app). by apply Hr.
  - assert (i = length ls) as -> by lia.
    rewrite (chain_cons _ _ l) by (done || by apply list_lookup_middle). simpl.
    destruct (l_parent l) as [p|] eqn:E; [|done].
    rewrite (chain_grows ls) by (done || apply grows_app || by apply Hp). done.
Qed.

Lemma PortOnPath_ports ls i port_index :
  PortOnPath ls i port_index = false -> ~ In port_index (map l_port (map core (chain ls i))).
Proof.
  unfold PortOnPath. intros Hp Hin. rewrite map_map in Hin. apply in_map_iff in Hin as (l & <- & Hl).
  assert (existsb (fun l0 => (l_port l0 =? l_port (core l))%nat) (chain ls i) = true) as E.
  { apply existsb_exists. exists l. split; [done|]. by rewrite Nat.eqb_eq. }
  congruence.
Qed.

Lemma count_back_core ls domain : count_back e (map core ls) domain = count_back e ls domain.
Proof.
  induction ls as [|l ls IH]; [done|]. cbn [map count_back].
  change (l_is_start (core l)) with (l_is_start l). change (l_port (core l)) with (l_port l).
  change (l_arc (core l)) with (l_arc l).
  destruct (l_is_start l); [done|]. destruct ls as [|p ls]; [done|]. cbn [map] in *.
  rewrite IH. done.
Qed.

(** A label an expansion made has a route. *)
Lemma expanded_route ls i here current l :
  routed ls -> ls !! i = Some here -> core here = core current -> placed e ls i l -> route_step current l ->
  Route (core l :: match l_parent l with Some p => map core (chain ls p) | None => [] end).
Proof.
  intros [Ho Hr] Hi Hc [Hp Hs Hm _] Hstep. rewrite Hp.
  specialize (Hr i (lookup_lt_Some _ _ _ Hi)). pose proof (PortOnPath_ports _ _ _ Hs) as Hni.
  rewrite (chain_cons _ _ _ Ho Hi) in *. cbn [map] in *.
  set (rest := match l_parent here with Some p => chain ls p | None => [] end) in *.
  apply route_hop; [done|rewrite Hc; by apply route_step_core|done|].
  intros domain limit Hin. change (core l :: core here :: map core rest) with (map core (l :: here :: rest)).
  rewrite count_back_core. unfold members_exceeded in Hm.
  assert (snd (domain, limit) <? DomainCount e ls i (l_arc l) (l_port l) (fst (domain, limit)) = false) as Hlim.
  { destruct (_ <? _) eqn:E; [|done]. rewrite <- Hm. symmetry. apply existsb_exists. by exists (domain, limit). }
  apply Z.ltb_ge in Hlim. simpl in Hlim. unfold DomainCount in Hlim. rewrite Hi, (chain_cons _ _ _ Ho Hi) in Hlim.
  fold rest in Hlim. cbn [count_back] in *.
  assert (l_is_start l = false) as -> by (destruct Hstep as [? _ []|? _ []]; by eapply hop_not_start).
  lia.
Qed.

Context (label_limit : Z).

(** The start label is pushed whatever the limit. *)
Definition label_bound : Z := Z.max 1 label_limit.

Definition entry_ok (ls : list Label) (q : QueueEntry) : Prop :=
  exists l, ls !! q_label q = Some l /\
    (q_cost q, (q_hops q, q_regenerations q)) = (l_cost l, (l_hops l, l_regenerations l)).

Record good (w : Work) : Prop := {
  good_routed : routed (k_labels w);
  good_frontier : Forall (entry_ok (k_labels w)) (k_frontier w);
  good_size : size (k_labels w) <= label_bound;
}.

(** The statistics only the end of the search sets. *)
Definition unset (s : PlanningStatistics) : Z * bool := (labels_created s, st_truncated s).

(** What the expansion of a label leaves alone. *)
Record expands (w w' : Work) : Prop := {
  expands_labels : grows (k_labels w) (k_labels w');
  expands_buckets : k_buckets w' = k_buckets w;
  expands_destinations : k_destinations w' = k_destinations w;
  expands_expanded : labels_expanded (k_statistics w') = labels_expanded (k_statistics w);
  expands_unset : unset (k_statistics w') = unset (k_statistics w);
  expands_polls : k_polls w' = k_polls w;
  expands_measure : (length (k_labels w') + length (k_frontier w) = length (k_labels w) + length (k_frontier w'))%nat;
}.

Lemma expands_refl w : expands w w.
Proof. split; done || reflexivity. Qed.

Lemma expands_trans w1 w2 w3 : expands w1 w2 -> expands w2 w3 -> expands w1 w3.
Proof. intros [] []. split; try congruence; [by etransitivity|lia]. Qed.

Lemma entry_ok_grows ls ls' q : grows ls ls' -> entry_ok ls q -> entry_ok ls' q.
Proof.
  intros Hg (l & Hl & E). destruct (Hg _ _ Hl) as (l' & Hl' & Hc). exists l'. split; [done|].
  apply core_fields in Hc as (_ & _ & _ & _ & Ec & Eh & Er & _). congruence.
Qed.

Lemma push_label_good w l :
  good w -> size (k_labels w) < label_bound -> (forall p, l_parent l = Some p -> (p < length (k_labels w))%nat) ->
  Route (core l :: match l_parent l with Some p => map core (chain (k_labels w) p) | None => [] end) ->
  good (push_label l w) /\ expands w (push_label l w).
Proof.
  intros [Hr Hf Hs] Hlt Hp HR. split; [split; simpl|split; simpl; try done].
  - by apply routed_snoc.
  - rewrite insert_by_perm. constructor.
    + exists (set_sequence (k_sequence w) l). simpl. split; [|done]. by apply list_lookup_middle.
    + eapply Forall_impl; [exact Hf|]. intros q. apply entry_ok_grows, grows_app.
  - unfold size in *. rewrite length_app. simpl. lia.
  - apply grows_app.
  - rewrite length_app, insert_by_perm. simpl. lia.
Qed.

Section expansion.
Context {X : Type} (expand : list Label -> X -> Arc Label) (i : nat) (current : Label) (arcs : list X).
Context (expand_ok : forall ls x d, In x arcs -> d_proven d = l_proven current ->
  wp (expand ls x) (fun l _ => placed e ls i l /\ route_step current l) d).

Lemma expand_arcs_good rest w :
  (forall x, In x rest -> In x arcs) -> good w ->
  (exists here, k_labels w !! i = Some here /\ core here = core current) ->
  good (fst (expand_arcs label_limit expand current rest w)) /\
  expands w (fst (expand_arcs label_limit expand current rest w)).
Proof.
  revert w; induction rest as [|x rest IH]; intros w Hin Hg (here & Hi & Hc); [split; [done|apply expands_refl]|].
  cbn [expand_arcs]. set (w1 := with_statistics (examined (k_statistics w)) w).
  change (k_labels w1) with (k_labels w). change (k_notes w1) with (k_notes w).
  pose proof (expand_ok (k_labels w) x (next_draft current (k_notes w)) (Hin x (or_introl eq_refl)) eq_refl) as Hx.
  unfold wp in Hx. destruct (expand (k_labels w) x (next_draft current (k_notes w))) as [d [l|]].
  - destruct Hx as [Hpl Hst].
    assert (good (with_notes (d_notes d) w1)) as Hg1 by (destruct Hg; by split).
    assert (expands w (with_notes (d_notes d) w1)) as He1 by (split; done || reflexivity).
    destruct (Z.leb_spec label_limit (size (k_labels (with_notes (d_notes d) w1)))) as [Hfull|Hroom].
    { split; [destruct Hg; by split|split; done || reflexivity]. }
    destruct (push_label_good (with_notes (d_notes d) w1) l Hg1) as [Hg2 He2].
    + unfold label_bound. lia.
    + intros p Hp. rewrite (placed_parent _ _ _ _ Hpl) in Hp. injection Hp as <-. by eapply lookup_lt_Some.
    + eapply expanded_route; [apply Hg1|exact Hi|exact Hc|exact Hpl|exact Hst].
    + destruct (IH (push_label l (with_notes (d_notes d) w1))) as [Hg3 He3]; [intros; apply Hin; by right|done| |].
      * destruct (expands_labels _ _ He2 _ _ Hi) as (h & Hh & Ehc). exists h. split; [done|congruence].
      * split; [done|]. eapply expands_trans; [exact He1|]. by eapply expands_trans.
  - destruct (IH (with_notes (d_notes d) w1)) as [Hg3 He3]; [intros; apply Hin; by right|destruct Hg; by split|eauto|].
    split; [done|]. eapply expands_trans; [|exact He3]. split; done || reflexivity.
Qed.
End expansion.

Lemma expand_label_good i current w :
  good w -> (exists here, k_labels w !! i = Some here /\ core here = core current) ->
  good (fst (expand_label e label_limit i current w)) /\ expands w (fst (expand_label e label_limit i current w)).
Proof.
  intros Hg Hi. unfold expand_label.
  destruct (expand_arcs_good (fun ls x => expand_cross_connect e ls i current x) i current
    (OutgoingCrossConnects (e_snapshot e) (l_port current))) with (rest := OutgoingCrossConnects (e_snapshot e) (l_port current)) (w := w)
    as [Hg1 He1]; [|done|done|done|].
  { intros ls x d Hx Hd. pose proof (wp_expand_cross_connect e ls i current x d Hd) as Hwp. unfold wp in *.
    destruct (expand_cross_connect e ls i current x d) as [d' [l|]]; [|done]. destruct Hwp as [Hpl Hh].
    split; [done|]. by apply over_cross_connect with x. }
  destruct (expand_arcs label_limit _ current (OutgoingCrossConnects _ _) w) as [w1 [|]]; [done|]. simpl in Hg1, He1.
  destruct (expand_arcs_good (fun ls arc => expand_span e ls i current arc) i current
    (OutgoingSpanArcs (e_snapshot e) (l_port current))) with (rest := OutgoingSpanArcs (e_snapshot e) (l_port current)) (w := w1)
    as [Hg2 He2]; [|done|done| |].
  { intros ls x d Hx Hd. pose proof (wp_expand_span e ls i current x d Hd) as Hwp. unfold wp in *.
    destruct (expand_span e ls i current x d) as [d' [l|]]; [|done]. destruct Hwp as [Hpl Hh].
    split; [done|]. by apply over_span with x. }
  { destruct Hi as (h & Hh & Hc). destruct (expands_labels _ _ He1 _ _ Hh) as (h' & Hh' & Hc'). exists h'. split; [done|congruence]. }
  split; [done|]. by eapply expands_trans.
Qed.
End routes.

(** ** The loop: invariant and termination *)

Section loop.
Context `{Platform} (e : Env) (label_limit expansion_limit : Z) (cancelled : nat -> bool) (destination : nat).

Lemma scan_bucket_grows bucket ls current :
  let '(kept, ls', _) := scan_bucket bucket ls current in grows ls ls' /\ length ls' = length ls.
Proof.
  revert ls; induction bucket as [|other rest IH]; intros ls; simpl; [done|].
  destruct (ls !! other) as [l|] eqn:El; [|apply IH]. destruct (negb (l_retained l)); [apply IH|].
  destruct (Dominates l current).
  - specialize (IH ls). by destruct (scan_bucket rest ls current) as [[kept ls'] d].
  - destruct (Dominates current l).
    + specialize (IH (alter (set_retained false) other ls)).
      destruct (scan_bucket rest (alter (set_retained false) other ls) current) as [[kept ls'] d].
      destruct IH as [Hg Hl]. rewrite length_alter in Hl. split; [|done].
      etransitivity; [|exact Hg]. apply grows_alter. by intros [].
    + specialize (IH ls). by destruct (scan_bucket rest ls current) as [[kept ls'] d].
Qed.

Lemma good_grows w w' :
  good e label_limit w -> grows (k_labels w) (k_labels w') -> length (k_labels w') = length (k_labels w) ->
  k_frontier w' = k_frontier w -> good e label_limit w'.
Proof.
  intros [Hr Hf Hs] Hg Hlen Hfr. split.
  - by eapply routed_grows.
  - rewrite Hfr. eapply Forall_impl; [exact Hf|]. intros q. by apply entry_ok_grows.
  - unfold size in *. by rewrite Hlen.
Qed.

Lemma settle_spec i current w :
  good e label_limit w -> k_labels w !! i = Some current ->
  let w' := fst (settle i current w) in
  good e label_limit w' /\ grows (k_labels w) (k_labels w') /\ length (k_labels w') = length (k_labels w) /\
  k_frontier w' = k_frontier w /\ k_destinations w' = k_destinations w /\
  unset (k_statistics w') = unset (k_statistics w) /\
  labels_expanded (k_statistics w') =
    labels_expanded (k_statistics w) + (if snd (settle i current w) then 0 else 1).
Proof.
  intros Hgood Hi. unfold settle.
  pose proof (scan_bucket_grows (default [] (k_buckets w !! bucket_of current)) (k_labels w) current) as Hs.
  destruct (scan_bucket _ (k_labels w) current) as [[kept ls'] dominated]. destruct Hs as [Hg Hl].
  assert (grows ls' (alter (fun l => set_expanded true (set_retained true l)) i ls')) as Hg2
    by (apply grows_alter; intros []; reflexivity).
  destruct dominated; cbv zeta; simpl.
  - split_and!; [by apply (good_grows w)|done..|lia].
  - rewrite length_alter. split_and!; [|by etransitivity|done..].
    apply (good_grows w); simpl; [done|by etransitivity|by rewrite length_alter|done].
Qed.

Definition at_destination (ls : list Label) (i : nat) : Prop :=
  exists l, ls !! i = Some l /\ l_port l = destination.

(** The invariant of the loop. *)
Record sound (w : Work) : Prop := {
  sound_good : good e label_limit w;
  sound_destinations : Forall (at_destination (k_labels w)) (k_destinations w);
  sound_expanded : 0 <= labels_expanded (k_statistics w) <= Z.max 0 expansion_limit;
  sound_unset : unset (k_statistics w) = (0, false);
}.

Lemma at_destination_grows ls ls' i : grows ls ls' -> at_destination ls i -> at_destination ls' i.
Proof.
  intros Hg (l & Hl & E). destruct (Hg _ _ Hl) as (l' & Hl' & Hc). exists l'. split; [done|].
  apply core_fields in Hc as (Ep & _). congruence.
Qed.

(** Every turn of the loop that goes on takes one entry off the frontier for
    good: what is left of the label budget plus the frontier decreases. *)
Definition measure (w : Work) : nat :=
  (Z.to_nat (label_bound label_limit) - length (k_labels w)) + length (k_frontier w).

Lemma step_continues w w' :
  sound w -> step e label_limit expansion_limit cancelled destination w = inl w' ->
  sound w' /\ S (measure w') = measure w.
Proof.
  intros [Hg Hd Hx Hu]. unfold step. destruct (k_frontier w) as [|entry frontier] eqn:Hf; [done|]. cbv zeta.
  destruct (cancelled (k_polls w)); [done|].
  change (k_statistics (poll w)) with (k_statistics w).
  destruct (Z.leb_spec expansion_limit (labels_expanded (k_statistics w))) as [|Hroom]; [done|].
  set (w1 := with_frontier frontier (poll w)).
  assert (good e label_limit w1) as Hg1.
  { destruct Hg as [? HF ?]. rewrite Hf in HF. split; try done. by inversion HF. }
  assert (measure w = S (measure w1)) as Hm by (unfold measure; simpl; rewrite Hf; simpl; lia).
  destruct (k_labels w1 !! q_label entry) as [current|] eqn:Hi; [|by intros [= <-]].
  destruct (l_expanded current); [by intros [= <-]|]. destruct (enough_destinations e entry w1); [done|].
  destruct (settle_spec (q_label entry) current w1 Hg1 Hi) as (Hg2 & Hgr & Hlen & Hfr & Hde & Hus & Hex).
  change (unset (k_statistics w1)) with (unset (k_statistics w)) in Hus.
  destruct (settle (q_label entry) current w1) as [w2 dominated]. cbn [fst snd] in *.
  assert (measure w2 = measure w1) as Hm2 by (unfold measure; by rewrite Hlen, Hfr).
  assert (Forall (at_destination (k_labels w2)) (k_destinations w2)) as Hd2.
  { rewrite Hde. eapply Forall_impl; [exact Hd|]. intros i. by apply at_destination_grows. }
  change (labels_expanded (k_statistics w1)) with (labels_expanded (k_statistics w)) in Hex.
  destruct dominated.
  { intros [= <-]. split; [split; [done..|lia|congruence]|lia]. }
  destruct (Nat.eqb_spec (l_port current) destination) as [Hdest|_].
  { intros [= <-]. split; [split; simpl; [destruct Hg2; by split| |lia|congruence]|unfold measure in *; simpl; lia].
    apply Forall_app. split; [done|]. constructor; [|done]. eapply at_destination_grows; [exact Hgr|]. by exists current. }
  assert (exists here, k_labels w2 !! q_label entry = Some here /\ core here = core current) as Hhere
    by (by apply Hgr).
  destruct (expand_label_good e label_limit (q_label entry) current w2 Hg2 Hhere) as [Hg3 He3].
  destruct (expand_label e label_limit (q_label entry) current w2) as [w3 [|]]; [done|]. intros [= <-].
  cbn [fst] in *. split.
  - split; [done| | |].
    + rewrite (expands_destinations _ _ He3). eapply Forall_impl; [exact Hd2|]. intros i.
      apply at_destination_grows, (expands_labels _ _ He3).
    + rewrite (expands_expanded _ _ He3). lia.
    + by rewrite (expands_unset _ _ He3), Hus.
  - pose proof (expands_measure _ _ He3). pose proof (good_size _ _ _ Hg3). pose proof (good_size _ _ _ Hg2). unfold measure, size in *. lia.
Qed.
(** What the stop reasons report. *)
Definition stop_reason (stop : Stop) (w : Work) : Prop :=
  match stop with
  | FrontierEmpty => k_frontier w = []
  | StopCancelled => exists n, cancelled n = true
  | _ => True
  end.

Lemma step_stops w stop w' :
  sound w -> step e label_limit expansion_limit cancelled destination w = inr (stop, w') ->
  sound w' /\ stop_reason stop w'.
Proof.
  intros Hw. pose proof Hw as [Hg Hd Hx Hu]. unfold step. destruct (k_frontier w) as [|entry frontier] eqn:Hf.
  { by intros [= <- <-]. }
  cbv zeta. destruct (cancelled (k_polls w)) eqn:Hc.
  { intros [= <- <-]. split; [split; [destruct Hg; by split|done..]|by exists (k_polls w)]. }
  change (k_statistics (poll w)) with (k_statistics w).
  destruct (Z.leb_spec expansion_limit (labels_expanded (k_statistics w))) as [|Hroom].
  { intros [= <- <-]. split; [split; [destruct Hg; by split|done..]|done]. }
  set (w1 := with_frontier frontier (poll w)).
  assert (good e label_limit w1) as Hg1.
  { destruct Hg as [? HF ?]. rewrite Hf in HF. split; try done. by inversion HF. }
  destruct (k_labels w1 !! q_label entry) as [current|] eqn:Hi; [|done].
  destruct (l_expanded current); [done|]. destruct (enough_destinations e entry w1).
  { by intros [= <- <-]. }
  destruct (settle_spec (q_label entry) current w1 Hg1 Hi) as (Hg2 & Hgr & Hlen & Hfr & Hde & Hus & Hex).
  change (unset (k_statistics w1)) with (unset (k_statistics w)) in Hus.
  destruct (settle (q_label entry) current w1) as [w2 dominated]. cbn [fst snd] in *.
  destruct dominated; [done|]. destruct (l_port current =? destination)%nat; [done|].
  assert (exists here, k_labels w2 !! q_label entry = Some here /\ core here = core current) as Hhere
    by (by apply Hgr).
  destruct (expand_label_good e label_limit (q_label entry) current w2 Hg2 Hhere) as [Hg3 He3].
  destruct (expand_label e label_limit (q_label entry) current w2) as [w3 [|]]; [|done]. intros [= <- <-].
  cbn [fst] in *. split; [|done]. split; [done| | |by rewrite (expands_unset _ _ He3), Hus].
  - rewrite (expands_destinations _ _ He3), Hde. eapply Forall_impl; [exact Hd|]. intros i Hat.
    eapply at_destination_grows; [apply (expands_labels _ _ He3)|]. by eapply at_destination_grows.
  - rewrite (expands_expanded _ _ He3), Hex. change (k_statistics w1) with (k_statistics w). lia.
Qed.

Lemma run_total fuel w : sound w -> (measure w < fuel)%nat ->
  exists stop w', run e label_limit expansion_limit cancelled fuel destination w = Some (stop, w') /\
    sound w' /\ stop_reason stop w'.
Proof.
  revert w; induction fuel as [|fuel IH]; intros w Hw Hm; [lia|]. simpl.
  destruct (step e label_limit expansion_limit cancelled destination w) as [w1|[stop w1]] eqn:E.
  - apply step_continues in E as [Hs Hd]; [|done]. apply IH; [done|lia].
  - apply step_stops in E as [Hs Hr]; [|done]. eauto.
Qed.

Lemma initial_sound start n : start_ok e start -> sound (initial_work start n) /\
  (measure (initial_work start n) <= Z.to_nat (label_bound label_limit))%nat.
Proof.
  intros Hs. unfold initial_work, push_label, measure; simpl. split; [|unfold label_bound; lia].
  split; [|done|simpl; lia|done]. split; simpl.
  - apply (routed_snoc e []).
    + split; [by intros [|i]|]. simpl. lia.
    + simpl. by rewrite (so_parent _ _ Hs).
    + simpl. rewrite (so_parent _ _ Hs). apply route_start. by apply start_ok_core in Hs.
  - constructor; [|done]. by eexists.
  - unfold size, label_bound. simpl. lia.
Qed.
End loop.

Lemma wp_start_label `{Platform} e start_port d :
  PortIndex (e_snapshot e) (q_source (e_request e)) = Some start_port ->
  wp (start_label e start_port) (fun l _ => start_ok e l) d.
Proof.
  intros Hp. unfold start_label. cbv zeta.
  apply wp_bind, wp_cut_if. intros [[Ha1 Ha2]%orb_false_iff Ha3]%orb_false_iff.
  apply wp_bind, wp_mark. intros d1 K1. apply wp_bind.
  assert (forall Q, (forall d2, pi_admin (port_info e start_port) <> Fact.Blocked ->
      (d_proven d2 = true -> d_proven d1 = true /\ pi_admin (port_info e start_port) = Fact.Good) -> Q tt d2) ->
    wp (match pi_admin (port_info e start_port) with
        | Fact.Blocked => cut CutReason.SourceAdminDown
        | Fact.Missing => doubt kLimitationUnknownQualityField CutReason.SourceAdminDown
            (ForPort (p_key (port_record e start_port))) "administrative state not published"
        | Fact.Good => mark (Z.lor kReasonAdminUp kReasonPortAdmitted)
        end) Q d1) as Hadmin.
  { intros Q HQ. destruct (pi_admin (port_info e start_port)).
    - apply wp_mark. intros d2 E. apply HQ; auto.
    - apply wp_cut.
    - apply wp_doubt. intros d2 E. apply HQ; congruence. }
  apply Hadmin. clear Hadmin. intros d2 Hb K2.
  apply wp_bind, wp_target_doubts. intros d3 K3. apply wp_bind, wp_doubt_if. intros d4 K4.
  apply wp_bind, wp_cut_if. intros Habs. apply wp_bind, wp_good_or_doubt. intros d5 K5.
  apply wp_bind, wp_cut_if. intros Hempty. apply wp_bind, wp_mark. intros d6 K6.
  unfold wp. split; simpl; try done. intros E. proven_chain. split_and!; try done. by apply negb_false_iff.
Qed.

(** What a finished search is: its paths come from routes to the destination. *)
Record search_facts `{Platform} (e : Env) (label_limit expansion_limit : Z) (destination : nat)
  (o : SearchOutcome) : Prop := {
  sf_paths : forall path, In path (o_paths o) -> exists l rest,
    Route e (l :: rest) /\ l_port l = destination /\ p_arcs path = rev (arcs_back (l :: rest)) /\
    p_cost path = l_cost l /\ p_hops path = l_hops l /\ p_regenerations path = l_regenerations l /\
    p_proven path = l_proven l;
  sf_labels : labels_created (o_statistics o) <= label_bound label_limit;
  sf_expanded : 0 <= labels_expanded (o_statistics o) <= Z.max 0 expansion_limit;
  sf_optimum : o_proved_optimum o = true ->
    t_coverage_complete (e_snapshot e) = true /\ st_truncated (o_statistics o) = false /\
    (o_paths o = [] \/ exists path, In path (o_paths o) /\ p_proven path = true);
  sf_truncated : st_truncated (o_statistics o) = true -> o_exhausted o = false /\
    Z.testbit (o_limitations o) 6 = true;
}.

Lemma arcs_back_core ls : arcs_back (map core ls) = arcs_back ls.
Proof.
  induction ls as [|l ls IH]; [done|]. cbn [map arcs_back].
  change (l_is_start (core l)) with (l_is_start l). change (l_arc (core l)) with (l_arc l). by rewrite IH.
Qed.

Lemma finish_facts `{Platform} e label_limit expansion_limit destination stop w :
  sound e label_limit expansion_limit destination w ->
  search_facts e label_limit expansion_limit destination (finish e stop w).
Proof.
  intros [Hg Hd Hx _]. split; simpl.
  - intros path Hin. apply list_elem_of_In, list_elem_of_omap in Hin as (i & Hi & Hp).
    rewrite Forall_forall in Hd. apply Hd in Hi as (l & Hl & Hdest).
    unfold retained_path in Hp. rewrite Hl in Hp. destruct (l_retained l); [|done]. injection Hp as <-. simpl.
    destruct (good_routed _ _ _ Hg) as [Ho Hr]. specialize (Hr i (lookup_lt_Some _ _ _ Hl)).
    unfold path_arcs. rewrite <- (arcs_back_core (chain (k_labels w) i)).
    rewrite (chain_cons _ _ _ Ho Hl) in *. cbn [map] in *. eexists _, _. split; [exact Hr|]. by destruct l.
  - apply Hg.
  - done.
  - rewrite !andb_true_iff, orb_true_iff, !negb_true_iff. intros [[[_ Ht] Hc] Hp]. split; [done|]. split; [done|].
    destruct (omap _ _) as [|path paths]; [by left|]. right.
    apply orb_true_iff in Hp as [Hp|Hp]; [done|]. by apply existsb_exists in Hp.
  - destruct stop; try done. intros _. rewrite andb_false_r. split; [done|].
    change (Z.testbit (Z.lor (note_limitations (k_notes w)) kLimitationSearchTruncated) 6 = true).
    rewrite Z.lor_spec. by rewrite orb_true_r.
Qed.

Lemma early_facts `{Platform} e label_limit expansion_limit destination status exhausted s :
  0 <= labels_expanded s <= Z.max 0 expansion_limit -> labels_created s <= label_bound label_limit ->
  st_truncated s = false ->
  search_facts e label_limit expansion_limit destination (early status exhausted s).
Proof. intros Hx Hl Ht. split; simpl; try done. congruence. Qed.


(** The parameters of a search of [t] for [r]. *)
Definition search_labels (r : PlanningRequest) (options : PlannerOptions) : Z :=
  Z.min (label_ceiling options) (max_search_labels r).
Definition search_expansions (r : PlanningRequest) (options : PlannerOptions) : Z :=
  Z.min (expansion_ceiling options) (max_search_expansions r).

Lemma run_search_facts `{Platform} t r options cancelled :
  exists o, run_search t r options cancelled = Some o /\
    forall destination, PortIndex t (q_destination r) = Some destination ->
    search_facts (make_env t r) (search_labels r options) (search_expansions r options) destination o.
Proof.
  unfold run_search, search_labels, search_expansions.
  assert (forall ll el d s b, search_facts (make_env t r) ll el d (early s b no_statistics)) as Hearly.
  { intros. apply early_facts; unfold label_bound; simpl; [lia..|done]. }
  destruct (PortIndex t (q_source r)) as [start_port|] eqn:Es; [|eexists; split; [done|intros; apply Hearly]].
  destruct (PortIndex t (q_destination r)) as [destination|]; [|eexists; split; [done|intros; apply Hearly]].
  pose proof (wp_start_label (make_env t r) start_port (MkDraft no_notes true kReasonSegmentStart) Es) as Hs.
  unfold wp in Hs. destruct (start_label _ _ _) as [d [start|]]; [|eexists; split; [done|intros; apply Hearly]].
  set (ll := Z.min (label_ceiling options) (max_search_labels r)).
  set (el := Z.min (expansion_ceiling options) (max_search_expansions r)).
  destruct (initial_sound (make_env t r) ll el destination start (d_notes d) Hs) as [Hi Hm].
  destruct (run_total (make_env t r) ll el cancelled destination (search_fuel ll) _ Hi) as (stop & w & Hrun & Hw & _).
  { unfold search_fuel, label_bound in *. lia. }
  unfold search_from. rewrite Hrun.
  exists (match stop with
          | StopCancelled =>
              early (Failure StatusCode.Cancelled "the caller cancelled the search") false (k_statistics w)
          | _ => finish (make_env t r) stop w
          end).
  split; [by destruct stop|]. intros ? [= <-].
  destruct stop; try by apply finish_facts.
  destruct Hw as [Hg _ Hx [= Hc Ht]]. apply early_facts; [done| |done]. rewrite Hc. unfold label_bound. lia.
Qed.

Lemma RunSearch_facts `{Platform} t r options cancelled destination :
  PortIndex t (q_destination r) = Some destination ->
  search_facts (make_env t r) (search_labels r options) (search_expansions r options) destination
    (RunSearch t r options cancelled).
Proof.
  intros Hd. unfold RunSearch. destruct (run_search_facts t r options cancelled) as (o & -> & Ho). by apply Ho.
Qed.

(** ** Lemmas: the status of a search *)

Lemma run_cancelled `{Platform} e label_limit expansion_limit cancelled fuel destination w w' :
  run e label_limit expansion_limit cancelled fuel destination w = Some (StopCancelled, w') -> exists n, cancelled n = true.
Proof.
  revert w. induction fuel as [|f IH]; intros w; [done|]. simpl.
  destruct (step _ _ _ _ _ w) as [v|[stop v]] eqn:E; [apply IH|]. intros [= -> ->]. unfold step in E.
  destruct (k_frontier w) as [|entry frontier]; [done|].
  destruct (cancelled (k_polls w)) eqn:Ec; [eauto|]. cbv zeta in E.
  repeat (case_in E; try done).
Qed.

(** A search between ports of the snapshot fails only by cancellation. *)
Lemma RunSearch_status `{Platform} t r options cancelled :
  is_Some (PortIndex t (q_source r)) -> is_Some (PortIndex t (q_destination r)) ->
  let o := RunSearch t r options cancelled in
  failed (o_status o) = false \/
  (code (o_status o) = StatusCode.Cancelled /\ o_paths o = [] /\ exists n, cancelled n = true).
Proof.
  intros [start_port Es] [destination Ed]. unfold RunSearch.
  destruct (run_search_facts t r options cancelled) as (o & E & _). rewrite E. simpl. revert E.
  unfold run_search. rewrite Es, Ed. destruct (start_label _ _ _) as [d [start|]]; [|intros [= <-]; by left].
  unfold search_from. destruct (run _ _ _ _ _ _ _) as [[stop w]|] eqn:Er; [|done].
  destruct stop; intros [= <-]; [by left| |by left|by left]. right. split_and!; [done..|]. by eapply run_cancelled.
Qed.
