(* ===== verification/Budgets.v ===== *)
(** * Budgets: when the budgets of a search cut it short

    A search that is not marked truncated is the search without budgets: with
    more labels and more expansions it takes the same steps and ends in the same
    outcome.  A search that is marked has met one of its two budgets. *)

From S2P Require Import Prelude Status Ids Doubles Spectrum Canonical Topology Request Outcome SearchFacts SearchArcs Search.

(** The request with other budgets. *)
Definition with_budgets (labels expansions : Z) (r : PlanningRequest) : PlanningRequest :=
  MkRequest (format_version r) (q_id r) (q_source r) (q_destination r) (channel_width_slots r) (max_candidates r)
    (max_regenerations r) (max_hops r) (max_total_cost r) (q_disjointness r) (constraints r)
    (required_source_generations r) (required_snapshot_generation r) (expected_snapshot_digest r)
    (accept_restored_evidence r) expansions labels.

(** ** Lemmas: more room changes nothing until a budget is met *)

Section loop.
Context `{Platform} (e : Env) (cancelled : nat -> bool) (destination : nat).
Context (labels more_labels expansions more_expansions : Z).
Context (Hlabels : labels <= more_labels) (Hexpansions : expansions <= more_expansions).

Lemma expand_arcs_roomier {X} (expand : list Label -> X -> Arc Label) current arcs w w' :
  expand_arcs labels expand current arcs w = (w', false) -> expand_arcs more_labels expand current arcs w = (w', false).
Proof.
  revert w; induction arcs as [|x arcs IH]; intros w; [done|]. cbn [expand_arcs]. cbv zeta.
  destruct (expand _ x _) as [d [l|]]; [|apply IH].
  destruct (Z.leb_spec labels (size (k_labels (with_notes (d_notes d) (with_statistics (examined (k_statistics w)) w)))));
    [done|]. rewrite (proj2 (Z.leb_gt _ _)) by lia. apply IH.
Qed.

Lemma expand_label_roomier i current w w' :
  expand_label e labels i current w = (w', false) -> expand_label e more_labels i current w = (w', false).
Proof.
  unfold expand_label. destruct (expand_arcs labels _ current _ w) as [w1 [|]] eqn:E1; [done|].
  rewrite (expand_arcs_roomier _ _ _ _ _ E1). apply expand_arcs_roomier.
Qed.

Lemma step_roomier w next :
  step e labels expansions cancelled destination w = next ->
  (forall w', next <> inr (StopTruncated, w')) ->
  step e more_labels more_expansions cancelled destination w = next.
Proof.
  intros <-. unfold step. destruct (k_frontier w) as [|entry frontier]; [done|]. cbv zeta.
  destruct (cancelled (k_polls w)); [done|].
  destruct (Z.leb_spec expansions (labels_expanded (k_statistics (poll w)))); [intros Hn; by destruct (Hn _ eq_refl)|].
  rewrite (proj2 (Z.leb_gt _ _)) by lia.
  destruct (k_labels _ !! q_label entry) as [current|]; [|done]. destruct (l_expanded current); [done|].
  destruct (enough_destinations e entry _); [done|]. destruct (settle _ current _) as [w2 [|]]; [done|].
  destruct (_ =? _)%nat; [done|]. destruct (expand_label e labels _ current w2) as [w3 [|]] eqn:E3.
  - intros Hn. by destruct (Hn _ eq_refl).
  - by rewrite (expand_label_roomier _ _ _ _ E3).
Qed.

(** The same steps, with at least as much fuel. *)
Lemma run_roomier fuel more_fuel w stop w' :
  (fuel <= more_fuel)%nat -> stop <> StopTruncated ->
  run e labels expansions cancelled fuel destination w = Some (stop, w') ->
  run e more_labels more_expansions cancelled more_fuel destination w = Some (stop, w').
Proof.
  intros Hle Hs. revert more_fuel Hle w; induction fuel as [|fuel IH]; intros [|more] Hle w; try done; [lia|].
  cbn [run]. destruct (step e labels expansions cancelled destination w) as [w1|[stop1 w1]] eqn:E.
  - rewrite (step_roomier _ _ E) by done. apply IH. lia.
  - intros [= -> ->]. by rewrite (step_roomier _ _ E) by congruence.
Qed.
End loop.

(** ** Lemmas: a truncated search has met a budget *)

Section truncation.
Context `{Platform} (e : Env) (cancelled : nat -> bool) (destination : nat) (labels expansions : Z).

Definition budget_met (w : Work) : Prop := labels <= size (k_labels w) \/ expansions <= labels_expanded (k_statistics w).

Lemma expand_arcs_full {X} (expand : list Label -> X -> Arc Label) current arcs w w' :
  expand_arcs labels expand current arcs w = (w', true) -> labels <= size (k_labels w').
Proof.
  revert w; induction arcs as [|x arcs IH]; intros w; [done|]. cbn [expand_arcs]. cbv zeta.
  destruct (expand _ x _) as [d [l|]]; [|apply IH]. destruct (Z.leb_spec labels (size (k_labels
    (with_notes (d_notes d) (with_statistics (examined (k_statistics w)) w))))); [by intros [= <-]|apply IH].
Qed.

Lemma step_truncates w w' :
  step e labels expansions cancelled destination w = inr (StopTruncated, w') -> budget_met w'.
Proof.
  unfold step. destruct (k_frontier w) as [|entry frontier]; [done|]. cbv zeta.
  destruct (cancelled (k_polls w)); [done|].
  destruct (Z.leb_spec expansions (labels_expanded (k_statistics (poll w)))); [intros [= <-]; by right|].
  destruct (k_labels _ !! q_label entry) as [current|]; [|done]. destruct (l_expanded current); [done|].
  destruct (enough_destinations e entry _); [done|]. destruct (settle _ current _) as [w2 [|]]; [done|].
  destruct (_ =? _)%nat; [done|]. unfold expand_label.
  destruct (expand_arcs labels _ current _ w2) as [w3 [|]] eqn:E3.
  { intros [= <-]. left. by eapply expand_arcs_full. }
  destruct (expand_arcs labels _ current _ w3) as [w4 [|]] eqn:E4; [|done].
  intros [= <-]. left. by eapply expand_arcs_full.
Qed.

Lemma run_truncates fuel w w' :
  run e labels expansions cancelled fuel destination w = Some (StopTruncated, w') -> budget_met w'.
Proof.
  revert w; induction fuel as [|fuel IH]; intros w; [done|]. cbn [run].
  destruct (step e labels expansions cancelled destination w) as [w1|[stop1 w1]] eqn:E; [apply IH|].
  intros [= -> ->]. by eapply step_truncates.
Qed.
End truncation.

(** ** Lemmas: the outcome *)

Section outcome.
Context `{Platform} (t : TopologySnapshot) (r : PlanningRequest) (options : PlannerOptions) (cancelled : nat -> bool).

Lemma start_label_budgets labels expansions p d :
  start_label (make_env t (with_budgets labels expansions r)) p d = start_label (make_env t r) p d.
Proof. reflexivity. Qed.

Lemma step_budgets labels expansions ll el d w :
  step (make_env t (with_budgets labels expansions r)) ll el cancelled d w = step (make_env t r) ll el cancelled d w.
Proof. reflexivity. Qed.

Lemma run_budgets labels expansions ll el fuel d w :
  run (make_env t (with_budgets labels expansions r)) ll el cancelled fuel d w =
  run (make_env t r) ll el cancelled fuel d w.
Proof.
  revert w; induction fuel as [|fuel IH]; intros w; [done|]. cbn [run]. rewrite step_budgets.
  destruct (step _ _ _ _ _ w); [apply IH|done].
Qed.

(** The run of a search between ports of the snapshot. *)
Lemma run_search_run start_port destination d start :
  PortIndex t (q_source r) = Some start_port -> PortIndex t (q_destination r) = Some destination ->
  start_label (make_env t r) start_port (MkDraft no_notes true kReasonSegmentStart) = (d, Some start) ->
  exists stop w, run (make_env t r) (search_labels r options) (search_expansions r options) cancelled
      (search_fuel (search_labels r options)) destination (initial_work start (d_notes d)) = Some (stop, w) /\
    unset (k_statistics w) = (0, false).
Proof.
  intros Es Ed E. pose proof (wp_start_label (make_env t r) start_port (MkDraft no_notes true kReasonSegmentStart) Es) as Hs.
  unfold wp in Hs. rewrite E in Hs.
  destruct (initial_sound (make_env t r) (search_labels r options) (search_expansions r options) destination start
    (d_notes d) Hs) as [Hi Hm].
  destruct (run_total (make_env t r) (search_labels r options) (search_expansions r options) cancelled destination
    (search_fuel (search_labels r options)) _ Hi) as (stop & w & Hrun & Hw & _).
  { unfold search_fuel, label_bound in *. lia. }
  exists stop, w. split; [exact Hrun|apply Hw].
Qed.

Lemma RunSearch_met :
  st_truncated (o_statistics (RunSearch t r options cancelled)) = true ->
  search_labels r options <= labels_created (o_statistics (RunSearch t r options cancelled)) \/
  search_expansions r options <= labels_expanded (o_statistics (RunSearch t r options cancelled)).
Proof.
  unfold RunSearch, run_search. destruct (PortIndex t (q_source r)) as [start_port|] eqn:Es; [|done].
  destruct (PortIndex t (q_destination r)) as [destination|] eqn:Ed; [|done].
  destruct (start_label _ _ _) as [d [start|]] eqn:E; [|done].
  destruct (run_search_run _ _ _ _ Es Ed E) as (stop & w & Hrun & Hu). unfold search_from.
  fold (search_labels r options) (search_expansions r options). rewrite Hrun.
  destruct stop; try done; [cbn; intros Ht; injection Hu; congruence|intros _].
  by destruct (run_truncates _ _ _ _ _ _ _ _ Hrun); [left|right].
Qed.

Lemma RunSearch_roomier more_labels more_expansions more_options :
  let r' := with_budgets more_labels more_expansions r in
  st_truncated (o_statistics (RunSearch t r options cancelled)) = false ->
  search_labels r options <= search_labels r' more_options ->
  search_expansions r options <= search_expansions r' more_options ->
  RunSearch t r' more_options cancelled = RunSearch t r options cancelled.
Proof.
  cbv zeta. set (r' := with_budgets more_labels more_expansions r). intros Ht Hl Hx. revert Ht.
  unfold RunSearch, run_search. change (q_source r') with (q_source r). change (q_destination r') with (q_destination r).
  destruct (PortIndex t (q_source r)) as [start_port|] eqn:Es; [|done].
  destruct (PortIndex t (q_destination r)) as [destination|] eqn:Ed; [|done].
  unfold r' at 1 2. rewrite start_label_budgets.
  destruct (start_label (make_env t r) _ _) as [d [start|]] eqn:E; [|done].
  destruct (run_search_run _ _ _ _ Es Ed E) as (stop & w & Hrun & Hu). unfold search_from.
  fold (search_labels r options) (search_expansions r options).
  fold (search_labels r' more_options) (search_expansions r' more_options).
  rewrite run_budgets, Hrun. intros Ht.
  assert (stop <> StopTruncated) as Hs by (intros ->; done).
  eapply (run_roomier _ _ _ _ _ _ _ Hl Hx _ (search_fuel (search_labels r' more_options))) in Hrun as ->;
    [by destruct stop|unfold search_fuel; lia|done].
Qed.
End outcome.
