(* ===== verification/Route.v ===== *)
(** * Route: arc sequences, cycle removal and what the search returns

    [ArrivalPort], [DeparturePort] and [StripCycles] of [src/search.cpp], the
    specification of a route over a snapshot, and the theorems that relate the
    paths of [RunSearch] to it. *)

From S2P Require Import Prelude Status Ids Doubles Spectrum Sha256 Canonical Topology Builder Request Outcome.
From S2P Require Import SearchFacts SearchArcs Search Budgets.
(** ** Ports of an arc *)

Definition span_range_failure : Status := Failure StatusCode.Internal "span arc index is out of range".
Definition cross_connect_range_failure : Status := Failure StatusCode.Internal "cross-connect arc index is out of range".

Definition ArrivalPort (t : TopologySnapshot) (a : ArcRef) : Expected PortKey :=
  match a_kind a with
  | ArcKind.Span =>
      match t_spans t !! a_index a with
      | Some s => Value (if a_reversed a then s_from s else s_to s)
      | None => Error span_range_failure
      end
  | ArcKind.CrossConnect =>
      match t_cross_connects t !! a_index a with
      | Some x => Value (x_to x)
      | None => Error cross_connect_range_failure
      end
  end.

Definition DeparturePort (t : TopologySnapshot) (a : ArcRef) : Expected PortKey :=
  match a_kind a with
  | ArcKind.Span =>
      match t_spans t !! a_index a with
      | Some s => Value (if a_reversed a then s_to s else s_from s)
      | None => Error span_range_failure
      end
  | ArcKind.CrossConnect =>
      match t_cross_connects t !! a_index a with
      | Some x => Value (x_from x)
      | None => Error cross_connect_range_failure
      end
  end.

(** ** Cycle removal *)

Fixpoint position_of (k : PortKey) (l : list PortKey) : option nat :=
  match l with
  | [] => None
  | x :: rest => if bool_decide (x = k) then Some 0%nat else S <$> position_of k rest
  end.

Fixpoint strip (t : TopologySnapshot) (output : list ArcRef) (visited : list PortKey) (arcs : list ArcRef) : list ArcRef :=
  match arcs with
  | [] => output
  | a :: rest =>
      match ArrivalPort t a with
      | Error _ => output
      | Value k =>
          match position_of k visited with
          | Some p => strip t (firstn p output) (firstn (S p) visited) rest
          | None => strip t (output ++ [a]) (visited ++ [k]) rest
          end
      end
  end.

Definition StripCycles (t : TopologySnapshot) (source : PortKey) (arcs : list ArcRef) : list ArcRef :=
  strip t [] [source] arcs.

(** ** Specification: walks over a snapshot *)

(** [walk t k arcs k']: the arcs lead from port [k] to port [k'], each one
    leaving the port the one before it arrives at. *)
Inductive walk (t : TopologySnapshot) : PortKey -> list ArcRef -> PortKey -> Prop :=
| walk_nil k : walk t k [] k
| walk_cons k a m arcs k' :
    DeparturePort t a = Value k -> ArrivalPort t a = Value m -> walk t m arcs k' -> walk t k (a :: arcs) k'.

Definition arrival (t : TopologySnapshot) (a : ArcRef) : PortKey := ValueOr (ArrivalPort t a) inhabitant.

(** The ports a route stands on, the source first. *)
Definition ports_of (t : TopologySnapshot) (source : PortKey) (arcs : list ArcRef) : list PortKey :=
  source :: map (arrival t) arcs.

Lemma walk_app t k arcs m arcs' k' : walk t k arcs m -> walk t m arcs' k' -> walk t k (arcs ++ arcs') k'.
Proof. induction 1; [done|]. intros. simpl. by econstructor; eauto. Qed.

Lemma walk_snoc t k arcs m a k' :
  walk t k arcs m -> DeparturePort t a = Value m -> ArrivalPort t a = Value k' -> walk t k (arcs ++ [a]) k'.
Proof. intros. eapply walk_app; [done|]. econstructor; [done..|constructor]. Qed.

Lemma arrival_Value t a k : ArrivalPort t a = Value k -> arrival t a = k.
Proof. unfold arrival. by intros ->. Qed.

(** Cutting a walk where it stands on port [k] leaves a walk to [k]. *)
Lemma walk_firstn t source arcs here p k :
  walk t source arcs here -> ports_of t source arcs !! p = Some k -> walk t source (firstn p arcs) k.
Proof.
  unfold ports_of. intros Hw; revert p; induction Hw as [k0|k0 a m arcs k' Hd Ha Hw IH]; intros p Hp.
  - destruct p as [|p]; simpl in Hp; [|done]. injection Hp as <-. constructor.
  - destruct p as [|p]; simpl in Hp; [injection Hp as <-; constructor|].
    simpl. econstructor; [done..|]. apply IH. by rewrite <- (arrival_Value _ _ _ Ha).
Qed.

Lemma position_of_some k l p : position_of k l = Some p -> l !! p = Some k.
Proof.
  revert p; induction l as [|x l IH]; simpl; intros p; [done|]. case_bool_decide as E; [by intros [= <-]; subst|].
  destruct (position_of k l) as [q|]; [|done]. intros [= <-]. by apply IH.
Qed.

Lemma position_of_none k l : position_of k l = None -> ~ In k l.
Proof.
  induction l as [|x l IH]; simpl; [tauto|]. case_bool_decide as E; [done|].
  destruct (position_of k l); [done|]. intros _ [->|Hin]; [done|]. by apply IH.
Qed.

Lemma NoDup_snoc {A} (l : list A) x : List.NoDup l -> ~ In x l -> List.NoDup (l ++ [x]).
Proof.
  intros Hl Hx. apply List.NoDup_app; [done|by repeat constructor; intros []|].
  intros y Hy [<-|[]]. done.
Qed.

Lemma NoDup_firstn {A} n (l : list A) : List.NoDup l -> List.NoDup (firstn n l).
Proof. intros Hl. rewrite <- (firstn_skipn n l) in Hl. by apply List.NoDup_app_remove_r in Hl. Qed.

Lemma strip_spec t source rest output here destination :
  walk t source output here -> List.NoDup (ports_of t source output) -> walk t here rest destination ->
  walk t source (strip t output (ports_of t source output) rest) destination /\
  List.NoDup (ports_of t source (strip t output (ports_of t source output) rest)) /\
  forall a, In a (strip t output (ports_of t source output) rest) -> In a output \/ In a rest.
Proof.
  intros Ho Hnd Hw; revert output source Ho Hnd.
  induction Hw as [k|k a m rest k' Hd Ha Hw IH]; intros output source Ho Hnd; cbn [strip]; [auto|].
  rewrite Ha. destruct (position_of m (ports_of t source output)) as [p|] eqn:Hp.
  - apply position_of_some in Hp.
    assert (firstn (S p) (ports_of t source output) = ports_of t source (firstn p output)) as E.
    { unfold ports_of. simpl. by rewrite firstn_map. }
    rewrite E. destruct (IH (firstn p output) source) as (H1 & H2 & H3).
    + by eapply walk_firstn.
    + rewrite <- E. by apply NoDup_firstn.
    + split; [done|]. split; [done|]. intros b [Hb|Hb]%H3; [|simpl; auto]. left.
      rewrite <- (firstn_skipn p output). by apply in_or_app; left.
  - assert (ports_of t source output ++ [m] = ports_of t source (output ++ [a])) as E.
    { unfold ports_of. by rewrite map_app; simpl; rewrite (arrival_Value _ _ _ Ha). }
    rewrite E. destruct (IH (output ++ [a]) source) as (H1 & H2 & H3).
    + by eapply walk_snoc.
    + rewrite <- E. apply NoDup_snoc; [done|]. by apply position_of_none.
    + split; [done|]. split; [done|]. intros b [Hb|Hb]%H3; [|simpl; auto].
      apply in_app_or in Hb as [Hb|[->|[]]]; simpl; auto.
Qed.

Lemma strip_simple t source rest output here destination :
  walk t here rest destination -> List.NoDup (ports_of t source (output ++ rest)) ->
  strip t output (ports_of t source output) rest = output ++ rest.
Proof.
  intros Hw; revert output; induction Hw as [k|k a m rest k' Hd Ha Hw IH]; intros output Hnd; cbn [strip]; [by rewrite app_nil_r|].
  rewrite Ha. assert (ports_of t source output ++ [m] = ports_of t source (output ++ [a])) as E.
  { unfold ports_of. by rewrite map_app; simpl; rewrite (arrival_Value _ _ _ Ha). }
  destruct (position_of m (ports_of t source output)) as [p|] eqn:Hp.
  - exfalso. apply position_of_some in Hp. unfold ports_of in Hnd, Hp. rewrite map_app in Hnd. simpl in Hnd.
    rewrite (arrival_Value _ _ _ Ha) in Hnd. change (source :: ?x ++ m :: ?y) with ((source :: x) ++ m :: y) in Hnd.
    apply List.NoDup_remove_2 in Hnd. apply Hnd. apply in_or_app. left.
    by eapply list_elem_of_In, list_elem_of_lookup_2.
  - rewrite E, IH; rewrite <- app_assoc; [done|exact Hnd].
Qed.

(** Cycle removal.  The result leads from the source to the same
    destination, stands on no port twice, and uses only arcs of the input. *)
Theorem StripCycles_spec (t : TopologySnapshot) (source destination : PortKey) (arcs : list ArcRef) :
  walk t source arcs destination ->
  walk t source (StripCycles t source arcs) destination /\
  List.NoDup (ports_of t source (StripCycles t source arcs)) /\
  forall a, In a (StripCycles t source arcs) -> In a arcs.
Proof.
  intros Hw. destruct (strip_spec t source arcs [] source destination) as (H1 & H2 & H3).
  - constructor.
  - by repeat constructor; intros [].
  - done.
  - split; [done|]. split; [done|]. intros a Ha. by destruct (H3 a Ha).
Qed.

Lemma StripCycles_simple t source destination arcs :
  walk t source arcs destination -> List.NoDup (ports_of t source arcs) -> StripCycles t source arcs = arcs.
Proof. intros Hw Hnd. by apply (strip_simple t source arcs [] source destination). Qed.

(** ** Specification: what a request admits *)

Definition not_known_down (a : Evidence AdminState.t) : Prop := forall s, a = Known s -> s = AdminState.Up.

Definition disjoint_from {A} (l excluded : list A) : Prop := forall x, In x l -> ~ In x excluded.

(** A port the route may stand on. *)
Definition port_admitted (t : TopologySnapshot) (r : PlanningRequest) (k : PortKey) : Prop :=
  (exists p, FindPort t k = Some p /\ not_known_down (p_admin p)) /\
  ~ In k (excluded_ports (constraints r)) /\ ~ In (node k) (excluded_nodes (constraints r)).

Definition span_admitted (t : TopologySnapshot) (r : PlanningRequest) (i : nat) (rev : bool) : Prop :=
  exists s, t_spans t !! i = Some s /\ not_known_down (s_admin s) /\ ~ In (s_id s) (excluded_spans (constraints r)) /\
    disjoint_from (s_failure_domains s) (excluded_failure_domains (constraints r)) /\
    (rev = true -> s_bidirectional s = true).

Definition cross_connect_admitted (t : TopologySnapshot) (r : PlanningRequest) (i : nat) : Prop :=
  exists x, t_cross_connects t !! i = Some x /\ not_known_down (x_admin x) /\
    ~ In (x_id x) (excluded_cross_connects (constraints r)) /\
    disjoint_from (x_failure_domains x) (excluded_failure_domains (constraints r)) /\
    (x_op x = CrossConnectOp.Convert -> allow_wavelength_conversion (constraints r) = true) /\
    (x_op x = CrossConnectOp.Regenerate -> allow_regeneration (constraints r) = true).

Definition arc_admitted (t : TopologySnapshot) (r : PlanningRequest) (a : ArcRef) : Prop :=
  match a_kind a with
  | ArcKind.Span => span_admitted t r (a_index a) (a_reversed a)
  | ArcKind.CrossConnect => cross_connect_admitted t r (a_index a)
  end /\ port_admitted t r (arrival t a).

(** Published, undisputed evidence about a port, its node and an arc. *)
Definition port_published (t : TopologySnapshot) (k : PortKey) : Prop :=
  exists i p n, PortIndex t k = Some i /\ t_ports t !! i = Some p /\ FindNode t (node k) = Some n /\
    p_admin p = Known AdminState.Up /\ HasValue (p_blocked_slots p) = true /\
    n_coverage n = Coverage.Complete /\ HasUnresolvedArcs t i = false /\
    IsConflicted t (ForPort k) = false /\ IsConflicted t (ForNode (node k)) = false.

Definition arc_published (t : TopologySnapshot) (a : ArcRef) : Prop :=
  match a_kind a with
  | ArcKind.Span =>
      exists s, t_spans t !! a_index a = Some s /\ s_admin s = Known AdminState.Up /\
        HasValue (s_length_m s) = true /\ HasValue (s_loss_db s) = true /\ HasValue (s_osnr_db s) = true /\
        HasValue (s_blocked_slots s) = true /\ IsConflicted t (ForSpan (s_id s)) = false
  | ArcKind.CrossConnect =>
      exists x, t_cross_connects t !! a_index a = Some x /\ x_admin x = Known AdminState.Up /\
        HasValue (x_blocked_slots x) = true
  end.

Definition regenerates (t : TopologySnapshot) (a : ArcRef) : bool :=
  match a_kind a with
  | ArcKind.Span => false
  | ArcKind.CrossConnect =>
      match t_cross_connects t !! a_index a with
      | Some x => bool_decide (x_op x = CrossConnectOp.Regenerate)
      | None => false
      end
  end.

Definition regeneration_count (t : TopologySnapshot) (arcs : list ArcRef) : Z := size (List.filter (regenerates t) arcs).

(** The price of a hop: the arc, the port it arrives at, and the node it enters
    when that differs from the node it leaves. *)
Definition arc_cost (t : TopologySnapshot) (a : ArcRef) : Z :=
  match a_kind a with
  | ArcKind.Span => match t_spans t !! a_index a with Some s => s_cost s | None => 0 end
  | ArcKind.CrossConnect => match t_cross_connects t !! a_index a with Some x => x_cost x | None => 0 end
  end.

Definition port_cost (t : TopologySnapshot) (k : PortKey) : Z :=
  match FindPort t k with Some p => p_transit_cost p | None => 0 end.
Definition node_cost (t : TopologySnapshot) (id : NodeId) : Z :=
  match FindNode t id with Some n => n_transit_cost n | None => 0 end.

Definition hop_price (t : TopologySnapshot) (a : ArcRef) : Z :=
  let from := ValueOr (DeparturePort t a) inhabitant in
  let to := arrival t a in
  arc_cost t a + port_cost t to + (if bool_decide (node to = node from) then 0 else node_cost t (node to)).

(** The search adds the two costs of the source without a check. *)
Definition start_price (t : TopologySnapshot) (source : PortKey) : Z :=
  match FindNode t (node source) with
  | Some n => wrap64 (port_cost t source + n_transit_cost n)
  | None => port_cost t source
  end.

Definition sum_over {A} (f : A -> Z) (l : list A) : Z := fold_right (fun a total => f a + total) 0 l.

Definition route_price (t : TopologySnapshot) (source : PortKey) (arcs : list ArcRef) : Z :=
  start_price t source + sum_over (hop_price t) arcs.

(** The members of a failure domain a route touches: the source and its node,
    and for each hop the arc, the port it arrives at and the node it enters. *)
Definition carries (domain : FailureDomainId) (domains : list FailureDomainId) : Z :=
  if bool_decide (domain ∈ domains) then 1 else 0.

Definition port_domains (t : TopologySnapshot) (k : PortKey) : list FailureDomainId :=
  match FindPort t k with Some p => p_failure_domains p | None => [] end.
Definition node_domains (t : TopologySnapshot) (id : NodeId) : list FailureDomainId :=
  match FindNode t id with Some n => n_failure_domains n | None => [] end.
Definition arc_failure_domains (t : TopologySnapshot) (a : ArcRef) : list FailureDomainId :=
  match a_kind a with
  | ArcKind.Span => match t_spans t !! a_index a with Some s => s_failure_domains s | None => [] end
  | ArcKind.CrossConnect => match t_cross_connects t !! a_index a with Some x => x_failure_domains x | None => [] end
  end.

Definition touched_by_hop (t : TopologySnapshot) (domain : FailureDomainId) (a : ArcRef) : Z :=
  let from := ValueOr (DeparturePort t a) inhabitant in
  let to := arrival t a in
  carries domain (arc_failure_domains t a) + carries domain (port_domains t to) +
  (if bool_decide (node to = node from) then 0 else carries domain (node_domains t (node to))).

Definition members_on_route (t : TopologySnapshot) (source : PortKey) (arcs : list ArcRef) (domain : FailureDomainId) : Z :=
  carries domain (port_domains t source) + carries domain (node_domains t (node source)) +
  sum_over (touched_by_hop t domain) arcs.

Lemma sum_over_app {A} (f : A -> Z) l l' : sum_over f (l ++ l') = sum_over f l + sum_over f l'.
Proof. induction l as [|x l IH]; simpl; [done|]. rewrite IH. lia. Qed.

(** ** Lemmas: reading the facts of the environment *)

Lemma ClassifyAdmin_blocked a : ClassifyAdmin a <> Fact.Blocked -> not_known_down a.
Proof. intros Hb s ->. simpl in Hb. by case_bool_decide. Qed.

Lemma ClassifyAdmin_good a : ClassifyAdmin a = Fact.Good -> a = Known AdminState.Up.
Proof. destruct a as [s| |]; simpl; [|done..]. case_bool_decide; [by subst|done]. Qed.

Lemma published_some {A} (e : Evidence A) : is_Some (published e) -> HasValue e = true.
Proof. destruct e; intros []; done. Qed.

Lemma contains_sort_false {A} `{Ordered A} (l : list A) v : ContainsSorted (sort l) v = false -> ~ In v l.
Proof. unfold ContainsSorted. intros E Hin. apply contains_sort in Hin. congruence. Qed.

Lemma DomainsIntersect_false l excluded : DomainsIntersect l (sort excluded) = false -> disjoint_from l excluded.
Proof.
  unfold DomainsIntersect. intros E x Hx Hin. apply contains_sort in Hin.
  assert (existsb (ContainsSorted (sort excluded)) l = true) as E' by (apply existsb_exists; eauto). congruence.
Qed.

Section facts.
Context `{Platform} (t : TopologySnapshot) (r : PlanningRequest) (W : wf_snapshot t).
Abbreviation e := (make_env t r).

Definition key_at (i : nat) : PortKey := p_key (port_record e i).

Lemma port_record_eq i p : t_ports t !! i = Some p -> port_record e i = p.
Proof. apply list_lookup_total_correct. Qed.

Lemma port_info_eq i p : t_ports t !! i = Some p -> port_info e i = port_facts t (channel_width_slots r) i p.
Proof. intros Hp. unfold port_info, at_or. simpl. by rewrite list_lookup_imap, Hp. Qed.

Lemma span_info_eq i s : t_spans t !! i = Some s -> span_info e i = span_facts t (channel_width_slots r) s.
Proof. intros Hs. unfold span_info, at_or. simpl. by rewrite list_lookup_fmap, Hs. Qed.

Lemma span_record_eq i s : t_spans t !! i = Some s -> span_record e i = s.
Proof. apply list_lookup_total_correct. Qed.

Lemma cross_connect_info_eq i x :
  t_cross_connects t !! i = Some x -> cross_connect_info e i = cross_connect_facts t (channel_width_slots r) x.
Proof. intros Hs. unfold cross_connect_info, at_or. simpl. by rewrite list_lookup_fmap, Hs. Qed.

Lemma cross_connect_record_eq i x : t_cross_connects t !! i = Some x -> cross_connect_record e i = x.
Proof. apply list_lookup_total_correct. Qed.

Lemma key_at_index k i : PortIndex t k = Some i -> key_at i = k.
Proof. intros (p & Hp & Hk)%PortIndex_some. unfold key_at. by rewrite (port_record_eq _ _ Hp). Qed.

Lemma FindPort_index k i p : PortIndex t k = Some i -> t_ports t !! i = Some p -> FindPort t k = Some p.
Proof. unfold FindPort. intros ->. done. Qed.

Lemma node_index_record i p n :
  t_ports t !! i = Some p -> pi_node_index (port_info e i) = Some n ->
  FindNode t (node (p_key p)) = Some (node_record e n).
Proof.
  intros Hp. rewrite (port_info_eq _ _ Hp). simpl. intros Hn. unfold FindNode, NodeIndex. rewrite Hn. simpl.
  apply find_by_key_some in Hn as (nd & Hnd & _). rewrite Hnd. unfold node_record. f_equal. symmetry.
  by apply list_lookup_total_correct.
Qed.

(** Two ports are on the same node for the search when they name one node
    that has a record. *)
Lemma node_index_same i p j q n :
  t_ports t !! i = Some p -> t_ports t !! j = Some q -> pi_node_index (port_info e i) = Some n ->
  pi_node_index (port_info e j) = Some n <-> node (p_key p) = node (p_key q).
Proof.
  intros Hp Hq. rewrite (port_info_eq _ _ Hp), (port_info_eq _ _ Hq). simpl. intros Hn. split.
  - intros Hn'. apply find_by_key_some in Hn as (nd & Hnd & <-), Hn' as (nd' & Hnd' & <-). congruence.
  - by intros <-.
Qed.

Lemma transition_node_cost_eq i p j q :
  t_ports t !! i = Some p -> t_ports t !! j = Some q ->
  transition_node_cost e i j =
  if bool_decide (node (p_key q) = node (p_key p)) then 0 else node_cost t (node (p_key q)).
Proof.
  intros Hp Hq. unfold transition_node_cost, node_cost.
  destruct (pi_node_index (port_info e j)) as [n|] eqn:Hn.
  - rewrite (node_index_record _ _ _ Hq Hn).
    rewrite (bool_decide_ext (Some n = pi_node_index (port_info e i)) (node (p_key q) = node (p_key p))); [done|].
    rewrite <- (node_index_same _ _ _ _ _ Hq Hp Hn). naive_solver.
  - rewrite (port_info_eq _ _ Hq) in Hn. simpl in Hn. unfold FindNode, NodeIndex. rewrite Hn. simpl.
    by case_bool_decide.
Qed.
End facts.

(** ** One hop of a route, read on the snapshot *)

Section hops.
Context `{Platform} (t : TopologySnapshot) (r : PlanningRequest) (W : wf_snapshot t).
Abbreviation e := (make_env t r).
Abbreviation key_of := (key_at t r).

(** The ports of the search are ports of the snapshot. *)
Definition indexed (i : nat) : Prop := PortIndex t (key_of i) = Some i.

Lemma indexed_index k i : PortIndex t k = Some i -> indexed i.
Proof. intros Hk. unfold indexed. by rewrite (key_at_index _ _ _ _ Hk). Qed.

Lemma indexed_port i : indexed i -> exists p, t_ports t !! i = Some p /\ p_key p = key_of i.
Proof. apply PortIndex_some. Qed.

Lemma indexed_inj i j : indexed i -> indexed j -> key_of i = key_of j -> i = j.
Proof. unfold indexed. congruence. Qed.

Lemma port_admitted_at i :
  indexed i -> pi_admin (port_info e i) <> Fact.Blocked -> ContainsSorted (e_excluded_ports e) (key_of i) = false ->
  ContainsSorted (e_excluded_nodes e) (node (key_of i)) = false -> port_admitted t r (key_of i).
Proof.
  intros Hi Ha Hp Hn. pose proof (indexed_port _ Hi) as (p & Hpt & _). split.
  - exists p. split; [by eapply FindPort_index|]. apply ClassifyAdmin_blocked.
    by rewrite (port_info_eq _ _ _ _ Hpt) in Ha.
  - split; by apply contains_sort_false.
Qed.

Lemma port_published_at i :
  indexed i -> pi_admin (port_info e i) = Fact.Good -> settled_port (port_info e i) ->
  pi_mask_known (port_info e i) = true -> port_published t (key_of i).
Proof.
  intros Hi Ha (Hc & Hpc & Hu) Hm. pose proof (indexed_port _ Hi) as (p & Hpt & Hk).
  rewrite (port_info_eq _ _ _ _ Hpt) in *. unfold port_facts in *. cbn in *.
  destruct (find_by_key n_id (node (p_key p)) (t_nodes t)) as [n|] eqn:En; [|done]. simpl in *.
  apply find_by_key_some in En as Hn. destruct Hn as (nd & Hnd & Hid). rewrite Hnd in *. simpl in *.
  apply orb_false_iff in Hc as [Hc1 Hc2]. exists i, p, nd. rewrite <- Hk. split_and!; try done.
  - by rewrite Hk.
  - unfold FindNode, NodeIndex. by rewrite En.
  - by apply ClassifyAdmin_good.
  - by apply negb_false_iff, bool_decide_eq_true in Hpc.
  - by rewrite <- Hid.
Qed.

Lemma hop_cost_price current to cost total arc :
  indexed (l_port current) -> indexed to -> DeparturePort t arc = Value (key_of (l_port current)) ->
  ArrivalPort t arc = Value (key_of to) -> cost = arc_cost t arc -> hop_cost e current cost to = Some total ->
  total = l_cost current + hop_price t arc.
Proof.
  intros Hf Ht Hd Ha ->. destruct (indexed_port _ Hf) as (p & Hp & Kp), (indexed_port _ Ht) as (q & Hq & Kq).
  unfold hop_cost, AddCheckedU64. destruct (_ <? _); [done|]. simpl. destruct (_ <? _); [done|]. simpl.
  destruct (_ <? _); [done|]. intros [= <-]. unfold hop_price, arrival. rewrite Hd, Ha. simpl.
  rewrite (transition_node_cost_eq t r _ _ _ _ Hp Hq), Kp, Kq. unfold port_cost.
  rewrite (FindPort_index _ _ _ _ Ht Hq), (port_record_eq _ _ _ _ Hq). lia.
Qed.

Record hop_facts (current l : Label) : Prop := {
  hf_departs : DeparturePort t (l_arc l) = Value (key_of (l_port current));
  hf_arrives : ArrivalPort t (l_arc l) = Value (key_of (l_port l));
  hf_index : indexed (l_port l);
  hf_admitted : arc_admitted t r (l_arc l);
  hf_cost : l_cost l = l_cost current + hop_price t (l_arc l) /\ above Z.leb (l_cost l) (max_total_cost r) = false;
  hf_hops : l_hops l = wrap32 (l_hops current + 1) /\ l_hops l <= max_hops r;
  hf_regenerations :
    if regenerates t (l_arc l)
    then l_regenerations current < max_regenerations r /\ l_regenerations l = wrap32 (l_regenerations current + 1)
    else l_regenerations l = l_regenerations current;
  hf_proven : l_proven l = true ->
    l_proven current = true /\ arc_published t (l_arc l) /\ port_published t (key_of (l_port l));
}.

Lemma arrival_key current l : hop_facts current l -> arrival t (l_arc l) = key_of (l_port l).
Proof. intros Hf. apply arrival_Value, Hf. Qed.

Lemma span_hop_facts current l arc :
  indexed (l_port current) -> In arc (OutgoingSpanArcs t (l_port current)) -> span_hop e current arc l ->
  hop_facts current l.
Proof.
  intros Hi Hin [[Hns Hhops Hcost Htadm Hmask Hdom Hprov] Harc Hto Hc (Hx1 & Hx2 & Hx3) Hadm Hseg _ _ Hpub].
  apply (wf_span_arcs _ W) in Hin as (_ & s & Hs & Htail & _ & Hrev).
  rewrite (span_record_eq _ _ _ _ Hs) in *. rewrite (span_info_eq _ _ _ _ Hs) in *.
  rewrite Harc in *. change (e_snapshot e) with t in *.
  apply key_at_index with (r := r) in Htail as Hkc, Hto as Hkt.
  assert (indexed (l_port l)) as Hl by (by eapply indexed_index).
  assert (DeparturePort t (MkArcRef ArcKind.Span (span_index arc) (reversed arc)) = Value (key_of (l_port current))) as Hdep
    by (rewrite Hkc; unfold DeparturePort; simpl; by rewrite Hs).
  assert (ArrivalPort t (MkArcRef ArcKind.Span (span_index arc) (reversed arc)) = Value (key_of (l_port l))) as Harr
    by (rewrite Hkt; unfold ArrivalPort; simpl; by rewrite Hs).
  split; rewrite ?Harc; try done.
  - unfold arc_domains in Hdom. simpl in Hdom. rewrite (span_info_eq _ _ _ _ Hs) in Hdom. simpl in Hdom, Hadm.
    split; simpl.
    + exists s. split_and!; [done|by apply ClassifyAdmin_blocked|by apply contains_sort_false| |done].
      by apply DomainsIntersect_false.
    + unfold arrival. rewrite Harr. simpl. apply port_admitted_at; try done; by rewrite Hkt.
  - split; [|done]. eapply hop_cost_price; try done. unfold arc_cost. simpl. by rewrite Hs.
  - simpl. destruct Hseg as (d & _ & [= _ _ _ _ _ _ ->]). done.
  - intros Hp. destruct (Hprov Hp) as (Hpc & Hg & Hset & Hk). split; [done|].
    destruct (Hpub Hp) as ((H1 & H2 & H3) & H4 & H5 & H6 & _). simpl in H1, H2, H3, H4, H5, H6. split.
    + exists s. split_and!; try done; first [by apply ClassifyAdmin_good|by apply published_some].
    + by apply port_published_at.
Qed.

Lemma cross_connect_hop_facts current l x :
  indexed (l_port current) -> In x (OutgoingCrossConnects t (l_port current)) -> cross_connect_hop e current x l ->
  hop_facts current l.
Proof.
  intros Hi Hin [[Hns Hhops Hcost Htadm Hmask Hdom Hprov] Harc Hto Hc (Hx1 & Hx2 & Hx3) Hadm Hop Hpub].
  apply (wf_cross_connects _ W) in Hin as (_ & xc & Hs & Htail & _).
  rewrite (cross_connect_record_eq _ _ _ _ Hs) in *. rewrite (cross_connect_info_eq _ _ _ _ Hs) in *. simpl in Hto.
  rewrite Harc in *. change (e_snapshot e) with t in *.
  apply key_at_index with (r := r) in Htail as Hkc, Hto as Hkt.
  assert (indexed (l_port l)) as Hl by (by eapply indexed_index).
  assert (DeparturePort t (MkArcRef ArcKind.CrossConnect x false) = Value (key_of (l_port current))) as Hdep
    by (rewrite Hkc; unfold DeparturePort; simpl; by rewrite Hs).
  assert (ArrivalPort t (MkArcRef ArcKind.CrossConnect x false) = Value (key_of (l_port l))) as Harr
    by (rewrite Hkt; unfold ArrivalPort; simpl; by rewrite Hs).
  split; rewrite ?Harc; try done.
  - unfold arc_domains in Hdom. simpl in Hdom. rewrite (cross_connect_info_eq _ _ _ _ Hs) in Hdom. simpl in Hdom, Hadm.
    split; simpl.
    + exists xc. split_and!; [done|by apply ClassifyAdmin_blocked|by apply contains_sort_false| | |].
      * by apply DomainsIntersect_false.
      * intros E. rewrite E in Hop. by destruct Hop.
      * intros E. rewrite E in Hop. by destruct Hop.
    + unfold arrival. rewrite Harr. simpl. apply port_admitted_at; try done; by rewrite Hkt.
  - split; [|done]. eapply hop_cost_price; try done. unfold arc_cost. simpl. by rewrite Hs.
  - unfold regenerates. simpl. rewrite Hs. destruct (x_op xc); simpl in *.
    + by injection Hop.
    + by destruct Hop as [_ [= _ _ _ _ _ _ ->]].
    + destruct Hop as (_ & Hlt & _ & [= _ _ _ _ _ _ ->] & _). done.
  - intros Hp. destruct (Hprov Hp) as (Hpc & Hg & Hset & Hk). split; [done|].
    destruct (Hpub Hp) as (H1 & H2). simpl in H1, H2. split.
    + exists xc. split_and!; try done. by apply ClassifyAdmin_good.
    + by apply port_published_at.
Qed.

Lemma route_step_facts current l : indexed (l_port current) -> route_step e current l -> hop_facts current l.
Proof. intros Hi [x|arc]; eauto using cross_connect_hop_facts, span_hop_facts. Qed.
End hops.

(** ** The route of a label *)

Section routes.
Context `{Platform} (t : TopologySnapshot) (r : PlanningRequest) (W : wf_snapshot t) (V : valid_request r).
Abbreviation e := (make_env t r).
Abbreviation key_of := (key_at t r).
Abbreviation arcs_of ls := (rev (arcs_back ls)).

Record route_facts (l : Label) (rest : list Label) : Prop := {
  rf_walk : walk t (q_source r) (arcs_of (l :: rest)) (key_of (l_port l));
  rf_indexed : Forall (indexed t r) (map l_port (l :: rest));
  rf_ports : ports_of t (q_source r) (arcs_of (l :: rest)) = map key_of (rev (map l_port (l :: rest)));
  rf_admitted : Forall (arc_admitted t r) (arcs_of (l :: rest)) /\ port_admitted t r (q_source r);
  rf_cost : l_cost l = route_price t (q_source r) (arcs_of (l :: rest));
  rf_hops : l_hops l = size (arcs_of (l :: rest)) /\ l_hops l <= Z.max 0 (max_hops r);
  rf_regenerations : l_regenerations l = regeneration_count t (arcs_of (l :: rest)) /\
    l_regenerations l <= Z.max 0 (max_regenerations r);
  rf_limits : arcs_of (l :: rest) <> [] -> above Z.leb (l_cost l) (max_total_cost r) = false;
  rf_proven : l_proven l = true ->
    Forall (arc_published t) (arcs_of (l :: rest)) /\
    Forall (port_published t) (ports_of t (q_source r) (arcs_of (l :: rest)));
}.

Lemma start_facts l : start_ok e l -> route_facts l [].
Proof.
  intros [Hs Hp Hi (Hh & Hr & _) Hc _ _ (Hx1 & Hx2 & _) [Ha _] Hprov].
  change (e_snapshot e) with t in *. change (q_source (e_request e)) with (q_source r) in *.
  pose proof (key_at_index t r _ _ Hi) as Hk. assert (indexed t r (l_port l)) as Hx by (by eapply indexed_index).
  split; simpl; rewrite ?Hs; simpl; try done.
  - rewrite Hk. constructor.
  - by constructor.
  - by rewrite Hk.
  - split; [done|]. rewrite <- Hk. by apply port_admitted_at.
  - rewrite Hc. unfold route_price, start_price. simpl. rewrite Z.add_0_r, <- Hk.
    destruct (indexed_port _ _ _ Hx) as (p & Hpt & Kp). rewrite <- Kp.
    rewrite (port_record_eq _ _ _ _ Hpt). unfold port_cost. rewrite Kp, (FindPort_index _ _ _ _ Hx Hpt), <- Kp.
    destruct (pi_node_index (port_info e (l_port l))) as [n|] eqn:En.
    + by rewrite (node_index_record _ _ _ _ _ Hpt En).
    + rewrite (port_info_eq _ _ _ _ Hpt) in En. simpl in En. unfold FindNode, NodeIndex. by rewrite En.
  - rewrite Hh. unfold size. simpl. lia.
  - rewrite Hr. unfold regeneration_count, size. simpl. lia.
  - intros Hpr. split; [done|]. constructor; [|done]. destruct (Hprov Hpr) as (? & ? & ? & _).
    rewrite <- Hk. by apply port_published_at.
Qed.

Lemma hop_route_facts current rest l :
  l_is_start l = false -> hop_facts t r current l -> route_facts current rest -> route_facts l (current :: rest).
Proof.
  intros Hns Hf [Rw Ri Rp [Ra Ra0] Rc [Rh Rh'] [Rr Rr'] _ Rpr].
  assert (arcs_of (l :: current :: rest) = arcs_of (current :: rest) ++ [l_arc l]) as E
    by (cbn [arcs_back]; by rewrite Hns).
  pose proof (arrival_key _ _ _ _ Hf) as Har. destruct Hf as [Fd Fa Fi Fad [Fc Fc'] [Fh Fh'] Fr Fp].
  pose proof (valid_hops _ V). pose proof (valid_regenerations _ V). unfold kMaxRequestedHops, kMaxRequestedRegenerations in *.
  assert (0 <= size (arcs_of (current :: rest))) by (unfold size; lia).
  assert (0 <= regeneration_count t (arcs_of (current :: rest))) by (unfold regeneration_count, size; lia).
  assert (ports_of t (q_source r) (arcs_of (current :: rest) ++ [l_arc l]) =
          ports_of t (q_source r) (arcs_of (current :: rest)) ++ [key_of (l_port l)]) as Ep.
  { unfold ports_of. rewrite map_app. simpl. by rewrite Har. }
  split; rewrite ?E.
  - by eapply walk_snoc.
  - by constructor.
  - rewrite Ep, Rp. simpl. by rewrite !map_app.
  - split; [|done]. apply Forall_app. split; [done|by constructor].
  - unfold route_price in *. rewrite sum_over_app.
    change (sum_over (hop_price t) [l_arc l]) with (hop_price t (l_arc l) + 0). lia.
  - rewrite wrap_small in Fh by width_lia. unfold size in *. rewrite length_app.
    change (length [l_arc l]) with 1%nat. lia.
  - unfold regeneration_count in *. rewrite List.filter_app. unfold size in *. rewrite length_app.
    cbn [List.filter]. destruct (regenerates t (l_arc l)); cbn [length].
    + destruct Fr as [Fr ->]. rewrite wrap_small by width_lia. lia.
    + rewrite Fr. lia.
  - done.
  - intros (Hpc & Hpa & Hpp)%Fp. destruct (Rpr Hpc) as [Ha Hp]. split.
    + apply Forall_app. split; [done|by constructor].
    + rewrite Ep. apply Forall_app. split; [done|by constructor].
Qed.

Lemma route_step_not_start current l : route_step e current l -> l_is_start l = false.
Proof. intros [x _ Hx|arc _ Hx]; by destruct Hx as [[]]. Qed.

Lemma Route_facts l rest : Route e (l :: rest) -> route_facts l rest.
Proof.
  revert l. induction rest as [|current rest IH]; intros l Hr; inversion Hr as [? Hs|? ? ? Hr1 Hst Hni Hm]; subst.
  - by apply start_facts.
  - pose proof (IH _ Hr1) as Hrf. apply hop_route_facts; [by eapply route_step_not_start| |done].
    apply route_step_facts; [done| |done]. pose proof (rf_indexed _ _ Hrf) as Hi. by inversion Hi.
Qed.

Lemma Route_ports ls : Route e ls -> List.NoDup (map l_port ls).
Proof.
  induction 1 as [l|l current rest Hr IH Hst Hni Hm]; [by repeat constructor; intros []|]. by constructor.
Qed.

(** The route of a label stands on no port twice. *)
Lemma Route_simple l rest : Route e (l :: rest) -> List.NoDup (ports_of t (q_source r) (arcs_of (l :: rest))).
Proof.
  intros Hr. rewrite (rf_ports _ _ (Route_facts _ _ Hr)). pose proof (rf_indexed _ _ (Route_facts _ _ Hr)) as Hi.
  pose proof (Route_ports _ Hr) as Hnd. rewrite map_rev. apply List.NoDup_rev.
  induction Hi as [|i il Hi His IH]; [constructor|]. cbn [map] in *. inversion Hnd as [|? ? Hni Hnd']; subst.
  constructor; [|by apply IH]. intros (j & Hj & Hin)%in_map_iff. rewrite List.Forall_forall in His.
  apply Hni. rewrite <- (indexed_inj t r j i); auto.
Qed.
End routes.

(** ** Failure domains along a route *)

Section members.
Context `{Platform} (t : TopologySnapshot) (r : PlanningRequest) (W : wf_snapshot t) (V : valid_request r).
Abbreviation e := (make_env t r).
Abbreviation key_of := (key_at t r).
Abbreviation arcs_of ls := (rev (arcs_back ls)).

Lemma member_carries domains d : increasing domains -> member domains d = carries d domains.
Proof.
  intros Hs. unfold member, carries, ContainsSorted.
  assert (contains_sorted domains d = true <-> d ∈ domains) as Hiff.
  { rewrite list_elem_of_In. apply contains_sorted_in. induction Hs as [|x l Hs IH Hx]; constructor; [done|].
    eapply Forall_impl; [exact Hx|]. intros y. apply ltb_asym. }
  destruct (contains_sorted domains d); case_bool_decide; naive_solver.
Qed.

Lemma Forall_at {A} (P : A -> Prop) l i x : Forall P l -> l !! i = Some x -> P x.
Proof. rewrite Forall_forall. intros HP Hx. by eapply HP, list_elem_of_lookup_2. Qed.

Lemma port_members i d :
  indexed t r i -> member (p_failure_domains (port_record e i)) d = carries d (port_domains t (key_of i)).
Proof.
  intros Hi. destruct (indexed_port _ _ _ Hi) as (p & Hp & Kp). rewrite (port_record_eq _ _ _ _ Hp).
  unfold port_domains. rewrite (FindPort_index _ _ _ _ Hi Hp). apply member_carries.
  destruct (wf_domains _ W) as (_ & Hd & _). by eapply (Forall_at _ _ _ _ Hd).
Qed.

Lemma node_members i p n d :
  t_ports t !! i = Some p -> pi_node_index (port_info e i) = Some n ->
  member (n_failure_domains (node_record e n)) d = carries d (node_domains t (node (p_key p))).
Proof.
  intros Hp Hn. unfold node_domains. pose proof (node_index_record _ _ _ _ _ Hp Hn) as Hf. rewrite Hf.
  apply member_carries. destruct (wf_domains _ W) as (Hd & _). rewrite List.Forall_forall in Hd.
  by apply Hd, (FindNode_some _ _ _ Hf).
Qed.

Lemma no_node_domains i p : t_ports t !! i = Some p -> pi_node_index (port_info e i) = None ->
  node_domains t (node (p_key p)) = [].
Proof.
  intros Hp. rewrite (port_info_eq _ _ _ _ Hp). simpl. intros Hn. unfold node_domains, FindNode, NodeIndex.
  by rewrite Hn.
Qed.

Lemma start_members_eq i d : indexed t r i ->
  start_members e i d = carries d (port_domains t (key_of i)) + carries d (node_domains t (node (key_of i))).
Proof.
  intros Hi. unfold start_members. rewrite port_members by done. f_equal. unfold entered_node.
  destruct (indexed_port _ _ _ Hi) as (p & Hp & <-).
  destruct (pi_node_index (port_info e i)) as [n|] eqn:Hn.
  - rewrite bool_decide_eq_false_2 by done. by eapply node_members.
  - by rewrite (no_node_domains _ _ Hp Hn).
Qed.

Lemma arc_members a d : member (arc_domains e a) d = carries d (arc_failure_domains t a).
Proof.
  destruct (wf_domains _ W) as (_ & _ & Hs & Hx). unfold arc_domains, arc_failure_domains. destruct (a_kind a).
  - destruct (t_spans t !! a_index a) as [s|] eqn:E.
    + rewrite (span_info_eq _ _ _ _ E). apply member_carries. by eapply (Forall_at _ _ _ _ Hs).
    + unfold span_info, at_or. simpl. rewrite list_lookup_fmap, E. simpl. by apply member_carries; constructor.
  - destruct (t_cross_connects t !! a_index a) as [x|] eqn:E.
    + rewrite (cross_connect_info_eq _ _ _ _ E). apply member_carries. by eapply (Forall_at _ _ _ _ Hx).
    + unfold cross_connect_info, at_or. simpl. rewrite list_lookup_fmap, E. simpl. by apply member_carries; constructor.
Qed.

Lemma hop_members_eq current l d :
  indexed t r (l_port current) -> hop_facts t r current l ->
  hop_members e (l_arc l) (l_port l) (l_port current) d = touched_by_hop t d (l_arc l).
Proof.
  intros Hc Hf. unfold hop_members, touched_by_hop. rewrite (arrival_key _ _ _ _ Hf), (hf_departs _ _ _ _ Hf). simpl.
  rewrite arc_members, port_members by apply Hf. f_equal. unfold entered_node.
  destruct (indexed_port _ _ _ Hc) as (p & Hp & <-), (indexed_port _ _ _ (hf_index _ _ _ _ Hf)) as (q & Hq & <-).
  destruct (pi_node_index (port_info e (l_port l))) as [n|] eqn:Hn.
  - rewrite (node_members _ _ _ _ Hq Hn).
    rewrite (bool_decide_ext (Some n = pi_node_index (port_info e (l_port current))) (node (p_key q) = node (p_key p))); [done|].
    rewrite <- (node_index_same t r _ _ _ _ _ Hq Hp Hn). naive_solver.
  - rewrite (no_node_domains _ _ Hq Hn). by case_bool_decide.
Qed.

Lemma count_back_eq l rest d : Route e (l :: rest) ->
  count_back e (l :: rest) d = members_on_route t (q_source r) (arcs_of (l :: rest)) d.
Proof.
  revert l. induction rest as [|current rest IH]; intros l Hr; inversion Hr as [? Hs|? ? ? Hr1 Hst Hni Hm]; subst.
  - cbn [count_back arcs_back]. rewrite (so_is_start _ _ Hs). unfold members_on_route. simpl.
    pose proof (so_port _ _ Hs) as Hi. change (e_snapshot e) with t in Hi.
    change (q_source (e_request e)) with (q_source r) in Hi.
    pose proof (key_at_index t r _ _ Hi) as Hk. rewrite start_members_eq by (by eapply indexed_index).
    rewrite Hk. lia.
  - pose proof (IH _ Hr1) as E. pose proof (Route_facts t r W V _ _ Hr1) as Hrf.
    pose proof (rf_indexed _ _ _ _ Hrf) as Hi. inversion Hi as [|? ? Hi0 _]; subst.
    pose proof (route_step_facts t r W _ _ Hi0 Hst) as Hf. pose proof (route_step_not_start t r _ _ Hst) as Hns.
    change (count_back e (l :: current :: rest) d) with
      (if l_is_start l then start_members e (l_port l) d
       else hop_members e (l_arc l) (l_port l) (l_port current) d + count_back e (current :: rest) d).
    rewrite Hns, E, (hop_members_eq _ _ _ Hi0 Hf).
    change (arcs_back (l :: current :: rest)) with (if l_is_start l then [] else l_arc l :: arcs_back (current :: rest)).
    rewrite Hns. cbn [rev]. unfold members_on_route. rewrite sum_over_app.
    change (sum_over (touched_by_hop t d) [l_arc l]) with (touched_by_hop t d (l_arc l) + 0). lia.
Qed.

Lemma Route_members l rest d limit :
  Route e (l :: rest) -> In (d, limit) (max_members_per_failure_domain (constraints r)) -> arcs_of (l :: rest) <> [] ->
  members_on_route t (q_source r) (arcs_of (l :: rest)) d <= limit.
Proof.
  intros Hr Hin Hne. rewrite <- count_back_eq by done. inversion Hr as [? Hs|? ? ? Hr1 Hst Hni Hm]; subst.
  - destruct Hne. cbn [arcs_back]. by rewrite (so_is_start _ _ Hs).
  - by apply Hm.
Qed.
End members.

(** ** The paths of a search *)

Section paths.
Context `{Platform} (t : TopologySnapshot) (r : PlanningRequest) (W : wf_snapshot t) (V : valid_request r).
Abbreviation e := (make_env t r).
Abbreviation arcs_of ls := (rev (arcs_back ls)).

(** A path comes from a route of labels that ends at the destination. *)
Record found (path : RawPath) (l : Label) (rest : list Label) : Prop := {
  found_route : Route e (l :: rest);
  found_destination : key_at t r (l_port l) = q_destination r;
  found_arcs : p_arcs path = arcs_of (l :: rest);
  found_cost : p_cost path = l_cost l;
  found_hops : p_hops path = l_hops l;
  found_regenerations : p_regenerations path = l_regenerations l;
  found_proven : p_proven path = l_proven l;
}.

Lemma RunSearch_no_destination options cancelled :
  PortIndex t (q_destination r) = None -> o_paths (RunSearch t r options cancelled) = [].
Proof.
  intros Hd. unfold RunSearch, run_search. rewrite Hd. by destruct (PortIndex t (q_source r)).
Qed.

Lemma RunSearch_found options cancelled path :
  In path (o_paths (RunSearch t r options cancelled)) -> exists l rest, found path l rest.
Proof.
  intros Hin. destruct (PortIndex t (q_destination r)) as [destination|] eqn:Hd.
  - pose proof (RunSearch_facts t r options cancelled destination Hd) as F.
    destruct (sf_paths _ _ _ _ _ F _ Hin) as (l & rest & Hr & Hl & Ha & Hc & Hh & Hg & Hp).
    exists l, rest. split; try done. rewrite Hl. by apply key_at_index.
  - by rewrite RunSearch_no_destination in Hin.
Qed.

Lemma found_walk path l rest : found path l rest -> walk t (q_source r) (p_arcs path) (q_destination r).
Proof.
  intros [Hr Hd -> _ _ _ _]. rewrite <- Hd. apply (Route_facts t r W V _ _ Hr).
Qed.

(** The two ends differ, so a path has a hop. *)
Lemma found_nonempty path l rest : found path l rest -> p_arcs path <> [].
Proof.
  intros Hf%found_walk E. rewrite E in Hf. inversion Hf as [? He|]. by destruct (valid_ends _ V).
Qed.

(** What the search promises of a path. *)
Record path_ok (path : RawPath) : Prop := {
  po_walk : walk t (q_source r) (p_arcs path) (q_destination r);
  po_simple : List.NoDup (ports_of t (q_source r) (p_arcs path));
  po_hops : p_hops path = size (p_arcs path) /\ 1 <= p_hops path <= max_hops r;
  po_source : port_admitted t r (q_source r);
  po_admitted : Forall (arc_admitted t r) (p_arcs path);
  po_regenerations : p_regenerations path = regeneration_count t (p_arcs path) /\
    p_regenerations path <= Z.max 0 (max_regenerations r);
  po_price : p_cost path = route_price t (q_source r) (p_arcs path);
  po_ceiling : forall ceiling, max_total_cost r = Some ceiling -> p_cost path <= ceiling;
  po_members : forall domain limit, In (domain, limit) (max_members_per_failure_domain (constraints r)) ->
    members_on_route t (q_source r) (p_arcs path) domain <= limit;
  po_published : p_proven path = true ->
    Forall (arc_published t) (p_arcs path) /\ Forall (port_published t) (ports_of t (q_source r) (p_arcs path));
}.

Lemma found_ok path l rest : found path l rest -> path_ok path.
Proof.
  intros Hf. pose proof (found_walk _ _ _ Hf) as Hw. pose proof (found_nonempty _ _ _ Hf) as Hne.
  destruct Hf as [Hr Hd Ha Hc Hh Hg Hp]. pose proof (Route_facts t r W V _ _ Hr) as F.
  destruct (rf_admitted _ _ _ _ F) as [Had Hs]. rewrite Ha in *. split; rewrite ?Ha, ?Hc, ?Hh, ?Hg, ?Hp; try done.
  - by apply Route_simple.
  - destruct (rf_hops _ _ _ _ F) as [H1 H2]. split; [done|]. rewrite H1 in *.
    destruct (arcs_of (l :: rest)); [done|unfold size in *; simpl in *; lia].
  - apply F.
  - apply F.
  - intros ceiling E. pose proof (rf_limits _ _ _ _ F Hne) as Hl. unfold above in Hl. rewrite E in Hl.
    by apply negb_false_iff, Z.leb_le in Hl.
  - intros d n Hin. by eapply Route_members.
  - apply F.
Qed.

Lemma RunSearch_path_ok options cancelled path :
  In path (o_paths (RunSearch t r options cancelled)) -> path_ok path.
Proof. intros (l & rest & Hf)%RunSearch_found. by eapply found_ok. Qed.

(** The search returns connected, port-simple routes.  Every path of
    [RunSearch] leads, port to port, from the source of the request to its
    destination, stands on no port twice, and has as many arcs as the hop count
    it carries, at least one and at most [max_hops]. *)
Theorem search_path_connected (options : PlannerOptions) (cancelled : nat -> bool) (path : RawPath) :
  In path (o_paths (RunSearch t r options cancelled)) ->
  walk t (q_source r) (p_arcs path) (q_destination r) /\
  List.NoDup (ports_of t (q_source r) (p_arcs path)) /\
  p_hops path = size (p_arcs path) /\ 1 <= p_hops path <= max_hops r.
Proof. by intros [? ? [? ?]]%RunSearch_path_ok. Qed.

(** C22: the search respects the constraints.  On every path of [RunSearch] the
    source, every arc and every port arrived at is admitted: not known to be
    down, not excluded by its port, its node, its span or cross-connect
    identity, or a failure domain of the arc; a span is only used backwards when
    it is bidirectional; conversion and regeneration are only used when the
    request allows them, and regeneration at most [max_regenerations] times. *)
Theorem search_path_admitted (options : PlannerOptions) (cancelled : nat -> bool) (path : RawPath) :
  In path (o_paths (RunSearch t r options cancelled)) ->
  port_admitted t r (q_source r) /\ Forall (arc_admitted t r) (p_arcs path) /\
  p_regenerations path = regeneration_count t (p_arcs path) /\
  p_regenerations path <= Z.max 0 (max_regenerations r).
Proof. by intros [? ? ? ? ? [? ?]]%RunSearch_path_ok. Qed.

(** The cost of a path is the price of its route.  The cost the search
    carries is the exact sum, without a wrap, of the hops' costs (arc, port
    arrived at, node entered) over the cost of the source, and it is within the
    ceiling of the request when there is one. *)
Theorem search_path_price (options : PlannerOptions) (cancelled : nat -> bool) (path : RawPath) :
  In path (o_paths (RunSearch t r options cancelled)) ->
  p_cost path = route_price t (q_source r) (p_arcs path) /\
  forall ceiling, max_total_cost r = Some ceiling -> p_cost path <= ceiling.
Proof. intros P%RunSearch_path_ok. split; [exact (po_price _ P)|exact (po_ceiling _ P)]. Qed.

(** C23: failure-domain limits hold on every path.  Counting the source and its
    node, the arcs, the ports arrived at and the nodes entered, no domain with
    a limit has more members on the path than its limit. *)
Theorem search_path_domain_limits (options : PlannerOptions) (cancelled : nat -> bool) (path : RawPath)
  (domain : FailureDomainId) (limit : Z) :
  In path (o_paths (RunSearch t r options cancelled)) ->
  In (domain, limit) (max_members_per_failure_domain (constraints r)) ->
  members_on_route t (q_source r) (p_arcs path) domain <= limit.
Proof. intros P%RunSearch_path_ok. apply (po_members _ P). Qed.

(** A proven path rests on published evidence only.  When the search marks
    a path proven, every arc and port of it is published up, with its spectrum
    and (for a span) its length, loss and OSNR, no record of its ports, nodes
    and spans is disputed, and every node publishes complete adjacency. *)
Theorem search_proven_path_published (options : PlannerOptions) (cancelled : nat -> bool) (path : RawPath) :
  In path (o_paths (RunSearch t r options cancelled)) -> p_proven path = true ->
  Forall (arc_published t) (p_arcs path) /\ Forall (port_published t) (ports_of t (q_source r) (p_arcs path)).
Proof. intros P%RunSearch_path_ok. apply (po_published _ P). Qed.
End paths.

(** C24: the search always ends, within its budgets, and says when they cut it short.
    For every snapshot, request, option set and sequence of answers of the cancel
    token the loop stops with an outcome; it never holds more labels than the
    smaller of the two label ceilings (and the start label) and never expands
    more than the smaller of the two expansion ceilings.  An outcome marked
    truncated has met one of the two, does not claim to be exhausted or to have
    proved an optimum, and carries the limitation.  An outcome that is not marked
    owes nothing to the ceilings: with any higher ones, of the request and of the
    options, the search ends in the same outcome. *)
Theorem search_terminates `{Platform} (t : TopologySnapshot) (r : PlanningRequest) (options : PlannerOptions)
  (cancelled : nat -> bool) :
  exists o, run_search t r options cancelled = Some o /\ o = RunSearch t r options cancelled /\
    labels_created (o_statistics o) <= Z.max 1 (Z.min (label_ceiling options) (max_search_labels r)) /\
    labels_expanded (o_statistics o) <= Z.max 0 (Z.min (expansion_ceiling options) (max_search_expansions r)) /\
    (st_truncated (o_statistics o) = true ->
     o_exhausted o = false /\ o_proved_optimum o = false /\ Z.testbit (o_limitations o) 6 = true /\
     (Z.min (label_ceiling options) (max_search_labels r) <= labels_created (o_statistics o) \/
      Z.min (expansion_ceiling options) (max_search_expansions r) <= labels_expanded (o_statistics o))) /\
    (st_truncated (o_statistics o) = false -> forall more_labels more_expansions more_options,
     Z.min (label_ceiling options) (max_search_labels r) <= Z.min (label_ceiling more_options) more_labels ->
     Z.min (expansion_ceiling options) (max_search_expansions r) <=
       Z.min (expansion_ceiling more_options) more_expansions ->
     RunSearch t (with_budgets more_labels more_expansions r) more_options cancelled = o).
Proof.
  destruct (run_search_facts t r options cancelled) as (o & E & Ho). exists o.
  assert (o = RunSearch t r options cancelled) as Eo by (unfold RunSearch; by rewrite E).
  pose proof (RunSearch_met t r options cancelled) as Hmet.
  pose proof (RunSearch_roomier t r options cancelled) as Hroom. cbv zeta in Hroom. rewrite <- Eo in *.
  split; [done|]. split; [done|].
  assert ((labels_created (o_statistics o) <= search_labels r options \/ labels_created (o_statistics o) <= 1) /\
    (labels_expanded (o_statistics o) <= search_expansions r options \/ labels_expanded (o_statistics o) <= 0) /\
    (st_truncated (o_statistics o) = true -> o_exhausted o = false /\ o_proved_optimum o = false /\
       Z.testbit (o_limitations o) 6 = true)) as (Hl & Hx & Ht).
  { destruct (PortIndex t (q_destination r)) as [destination|] eqn:Hd.
    - pose proof (Ho destination eq_refl) as F. pose proof (sf_labels _ _ _ _ _ F). unfold label_bound in *.
      pose proof (sf_expanded _ _ _ _ _ F). split; [lia|]. split; [lia|]. intros Ht.
      destruct (sf_truncated _ _ _ _ _ F Ht) as [? ?]. split_and!; try done.
      destruct (o_proved_optimum o) eqn:Ep; [|done]. destruct (sf_optimum _ _ _ _ _ F Ep) as (_ & ? & _). congruence.
    - unfold run_search in E. rewrite Hd in E. destruct (PortIndex t (q_source r)); injection E as <-; simpl;
        split_and!; try lia; done. }
  unfold search_labels, search_expansions in *. split; [lia|]. split; [lia|]. split.
  - intros Hf. destruct (Ht Hf) as (? & ? & ?). split; [done|]. split; [done|]. split; [done|]. by apply Hmet.
  - intros Hf labels expansions more. by apply Hroom.
Qed.

(** ** Witnesses

    Three nodes in a row, an express cross-connect in the middle one, and a
    request from end to end. *)

Module Net.
Import Sample.
#[local] Existing Instance toy_hasher.

Definition express (id n p p' : string) : CrossConnectRecord :=
  MkCrossConnect (MkId id) (MkPortKey (MkId n) (MkId p)) (MkPortKey (MkId n) (MkId p')) CrossConnectOp.Express
    (Known mask_None) [MkId "office"] 2 up src 3.

Definition builder_of_row : SnapshotBuilder :=
  builder [node_named "A"; node_named "B"; node_named "C"]
    [port_of "A" "1"; port_of "B" "1"; port_of "B" "2"; port_of "C" "1"]
    [span_between "s1" "A" "1" "B" "1" 5; span_between "s2" "B" "2" "C" "1" 7] [express "x" "B" "1" "2"].

Definition row : TopologySnapshot := snapshot_of builder_of_row.

Definition limited : ConstraintSet :=
  MkConstraints [] [] [] [] [] [(MkId "duct", 2); (MkId "office", 1)] None None None None true true false false.

Definition request : PlanningRequest :=
  MkRequest kRequestFormatVersion (MkId "r1") (MkPortKey (MkId "A") (MkId "1")) (MkPortKey (MkId "C") (MkId "1")) 1 1 0 5
    (Some 40) Disjointness.None limited [] None None false 50 60.

Lemma row_built : Build builder_of_row = (Value row, snd (Build builder_of_row)).
Proof. by vm_compute. Qed.

Lemma row_wf : wf_snapshot row.
Proof. apply (Build_wf builder_of_row row (snd (Build builder_of_row))), row_built. Qed.

Lemma request_valid : valid_request request.
Proof. apply Request_Validate_ok. by vm_compute. Qed.

Definition never : nat -> bool := fun _ => false.
Definition paths : list RawPath := o_paths (RunSearch row request default_options never).
End Net.

Section witnesses.
Import Net.

Definition the_path : RawPath :=
  MkPath [MkArcRef ArcKind.Span 0 false; MkArcRef ArcKind.CrossConnect 0 false; MkArcRef ArcKind.Span 1 false] 17 3 0 true.

Lemma the_path_found : In the_path (o_paths (RunSearch row request default_options never)).
Proof. vm_compute. by left. Qed.

Lemma search_path_connected_witness :
  walk row (q_source request) (p_arcs the_path) (q_destination request) /\
  List.NoDup (ports_of row (q_source request) (p_arcs the_path)) /\
  p_hops the_path = 3 /\ 1 <= p_hops the_path <= max_hops request.
Proof.
  exact (search_path_connected row request row_wf request_valid default_options never the_path the_path_found).
Defined.

Lemma search_path_admitted_witness :
  port_admitted row request (q_source request) /\ Forall (arc_admitted row request) (p_arcs the_path) /\
  p_regenerations the_path = regeneration_count row (p_arcs the_path) /\ p_regenerations the_path <= 0.
Proof.
  exact (search_path_admitted row request row_wf request_valid default_options never the_path the_path_found).
Defined.

(** Room for the four labels that the row needs, and for two. *)
Definition four_labels : PlannerOptions := MkOptions 50 4 true.
Definition two_labels : PlannerOptions := MkOptions 50 2 true.

Lemma search_terminates_witness :
  st_truncated (o_statistics (RunSearch row request two_labels never)) = true /\
  o_exhausted (RunSearch row request two_labels never) = false /\
  st_truncated (o_statistics (RunSearch row request four_labels never)) = false /\
  RunSearch row (with_budgets 1000 1000 request) default_options never = RunSearch row request four_labels never.
Proof.
  assert (st_truncated (o_statistics (RunSearch row request two_labels never)) = true) as T2 by (vm_compute; reflexivity).
  assert (st_truncated (o_statistics (RunSearch row request four_labels never)) = false) as T3 by (vm_compute; reflexivity).
  split; [exact T2|].
  destruct (search_terminates row request two_labels never) as (o & _ & -> & _ & _ & Ht & _).
  destruct (search_terminates row request four_labels never) as (o & _ & -> & _ & _ & _ & Hf).
  split; [exact (proj1 (Ht T2))|]. split; [exact T3|].
  apply (Hf T3); vm_compute; discriminate.
Defined.

Lemma search_path_price_witness :
  17 = route_price row (q_source request) (p_arcs the_path) /\
  forall ceiling, max_total_cost request = Some ceiling -> 17 <= ceiling.
Proof. exact (search_path_price row request row_wf request_valid default_options never the_path the_path_found). Defined.

Lemma search_path_domain_limits_witness :
  members_on_route row (q_source request) (p_arcs the_path) (MkId "duct") <= 2.
Proof.
  apply (search_path_domain_limits row request row_wf request_valid default_options never the_path (MkId "duct") 2
           the_path_found). by left.
Defined.

Lemma search_proven_path_published_witness :
  Forall (arc_published row) (p_arcs the_path) /\ Forall (port_published row) (ports_of row (q_source request) (p_arcs the_path)).
Proof.
  exact (search_proven_path_published row request row_wf request_valid default_options never the_path the_path_found
           eq_refl).
Defined.

Lemma StripCycles_spec_witness :
  let back := [MkArcRef ArcKind.Span 0 false; MkArcRef ArcKind.Span 0 true; MkArcRef ArcKind.Span 0 false] in
  StripCycles row (q_source request) back = [MkArcRef ArcKind.Span 0 false] /\
  walk row (q_source request) (StripCycles row (q_source request) back) (MkPortKey (MkId "B") (MkId "1")).
Proof.
  cbv zeta. split; [by vm_compute|].
  refine (proj1 (StripCycles_spec row (q_source request) (MkPortKey (MkId "B") (MkId "1")) _ _)).
  repeat (eapply walk_cons; [by vm_compute|by vm_compute|]). apply walk_nil.
Defined.
End witnesses.

(** ** Two behaviours of the search that its contract does not announce *)

Module Corner.
Import Sample.
#[local] Existing Instance toy_hasher.

Definition end_port (n : string) : PortKey := MkPortKey (MkId n) (MkId "1").
Definition span_with (id n n' : string) (cost : Z) (domains : list FailureDomainId) : SpanRecord :=
  MkSpan (MkId id) (end_port n) (end_port n') true (Known 1000) (Known d10) (Known (double_of 30)) (Known mask_None)
    domains cost up src 3.

(** Two spans lead from A to B: a cheap one in the duct and a dear one outside
    it; the only span from B to C is in the duct. *)
Definition detour : TopologySnapshot :=
  snapshot_of (builder [node_named "A"; node_named "B"; node_named "C"] [port_of "A" "1"; port_of "B" "1"; port_of "C" "1"]
    [span_with "p" "A" "B" 1 [MkId "duct"]; span_with "q" "A" "B" 5 []; span_with "r" "B" "C" 1 [MkId "duct"]] []).
Definition once : ConstraintSet :=
  MkConstraints [] [] [] [] [] [(MkId "duct", 1)] None None None None true true false false.
Definition request : PlanningRequest :=
  MkRequest kRequestFormatVersion (MkId "r1") (end_port "A") (end_port "C") 1 1 0 5 None Disjointness.None once [] None None
    false 50 60.
Definition by_the_dear_span : list ArcRef := [MkArcRef ArcKind.Span 1 false; MkArcRef ArcKind.Span 2 false].

(** A cross-connect submitted twice, with different costs. *)
Definition disputed : TopologySnapshot :=
  snapshot_of (builder [node_named "A"; node_named "B"; node_named "C"]
    [port_of "A" "1"; port_of "B" "1"; port_of "B" "2"; port_of "C" "1"]
    [span_between "s1" "A" "1" "B" "1" 5; span_between "s2" "B" "2" "C" "1" 7]
    [Net.express "x" "B" "1" "2";
     MkCrossConnect (MkId "x") (MkPortKey (MkId "B") (MkId "1")) (MkPortKey (MkId "B") (MkId "2")) CrossConnectOp.Express
       (Known mask_None) [] 9 up src 3]).
End Corner.

(** Dominance loses routes when a domain has a member limit.  The cheap
    label at B dominates the dear one although it has used up the duct, so the
    search ends exhausted, without truncation and with its optimality flag set,
    and reports no path; yet the route over the dear span is connected,
    port-simple, admitted and within the limit. *)
Theorem dominance_loses_route :
  let o := RunSearch Corner.detour Corner.request default_options Net.never in
  o_paths o = [] /\ o_exhausted o = true /\ o_proved_optimum o = true /\ o_limitations o = 0 /\
  walk Corner.detour (q_source Corner.request) Corner.by_the_dear_span (q_destination Corner.request) /\
  List.NoDup (ports_of Corner.detour (q_source Corner.request) Corner.by_the_dear_span) /\
  Forall (arc_published Corner.detour) Corner.by_the_dear_span /\
  members_on_route Corner.detour (q_source Corner.request) Corner.by_the_dear_span (MkId "duct") = 1.
Proof.
  cbv zeta. split_and!; try by vm_compute.
  - repeat (eapply walk_cons; [by vm_compute|by vm_compute|]). apply walk_nil.
  - apply NoDup_ListNoDup. refine (bool_decide_unpack (NoDup _) _). by vm_compute.
  - repeat constructor; eexists; by vm_compute.
Qed.

(** A disputed cross-connect does not cost a path its proof.  Two records
    disagree about the cross-connect [x]; the search notes the conflict as a
    limitation but still returns a path over it as proven (a disputed port or
    span clears the mark). *)
Theorem disputed_cross_connect_stays_proven :
  let o := RunSearch Corner.disputed Net.request default_options Net.never in
  t_conflicted Corner.disputed = [ForCrossConnect (MkId "x")] /\
  Z.land (o_limitations o) kLimitationConflictingEvidence <> 0 /\
  map p_proven (o_paths o) = [true] /\ map p_arcs (o_paths o) = [p_arcs the_path].
Proof. cbv zeta. split_and!; by vm_compute. Qed.
