(* ===== verification/Plan.v ===== *)
(** * Plan: plan artifacts, their canonical text, seal and order

    [include/opp/plan.hpp] and the printing half of [src/plan.cpp]. *)

From S2P Require Import Prelude Status Ids Doubles Spectrum Sha256 Canonical SnapshotText Outcome.

(** ** Records *)

Module StepKind.
Inductive t := Node | Port | Span | CrossConnect.
#[global] Instance eq_dec : EqDecision t.
Proof. solve_decision. Defined.
End StepKind.

Definition StepKindName (k : StepKind.t) : string :=
  match k with
  | StepKind.Node => "node" | StepKind.Port => "port" | StepKind.Span => "span"
  | StepKind.CrossConnect => "crossconnect"
  end.

Definition kReasonNames : list (Z * string) :=
  [(kReasonAdminUp, "admin_up"); (kReasonNotExcluded, "not_excluded"); (kReasonPortAdmitted, "port_admitted");
   (kReasonSpectrumAvailable, "spectrum_available"); (kReasonWithinReachDistance, "within_reach_distance");
   (kReasonWithinReachSpans, "within_reach_spans"); (kReasonWithinReachLoss, "within_reach_loss");
   (kReasonWithinReachOsnr, "within_reach_osnr"); (kReasonRegenerationBoundary, "regeneration_boundary");
   (kReasonWavelengthConversion, "wavelength_conversion");
   (kReasonFailureDomainWithinLimit, "failure_domain_within_limit");
   (kReasonSourceEvidencePresent, "source_evidence_present"); (kReasonSegmentStart, "segment_start");
   (kReasonTransmitProfileKnown, "transmit_profile_known")].

Definition DescribeEligibility (reason_bits : Z) : string := describe_bits kReasonNames reason_bits.

Record PlanStep := MkStep {
  ps_index : Z; ps_kind : StepKind.t; ps_resource : ResourceKey; ps_segment_index : Z; ps_reason_bits : Z; ps_cost : Z;
}.

Record PlanSpanUse := MkSpanUse {
  su_id : SpanId; su_from : PortKey; su_to : PortKey; su_reversed : bool; su_length_m : Z; su_loss_db : double;
  su_osnr_db : double; su_cost : Z; su_first_slot : Z; su_failure_domains : list FailureDomainId;
}.

Record PlanSegment := MkPlanSegment {
  sg_index : Z; sg_profile : ProfileId; sg_spans : list PlanSpanUse; sg_distance_m : Z; sg_loss_db : double;
  sg_osnr_db : double; sg_span_count : Z; sg_channel_runs : Z; sg_ended_by_regeneration : bool;
  sg_regeneration_resource : ResourceKey;
}.

Record PlanReservation := MkReservation { rv_resource : ResourceKey; rv_channel : Channel; rv_segment_index : Z }.
Record PlanAssumption := MkAssumption { as_resource : ResourceKey; as_field : string; as_value : string }.
Record FailureDomainExposure := MkExposure { fx_id : FailureDomainId; fx_member_count : Z; fx_limit : Z }.
Record SourceBinding := MkBinding { sb_source : SourceId; sb_generation : Generation; sb_contribution : Digest256 }.

Record PlanArtifact := MkPlan {
  pl_format_version : Z;
  pl_rule_version : Z;
  pl_request_id : RequestId;
  pl_request_digest : Digest256;
  pl_snapshot_id : SnapshotId;
  pl_snapshot_generation : Generation;
  pl_snapshot_digest : Digest256;
  pl_bound_sources : list SourceBinding;
  pl_source : PortKey;
  pl_destination : PortKey;
  pl_steps : list PlanStep;
  pl_segments : list PlanSegment;
  pl_reservations : list PlanReservation;
  pl_capability : list PlanAssumption;
  pl_quality : list PlanAssumption;
  pl_exposure : list FailureDomainExposure;
  pl_channel_width_slots : Z;
  pl_total_cost : Z;
  pl_total_distance_m : Z;
  pl_total_loss_db : double;
  pl_hops : Z;
  pl_regenerations : Z;
  pl_digest : Digest256;
}.

Definition plan_put_digest (d : Digest256) (p : PlanArtifact) : PlanArtifact :=
  MkPlan (pl_format_version p) (pl_rule_version p) (pl_request_id p) (pl_request_digest p) (pl_snapshot_id p)
    (pl_snapshot_generation p) (pl_snapshot_digest p) (pl_bound_sources p) (pl_source p) (pl_destination p) (pl_steps p)
    (pl_segments p) (pl_reservations p) (pl_capability p) (pl_quality p) (pl_exposure p) (pl_channel_width_slots p)
    (pl_total_cost p) (pl_total_distance_m p) (pl_total_loss_db p) (pl_hops p) (pl_regenerations p) d.

Definition kPlanFormatVersion : Z := 1.
Definition kPlanningRuleVersion : Z := 1.
Definition kPlanDigestDomain : string := "OPP-PLAN-v1".

(** ** Canonical text ([PlanToText]) *)

Section text.
Context `{Platform}.

Definition binding_line (b : SourceBinding) : string :=
  let line := Line_Add (Line_Begin "binding") (str (sb_source b)) in
  let line := Line_AddKeyU64 line "gen" (sb_generation b) in
  Line_AddKeyToken line "contrib" (Digest_ToHex (sb_contribution b)).

Definition step_line (s : PlanStep) : string :=
  let line := Line_AddU32 (Line_Begin "step") (ps_index s) in
  let line := Line_AddKeyToken line "kind" (StepKindName (ps_kind s)) in
  let line := Line_AddKeyU64 line "seg" (ps_segment_index s) in
  let line := Line_AddKeyU64 line "reason" (ps_reason_bits s) in
  let line := Line_AddKeyU64 line "cost" (ps_cost s) in
  Line_AddKeyToken line "res" (ResourceKeyToString (ps_resource s)).

Definition segment_line (s : PlanSegment) : string :=
  let line := Line_AddU32 (Line_Begin "segment") (sg_index s) in
  let line := Line_AddKeyToken line "profile" (str (sg_profile s)) in
  let line := Line_AddKeyU64 line "runs" (sg_channel_runs s) in
  let line := Line_AddKeyU64 line "distance" (sg_distance_m s) in
  let line := Line_AddKeyDouble line "loss" (sg_loss_db s) in
  let line := Line_AddKeyDouble line "osnr" (sg_osnr_db s) in
  let line := Line_AddKeyU64 line "spans" (sg_span_count s) in
  let line := Line_AddKeyToken line "end" (if sg_ended_by_regeneration s then "regeneration" else "transparent") in
  if sg_ended_by_regeneration s then Line_AddKeyToken line "xc" (ResourceKeyToString (sg_regeneration_resource s))
  else line.

Definition segspan_line (s : PlanSegment) (u : PlanSpanUse) : string :=
  let line := Line_AddU32 (Line_Begin "segspan") (sg_index s) in
  let line := Line_AddKeyToken line "id" (str (su_id u)) in
  let line := Line_AddKeyToken line "from" (CanonicalText (su_from u)) in
  let line := Line_AddKeyToken line "to" (CanonicalText (su_to u)) in
  let line := Line_AddKeyU64 line "rev" (if su_reversed u then 1 else 0) in
  let line := Line_AddKeyU64 line "len" (su_length_m u) in
  let line := Line_AddKeyDouble line "loss" (su_loss_db u) in
  let line := Line_AddKeyDouble line "osnr" (su_osnr_db u) in
  let line := Line_AddKeyU64 line "cost" (su_cost u) in
  let line := Line_AddKeyU64 line "slot" (su_first_slot u) in
  AddDomains line (su_failure_domains u).

Definition reservation_line (v : PlanReservation) : string :=
  let line := Line_AddKeyToken (Line_Begin "reservation") "res" (ResourceKeyToString (rv_resource v)) in
  let line := Line_AddKeyU64 line "first" (first_slot (rv_channel v)) in
  let line := Line_AddKeyU64 line "width" (width_slots (rv_channel v)) in
  Line_AddKeyU64 line "seg" (rv_segment_index v).

Definition assumption_line (keyword : string) (a : PlanAssumption) : string :=
  let line := Line_AddKeyToken (Line_Begin keyword) "res" (ResourceKeyToString (as_resource a)) in
  let line := Line_AddKeyToken line "field" (as_field a) in
  Line_AddKeyToken line "value" (as_value a).

Definition exposure_line (x : FailureDomainExposure) : string :=
  let line := Line_AddKeyToken (Line_Begin "exposure") "domain" (str (fx_id x)) in
  let line := Line_AddKeyU64 line "count" (fx_member_count x) in
  Line_AddKeyU64 line "limit" (fx_limit x).

Definition endpoints_line (p : PlanArtifact) : string :=
  let line := Line_AddKeyToken (Line_Begin "endpoints") "snode" (str (node (pl_source p))) in
  let line := Line_AddKeyToken line "sport" (str (port (pl_source p))) in
  let line := Line_AddKeyToken line "dnode" (str (node (pl_destination p))) in
  Line_AddKeyToken line "dport" (str (port (pl_destination p))).

Definition totals_line (p : PlanArtifact) : string :=
  let line := Line_AddKeyU64 (Line_Begin "totals") "cost" (pl_total_cost p) in
  let line := Line_AddKeyU64 line "distance" (pl_total_distance_m p) in
  let line := Line_AddKeyDouble line "loss" (pl_total_loss_db p) in
  let line := Line_AddKeyU64 line "hops" (pl_hops p) in
  Line_AddKeyU64 line "regen" (pl_regenerations p).

Definition plan_lines (p : PlanArtifact) (include_digest : bool) : list string :=
  ["OPP-PLAN " +:+ FormatU32 (pl_format_version p);
   Line_AddU32 (Line_Begin "rule") (pl_rule_version p);
   Line_Add (Line_Add (Line_Begin "request") (str (pl_request_id p))) (Digest_ToHex (pl_request_digest p));
   Line_Add (Line_AddU64 (Line_Add (Line_Begin "snapshot") (str (pl_snapshot_id p))) (pl_snapshot_generation p))
     (Digest_ToHex (pl_snapshot_digest p))] ++
  map binding_line (pl_bound_sources p) ++
  [endpoints_line p; Line_AddKeyU64 (Line_Begin "channel") "width" (pl_channel_width_slots p); totals_line p] ++
  map step_line (pl_steps p) ++
  map segment_line (pl_segments p) ++
  concat (map (fun s => map (segspan_line s) (sg_spans s)) (pl_segments p)) ++
  map reservation_line (pl_reservations p) ++
  map (assumption_line "capability") (pl_capability p) ++
  map (assumption_line "quality") (pl_quality p) ++
  map exposure_line (pl_exposure p) ++
  (if include_digest then [Line_Add (Line_Begin "digest") (Digest_ToHex (pl_digest p))] else []).

Definition PlanToText (p : PlanArtifact) (include_digest : bool) : string := text_of_lines (plan_lines p include_digest).

Definition DigestPayload (p : PlanArtifact) : string := PlanToText p false.
Definition CanonicalBytes (p : PlanArtifact) : string := PlanToText p true.

(** ** The seal *)

Context `{Hasher}.

Definition ComputePlanDigest (p : PlanArtifact) : Digest256 := hash_pieces [kPlanDigestDomain; newline; DigestPayload p].

Definition Seal (p : PlanArtifact) : PlanArtifact := plan_put_digest (ComputePlanDigest p) p.

Definition VerifySeal (p : PlanArtifact) : Status :=
  if negb (digest_eqb (ComputePlanDigest p) (pl_digest p)) then
    Failure StatusCode.IntegrityFailure "plan digest does not match its content"
  else OkStatus.

Definition DigestHex (p : PlanArtifact) : string := Digest_ToHex (pl_digest p).
End text.

(** ** The canonical order of candidates *)

Definition ResourceSequenceKey (p : PlanArtifact) : string :=
  fold_right (fun s rest => ResourceKindName (kind (ps_resource s)) +:+ "|" +:+ text (ps_resource s) +:+ ">" +:+ rest) ""
    (pl_steps p).

Definition PlanLess (lhs rhs : PlanArtifact) : bool :=
  if negb (pl_total_cost lhs =? pl_total_cost rhs) then pl_total_cost lhs <? pl_total_cost rhs
  else if negb (pl_hops lhs =? pl_hops rhs) then pl_hops lhs <? pl_hops rhs
  else if negb (pl_regenerations lhs =? pl_regenerations rhs) then pl_regenerations lhs <? pl_regenerations rhs
  else ResourceSequenceKey lhs <o ResourceSequenceKey rhs.

Definition plan_key (p : PlanArtifact) : Z * (Z * (Z * string)) :=
  (pl_total_cost p, (pl_hops p, (pl_regenerations p, ResourceSequenceKey p))).

(** The comparator is the lexicographic order of the key. *)
Lemma PlanLess_key lhs rhs : PlanLess lhs rhs = (plan_key lhs <o plan_key rhs).
Proof.
  unfold PlanLess, plan_key. simpl.
  assert (forall (a b : Z) (rest : bool),
    (if negb (a =? b) then a <? b else rest) = (a <? b) || (negb (b <? a) && rest)) as Hlex.
  { intros a b rest. destruct (Z.eqb_spec a b) as [->|Hne]; simpl; [by rewrite Z.ltb_irrefl|].
    destruct (Z.ltb_spec a b); [done|]. simpl. destruct (Z.ltb_spec b a); [done|lia]. }
  by rewrite !Hlex.
Qed.

Lemma plan_lines_digest `{Platform} d p : plan_lines (plan_put_digest d p) false = plan_lines p false.
Proof. done. Qed.

(** ** Theorems *)

(** The candidate order is a strict weak order.  [PlanLess] is irreflexive
    and transitive, and two plans neither of which is less than the other agree
    on cost, hops, regenerations and the sequence of resources. *)
Theorem PlanLess_strict_order :
  (forall p, PlanLess p p = false) /\
  (forall p q s, PlanLess p q = true -> PlanLess q s = true -> PlanLess p s = true) /\
  (forall p q, PlanLess p q = false -> PlanLess q p = false ->
     pl_total_cost p = pl_total_cost q /\ pl_hops p = pl_hops q /\ pl_regenerations p = pl_regenerations q /\
     ResourceSequenceKey p = ResourceSequenceKey q).
Proof.
  split_and!.
  - intros p. by rewrite PlanLess_key, ltb_irrefl.
  - intros p q s. rewrite !PlanLess_key. apply ltb_trans.
  - intros p q. rewrite !PlanLess_key. intros H1 H2. by injection (ltb_total _ _ H1 H2) as -> -> -> ->.
Qed.

(** Sealing.  The digest covers every field but itself: a sealed plan
    verifies, sealing again changes nothing, and a plan verifies exactly when it
    is the sealed form of itself, so replacing its digest by any other one is
    detected. *)
Theorem Seal_verifies `{Platform, Hasher} (p : PlanArtifact) (d : Digest256) :
  VerifySeal (Seal p) = OkStatus /\ Seal (Seal p) = Seal p /\
  (failed (VerifySeal p) = false <-> p = Seal p) /\
  (failed (VerifySeal (plan_put_digest d p)) = false <-> d = ComputePlanDigest p).
Proof.
  assert (forall q e, ComputePlanDigest (plan_put_digest e q) = ComputePlanDigest q) as E by done.
  unfold VerifySeal, Seal, digest_eqb. rewrite !E. simpl. rewrite !bool_decide_eq_true_2 by done.
  split; [done|]. split; [by destruct p|]. split.
  - split.
    + case_bool_decide as Hd; [|done]. intros _. rewrite Hd. by destruct p.
    + intros Hp. rewrite bool_decide_eq_true_2; [done|]. by rewrite Hp at 2.
  - case_bool_decide as Hd; split; try done; congruence.
Qed.
