(* ===== verification/Result.v ===== *)
(** * Result: the result envelope, its canonical text and explanation

    [PlanningResult] of [include/opp/result.hpp] with the printing half of
    [src/result.cpp].  The vocabulary it uses is in [Outcome]. *)

From S2P Require Import Prelude Status Ids Doubles Spectrum Sha256 Canonical Topology SnapshotText Outcome Plan.

Record PlanningResult := MkResult {
  rs_outcome : PlanOutcome.t;
  rs_status : Status;
  rs_request_digest : Digest256;
  rs_snapshot_digest : Digest256;
  rs_candidates : list PlanArtifact;
  rs_witnesses : list Witness;
  rs_limitations : Z;
  rs_cuts : list CutCount;
  rs_statistics : PlanningStatistics;
  rs_optimality_proven : bool;
  rs_digest : Digest256;
}.

Definition HasCandidate (r : PlanningResult) : bool := match rs_candidates r with [] => false | _ => true end.
Definition Best (r : PlanningResult) : option PlanArtifact := head (rs_candidates r).

Definition result_put_digest (d : Digest256) (r : PlanningResult) : PlanningResult :=
  MkResult (rs_outcome r) (rs_status r) (rs_request_digest r) (rs_snapshot_digest r) (rs_candidates r) (rs_witnesses r)
    (rs_limitations r) (rs_cuts r) (rs_statistics r) (rs_optimality_proven r) d.

Definition kResultDigestDomain : string := "OPP-RESULT-v1".

(** ** Canonical text ([ResultToTextImpl]) *)

Section text.
Context `{Platform}.

Definition status_line (s : Status) : string :=
  Line_AddKeyToken (Line_Add (Line_Begin "status") (StatusCodeName (code s))) "detail" (detail s).

Definition limitations_line (limitations : Z) : string :=
  Line_AddKeyToken (Line_AddU32 (Line_Begin "limitations") limitations) "names" (DescribeLimitations limitations).

Definition statistics_line (s : PlanningStatistics) : string :=
  let line := Line_AddKeyU64 (Line_Begin "statistics") "labels_created" (labels_created s) in
  let line := Line_AddKeyU64 line "labels_expanded" (labels_expanded s) in
  let line := Line_AddKeyU64 line "labels_dominated" (labels_dominated s) in
  let line := Line_AddKeyU64 line "peak_frontier" (peak_frontier s) in
  let line := Line_AddKeyU64 line "arcs_examined" (arcs_examined s) in
  let line := Line_AddKeyU64 line "states_visited" (states_visited s) in
  Line_AddKeyU64 line "truncated" (if st_truncated s then 1 else 0).

Definition witness_line (w : Witness) : string :=
  let line := Line_Add (Line_Begin "witness") (CutReasonName (w_reason w)) in
  let line := Line_AddKeyToken line "res" (ResourceKeyToString (w_resource w)) in
  Line_AddKeyToken line "detail" (w_detail w).

Definition cut_line (c : CutCount) : string :=
  Line_AddU64 (Line_Add (Line_Begin "cut") (CutReasonName (c_reason c))) (c_count c).

(** The plan between the two markers ends with its own line feed. *)
Definition candidate_text (p : PlanArtifact) : string :=
  Line_Add (Line_Begin "candidate") (DigestHex p) +:+ newline +:+ "candidate-plan-begin" +:+ newline +:+
  CanonicalBytes p +:+ "candidate-plan-end" +:+ newline.

Definition digest_line (record : string) (d : Digest256) : string := Line_Add (Line_Begin record) (Digest_ToHex d).

Definition ResultToText (r : PlanningResult) : string :=
  text_of_lines
    ["OPP-RESULT 1";
     Line_Add (Line_Begin "outcome") (PlanOutcomeName (rs_outcome r));
     status_line (rs_status r);
     digest_line "request-digest" (rs_request_digest r);
     digest_line "snapshot-digest" (rs_snapshot_digest r);
     limitations_line (rs_limitations r);
     Line_Add (Line_Begin "optimality") (if rs_optimality_proven r then "proven" else "not_proven");
     statistics_line (rs_statistics r)] +:+
  text_of_lines (map witness_line (rs_witnesses r)) +:+
  text_of_lines (map cut_line (rs_cuts r)) +:+
  String.concat "" (map candidate_text (rs_candidates r)) +:+
  text_of_lines [digest_line "digest" (rs_digest r)].

(** ** The seal *)

(** [PlanningResult::Seal]: over the text with a zeroed digest. *)
Definition Result_Seal `{Hasher} (r : PlanningResult) : PlanningResult :=
  result_put_digest
    (hash_pieces [kResultDigestDomain; newline; ResultToText (result_put_digest zero_digest r)]) r.

(** ** Explanation for a reader *)

Definition outcome_reason (o : PlanOutcome.t) : string :=
  match o with
  | PlanOutcome.Feasible => "a proven route satisfies every declared constraint"
  | PlanOutcome.Infeasible =>
      "the search exhausted the reachable state space and every label was cut for a proven reason"
  | PlanOutcome.Indeterminate => "missing, stale or conflicting evidence prevents proof either way"
  | PlanOutcome.Unsupported => "the requested semantics are outside the modelled capability surface"
  | PlanOutcome.Cancelled => "the caller cancelled the search before a candidate was produced"
  | PlanOutcome.Refused => "the request was rejected before any search started"
  end.

Definition ExplainOutcome (r : PlanningResult) : string :=
  PlanOutcomeName (rs_outcome r) +:+ ": " +:+ outcome_reason (rs_outcome r) +:+
  (if failed (rs_status r) then
     " [" +:+ StatusCodeName (code (rs_status r)) +:+ "] " +:+ detail (rs_status r)
   else "").

Definition FormatSafe (v : double) : string := ValueOr (FormatDouble v) "nan".

Definition explain_step (s : PlanStep) : string :=
  "  step " +:+ FormatU32 (ps_index s) +:+ " " +:+ StepKindName (ps_kind s) +:+ " " +:+
  ResourceKeyToString (ps_resource s) +:+ " segment=" +:+ FormatU32 (ps_segment_index s) +:+ " reasons=" +:+
  DescribeEligibility (ps_reason_bits s).

Definition explain_segment (s : PlanSegment) : string :=
  "  segment " +:+ FormatU32 (sg_index s) +:+ " profile=" +:+ str (sg_profile s) +:+ " channel_runs=" +:+
  FormatU32 (sg_channel_runs s) +:+ " spans=" +:+ FormatU32 (sg_span_count s) +:+ " distance_m=" +:+
  FormatU64 (sg_distance_m s) +:+ " loss_db=" +:+ FormatSafe (sg_loss_db s) +:+ " osnr_db=" +:+
  FormatSafe (sg_osnr_db s) +:+ (if sg_ended_by_regeneration s then " ended_by_regeneration" else "").

Definition explain_span (u : PlanSpanUse) : string :=
  "    span " +:+ str (su_id u) +:+ " " +:+ CanonicalText (su_from u) +:+ " -> " +:+ CanonicalText (su_to u) +:+
  " slot=" +:+ FormatU16 (su_first_slot u) +:+ " length_m=" +:+ FormatU64 (su_length_m u) +:+ " loss_db=" +:+
  FormatSafe (su_loss_db u) +:+ " osnr_db=" +:+ FormatSafe (su_osnr_db u).

Definition explain_reservation (v : PlanReservation) : string :=
  "  reservation " +:+ ResourceKeyToString (rv_resource v) +:+ " channel=" +:+ FormatU16 (first_slot (rv_channel v)) +:+
  "+" +:+ FormatU16 (width_slots (rv_channel v)).

Definition explain_exposure (x : FailureDomainExposure) : string :=
  "  exposure " +:+ str (fx_id x) +:+ " members=" +:+ FormatU32 (fx_member_count x) +:+ " limit=" +:+
  FormatU32 (fx_limit x).

Definition explain_candidate (i : nat) (p : PlanArtifact) : list string :=
  ["candidate " +:+ FormatU64 (Z.of_nat i) +:+ " digest=" +:+ DigestHex p +:+ " cost=" +:+ FormatU64 (pl_total_cost p) +:+
   " hops=" +:+ FormatU64 (pl_hops p) +:+ " distance_m=" +:+ FormatU64 (pl_total_distance_m p) +:+
   " regenerations=" +:+ FormatU64 (pl_regenerations p)] ++
  map explain_step (pl_steps p) ++
  concat (map (fun s => explain_segment s :: map explain_span (sg_spans s)) (pl_segments p)) ++
  map explain_reservation (pl_reservations p) ++
  map explain_exposure (pl_exposure p).

Definition explain_witness (w : Witness) : string :=
  "witness " +:+ CutReasonName (w_reason w) +:+ " " +:+ ResourceKeyToString (w_resource w) +:+
  (if bool_decide (w_detail w = "") then "" else " " +:+ w_detail w).

Definition explain_cut (c : CutCount) : string :=
  "cut " +:+ CutReasonName (c_reason c) +:+ " " +:+ FormatU64 (c_count c).

Definition explain_statistics (s : PlanningStatistics) : string :=
  "search: labels_created=" +:+ FormatU64 (labels_created s) +:+ " labels_expanded=" +:+ FormatU64 (labels_expanded s) +:+
  " labels_dominated=" +:+ FormatU64 (labels_dominated s) +:+ " states_visited=" +:+ FormatU64 (states_visited s) +:+
  " peak_frontier=" +:+ FormatU64 (peak_frontier s) +:+ " truncated=" +:+ (if st_truncated s then "true" else "false").

(** [PlanningResult::ExplainText] *)
Definition Result_ExplainText (r : PlanningResult) : string :=
  text_of_lines
    (["outcome: " +:+ PlanOutcomeName (rs_outcome r)] ++
     (if failed (rs_status r) then
        ["status: " +:+ StatusCodeName (code (rs_status r)) +:+ " " +:+ detail (rs_status r)]
      else []) ++
     ["explanation: " +:+ ExplainOutcome r;
      "limitations: " +:+ DescribeLimitations (rs_limitations r);
      "optimality_proven: " +:+ (if rs_optimality_proven r then "true" else "false");
      explain_statistics (rs_statistics r)] ++
     map explain_cut (rs_cuts r) ++
     map explain_witness (rs_witnesses r) ++
     concat (imap explain_candidate (rs_candidates r))).
End text.

(** ** Lemmas: sealing *)

Lemma Result_Seal_idempotent `{Platform, Hasher} (r : PlanningResult) : Result_Seal (Result_Seal r) = Result_Seal r.
Proof. done. Qed.

(** A result carries the digest of its own content. *)
Definition sealed `{Platform, Hasher} (r : PlanningResult) : Prop := r = Result_Seal r.

Lemma Result_Seal_sealed `{Platform, Hasher} (r : PlanningResult) : sealed (Result_Seal r).
Proof. done. Qed.
