(* ===== verification/PlanBuild.v ===== *)
(** * PlanBuild: from a sequence of arcs to a sealed plan

    [BuildPlan] of [src/search.cpp] (lines 1204-1593).  The local variables of
    the function that its lambdas and its loop update are the record [Walk];
    the segments are kept last first. *)

From S2P Require Import Prelude Status Ids Doubles Spectrum Sha256 Canonical Topology SnapshotText Request Outcome.
From S2P Require Import SearchFacts Plan.

Definition internal {A} (detail : string) : Expected A := Error (Failure StatusCode.Internal detail).

Record Walk := MkWalk {
  bw_steps : list PlanStep;
  bw_segments : list PlanSegment;
  bw_reservations : list PlanReservation;
  bw_capability : list PlanAssumption;
  bw_quality : list PlanAssumption;
  bw_domains : list (FailureDomainId * Z);
  bw_profile : ProfileId;
  bw_mask : SlotMask;
  bw_total_cost : Z;
  bw_distance : Z;
  bw_loss : double;
  bw_osnr_inverse : double;
  bw_span_count : Z;
  bw_runs : Z;
  bw_last_slot : option Z;
  bw_segment_index : Z;
  bw_regenerations : Z;
  bw_port : PortKey;
}.

(** ** Updates of the walk *)

Definition add_step (s : PlanStep) (w : Walk) : Walk :=
  MkWalk (bw_steps w ++ [s]) (bw_segments w) (bw_reservations w) (bw_capability w) (bw_quality w) (bw_domains w)
    (bw_profile w) (bw_mask w) (bw_total_cost w) (bw_distance w) (bw_loss w) (bw_osnr_inverse w) (bw_span_count w)
    (bw_runs w) (bw_last_slot w) (bw_segment_index w) (bw_regenerations w) (bw_port w).
Definition put_segments (l : list PlanSegment) (w : Walk) : Walk :=
  MkWalk (bw_steps w) l (bw_reservations w) (bw_capability w) (bw_quality w) (bw_domains w)
    (bw_profile w) (bw_mask w) (bw_total_cost w) (bw_distance w) (bw_loss w) (bw_osnr_inverse w) (bw_span_count w)
    (bw_runs w) (bw_last_slot w) (bw_segment_index w) (bw_regenerations w) (bw_port w).
Definition put_domains (l : list (FailureDomainId * Z)) (w : Walk) : Walk :=
  MkWalk (bw_steps w) (bw_segments w) (bw_reservations w) (bw_capability w) (bw_quality w) l
    (bw_profile w) (bw_mask w) (bw_total_cost w) (bw_distance w) (bw_loss w) (bw_osnr_inverse w) (bw_span_count w)
    (bw_runs w) (bw_last_slot w) (bw_segment_index w) (bw_regenerations w) (bw_port w).
Definition assume (capability quality : list PlanAssumption) (w : Walk) : Walk :=
  MkWalk (bw_steps w) (bw_segments w) (bw_reservations w) (bw_capability w ++ capability) (bw_quality w ++ quality)
    (bw_domains w) (bw_profile w) (bw_mask w) (bw_total_cost w) (bw_distance w) (bw_loss w) (bw_osnr_inverse w)
    (bw_span_count w) (bw_runs w) (bw_last_slot w) (bw_segment_index w) (bw_regenerations w) (bw_port w).
Definition reserve (v : PlanReservation) (w : Walk) : Walk :=
  MkWalk (bw_steps w) (bw_segments w) (bw_reservations w ++ [v]) (bw_capability w) (bw_quality w)
    (bw_domains w) (bw_profile w) (bw_mask w) (bw_total_cost w) (bw_distance w) (bw_loss w) (bw_osnr_inverse w)
    (bw_span_count w) (bw_runs w) (bw_last_slot w) (bw_segment_index w) (bw_regenerations w) (bw_port w).
(** [total_cost += cost] *)
Definition charge (cost : Z) (w : Walk) : Walk :=
  MkWalk (bw_steps w) (bw_segments w) (bw_reservations w) (bw_capability w) (bw_quality w)
    (bw_domains w) (bw_profile w) (bw_mask w) (wrap64 (bw_total_cost w + cost)) (bw_distance w) (bw_loss w)
    (bw_osnr_inverse w) (bw_span_count w) (bw_runs w) (bw_last_slot w) (bw_segment_index w) (bw_regenerations w)
    (bw_port w).
Definition put_channel (mask : SlotMask) (runs : Z) (slot : option Z) (w : Walk) : Walk :=
  MkWalk (bw_steps w) (bw_segments w) (bw_reservations w) (bw_capability w) (bw_quality w)
    (bw_domains w) (bw_profile w) mask (bw_total_cost w) (bw_distance w) (bw_loss w)
    (bw_osnr_inverse w) (bw_span_count w) runs slot (bw_segment_index w) (bw_regenerations w) (bw_port w).
Definition put_segment_totals (distance : Z) (loss osnr_inverse : double) (span_count : Z) (w : Walk) : Walk :=
  MkWalk (bw_steps w) (bw_segments w) (bw_reservations w) (bw_capability w) (bw_quality w)
    (bw_domains w) (bw_profile w) (bw_mask w) (bw_total_cost w) distance loss osnr_inverse span_count (bw_runs w)
    (bw_last_slot w) (bw_segment_index w) (bw_regenerations w) (bw_port w).
Definition arrive (k : PortKey) (w : Walk) : Walk :=
  MkWalk (bw_steps w) (bw_segments w) (bw_reservations w) (bw_capability w) (bw_quality w)
    (bw_domains w) (bw_profile w) (bw_mask w) (bw_total_cost w) (bw_distance w) (bw_loss w) (bw_osnr_inverse w)
    (bw_span_count w) (bw_runs w) (bw_last_slot w) (bw_segment_index w) (bw_regenerations w) k.
Definition next_segment (profile : ProfileId) (w : Walk) : Walk :=
  MkWalk (bw_steps w) (bw_segments w) (bw_reservations w) (bw_capability w) (bw_quality w)
    (bw_domains w) profile (bw_mask w) (bw_total_cost w) (bw_distance w) (bw_loss w) (bw_osnr_inverse w)
    (bw_span_count w) (bw_runs w) (bw_last_slot w) (wrap32 (bw_segment_index w + 1)) (wrap32 (bw_regenerations w + 1))
    (bw_port w).

(** [push_step]: the step counter is the number of steps pushed. *)
Definition push_step (k : StepKind.t) (resource : ResourceKey) (segment reasons cost : Z) (w : Walk) : Walk :=
  add_step (MkStep (wrap32 (size (bw_steps w))) k resource segment reasons cost) w.

(** [domain_counts[domain] += 1] on the map, kept by increasing key. *)
Fixpoint bump (d : FailureDomainId) (counts : list (FailureDomainId * Z)) : list (FailureDomainId * Z) :=
  match counts with
  | [] => [(d, 1)]
  | (x, n) :: rest =>
      if d <o x then (d, 1) :: counts
      else if bool_decide (d = x) then (x, wrap32 (n + 1)) :: rest
      else (x, n) :: bump d rest
  end.

Definition note_domains (domains : list FailureDomainId) (w : Walk) : Walk :=
  put_domains (fold_left (fun counts d => bump d counts) domains (bw_domains w)) w.

Definition new_segment (index : Z) (profile : ProfileId) : PlanSegment :=
  MkPlanSegment index profile [] 0 d0 d0 0 0 false empty_resource.

Definition ensure_segment (w : Walk) : Walk :=
  match bw_segments w with
  | s :: _ =>
      if sg_index s =? bw_segment_index w then w
      else put_segments (new_segment (bw_segment_index w) (bw_profile w) :: bw_segments w) w
  | [] => put_segments [new_segment (bw_segment_index w) (bw_profile w)] w
  end.

(** [segments.back()] changed in place. *)
Definition on_last_segment (f : PlanSegment -> PlanSegment) (w : Walk) : Walk :=
  put_segments (match bw_segments w with s :: rest => f s :: rest | [] => [] end) w.

Definition add_span_use (u : PlanSpanUse) (s : PlanSegment) : PlanSegment :=
  MkPlanSegment (sg_index s) (sg_profile s) (sg_spans s ++ [u]) (sg_distance_m s) (sg_loss_db s) (sg_osnr_db s)
    (sg_span_count s) (sg_channel_runs s) (sg_ended_by_regeneration s) (sg_regeneration_resource s).

Definition segment_osnr `{Platform} (inverse : double) : double :=
  if dle inverse d0 then d0 else dmul (dopp d10) (log10 inverse).

(** The totals of the walk written to its segment when it closes. *)
Definition close_segment `{Platform} (w : Walk) (regeneration : option ResourceKey) (s : PlanSegment) : PlanSegment :=
  MkPlanSegment (sg_index s) (bw_profile w) (sg_spans s) (bw_distance w) (bw_loss w)
    (segment_osnr (bw_osnr_inverse w)) (bw_span_count w) (bw_runs w)
    (bool_decide (is_Some regeneration)) (default (sg_regeneration_resource s) regeneration).

(** The channel after a change of the mask: its lowest slot starts a new run
    when it differs from the last one. *)
Definition take_channel (mask : SlotMask) (empty : string) (w : Walk) : Expected (Z * Walk) :=
  match LowestSetBit mask with
  | None => internal empty
  | Some slot =>
      let runs := if bool_decide (bw_last_slot w = Some slot) then bw_runs w else wrap32 (bw_runs w + 1) in
      Value (slot, put_channel mask runs (Some slot) w)
  end.

Definition FormatSafeDouble `{Platform} (v : double) : string := ValueOr (FormatDouble v) "0".

Section build.
Context `{Platform} (t : TopologySnapshot) (r : PlanningRequest).

Definition usable_mask (blocked : Evidence SlotMask) : SlotMask :=
  match blocked with
  | Known b => FirstSlotMask (usable_slots (slot_count (t_spectrum t)) b) (channel_width_slots r)
  | _ => FirstSlotMask (mask_All (slot_count (t_spectrum t))) (channel_width_slots r)
  end.

Definition node_change_cost (from to : PortKey) : Z :=
  if bool_decide (node from = node to) then 0
  else match FindNode t (node to) with Some n => n_transit_cost n | None => 0 end.

(** The step and the domains of a node entered from another one. *)
Definition enter_node (to : PortKey) (w : Walk) : Walk :=
  if bool_decide (node to = node (bw_port w)) then w
  else
    match FindNode t (node to) with
    | Some n =>
        note_domains (n_failure_domains n)
          (push_step StepKind.Node (ForNode (n_id n)) (bw_segment_index w) (Z.lor kReasonNotExcluded kReasonAdminUp)
             (node_change_cost (bw_port w) to) w)
    | None => w
    end.

Definition span_reasons : Z :=
  Z.lor (Z.lor (Z.lor (Z.lor kReasonNotExcluded kReasonAdminUp) (Z.lor kReasonPortAdmitted kReasonSpectrumAvailable))
    (Z.lor (Z.lor kReasonWithinReachDistance kReasonWithinReachSpans)
       (Z.lor kReasonWithinReachLoss kReasonWithinReachOsnr))) kReasonFailureDomainWithinLimit.

(** Lines 1352-1429: the walk after a span whose evidence is published. *)
Definition after_span (s : SpanRecord) (p : PortRecord) (reversed : bool) (length_m : Z) (loss_db osnr_db : double)
  (blocked : SlotMask) (slot : Z) (w : Walk) : Walk :=
  let to := if reversed then s_from s else s_to s in
  let use := MkSpanUse (s_id s) (if reversed then s_to s else s_from s) to reversed length_m loss_db osnr_db
               (s_cost s) slot (s_failure_domains s) in
  let w := on_last_segment (add_span_use use) (ensure_segment w) in
  let w := put_segment_totals (wrap64 (bw_distance w + length_m)) (dadd (bw_loss w) loss_db)
             (dadd (bw_osnr_inverse w) (pow10 (ddiv (dopp osnr_db) d10))) (wrap32 (bw_span_count w + 1)) w in
  let w := charge (s_cost s) w in
  let w := push_step StepKind.Span (ForSpan (s_id s)) (bw_segment_index w) span_reasons (s_cost s) w in
  let w := note_domains (p_failure_domains p) (note_domains (s_failure_domains s) w) in
  let w := charge (node_change_cost (bw_port w) to) (charge (p_transit_cost p) w) in
  let w := enter_node to w in
  let w := reserve (MkReservation (ForSpan (s_id s)) (MkChannel slot (channel_width_slots r)) (bw_segment_index w)) w in
  let w := assume [MkAssumption (ForSpan (s_id s)) "blocked_slots" (mask_ToHex blocked)]
             [MkAssumption (ForSpan (s_id s)) "length_m" (FormatU64 length_m);
              MkAssumption (ForSpan (s_id s)) "loss_db" (FormatSafeDouble loss_db);
              MkAssumption (ForSpan (s_id s)) "osnr_db" (FormatSafeDouble osnr_db)] w in
  arrive to w.

(** Lines 1331-1430. *)
Definition build_span (index : nat) (reversed : bool) (w : Walk) : Expected Walk :=
  match t_spans t !! index with
  | None => internal "plan build saw an out-of-range span arc"
  | Some s =>
      match s_length_m s, s_loss_db s, s_osnr_db s, s_blocked_slots s, HasValue (s_admin s) with
      | Known length_m, Known loss_db, Known osnr_db, Known blocked, true =>
          match FindPort t (if reversed then s_from s else s_to s) with
          | None => internal "plan build requires the arrival port spectrum capability"
          | Some p =>
              if negb (HasValue (p_blocked_slots p)) then
                internal "plan build requires the arrival port spectrum capability"
              else
                let mask := mask_Intersect (mask_Intersect (bw_mask w) (usable_mask (s_blocked_slots s)))
                              (usable_mask (p_blocked_slots p)) in
                let! (slot, w) := take_channel mask "plan build derived an empty channel set" w in
                Value (after_span s p reversed length_m loss_db osnr_db blocked slot w)
          end
      | _, _, _, _, _ => internal "plan build requires published span quality evidence"
      end
  end.

(** Lines 1445-1495: what the operation does to the channel and the segment,
    and the reasons of its step. *)
Definition build_op (x : CrossConnectRecord) (p : PortRecord) (w : Walk) : Expected (Z * Walk) :=
  let reasons := Z.lor (Z.lor kReasonNotExcluded kReasonAdminUp) kReasonPortAdmitted in
  match x_op x with
  | CrossConnectOp.Express =>
      let mask := mask_Intersect (mask_Intersect (bw_mask w) (usable_mask (x_blocked_slots x)))
                    (usable_mask (p_blocked_slots p)) in
      let! (_, w) := take_channel mask "plan build derived an empty channel set after a cross-connect" w in
      Value (reasons, w)
  | CrossConnectOp.Convert =>
      let mask := usable_mask (p_blocked_slots p) in
      match LowestSetBit mask with
      | None => internal "plan build derived an empty channel set after a conversion"
      | Some slot =>
          Value (Z.lor reasons kReasonWavelengthConversion, put_channel mask (wrap32 (bw_runs w + 1)) (Some slot) w)
      end
  | CrossConnectOp.Regenerate =>
      let w := ensure_segment w in
      let w := on_last_segment (close_segment w (Some (ForCrossConnect (x_id x)))) w in
      match p_transmit_profile p with
      | Known (Some profile) =>
          let w := assume [MkAssumption (ForPort (p_key p)) "transmit_profile" (str profile)] [] (next_segment profile w) in
          let w := put_segment_totals 0 d0 d0 0 (put_channel (usable_mask (p_blocked_slots p)) 0 None w) in
          Value (Z.lor reasons (Z.lor (Z.lor kReasonRegenerationBoundary kReasonSegmentStart)
                                  kReasonTransmitProfileKnown), w)
      | _ => internal "plan build requires a transmit profile at a regeneration target"
      end
  end.

(** Lines 1497-1528: the walk after the step of a cross-connect. *)
Definition after_cross_connect (x : CrossConnectRecord) (p : PortRecord) (blocked : SlotMask) (reasons : Z) (w : Walk) : Walk :=
  let w := push_step StepKind.CrossConnect (ForCrossConnect (x_id x)) (bw_segment_index w) reasons (x_cost x) w in
  let w := charge (x_cost x) w in
  let w := note_domains (p_failure_domains p) (note_domains (x_failure_domains x) w) in
  let w := charge (node_change_cost (bw_port w) (x_to x)) w in
  let w := assume [MkAssumption (ForCrossConnect (x_id x)) "operation" (CrossConnectOpName (x_op x));
                   MkAssumption (ForPort (p_key p)) "blocked_slots" (mask_ToHex blocked)] [] w in
  let w := if bool_decide (x_op x = CrossConnectOp.Express) then w
           else enter_node (p_key p)
                  (push_step StepKind.Port (ForPort (p_key p)) (bw_segment_index w)
                     (Z.lor reasons kReasonSpectrumAvailable) (p_transit_cost p) w) in
  arrive (x_to x) (charge (p_transit_cost p) w).

(** Lines 1432-1529. *)
Definition build_cross_connect (index : nat) (w : Walk) : Expected Walk :=
  match t_cross_connects t !! index with
  | None => internal "plan build saw an out-of-range cross-connect arc"
  | Some x =>
      if negb (HasValue (x_admin x)) || negb (HasValue (x_blocked_slots x)) then
        internal "plan build requires published cross-connect evidence"
      else
        match FindPort t (x_to x) with
        | None => internal "plan build requires the target port spectrum capability"
        | Some p =>
            match p_blocked_slots p with
            | Known blocked =>
                let! (reasons, w) := build_op x p w in
                Value (after_cross_connect x p blocked reasons w)
            | _ => internal "plan build requires the target port spectrum capability"
            end
        end
  end.

Definition build_arc (a : ArcRef) (w : Walk) : Expected Walk :=
  match a_kind a with
  | ArcKind.Span => build_span (a_index a) (a_reversed a) w
  | ArcKind.CrossConnect => build_cross_connect (a_index a) w
  end.

Fixpoint build_arcs (arcs : list ArcRef) (w : Walk) : Expected Walk :=
  match arcs with
  | [] => Value w
  | a :: rest => let! w := build_arc a w in build_arcs rest w
  end.

(** Lines 1227-1305: the walk on the source port. *)
Definition start_walk : Expected Walk :=
  match FindPort t (q_source r) with
  | None => internal "plan build requires the source port to exist"
  | Some p =>
      match p_transmit_profile p with
      | Known (Some profile) =>
          match p_blocked_slots p with
          | Known blocked =>
              let w := MkWalk [] [] [] [] [] [] profile (usable_mask (p_blocked_slots p)) (p_transit_cost p) 0 d0 d0 0 0
                         None 0 0 (q_source r) in
              let w := push_step StepKind.Port (ForPort (q_source r)) 0
                         (Z.lor (Z.lor (Z.lor kReasonSegmentStart kReasonNotExcluded)
                                   (Z.lor kReasonAdminUp kReasonPortAdmitted))
                            (Z.lor kReasonSpectrumAvailable kReasonTransmitProfileKnown)) 0 w in
              let w := assume [MkAssumption (ForPort (q_source r)) "transmit_profile" (str profile);
                               MkAssumption (ForPort (q_source r)) "blocked_slots" (mask_ToHex blocked)] [] w in
              let w := note_domains (p_failure_domains p) w in
              Value (match FindNode t (node (q_source r)) with
                     | Some n =>
                         charge (n_transit_cost n)
                           (note_domains (n_failure_domains n)
                              (push_step StepKind.Node (ForNode (n_id n)) 0
                                 (Z.lor (Z.lor kReasonSegmentStart kReasonNotExcluded) kReasonAdminUp)
                                 (n_transit_cost n) w))
                     | None => w
                     end)
          | _ => internal "plan build requires a published spectrum capability at the source port"
          end
      | _ => internal "plan build requires a published transmit profile at the source port"
      end
  end.

Definition last_resource (steps : list PlanStep) : option ResourceKey := ps_resource <$> last steps.

(** Lines 1538-1556. *)
Definition finish_walk (w : Walk) : Walk :=
  let w := ensure_segment w in
  let w := on_last_segment (close_segment w None) w in
  let destination := ForPort (q_destination r) in
  if bool_decide (last_resource (bw_steps w) = Some destination) then w
  else push_step StepKind.Port destination (bw_segment_index w)
         (Z.lor (Z.lor kReasonNotExcluded kReasonAdminUp) (Z.lor kReasonPortAdmitted kReasonSpectrumAvailable)) 0 w.

Definition lookup_limit (d : FailureDomainId) (limits : list (FailureDomainId * Z)) : option Z :=
  match List.find (fun entry => bool_decide (fst entry = d)) limits with Some entry => Some (snd entry) | None => None end.

Definition exposure_of (entry : FailureDomainId * Z) : FailureDomainExposure :=
  MkExposure (fst entry) (snd entry)
    (default 0 (lookup_limit (fst entry) (max_members_per_failure_domain (constraints r)))).

Definition assumption_empty (a : PlanAssumption) : bool := resource_empty (as_resource a) || bool_decide (as_field a = "").

Context `{Hasher}.

Definition bindings : list SourceBinding :=
  map (fun s => MkBinding (src_id s) (src_generation s) (SourceContributionDigest t (src_id s))) (t_sources t).

(** Lines 1558-1589. *)
Definition seal_walk (request_digest : Digest256) (hops : Z) (w : Walk) : Expected PlanArtifact :=
  if existsb assumption_empty (bw_capability w) then
    internal "plan build produced a capability assumption without a resource"
  else if existsb assumption_empty (bw_quality w) then
    internal "plan build produced a quality assumption without a resource"
  else
    let segments := rev (bw_segments w) in
    Value (Seal (MkPlan kPlanFormatVersion kPlanningRuleVersion (q_id r) request_digest (t_id t) (t_generation t) (t_digest t)
      bindings (q_source r) (q_destination r) (bw_steps w) segments (bw_reservations w) (bw_capability w) (bw_quality w)
      (map exposure_of (bw_domains w)) (channel_width_slots r) (bw_total_cost w)
      (fold_left (fun total s => wrap64 (total + sg_distance_m s)) segments 0)
      (fold_left (fun total s => dadd total (sg_loss_db s)) segments d0)
      hops (bw_regenerations w) zero_digest)).

Definition BuildPlan (request_digest : Digest256) (arcs : list ArcRef) : Expected PlanArtifact :=
  let! w := start_walk in
  let! w := build_arcs arcs w in
  if negb (bool_decide (bw_port w = q_destination r)) then
    internal "plan build arc sequence does not end on the destination"
  else
    match FindPort t (bw_port w) with
    | None => internal "plan build ended on a port with no record"
    | Some _ => seal_walk request_digest (wrap32 (size arcs)) (finish_walk w)
    end.
End build.
