(* ===== verification/PlanFacts.v ===== *)
(** * PlanFacts: what a built plan promises

    Theorems on [BuildPlan]: the channels it reserves, its totals, and that it
    succeeds on the proven paths of the search. *)

From S2P Require Import Prelude Status Ids Doubles Spectrum Sha256 Canonical Topology SnapshotText Builder Request.
From S2P Require Import Outcome SearchFacts SearchArcs Search Route Plan PlanBuild.

(** ** Reading a walk back *)

Section walks.
Context `{Platform} (t : TopologySnapshot) (r : PlanningRequest).

Abbreviation mask_of := (usable_mask t r).

Lemma build_span_inv i reversed w w' :
  build_span t r i reversed w = Value w' ->
  exists s p length_m loss osnr blocked pb slot,
    t_spans t !! i = Some s /\ s_length_m s = Known length_m /\ s_loss_db s = Known loss /\ s_osnr_db s = Known osnr /\
    s_blocked_slots s = Known blocked /\ HasValue (s_admin s) = true /\
    FindPort t (if reversed then s_from s else s_to s) = Some p /\ p_blocked_slots p = Known pb /\
    let mask := mask_Intersect (mask_Intersect (bw_mask w) (mask_of (Known blocked))) (mask_of (Known pb)) in
    LowestSetBit mask = Some slot /\
    w' = after_span t r s p reversed length_m loss osnr blocked slot
           (put_channel mask (if bool_decide (bw_last_slot w = Some slot) then bw_runs w else wrap32 (bw_runs w + 1))
              (Some slot) w).
Proof.
  unfold build_span. destruct (t_spans t !! i) as [s|]; [|done].
  destruct (s_length_m s) as [length_m| |] eqn:El; try done. destruct (s_loss_db s) as [loss| |] eqn:Eo; try done.
  destruct (s_osnr_db s) as [osnr| |] eqn:En; try done. destruct (s_blocked_slots s) as [b| |] eqn:Eb; try done.
  destruct (HasValue (s_admin s)) eqn:Ea; [|done]. destruct (FindPort t _) as [p|] eqn:Ep; [|done].
  destruct (p_blocked_slots p) as [pb| |] eqn:Epb; try done. cbv zeta. unfold take_channel.
  destruct (LowestSetBit _) as [slot|] eqn:Es; [|done]. intros [= <-].
  exists s, p, length_m, loss, osnr, b, pb, slot. by split_and!.
Qed.

Lemma build_cross_connect_inv i w w' :
  build_cross_connect t r i w = Value w' ->
  exists x p blocked pb reasons w1,
    t_cross_connects t !! i = Some x /\ HasValue (x_admin x) = true /\ x_blocked_slots x = Known blocked /\
    FindPort t (x_to x) = Some p /\ p_blocked_slots p = Known pb /\ build_op t r x p w = Value (reasons, w1) /\
    w' = after_cross_connect t x p pb reasons w1.
Proof.
  unfold build_cross_connect. destruct (t_cross_connects t !! i) as [x|]; [|done].
  destruct (HasValue (x_admin x)) eqn:Ea; [|done]. destruct (x_blocked_slots x) as [b| |] eqn:Eb; try done. simpl.
  destruct (FindPort t (x_to x)) as [p|] eqn:Ep; [|done]. destruct (p_blocked_slots p) as [pb| |] eqn:Epb; try done.
  destruct (build_op t r x p w) as [[reasons w1]|] eqn:Eo; [|done]. intros [= <-].
  exists x, p, b, pb, reasons, w1. by split_and!.
Qed.

(** An invariant of the two kinds of arcs is one of the loop. *)
Lemma build_arcs_invariant (P : Walk -> Prop) arcs w w' :
  (forall i rev w w', build_span t r i rev w = Value w' -> P w -> P w') ->
  (forall i w w', build_cross_connect t r i w = Value w' -> P w -> P w') ->
  build_arcs t r arcs w = Value w' -> P w -> P w'.
Proof.
  intros Hs Hx. revert w; induction arcs as [|a arcs IH]; intros w; simpl; [by intros [= <-]|].
  unfold build_arc. destruct (a_kind a).
  - destruct (build_span t r (a_index a) (a_reversed a) w) as [w1|] eqn:E; [|done]. intros Ha Hw. eauto.
  - destruct (build_cross_connect t r (a_index a) w) as [w1|] eqn:E; [|done]. intros Ha Hw. eauto.
Qed.

Lemma BuildPlan_inv `{Hasher} digest arcs plan :
  BuildPlan t r digest arcs = Value plan ->
  exists w0 w, start_walk t r = Value w0 /\ build_arcs t r arcs w0 = Value w /\ bw_port w = q_destination r /\
    seal_walk t r digest (wrap32 (size arcs)) (finish_walk r w) = Value plan.
Proof.
  unfold BuildPlan. destruct (start_walk t r) as [w0|]; [|done]. destruct (build_arcs t r arcs w0) as [w|] eqn:E; [|done].
  case_bool_decide as Ed; [|done]. simpl. destruct (FindPort t (bw_port w)); [|done]. intros Hs. exists w0, w. by split_and!.
Qed.

Lemma start_walk_inv w : start_walk t r = Value w ->
  exists p profile blocked, FindPort t (q_source r) = Some p /\ p_transmit_profile p = Known (Some profile) /\
    p_blocked_slots p = Known blocked /\ bw_profile w = profile /\ bw_mask w = mask_of (Known blocked) /\
    bw_port w = q_source r /\ bw_reservations w = [] /\ bw_segments w = [] /\ bw_segment_index w = 0 /\
    bw_regenerations w = 0 /\ bw_distance w = 0 /\ bw_loss w = d0 /\ bw_osnr_inverse w = d0 /\ bw_span_count w = 0 /\
    bw_total_cost w = start_price t (q_source r).
Proof.
  unfold start_walk, start_price, port_cost. destruct (FindPort t (q_source r)) as [p|] eqn:Ep; [|done].
  destruct (p_transmit_profile p) as [[profile|]| |] eqn:Et; try done.
  destruct (p_blocked_slots p) as [b| |] eqn:Eb; try done. cbv zeta. intros [= <-]. exists p, profile, b.
  destruct (FindNode t (node (q_source r))); by split_and!.
Qed.

(** ** Fields the smaller updates leave alone *)

Definition put_steps (l : list PlanStep) (w : Walk) : Walk :=
  MkWalk l (bw_segments w) (bw_reservations w) (bw_capability w) (bw_quality w) (bw_domains w)
    (bw_profile w) (bw_mask w) (bw_total_cost w) (bw_distance w) (bw_loss w) (bw_osnr_inverse w) (bw_span_count w)
    (bw_runs w) (bw_last_slot w) (bw_segment_index w) (bw_regenerations w) (bw_port w).

Lemma enter_node_put to w : exists steps domains, enter_node t to w = put_domains domains (put_steps steps w).
Proof.
  assert (w = put_domains (bw_domains w) (put_steps (bw_steps w) w)) as E by (by destruct w).
  unfold enter_node. case_bool_decide; [by do 2 eexists|]. destruct (FindNode t (node to)); by do 2 eexists.
Qed.

Lemma ensure_segment_put w : exists l, ensure_segment w = put_segments l w.
Proof.
  unfold ensure_segment. destruct (bw_segments w) as [|s l] eqn:E; [by eexists|]. destruct (_ =? _); [|by eexists].
  exists (s :: l). destruct w; simpl in *. by rewrite E.
Qed.

(** The fields of a walk that do not print: [steps], [segments] and [domains]
    apart. *)
Record moved (w w' : Walk) (to : PortKey) (cost : Z) (reservations : list PlanReservation)
  (capability quality : list PlanAssumption) : Prop := {
  mv_port : bw_port w' = to;
  mv_cost : bw_total_cost w' = wrap64 (bw_total_cost w + cost);
  mv_reservations : bw_reservations w' = bw_reservations w ++ reservations;
  mv_capability : bw_capability w' = bw_capability w ++ capability;
  mv_quality : bw_quality w' = bw_quality w ++ quality;
  mv_mask : bw_mask w' = bw_mask w;
  mv_profile : bw_profile w' = bw_profile w;
  mv_segment_index : bw_segment_index w' = bw_segment_index w;
  mv_regenerations : bw_regenerations w' = bw_regenerations w;
  mv_channel : bw_runs w' = bw_runs w /\ bw_last_slot w' = bw_last_slot w;
}.

Lemma after_span_moved s p (reversed : bool) length_m loss osnr blocked slot w :
  let to := if reversed then s_from s else s_to s in
  let w' := after_span t r s p reversed length_m loss osnr blocked slot w in
  moved w w' to (s_cost s + p_transit_cost p + node_change_cost t (bw_port w) to)
    [MkReservation (ForSpan (s_id s)) (MkChannel slot (channel_width_slots r)) (bw_segment_index w)]
    [MkAssumption (ForSpan (s_id s)) "blocked_slots" (mask_ToHex blocked)]
    [MkAssumption (ForSpan (s_id s)) "length_m" (FormatU64 length_m);
     MkAssumption (ForSpan (s_id s)) "loss_db" (FormatSafeDouble loss);
     MkAssumption (ForSpan (s_id s)) "osnr_db" (FormatSafeDouble osnr)] /\
  bw_distance w' = wrap64 (bw_distance w + length_m) /\ bw_loss w' = dadd (bw_loss w) loss /\
  bw_osnr_inverse w' = dadd (bw_osnr_inverse w) (OsnrToInverse osnr) /\
  bw_span_count w' = wrap32 (bw_span_count w + 1).
Proof.
  cbv zeta. unfold after_span. destruct (ensure_segment_put w) as [l ->].
  match goal with |- context [enter_node t ?to ?w0] => destruct (enter_node_put to w0) as (st & dm & ->) end.
  split; [split|split; [|split; [|split]]]; try (split; reflexivity); try reflexivity.
  cbn -[wrap Z.add node_change_cost]. rewrite wrap_add_l, <- Z.add_assoc, wrap_add_l. f_equal. lia.
Qed.

Lemma after_cross_connect_moved x p blocked reasons w :
  let w' := after_cross_connect t x p blocked reasons w in
  moved w w' (x_to x) (x_cost x + p_transit_cost p + node_change_cost t (bw_port w) (x_to x)) []
    [MkAssumption (ForCrossConnect (x_id x)) "operation" (CrossConnectOpName (x_op x));
     MkAssumption (ForPort (p_key p)) "blocked_slots" (mask_ToHex blocked)] [] /\
  bw_distance w' = bw_distance w /\ bw_loss w' = bw_loss w /\ bw_osnr_inverse w' = bw_osnr_inverse w /\
  bw_span_count w' = bw_span_count w /\ bw_segments w' = bw_segments w.
Proof.
  cbv zeta. unfold after_cross_connect.
  assert (forall c a b d, wrap64 (wrap64 (wrap64 (c + a) + d) + b) = wrap64 (c + (a + b + d))) as Hsum.
  { intros c a b d. rewrite wrap_add_l, <- Z.add_assoc, wrap_add_l. f_equal. lia. }
  case_bool_decide as Hx.
  - split; [split|do 4 (split; [reflexivity|]); reflexivity]; try reflexivity;
      [apply Hsum|simpl; by rewrite app_nil_r..|split; reflexivity].
  - match goal with |- context [enter_node t ?to ?w0] => destruct (enter_node_put to w0) as (st & dm & ->) end.
    split; [split|do 4 (split; [reflexivity|]); reflexivity]; try reflexivity;
      [apply Hsum|simpl; by rewrite app_nil_r..|split; reflexivity].
Qed.
End walks.

(** ** The channels a plan reserves *)

Section channels.
Context `{Platform} (t : TopologySnapshot) (r : PlanningRequest).
Context (Hslots : 0 <= slot_count (t_spectrum t) <= kMaxSpectrumSlots) (Hwidth : 0 <= channel_width_slots r).

(** Every slot of the channel lies in the model and is not blocked. *)
Definition channel_free (blocked : SlotMask) (c : Channel) : Prop :=
  0 < width_slots c /\ 0 <= first_slot c /\
  forall o, 0 <= o < width_slots c ->
    first_slot c + o < slot_count (t_spectrum t) /\ mask_Test blocked (first_slot c + o) = false.

Definition reservation_free (v : PlanReservation) : Prop :=
  exists s blocked, In s (t_spans t) /\ s_blocked_slots s = Known blocked /\ rv_resource v = ForSpan (s_id s) /\
    width_slots (rv_channel v) = channel_width_slots r /\ channel_free blocked (rv_channel v).

Lemma usable_mask_free blocked s :
  slot_in_range s -> mask_Test (usable_mask t r (Known blocked)) s = true ->
  channel_free blocked (MkChannel s (channel_width_slots r)).
Proof.
  intros Hs Ht. simpl in Ht. apply FirstSlotMask_Test in Ht as (Hw & Hle & Hrun); [|done..]. split; [done|]. simpl.
  split; [apply Hs|]. intros o Ho. specialize (Hrun o Ho). unfold slot_in_range, kMaxSpectrumSlots in *.
  destruct (usable_slots_spec (slot_count (t_spectrum t)) blocked ltac:(lia)) as [_ Hu].
  rewrite Hu in Hrun by (unfold slot_in_range; lia).
  apply andb_true_iff in Hrun as [Hlt%Z.ltb_lt Hb%negb_true_iff]. done.
Qed.

Lemma usable_mask_wf blocked : wf_mask (usable_mask t r blocked).
Proof. destruct blocked; apply FirstSlotMask_wf. Qed.

Lemma intersect3_Test a b c s : slot_in_range s -> mask_Test (mask_Intersect (mask_Intersect a b) c) s = true ->
  mask_Test a s = true /\ mask_Test b s = true /\ mask_Test c s = true.
Proof. intros Hs. rewrite !mask_Intersect_Test, !andb_true_iff by done. tauto. Qed.

Definition channels_ok (w : Walk) : Prop := wf_mask (bw_mask w) /\ Forall reservation_free (bw_reservations w).

Lemma build_span_channels i reversed w w' :
  build_span t r i reversed w = Value w' -> channels_ok w -> channels_ok w'.
Proof.
  intros (s & p & length_m & loss & osnr & blocked & pb & slot & Hs & _ & _ & _ & Hb & _ & _ & _ & Hl & ->)%build_span_inv
    [Hm Hr].
  match type of Hl with LowestSetBit ?m = _ => set (mask := m) in * end.
  assert (wf_mask mask) as Hwf by (apply mask_Intersect_wf; [apply mask_Intersect_wf; [done|]|]; apply usable_mask_wf).
  pose proof (LowestSetBit_correct mask Hwf) as Hspec. rewrite Hl in Hspec. destruct Hspec as (Hin & Ht & _).
  apply intersect3_Test in Ht as (_ & Ht & _); [|done].
  destruct (after_span_moved t r s p reversed length_m loss osnr blocked slot (put_channel mask
    (if bool_decide (bw_last_slot w = Some slot) then bw_runs w else wrap32 (bw_runs w + 1)) (Some slot) w)) as [M _].
  split; [by rewrite (mv_mask _ _ _ _ _ _ _ M)|]. rewrite (mv_reservations _ _ _ _ _ _ _ M). apply Forall_app.
  split; [exact Hr|]. constructor; [|done]. exists s, blocked. split; [by eapply list_elem_of_In, list_elem_of_lookup_2|].
  split; [exact Hb|]. split; [reflexivity|]. split; [reflexivity|]. by apply usable_mask_free.
Qed.

Lemma build_op_channels x p w reasons w' :
  build_op t r x p w = Value (reasons, w') -> channels_ok w ->
  channels_ok w' /\ bw_port w' = bw_port w /\ bw_total_cost w' = bw_total_cost w /\ bw_reservations w' = bw_reservations w.
Proof.
  unfold build_op, take_channel. intros E [Hm Hr]. destruct (x_op x).
  - cbv zeta in E. destruct (LowestSetBit _) as [slot|]; [|done]. injection E as <- <-. split; [|done]. split; [|done].
    apply mask_Intersect_wf; [apply mask_Intersect_wf; [done|]|]; apply usable_mask_wf.
  - cbv zeta in E. destruct (LowestSetBit _) as [slot|]; [|done]. injection E as <- <-. split; [|done].
    split; [apply usable_mask_wf|done].
  - destruct (ensure_segment_put w) as [l Hl]. rewrite Hl in E. destruct (p_transmit_profile p) as [[profile|]| |]; try done.
    cbv zeta in E. injection E as <- <-. split; [|done]. split; [apply usable_mask_wf|done].
Qed.

Lemma build_cross_connect_channels i w w' :
  build_cross_connect t r i w = Value w' -> channels_ok w -> channels_ok w'.
Proof.
  intros (x & p & blocked & pb & reasons & w1 & _ & _ & _ & _ & _ & Ho & ->)%build_cross_connect_inv Hw.
  apply build_op_channels in Ho as [[Hm Hr] _]; [|done].
  destruct (after_cross_connect_moved t x p pb reasons w1) as [M _].
  split; [by rewrite (mv_mask _ _ _ _ _ _ _ M)|]. by rewrite (mv_reservations _ _ _ _ _ _ _ M), app_nil_r.
Qed.

Lemma finish_walk_fields w :
  (bw_reservations (finish_walk r w), bw_capability (finish_walk r w), bw_quality (finish_walk r w),
   bw_total_cost (finish_walk r w), bw_regenerations (finish_walk r w), bw_domains (finish_walk r w)) =
  (bw_reservations w, bw_capability w, bw_quality w, bw_total_cost w, bw_regenerations w, bw_domains w).
Proof. unfold finish_walk. destruct (ensure_segment_put w) as [l ->]. by case_bool_decide. Qed.

Lemma seal_walk_inv `{Hasher} digest hops w plan :
  seal_walk t r digest hops w = Value plan ->
  pl_reservations plan = bw_reservations w /\ pl_total_cost plan = bw_total_cost w /\ pl_hops plan = hops /\
  pl_regenerations plan = bw_regenerations w /\ plan = Seal plan /\ pl_segments plan = rev (bw_segments w) /\
  pl_source plan = q_source r /\ pl_destination plan = q_destination r /\ pl_exposure plan = map (exposure_of r) (bw_domains w) /\
  pl_bound_sources plan = bindings t /\ pl_steps plan = bw_steps w /\
  (pl_snapshot_id plan, pl_snapshot_generation plan, pl_snapshot_digest plan, pl_request_digest plan, pl_request_id plan) =
  (t_id t, t_generation t, t_digest t, digest, q_id r).
Proof. unfold seal_walk. destruct (existsb _ _); [done|]. destruct (existsb _ _); [done|]. by intros [= <-]. Qed.

Lemma seal_walk_versions `{Hasher} digest hops w plan :
  seal_walk t r digest hops w = Value plan ->
  pl_format_version plan = kPlanFormatVersion /\ pl_rule_version plan = kPlanningRuleVersion.
Proof. unfold seal_walk. destruct (existsb _ _); [done|]. destruct (existsb _ _); [done|]. by intros [= <-]. Qed.

Lemma reservations_free `{Hasher} (digest : Digest256) (arcs : list ArcRef) (plan : PlanArtifact) :
  BuildPlan t r digest arcs = Value plan -> Forall reservation_free (pl_reservations plan).
Proof.
  intros (w0 & w & Hstart & Hb & _ & Hseal)%BuildPlan_inv. apply seal_walk_inv in Hseal as (-> & _).
  pose proof (finish_walk_fields w) as [= -> _ _ _ _ _].
  apply (build_arcs_invariant t r channels_ok arcs w0 w build_span_channels build_cross_connect_channels Hb).
  apply start_walk_inv in Hstart as (p & profile & blocked & _ & _ & _ & _ & Hm & _ & Hr & _).
  split; [rewrite Hm; apply usable_mask_wf|by rewrite Hr].
Qed.

(** C26: a plan only reserves free channels.  For whatever arcs [BuildPlan] makes
    a plan of, every reservation is of a span of the snapshot, as wide as the
    request asks, inside the spectrum model, and on slots the published set of
    the span does not block. *)
Theorem reservations_are_free `{Hasher} (digest : Digest256) (arcs : list ArcRef) (plan : PlanArtifact) :
  BuildPlan t r digest arcs = Value plan -> Forall reservation_free (pl_reservations plan).
Proof. apply reservations_free. Qed.
End channels.

(** ** The totals of a plan *)

Section totals.
Context `{Platform} (t : TopologySnapshot) (r : PlanningRequest).

Lemma node_change_price from to :
  node_change_cost t from to = if bool_decide (node to = node from) then 0 else node_cost t (node to).
Proof.
  unfold node_change_cost, node_cost. by rewrite (bool_decide_ext (node to = node from) (node from = node to)).
Qed.

(** What one arc does to the cost, the port and the regenerations. *)
Definition advances (a : ArcRef) (w w' : Walk) : Prop :=
  bw_port w' = arrival t a /\ bw_total_cost w' = wrap64 (bw_total_cost w + hop_price t a) /\
  bw_regenerations w' = (if regenerates t a then wrap32 (bw_regenerations w + 1) else bw_regenerations w).

Lemma build_op_fields x p w reasons w' :
  build_op t r x p w = Value (reasons, w') ->
  bw_port w' = bw_port w /\ bw_total_cost w' = bw_total_cost w /\
  bw_regenerations w' =
    if bool_decide (x_op x = CrossConnectOp.Regenerate) then wrap32 (bw_regenerations w + 1) else bw_regenerations w.
Proof.
  unfold build_op, take_channel. intros E. destruct (x_op x); cbv zeta in E.
  - destruct (LowestSetBit _) as [slot|]; [|done]. by injection E as <- <-.
  - destruct (LowestSetBit _) as [slot|]; [|done]. by injection E as <- <-.
  - destruct (ensure_segment_put w) as [l Hl]. rewrite Hl in E.
    destruct (p_transmit_profile p) as [[profile|]| |]; try done. by injection E as <- <-.
Qed.

Lemma build_arc_advances a w w' :
  DeparturePort t a = Value (bw_port w) -> build_arc t r a w = Value w' -> advances a w w'.
Proof.
  destruct a as [k i rev]. unfold build_arc, advances. simpl. intros Hd Hb. destruct k.
  - apply build_span_inv in Hb as (s & p & length_m & loss & osnr & blocked & pb & slot & Hs & _ & _ & _ & _ & _ & Hp & _ & _ & ->).
    match goal with |- context [after_span t r ?s ?p ?rv ?a1 ?a2 ?a3 ?a4 ?a5 ?a6] =>
      destruct (after_span_moved t r s p rv a1 a2 a3 a4 a5 a6) as [M _] end.
    unfold DeparturePort in Hd. simpl in Hd. rewrite Hs in Hd.
    assert (ArrivalPort t (MkArcRef ArcKind.Span i rev) = Value (if rev then s_from s else s_to s)) as Ha
      by (unfold ArrivalPort; simpl; by rewrite Hs).
    rewrite (arrival_Value _ _ _ Ha), (mv_port _ _ _ _ _ _ _ M), (mv_cost _ _ _ _ _ _ _ M), (mv_regenerations _ _ _ _ _ _ _ M).
    split; [done|]. split; [|done]. unfold hop_price. rewrite (arrival_Value _ _ _ Ha).
    unfold DeparturePort, arc_cost, port_cost. simpl. rewrite Hs, Hp, node_change_price. injection Hd as ->. done.
  - apply build_cross_connect_inv in Hb as (x & p & blocked & pb & reasons & w1 & Hx & _ & _ & Hp & _ & Ho & ->).
    destruct (after_cross_connect_moved t x p pb reasons w1) as [M _].
    apply build_op_fields in Ho as (Hport & Hcost & Hreg).
    unfold DeparturePort in Hd. simpl in Hd. rewrite Hx in Hd.
    assert (ArrivalPort t (MkArcRef ArcKind.CrossConnect i rev) = Value (x_to x)) as Ha
      by (unfold ArrivalPort; simpl; by rewrite Hx).
    rewrite (arrival_Value _ _ _ Ha), (mv_port _ _ _ _ _ _ _ M), (mv_cost _ _ _ _ _ _ _ M), (mv_regenerations _ _ _ _ _ _ _ M).
    split; [done|]. split.
    + unfold hop_price. rewrite (arrival_Value _ _ _ Ha).
      unfold DeparturePort, arc_cost, port_cost. simpl. rewrite Hx, Hp, node_change_price, Hport, Hcost.
      by injection Hd as ->.
    + rewrite Hreg. unfold regenerates. simpl. by rewrite Hx.
Qed.

Lemma build_arcs_totals k arcs k' w w' :
  walk t k arcs k' -> bw_port w = k -> build_arcs t r arcs w = Value w' ->
  bw_port w' = k' /\
  bw_total_cost w' = (if is_empty arcs then bw_total_cost w else wrap64 (bw_total_cost w + sum_over (hop_price t) arcs)) /\
  bw_regenerations w' =
    (if regeneration_count t arcs =? 0 then bw_regenerations w
     else wrap32 (bw_regenerations w + regeneration_count t arcs)).
Proof.
  intros Hw; revert w; induction Hw as [k|k a m arcs k' Hd Ha Hw IH]; intros w Hp; simpl.
  { by intros [= <-]. }
  destruct (build_arc t r a w) as [w1|] eqn:E; [|done]. rewrite <- Hp in Hd.
  apply build_arc_advances in E as (Hp1 & Hc1 & Hr1); [|done]. rewrite (arrival_Value _ _ _ Ha) in Hp1.
  intros (H1 & H2 & H3)%IH; [|done]. split; [done|]. split.
  - rewrite H2. destruct arcs as [|b arcs]; simpl.
    + rewrite Hc1. f_equal. lia.
    + rewrite Hc1, wrap_add_l. f_equal. simpl. lia.
  - rewrite H3. unfold regeneration_count, size in *. cbn [List.filter].
    destruct (regenerates t a); cbn [length].
    + destruct (Z.eqb_spec (Z.of_nat (length (List.filter (regenerates t) arcs))) 0) as [E0|E0].
      * rewrite Hr1. destruct (Z.eqb_spec (Z.of_nat (S (length (List.filter (regenerates t) arcs)))) 0); [lia|].
        f_equal. lia.
      * destruct (Z.eqb_spec (Z.of_nat (S (length (List.filter (regenerates t) arcs)))) 0); [lia|].
        rewrite Hr1, wrap_add_l. f_equal. lia.
    + by rewrite Hr1.
Qed.

Lemma sealed_verifies `{Hasher} (plan : PlanArtifact) : plan = Seal plan -> VerifySeal plan = OkStatus.
Proof. intros ->. unfold VerifySeal, Seal, digest_eqb. simpl. by rewrite bool_decide_eq_true_2. Qed.

Lemma built_totals `{Hasher} (digest : Digest256) (arcs : list ArcRef) (plan : PlanArtifact) :
  q_source r <> q_destination r -> walk t (q_source r) arcs (q_destination r) ->
  BuildPlan t r digest arcs = Value plan ->
  pl_total_cost plan = wrap64 (route_price t (q_source r) arcs) /\ pl_hops plan = wrap32 (size arcs) /\
  pl_regenerations plan = wrap32 (regeneration_count t arcs) /\ VerifySeal plan = OkStatus.
Proof.
  intros Hne Hw (w0 & w & Hstart & Hb & _ & Hseal)%BuildPlan_inv.
  apply seal_walk_inv in Hseal as (_ & -> & -> & -> & Hs & _).
  pose proof (finish_walk_fields r w) as F. injection F as _ _ _ -> -> _.
  apply start_walk_inv in Hstart as (p & profile & blocked & _ & _ & _ & _ & _ & Hp & _ & _ & _ & Hr & _ & _ & _ & _ & Hc).
  destruct (build_arcs_totals _ _ _ _ _ Hw Hp Hb) as (_ & -> & ->). rewrite Hc, Hr.
  split_and!; [|done| |].
  - destruct arcs as [|a arcs]; [|done]. inversion Hw. by subst.
  - destruct (Z.eqb_spec (regeneration_count t arcs) 0) as [->|]; [done|]. by rewrite Z.add_0_l.
  - by apply sealed_verifies.
Qed.

(** The totals of a plan are those of its route.  When [BuildPlan] makes a
    plan of a walk from source to destination, the plan is sealed, its total
    cost is the price of the route, its hop count the number of arcs and its
    regeneration count the number of regenerating cross-connects, each at its
    machine width. *)
Theorem BuildPlan_totals `{Hasher} (digest : Digest256) (arcs : list ArcRef) (plan : PlanArtifact) :
  q_source r <> q_destination r -> walk t (q_source r) arcs (q_destination r) ->
  BuildPlan t r digest arcs = Value plan ->
  pl_total_cost plan = wrap64 (route_price t (q_source r) arcs) /\ pl_hops plan = wrap32 (size arcs) /\
  pl_regenerations plan = wrap32 (regeneration_count t arcs) /\ VerifySeal plan = OkStatus.
Proof. apply built_totals. Qed.
End totals.

(** ** Proven paths have a plan *)

Section proven.
Context `{Platform} (t : TopologySnapshot) (r : PlanningRequest) (W : wf_snapshot t) (V : valid_request r).
Context (I : identified t).
Abbreviation e := (make_env t r).
Abbreviation key_of := (key_at t r).
Abbreviation arcs_of ls := (rev (arcs_back ls)).

Definition assumptions_ok (w : Walk) : Prop :=
  Forall (fun a => assumption_empty a = false) (bw_capability w) /\
  Forall (fun a => assumption_empty a = false) (bw_quality w).

Lemma existsb_none {A} (f : A -> bool) l : Forall (fun a => f a = false) l -> existsb f l = false.
Proof. induction 1 as [|a l Ha Hl IH]; [done|]. simpl. by rewrite Ha. Qed.

(** The walk keeps what the label carries. *)
Record follows (l : Label) (w : Walk) : Prop := {
  fo_port : bw_port w = key_of (l_port l);
  fo_mask : bw_mask w = l_mask l;
  fo_wf : wf_mask (l_mask l);
  fo_assumptions : assumptions_ok w;
}.

Lemma build_arcs_app arcs arcs' w :
  build_arcs t r (arcs ++ arcs') w = (let! w := build_arcs t r arcs w in build_arcs t r arcs' w).
Proof.
  revert w; induction arcs as [|a arcs IH]; intros w; simpl; [done|]. destruct (build_arc t r a w) as [w1|]; [|done]. apply IH.
Qed.

Lemma port_text_nonempty k : resource_empty (ForPort k) = false.
Proof. destruct k as [[n] [p]]. by destruct n. Qed.

Lemma assumption_named res field value :
  resource_empty res = false -> field <> "" -> assumption_empty (MkAssumption res field value) = false.
Proof. intros Hr Hf. unfold assumption_empty. simpl. by rewrite Hr, bool_decide_eq_false_2. Qed.

Lemma span_named i s : t_spans t !! i = Some s -> resource_empty (ForSpan (s_id s)) = false.
Proof. intros Hs. apply bool_decide_eq_false_2. destruct I as [Hn _]. by eapply (Forall_at _ _ _ _ Hn). Qed.

Lemma cross_connect_named i x : t_cross_connects t !! i = Some x -> resource_empty (ForCrossConnect (x_id x)) = false.
Proof. intros Hs. apply bool_decide_eq_false_2. destruct I as [_ Hn]. by eapply (Forall_at _ _ _ _ Hn). Qed.

(** The port a proven hop arrives at, with its published blocked set. *)
Lemma arrival_published i : indexed t r i -> port_published t (key_of i) ->
  exists p blocked, FindPort t (key_of i) = Some p /\ t_ports t !! i = Some p /\ p_key p = key_of i /\
    p_blocked_slots p = Known blocked.
Proof.
  intros Hi (j & p & n & Hj & Hp & _ & _ & Hb & _). unfold indexed in Hi. rewrite Hi in Hj. injection Hj as <-.
  destruct (p_blocked_slots p) as [b| |] eqn:Eb; try done. exists p, b. split_and!; try done.
  - by apply (FindPort_index _ _ i).
  - destruct (indexed_port t r i Hi) as (q & Hq & Kq). congruence.
Qed.

Lemma start_follows l : start_ok e l -> l_proven l = true -> exists w, start_walk t r = Value w /\ follows l w.
Proof.
  intros Hs Hp. pose proof (start_facts t r l Hs) as F. destruct Hs as [Hst _ Hi _ _ [Hm _] _ _ _ Hprov].
  change (e_snapshot e) with t in Hi. change (q_source (e_request e)) with (q_source r) in Hi.
  pose proof (key_at_index t r _ _ Hi) as Hk. destruct (Hprov Hp) as (Ha & Hset & Hmk & Htx).
  assert (indexed t r (l_port l)) as Hx by (by eapply indexed_index).
  destruct (arrival_published _ Hx (port_published_at _ _ _ Hx Ha Hset Hmk)) as (p & b & Hfp & Hpt & Kp & Hb).
  rewrite (port_info_eq _ _ _ _ Hpt) in Htx, Hm. unfold port_facts in Htx. simpl in Htx.
  unfold start_walk. rewrite <- Hk, Hfp. destruct (p_transmit_profile p) as [[profile|]| |] eqn:Et; try done. rewrite Hb.
  cbv zeta. eexists. split; [done|]. simpl in Hm. rewrite Hb in Hm.
  assert (forall f v, f <> "" -> assumption_empty (MkAssumption (ForPort (key_of (l_port l))) f v) = false) as Hne
    by (intros; apply assumption_named; [apply port_text_nonempty|done]).
  destruct (FindNode t _); (split; [done|done|rewrite Hm; apply FirstSlotMask_wf|];
    split; simpl; repeat (constructor; [by apply Hne|]); done).
Qed.

Lemma span_follows current l arc w :
  indexed t r (l_port current) -> In arc (OutgoingSpanArcs t (l_port current)) -> span_hop e current arc l ->
  l_proven l = true -> follows current w -> exists w', build_arc t r (l_arc l) w = Value w' /\ follows l w'.
Proof.
  intros Hi Hin Hh Hp [Fp Fm Fwf [Fc Fq]]. pose proof (span_hop_facts t r W _ _ _ Hi Hin Hh) as Hf.
  destruct (hf_proven _ _ _ _ Hf Hp) as (_ & Hpub & Hpp). pose proof (hf_arrives _ _ _ _ Hf) as Har.
  destruct (arrival_published _ (hf_index _ _ _ _ Hf) Hpp) as (p & pb & Hfp & Hpt & Kp & Hpb).
  pose proof (hop_mask _ _ _ (sh_hop _ _ _ _ Hh)) as Hne. destruct (sh_segment _ _ _ _ Hh) as (d & _ & Hseg).
  rewrite (sh_arc _ _ _ _ Hh) in *. destruct Hpub as (s & Hs & Hadm & Hlen & Hloss & Hosnr & Hbs & _). simpl in Hs.
  rewrite (span_info_eq _ _ _ _ Hs), (port_info_eq _ _ _ _ Hpt) in Hseg. injection Hseg as Hm _ _ _ _ _ _.
  unfold ArrivalPort in Har. simpl in Har. rewrite Hs in Har. injection Har as Har.
  unfold build_arc, build_span. simpl. rewrite Hs.
  destruct (s_length_m s) as [len| |] eqn:E1; try done. destruct (s_loss_db s) as [loss| |] eqn:E2; try done.
  destruct (s_osnr_db s) as [osnr| |] eqn:E3; try done. simpl in Hm.
  destruct (s_blocked_slots s) as [b| |] eqn:E4; try done.
  rewrite Hadm. simpl. rewrite Har, Hfp, Hpb. simpl. rewrite Hpb in Hm. rewrite Fm. unfold take_channel.
  match goal with |- context [LowestSetBit ?m] => replace m with (l_mask l) by (rewrite Hm; reflexivity) end.
  assert (wf_mask (l_mask l)) as Hwf.
  { rewrite Hm. apply mask_Intersect_wf; [apply mask_Intersect_wf; [done|]|]; apply FirstSlotMask_wf. }
  destruct (LowestSetBit_some _ Hwf Hne) as [slot ->]. eexists. split; [done|].
  match goal with |- context [after_span t r ?s ?p ?rv ?a1 ?a2 ?a3 ?a4 ?a5 ?a6] =>
    destruct (after_span_moved t r s p rv a1 a2 a3 a4 a5 a6) as [M _] end.
  split; [rewrite (mv_port _ _ _ _ _ _ _ M); exact Har|by rewrite (mv_mask _ _ _ _ _ _ _ M)|done|].
  pose proof (span_named _ _ Hs) as Hnm.
  split; rewrite ?(mv_capability _ _ _ _ _ _ _ M), ?(mv_quality _ _ _ _ _ _ _ M); apply Forall_app; (split; [done|]);
    repeat (constructor; [by apply assumption_named|]); done.
Qed.

Lemma cross_connect_follows current l x w :
  indexed t r (l_port current) -> In x (OutgoingCrossConnects t (l_port current)) -> cross_connect_hop e current x l ->
  l_proven l = true -> follows current w -> exists w', build_arc t r (l_arc l) w = Value w' /\ follows l w'.
Proof.
  intros Hi Hin Hh Hp [Fp Fm Fwf [Fc Fq]]. pose proof (cross_connect_hop_facts t r W _ _ _ Hi Hin Hh) as Hf.
  destruct (hf_proven _ _ _ _ Hf Hp) as (_ & Hpub & Hpp). pose proof (hf_arrives _ _ _ _ Hf) as Har.
  destruct (arrival_published _ (hf_index _ _ _ _ Hf) Hpp) as (p & pb & Hfp & Hpt & Kp & Hpb).
  pose proof (hop_mask _ _ _ (xh_hop _ _ _ _ Hh)) as Hne. pose proof (xh_op _ _ _ _ Hh) as Hop.
  rewrite (xh_arc _ _ _ _ Hh) in *. destruct Hpub as (xc & Hs & Hadm & Hbs). simpl in Hs.
  rewrite (cross_connect_record_eq _ _ _ _ Hs), (cross_connect_info_eq _ _ _ _ Hs), (port_info_eq _ _ _ _ Hpt) in Hop.
  unfold ArrivalPort in Har. simpl in Har. rewrite Hs in Har. injection Har as Har.
  unfold build_arc, build_cross_connect. simpl. rewrite Hs, Hadm, Hbs. simpl. rewrite Har, Hfp, Hpb.
  destruct (x_blocked_slots xc) as [b| |] eqn:Eb; try done.
  assert (exists reasons w1, build_op t r xc p w = Value (reasons, w1) /\ bw_mask w1 = l_mask l /\ wf_mask (l_mask l) /\
    assumptions_ok w1) as (reasons & w1 & -> & Hm1 & Hwf1 & Hc1 & Hq1).
  { unfold build_op, take_channel. destruct (x_op xc); simpl in Hop.
    - injection Hop as Hm _ _ _ _ _ _. rewrite Eb, Hpb in *. rewrite Fm. cbv zeta.
      match goal with |- context [LowestSetBit ?m] => replace m with (l_mask l) by (rewrite Hm; reflexivity) end.
      assert (wf_mask (l_mask l)) as Hwf.
      { rewrite Hm. apply mask_Intersect_wf; [apply mask_Intersect_wf; [done|]|]; apply FirstSlotMask_wf. }
      destruct (LowestSetBit_some _ Hwf Hne) as [slot ->]. eexists _, _. by split_and!.
    - destruct Hop as [_ Hg]. injection Hg as Hm _ _ _ _ _ _. rewrite Hpb in *. cbv zeta.
      match goal with |- context [LowestSetBit ?m] => replace m with (l_mask l) by (rewrite Hm; reflexivity) end.
      assert (wf_mask (l_mask l)) as Hwf by (rewrite Hm; apply FirstSlotMask_wf).
      destruct (LowestSetBit_some _ Hwf Hne) as [slot ->]. eexists _, _. by split_and!.
    - destruct Hop as (_ & _ & _ & Hg & Htx). injection Hg as Hm _ _ _ _ _ _. specialize (Htx Hp).
      unfold port_facts in Htx. simpl in Htx. destruct (p_transmit_profile p) as [[profile|]| |] eqn:Et; try done.
      destruct (ensure_segment_put w) as [sl ->]. cbv zeta. eexists _, _. split; [done|]. rewrite Hpb in *.
      split; [done|]. split; [rewrite Hm; apply FirstSlotMask_wf|]. split; simpl; [|by rewrite app_nil_r].
      apply Forall_app. split; [done|]. constructor; [|done]. by apply assumption_named; [apply port_text_nonempty|]. }
  eexists. split; [done|]. destruct (after_cross_connect_moved t xc p pb reasons w1) as [M _].
  split; [rewrite (mv_port _ _ _ _ _ _ _ M); exact Har|by rewrite (mv_mask _ _ _ _ _ _ _ M)|done|].
  pose proof (cross_connect_named _ _ Hs) as Hnm.
  split; rewrite ?(mv_capability _ _ _ _ _ _ _ M), ?(mv_quality _ _ _ _ _ _ _ M); apply Forall_app; (split; [done|]); [|done].
  repeat (constructor; [apply assumption_named; done || apply port_text_nonempty|]). done.
Qed.

Lemma Route_follows l rest : Route e (l :: rest) -> l_proven l = true ->
  exists w0 w, start_walk t r = Value w0 /\ build_arcs t r (arcs_of (l :: rest)) w0 = Value w /\ follows l w.
Proof.
  revert l. induction rest as [|current rest IH]; intros l Hr Hp; inversion Hr as [? Hs|? ? ? Hr1 Hst Hni Hm]; subst.
  - destruct (start_follows _ Hs Hp) as (w & Hw & Hf). exists w, w. cbn [arcs_back]. by rewrite (so_is_start _ _ Hs).
  - pose proof (rf_indexed _ _ _ _ (Route_facts t r W V _ _ Hr1)) as Hi. inversion Hi as [|? ? Hi0 _]; subst.
    pose proof (route_step_facts t r W _ _ Hi0 Hst) as Hf. pose proof (route_step_not_start t r _ _ Hst) as Hns.
    destruct (hf_proven _ _ _ _ Hf Hp) as (Hpc & _ & _). destruct (IH _ Hr1 Hpc) as (w0 & w & Hw0 & Hw & Hfo).
    assert (exists w', build_arc t r (l_arc l) w = Value w' /\ follows l w') as (w' & Hw' & Hfo').
    { destruct Hst as [x Hin Hh|arc Hin Hh]; [by eapply cross_connect_follows|by eapply span_follows]. }
    exists w0, w'. split; [done|]. split; [|done]. change (arcs_back (l :: current :: rest)) with
      (if l_is_start l then [] else l_arc l :: arcs_back (current :: rest)). rewrite Hns. cbn [rev].
    rewrite build_arcs_app, Hw. simpl. by rewrite Hw'.
Qed.

Lemma proven_path_plan `{Hasher} (options : PlannerOptions) (cancelled : nat -> bool) (path : RawPath)
  (digest : Digest256) :
  In path (o_paths (RunSearch t r options cancelled)) -> p_proven path = true ->
  exists plan, BuildPlan t r digest (p_arcs path) = Value plan /\
    pl_total_cost plan = wrap64 (p_cost path) /\ pl_hops plan = p_hops path /\ pl_regenerations plan = p_regenerations path.
Proof.
  intros (l & rest & Hfound)%RunSearch_found Hp; [|done..]. pose proof (found_walk t r W V _ _ _ Hfound) as Hwalk.
  destruct Hfound as [Hr Hd Ha Hc Hh Hg Hpr]. pose proof (Route_facts t r W V _ _ Hr) as F. rewrite Hpr in Hp.
  destruct (Route_follows _ _ Hr Hp) as (w0 & w & Hw0 & Hw & [Fp Fm Fwf [Fc Fq]]). rewrite <- Ha in Hw.
  assert (exists plan, BuildPlan t r digest (p_arcs path) = Value plan) as [plan Hplan].
  { unfold BuildPlan. rewrite Hw0, Hw, Fp, Hd, bool_decide_eq_true_2 by done. simpl.
    pose proof (rf_indexed _ _ _ _ F) as Hi. inversion Hi as [|? ? Hi0 _]; subst.
    destruct (indexed_port _ _ _ Hi0) as (p & Hpt & _). rewrite <- Hd, (FindPort_index _ _ _ _ Hi0 Hpt).
    unfold seal_walk. pose proof (finish_walk_fields r w) as E. injection E as _ -> -> _ _ _.
    rewrite !existsb_none by done. by eexists. }
  exists plan. split; [done|].
  destruct (built_totals t r digest _ plan (valid_ends _ V) Hwalk Hplan) as (-> & -> & -> & _).
  rewrite Hc, Hh, Hg, Ha, (rf_cost _ _ _ _ F).
  destruct (rf_hops _ _ _ _ F) as [Eh Lh], (rf_regenerations _ _ _ _ F) as [Eg Lg].
  pose proof (valid_hops _ V). pose proof (valid_regenerations _ V).
  unfold kMaxRequestedHops, kMaxRequestedRegenerations, regeneration_count, size in *.
  split; [done|]. rewrite Eh, Eg. split; apply wrap_small; width_lia.
Qed.

(** C25: every proven path has a plan, of the same cost.  For a path the search
    marks proven, [BuildPlan] succeeds (no evidence it needs is missing and the
    channel never runs out), and the plan it seals has the cost, the hops and
    the regenerations the search computed. *)
Theorem proven_path_has_plan `{Hasher} (options : PlannerOptions) (cancelled : nat -> bool) (path : RawPath)
  (digest : Digest256) :
  In path (o_paths (RunSearch t r options cancelled)) -> p_proven path = true ->
  exists plan, BuildPlan t r digest (p_arcs path) = Value plan /\
    pl_total_cost plan = wrap64 (p_cost path) /\ pl_hops plan = p_hops path /\ pl_regenerations plan = p_regenerations path.
Proof. apply proven_path_plan. Qed.
End proven.

(** ** The transparent segments of a plan *)

Section segments.
Context `{Platform} (t : TopologySnapshot) (r : PlanningRequest).

Definition is_span (a : ArcRef) : bool := bool_decide (a_kind a = ArcKind.Span).

(** A span use repeats the record of its arc, in the direction travelled. *)
Definition span_use (a : ArcRef) (u : PlanSpanUse) : Prop :=
  exists s, t_spans t !! a_index a = Some s /\ su_id u = s_id s /\ su_reversed u = a_reversed a /\
    DeparturePort t a = Value (su_from u) /\ ArrivalPort t a = Value (su_to u) /\ su_cost u = s_cost s /\
    s_length_m s = Known (su_length_m u) /\ s_loss_db s = Known (su_loss_db u) /\ s_osnr_db s = Known (su_osnr_db u).

Definition total_length (us : list PlanSpanUse) : Z := wrap64 (sum_over su_length_m us).
Definition total_loss (us : list PlanSpanUse) : double := fold_left (fun total u => dadd total (su_loss_db u)) us d0.
Definition total_inverse (us : list PlanSpanUse) : double :=
  fold_left (fun total u => dadd total (OsnrToInverse (su_osnr_db u))) us d0.

(** The totals of a segment are those of its spans. *)
Definition totals_ok (s : PlanSegment) : Prop :=
  sg_span_count s = wrap32 (size (sg_spans s)) /\ sg_distance_m s = total_length (sg_spans s) /\
  sg_loss_db s = total_loss (sg_spans s) /\ sg_osnr_db s = segment_osnr (total_inverse (sg_spans s)).

(** The segments of a walk: the closed ones, last first, and the open one. *)
Record split_segments (arcs : list ArcRef) (w : Walk) (closed : list PlanSegment) (open : option PlanSegment) : Prop := {
  sp_segments : bw_segments w = match open with Some s => s :: closed | None => closed end;
  sp_index : bw_segment_index w = size closed;
  sp_open : forall s, open = Some s -> sg_index s = size closed;
  sp_indices : map sg_index (rev closed) = range (size closed);
  sp_closed : Forall (fun s => sg_ended_by_regeneration s = true /\ totals_ok s) closed;
  sp_count : size closed = regeneration_count t arcs;
  sp_totals : let us := match open with Some s => sg_spans s | None => [] end in
    bw_span_count w = wrap32 (size us) /\ bw_distance w = total_length us /\ bw_loss w = total_loss us /\
    bw_osnr_inverse w = total_inverse us;
  sp_uses : Forall2 span_use (List.filter is_span arcs)
    (concat (map sg_spans (rev closed)) ++ match open with Some s => sg_spans s | None => [] end);
}.

Lemma range_succ n : 0 <= n -> range (n + 1) = range n ++ [n].
Proof.
  intros Hn. unfold range. replace (Z.to_nat (n + 1)) with (S (Z.to_nat n)) by lia.
  rewrite seq_S, map_app. simpl. by rewrite Z2Nat.id.
Qed.

Lemma head_index closed s rest : map sg_index (rev closed) = range (size closed) -> closed = s :: rest ->
  sg_index s = size closed - 1.
Proof.
  intros Hi ->. simpl in Hi. rewrite map_app in Hi. unfold size in *.
  assert (Z.of_nat (length (s :: rest)) = Z.of_nat (length rest) + 1) as E by (simpl; lia). rewrite E in *.
  rewrite range_succ in Hi by lia. apply app_inj_tail in Hi as [_ Hi]. simpl in Hi. lia.
Qed.

(** Opening the segment the walk stands in. *)
Lemma ensure_segment_split arcs w closed open :
  split_segments arcs w closed open ->
  exists s, split_segments arcs (ensure_segment w) closed (Some s) /\
    sg_spans s = match open with Some s => sg_spans s | None => [] end /\
    ensure_segment w = put_segments (s :: closed) w.
Proof.
  intros [Hs Hi Ho Hx Hc Hn Ht Hu]. destruct open as [s|].
  - exists s. assert (ensure_segment w = w) as E.
    { unfold ensure_segment. by rewrite Hs, (Ho s eq_refl), Hi, Z.eqb_refl. }
    rewrite E. split; [by split|]. split; [done|]. destruct w. simpl in *. by rewrite Hs.
  - exists (new_segment (bw_segment_index w) (bw_profile w)).
    assert (ensure_segment w = put_segments (new_segment (bw_segment_index w) (bw_profile w) :: closed) w) as E.
    { unfold ensure_segment. rewrite Hs. destruct closed as [|s rest] eqn:Ec; [done|].
      rewrite (head_index _ s rest Hx eq_refl), Hi. destruct (Z.eqb_spec (size (s :: rest) - 1) (size (s :: rest))); [lia|done]. }
    rewrite E. split; [|done]. split; simpl; try done. by intros s [= <-].
Qed.

Lemma after_span_segments s p (reversed : bool) length_m loss osnr blocked slot w sg rest :
  ensure_segment w = put_segments (sg :: rest) w ->
  bw_segments (after_span t r s p reversed length_m loss osnr blocked slot w) =
  add_span_use (MkSpanUse (s_id s) (if reversed then s_to s else s_from s) (if reversed then s_from s else s_to s)
    reversed length_m loss osnr (s_cost s) slot (s_failure_domains s)) sg :: rest.
Proof.
  intros E. unfold after_span. rewrite E.
  match goal with |- context [enter_node t ?to ?w0] => destruct (enter_node_put t to w0) as (st & dm & ->) end. done.
Qed.

Lemma sum_over_snoc {A} (f : A -> Z) l x : sum_over f (l ++ [x]) = sum_over f l + f x.
Proof. rewrite sum_over_app. simpl. lia. Qed.

Lemma size_app1 {A} (l : list A) x : size (l ++ [x]) = size l + 1.
Proof. unfold size. rewrite length_app. simpl. lia. Qed.

Lemma regeneration_count_snoc arcs a :
  regeneration_count t (arcs ++ [a]) = regeneration_count t arcs + (if regenerates t a then 1 else 0).
Proof.
  unfold regeneration_count, size. rewrite List.filter_app, length_app. simpl. destruct (regenerates t a); simpl; lia.
Qed.

Lemma filter_snoc {A} (f : A -> bool) l x : List.filter f (l ++ [x]) = List.filter f l ++ (if f x then [x] else []).
Proof. by rewrite List.filter_app. Qed.

Lemma build_span_split arcs i rev w w' closed open :
  split_segments arcs w closed open -> build_span t r i rev w = Value w' ->
  exists s, split_segments (arcs ++ [MkArcRef ArcKind.Span i rev]) w' closed (Some s).
Proof.
  intros Hsp (s & p & length_m & loss & osnr & blocked & pb & slot & Hs & El & Eo & En & _ & _ & Hp & _ & _ & ->)%build_span_inv.
  match goal with |- context [after_span t r ?s ?p ?rv ?a1 ?a2 ?a3 ?a4 ?a5 ?a6] => set (w1 := a6) end.
  assert (split_segments arcs w1 closed open) as Hsp1 by (destruct Hsp; by split).
  destruct (ensure_segment_split _ _ _ _ Hsp1) as (sg & Hsp2 & Hspans & E).
  pose proof (after_span_segments s p rev length_m loss osnr blocked slot w1 sg closed E) as Hseg.
  destruct (after_span_moved t r s p rev length_m loss osnr blocked slot w1) as (M & Hd & Hl & Ho & Hc).
  destruct Hsp2 as [_ _ Hop Hx Hcl Hn _ Hu]. destruct Hsp1 as [_ Hi1 _ _ _ _ (T1 & T2 & T3 & T4) _]. rewrite <- Hspans in *.
  eexists. split.
  - exact Hseg.
  - by rewrite (mv_segment_index _ _ _ _ _ _ _ M).
  - intros s' <-%Some_inj. exact (Hop sg eq_refl).
  - done.
  - done.
  - rewrite regeneration_count_snoc. simpl. by rewrite Z.add_0_r.
  - cbv zeta. cbn [add_span_use sg_spans]. rewrite Hd, Hl, Ho, Hc, T1, T2, T3, T4, size_app1. unfold total_length, total_loss, total_inverse.
    rewrite !fold_left_app, sum_over_snoc, !wrap_add_l. by split_and!.
  - rewrite filter_snoc. simpl. rewrite app_assoc. apply Forall2_app; [done|]. constructor; [|constructor].
    exists s. simpl. unfold DeparturePort, ArrivalPort. simpl. rewrite Hs. by split_and!.
Qed.

(** The spans of the open segment. *)
Definition open_spans (open : option PlanSegment) : list PlanSpanUse := match open with Some s => sg_spans s | None => [] end.

(** What an operation does to the segments: nothing, or the open one is closed. *)
Definition closes (w : Walk) (x : CrossConnectRecord) (closed closed' : list PlanSegment) (open open' : option PlanSegment) :
  Prop :=
  if bool_decide (x_op x = CrossConnectOp.Regenerate) then
    open' = None /\ exists s, sg_spans s = open_spans open /\
      closed' = close_segment w (Some (ForCrossConnect (x_id x))) s :: closed
  else closed' = closed /\ open' = open.

Lemma closes_size w x closed closed' open open' : closes w x closed closed' open open' -> size closed' <= size closed + 1.
Proof.
  unfold closes, size. case_bool_decide; [intros (_ & s & _ & ->)|intros [-> _]]; simpl; lia.
Qed.

Lemma build_op_split arcs x p i rev w w1 reasons closed open :
  split_segments arcs w closed open -> t_cross_connects t !! i = Some x -> size closed < u32_max ->
  build_op t r x p w = Value (reasons, w1) ->
  exists closed' open', split_segments (arcs ++ [MkArcRef ArcKind.CrossConnect i rev]) w1 closed' open' /\
    closes w x closed closed' open open'.
Proof.
  intros Hsp Hx Hb Ho.
  assert (forall w', x_op x <> CrossConnectOp.Regenerate -> (bw_segments w', bw_segment_index w', bw_span_count w', bw_distance w',
      bw_loss w', bw_osnr_inverse w') = (bw_segments w, bw_segment_index w, bw_span_count w, bw_distance w, bw_loss w,
      bw_osnr_inverse w) -> split_segments (arcs ++ [MkArcRef ArcKind.CrossConnect i rev]) w' closed open) as Hkeep.
  { intros w' Hne [= E1 E2 E3 E4 E5 E6]. destruct Hsp as [S1 S2 S3 S4 S5 S6 S7 S8].
    split; rewrite ?E1, ?E2, ?E3, ?E4, ?E5, ?E6; try done.
    - rewrite regeneration_count_snoc. unfold regenerates. simpl. rewrite Hx, bool_decide_eq_false_2 by done. lia.
    - rewrite filter_snoc. simpl. by rewrite app_nil_r. }
  unfold build_op, take_channel in Ho. destruct (x_op x) eqn:Eop; cbv zeta in Ho.
  - destruct (LowestSetBit _); [|done]. injection Ho as <- <-. exists closed, open. unfold closes. rewrite Eop. split; [by apply Hkeep|done].
  - destruct (LowestSetBit _); [|done]. injection Ho as <- <-. exists closed, open. unfold closes. rewrite Eop. split; [by apply Hkeep|done].
  - destruct (ensure_segment_split _ _ _ _ Hsp) as (s & Hsp2 & Hspans & E). rewrite E in Ho.
    destruct (p_transmit_profile p) as [[profile|]| |]; try done. injection Ho as <- <-.
    destruct Hsp2 as [_ _ S3 S4 S5 S6 _ S8]. destruct Hsp as [_ S2 _ _ _ _ (T1 & T2 & T3 & T4) _]. rewrite <- Hspans in *.
    exists (close_segment w (Some (ForCrossConnect (x_id x))) s :: closed), None.
    split; [|unfold closes; rewrite Eop; split; [done|exists s; split; [exact Hspans|done]]].
    assert (size (s :: closed) = size closed + 1) as Hsz by (unfold size; simpl; lia).
    assert (0 <= size closed) by (unfold size; lia).
    split; simpl; try done.
    + unfold size in *. simpl in *. rewrite S2. rewrite wrap_small by (unfold u32_max in *; width_lia). lia.
    + rewrite map_app, S4. simpl. rewrite (S3 s eq_refl). unfold size in *. simpl.
      replace (Z.of_nat (S (length closed))) with (Z.of_nat (length closed) + 1) by lia. rewrite range_succ by lia. done.
    + constructor; [|done]. split; [done|]. split; [exact T1|]. split; [exact T2|]. split; [exact T3|].
      simpl. by rewrite T4.
    + rewrite regeneration_count_snoc, <- S6. unfold regenerates. simpl. rewrite Hx, Eop. unfold size. simpl. lia.
    + rewrite filter_snoc. simpl. rewrite !app_nil_r, map_app, concat_app. simpl. by rewrite app_nil_r.
Qed.
Lemma build_cross_connect_split arcs i rev w w' closed open :
  split_segments arcs w closed open -> size closed < u32_max -> build_cross_connect t r i w = Value w' ->
  exists closed' open' x, t_cross_connects t !! i = Some x /\
    split_segments (arcs ++ [MkArcRef ArcKind.CrossConnect i rev]) w' closed' open' /\ closes w x closed closed' open open'.
Proof.
  intros Hsp Hb (x & p & blocked & pb & reasons & w1 & Hx & _ & _ & _ & _ & Ho & ->)%build_cross_connect_inv.
  destruct (build_op_split _ _ _ _ rev _ _ _ _ _ Hsp Hx Hb Ho) as (closed' & open' & Hsp' & Hle).
  exists closed', open', x. split; [done|]. split; [|done].
  destruct (after_cross_connect_moved t x p pb reasons w1) as (M & F1 & F2 & F3 & F4 & F5).
  destruct Hsp' as [S1 S2 S3 S4 S5 S6 S7 S8].
  split; [by rewrite F5|by rewrite (mv_segment_index _ _ _ _ _ _ _ M)|assumption..| |assumption].
  cbv zeta. by rewrite F1, F2, F3, F4.
Qed.

Lemma build_arcs_split rest arcs w w' closed open :
  split_segments arcs w closed open -> size closed + size rest <= u32_max -> build_arcs t r rest w = Value w' ->
  exists closed' open', split_segments (arcs ++ rest) w' closed' open'.
Proof.
  revert arcs w closed open; induction rest as [|a rest IH]; intros arcs w closed open Hsp Hb; simpl.
  { intros [= <-]. rewrite app_nil_r. by exists closed, open. }
  destruct (build_arc t r a w) as [w1|] eqn:E; [|done]. intros Hrest.
  assert (size (a :: rest) = size rest + 1) as Hsz by (unfold size; simpl; lia).
  assert (0 <= size rest) by (unfold size; lia).
  assert (exists closed' open', split_segments (arcs ++ [a]) w1 closed' open' /\ size closed' <= size closed + 1)
    as (closed' & open' & Hsp' & Hle).
  { destruct a as [[] i rev]; unfold build_arc in E; simpl in E.
    - destruct (build_span_split _ _ _ _ _ _ _ Hsp E) as (s & Hs). exists closed, (Some s). split; [done|lia].
    - destruct (build_cross_connect_split _ _ rev _ _ _ _ Hsp ltac:(lia) E) as (c & o & x & _ & Hc & Hx).
      exists c, o. split; [done|by eapply closes_size]. }
  destruct (IH _ _ _ _ Hsp' ltac:(lia) Hrest) as (c & o & Hsp2). rewrite <- app_assoc in Hsp2. by exists c, o.
Qed.

Lemma finish_segments w s closed :
  ensure_segment w = put_segments (s :: closed) w -> bw_segments (finish_walk r w) = close_segment w None s :: closed.
Proof. intros E. unfold finish_walk. rewrite E. by case_bool_decide. Qed.

Lemma plan_segments_split `{Hasher} (digest : Digest256) (arcs : list ArcRef) (plan : PlanArtifact) :
  size arcs <= u32_max -> BuildPlan t r digest arcs = Value plan ->
  map sg_index (pl_segments plan) = range (regeneration_count t arcs + 1) /\
  Forall2 span_use (List.filter is_span arcs) (concat (map sg_spans (pl_segments plan))) /\
  Forall totals_ok (pl_segments plan) /\
  exists closed last, pl_segments plan = closed ++ [last] /\ sg_ended_by_regeneration last = false /\
    Forall (fun s => sg_ended_by_regeneration s = true) closed.
Proof.
  intros Hsize (w0 & w & Hstart & Hb & _ & Hseal)%BuildPlan_inv.
  apply seal_walk_inv in Hseal as (_ & _ & _ & _ & _ & -> & _).
  apply start_walk_inv in Hstart as
    (p & profile & blocked & _ & _ & _ & _ & _ & _ & _ & Hs & Hi & _ & Hd & Hl & Ho & Hc & _).
  destruct (build_arcs_split arcs [] w0 w [] None) as (closed & open & Hsp); [|unfold size in *; simpl; lia|done|].
  { by split. }
  simpl in Hsp. destruct (ensure_segment_split _ _ _ _ Hsp) as (s & Hsp2 & Hspans & E).
  destruct Hsp2 as [_ _ S3 S4 S5 S6 _ S8]. destruct Hsp as [_ _ _ _ _ _ (T1 & T2 & T3 & T4) _]. rewrite <- Hspans in *.
  rewrite (finish_segments w s closed E).
  assert (totals_ok (close_segment w None s)) as Hlast.
  { split; [exact T1|]. split; [exact T2|]. split; [exact T3|]. simpl. by rewrite T4. }
  simpl. rewrite <- S6. split_and!.
  - rewrite map_app, S4. simpl. rewrite (S3 s eq_refl). rewrite range_succ; [done|unfold size; lia].
  - rewrite map_app, concat_app. simpl. by rewrite app_nil_r.
  - apply Forall_app. split; [|by constructor]. apply Forall_rev. eapply Forall_impl; [exact S5|]. by intros ? [].
  - exists (rev closed), (close_segment w None s). split_and!; [done|done|].
    apply Forall_rev. eapply Forall_impl; [exact S5|]. by intros ? [].
Qed.

(** C27: the transparent segments of a plan.  The segments of a plan are numbered
    from zero, one more than the route regenerates; they hold the spans of the
    route in order, each as its record says and in the direction travelled; the
    span count, the distance, the loss and the OSNR of a segment are those of
    its own spans; and exactly the last segment is not ended by a regeneration. *)
Theorem BuildPlan_segments `{Hasher} (digest : Digest256) (arcs : list ArcRef) (plan : PlanArtifact) :
  size arcs <= u32_max -> BuildPlan t r digest arcs = Value plan ->
  map sg_index (pl_segments plan) = range (regeneration_count t arcs + 1) /\
  Forall2 span_use (List.filter is_span arcs) (concat (map sg_spans (pl_segments plan))) /\
  Forall totals_ok (pl_segments plan) /\
  exists closed last, pl_segments plan = closed ++ [last] /\ sg_ended_by_regeneration last = false /\
    Forall (fun s => sg_ended_by_regeneration s = true) closed.
Proof. apply plan_segments_split. Qed.
End segments.

(** ** The failure-domain exposure of a plan *)

Section exposure.
Context `{Platform} (t : TopologySnapshot) (r : PlanningRequest) (W : wf_snapshot t).

Definition find_count (d : FailureDomainId) (counts : list (FailureDomainId * Z)) : option Z := lookup_limit d counts.

(** The count that [n] increments leave. *)
Definition tally (n : Z) : option Z := if n =? 0 then None else Some (wrap32 n).

Definition sorted_counts (counts : list (FailureDomainId * Z)) : Prop := StronglySorted (key_lt fst) counts.

Lemma find_count_cons d x n counts :
  find_count d ((x, n) :: counts) = if bool_decide (x = d) then Some n else find_count d counts.
Proof. unfold find_count, lookup_limit. simpl. by case_bool_decide. Qed.

Lemma find_count_above d x counts : Forall (key_lt fst (x, 0)) counts -> d <o x = true \/ d = x -> find_count d counts = None.
Proof.
  induction 1 as [|[y n] counts Hy Hc IH]; intros Hd; [done|]. rewrite find_count_cons, IH by done.
  unfold key_lt in Hy. cbn [fst] in Hy. rewrite bool_decide_eq_false_2; [done|]. intros ->.
  destruct Hd as [Hd|E]; [|by apply ltb_neq in Hy]. pose proof (ltb_asym _ _ Hd). congruence.
Qed.

Lemma bump_spec d counts : sorted_counts counts ->
  sorted_counts (bump d counts) /\ (forall x, Forall (key_lt fst (x, 0)) counts -> x <o d = true ->
    Forall (key_lt fst (x, 0)) (bump d counts)) /\
  forall x, find_count x (bump d counts) =
    if bool_decide (x = d) then Some (match find_count d counts with Some n => wrap32 (n + 1) | None => 1 end)
    else find_count x counts.
Proof.
  induction 1 as [|[y n] counts Hs IH Hy]; cbn [bump].
  { split_and!; [by repeat constructor|by repeat constructor|]. intros x. rewrite find_count_cons.
    by rewrite (bool_decide_ext (x = d) (d = x)). }
  assert (Forall (key_lt fst (y, 0)) counts) as Hy0 by (by eapply Forall_impl; [exact Hy|]).
  destruct (d <o y) eqn:Edy.
  - split_and!.
    + constructor; [by constructor|]. constructor; [done|]. eapply Forall_impl; [exact Hy|]. intros z. unfold key_lt. cbn [fst].
      intros Hz. by eapply ltb_trans.
    + intros x Hx Hxd. by constructor.
    + intros x. rewrite find_count_cons. rewrite (bool_decide_ext (x = d) (d = x)) by done. case_bool_decide as E; [|done].
      subst x. rewrite find_count_cons. rewrite bool_decide_eq_false_2 by (intros ->; by rewrite ltb_irrefl in Edy).
      by rewrite (find_count_above _ _ _ Hy0) by auto.
  - case_bool_decide as E.
    + subst y. split_and!.
      * by constructor.
      * intros x Hx _. by inversion Hx; subst; constructor.
      * intros x. rewrite !find_count_cons. rewrite (bool_decide_ext (x = d) (d = x)) by done.
        rewrite (bool_decide_eq_true_2 (d = d)) by done. by case_bool_decide.
    + assert (y <o d = true) as Hlt by (destruct (y <o d) eqn:E'; [done|]; by destruct E; apply ltb_total).
      destruct IH as (I1 & I2 & I3). split_and!.
      * constructor; [done|]. by apply I2.
      * intros x Hx Hxd. inversion Hx; subst. constructor; [done|]. by apply I2.
      * intros x. rewrite !find_count_cons, I3. rewrite (bool_decide_eq_false_2 (y = d)) by congruence.
        case_bool_decide as E1; [|done]. rewrite bool_decide_eq_false_2; [done|congruence].
Qed.

Lemma tally_succ n : 0 <= n -> tally (n + 1) = Some (match tally n with Some m => wrap32 (m + 1) | None => 1 end).
Proof.
  intros Hn. unfold tally. destruct (Z.eqb_spec (n + 1) 0); [lia|]. destruct (Z.eqb_spec n 0) as [->|]; [done|].
  by rewrite wrap_add_l.
Qed.

(** The counts hold [n d] members of each domain [d]. *)
Definition counted (counts : list (FailureDomainId * Z)) (n : FailureDomainId -> Z) : Prop :=
  sorted_counts counts /\ forall d, 0 <= n d /\ find_count d counts = tally (n d).

Lemma counted_ext counts n m : (forall d, n d = m d) -> counted counts n -> counted counts m.
Proof. intros E [Hs Hc]. split; [done|]. intros d. rewrite <- E. apply Hc. Qed.

Lemma note_domains_counted domains counts n :
  increasing domains -> counted counts n ->
  counted (fold_left (fun counts d => bump d counts) domains counts) (fun d => n d + carries d domains).
Proof.
  intros Hi; revert counts n; induction Hi as [|x domains Hi IH Hx]; intros counts n Hc; simpl.
  { eapply counted_ext; [|exact Hc]. intros d. unfold carries. simpl. lia. }
  destruct Hc as [Hs Hc]. destruct (bump_spec x counts Hs) as (B1 & _ & B3).
  eapply counted_ext; [|apply (IH (bump x counts) (fun d => n d + if bool_decide (d = x) then 1 else 0))].
  - intros d. simpl. unfold carries. assert (~ x ∈ domains) as Hni.
    { intros Hin. rewrite Forall_forall in Hx. specialize (Hx _ Hin). unfold key_lt in Hx. by rewrite ltb_irrefl in Hx. }
    repeat case_bool_decide; set_solver by lia.
  - split; [done|]. intros d. destruct (Hc d) as [Hd Ed]. rewrite B3. case_bool_decide as E; [|by rewrite Z.add_0_r].
    subst d. split; [lia|]. by rewrite Ed, tally_succ.
Qed.
(** What [enter_node] counts. *)
Definition node_touched (from to : PortKey) (d : FailureDomainId) : Z :=
  if bool_decide (node to = node from) then 0 else carries d (node_domains t (node to)).

Lemma enter_node_counted to w n :
  counted (bw_domains w) n -> counted (bw_domains (enter_node t to w)) (fun d => n d + node_touched (bw_port w) to d).
Proof.
  intros Hc. unfold enter_node, node_touched. case_bool_decide.
  { eapply counted_ext; [|exact Hc]. intros d. lia. }
  unfold node_domains. destruct (FindNode t (node to)) as [nd|] eqn:E.
  - apply (note_domains_counted (n_failure_domains nd)); [|done]. destruct (wf_domains _ W) as (Hd & _).
    rewrite List.Forall_forall in Hd. by apply Hd, (FindNode_some _ _ _ E).
  - eapply counted_ext; [|exact Hc]. intros d. unfold carries. rewrite bool_decide_eq_false_2 by set_solver. lia.
Qed.

Lemma port_increasing k p : FindPort t k = Some p -> increasing (p_failure_domains p).
Proof.
  intros E. destruct (wf_domains _ W) as (_ & Hd & _). rewrite List.Forall_forall in Hd. by apply Hd, (FindPort_some _ _ _ E).
Qed.

Lemma after_span_counted i s p (reversed : bool) length_m loss osnr blocked slot w n :
  t_spans t !! i = Some s -> FindPort t (if reversed then s_from s else s_to s) = Some p -> counted (bw_domains w) n ->
  counted (bw_domains (after_span t r s p reversed length_m loss osnr blocked slot w))
    (fun d => n d + (carries d (s_failure_domains s) + carries d (p_failure_domains p) +
                     node_touched (bw_port w) (if reversed then s_from s else s_to s) d)).
Proof.
  intros Hs Hp Hc. unfold after_span. destruct (ensure_segment_put w) as [l ->]. cbv zeta.
  match goal with |- context [enter_node t ?to ?w0] =>
    pose proof (enter_node_counted to w0 (fun d => n d + carries d (s_failure_domains s) + carries d (p_failure_domains p)))
      as He; change (bw_port w0) with (bw_port w) in He end.
  eapply counted_ext; [|apply He]; [intros d; simpl; lia|].
  apply (note_domains_counted (p_failure_domains p)); [by eapply port_increasing|].
  apply (note_domains_counted (s_failure_domains s)); [|done].
  destruct (wf_domains _ W) as (_ & _ & Hd & _). by eapply (Forall_at _ _ _ _ Hd).
Qed.

Lemma after_cross_connect_counted i x p blocked reasons w n :
  t_cross_connects t !! i = Some x -> FindPort t (x_to x) = Some p -> counted (bw_domains w) n ->
  (x_op x = CrossConnectOp.Express -> node (x_to x) = node (bw_port w)) ->
  counted (bw_domains (after_cross_connect t x p blocked reasons w))
    (fun d => n d + (carries d (x_failure_domains x) + carries d (p_failure_domains p) + node_touched (bw_port w) (x_to x) d)).
Proof.
  intros Hx Hp Hc Hlocal. destruct (FindPort_some _ _ _ Hp) as [Kp _].
  assert (counted (fold_left (fun counts d => bump d counts) (p_failure_domains p)
            (fold_left (fun counts d => bump d counts) (x_failure_domains x) (bw_domains w)))
          (fun d => n d + carries d (x_failure_domains x) + carries d (p_failure_domains p))) as Hn.
  { apply (note_domains_counted (p_failure_domains p)); [by eapply port_increasing|].
    apply (note_domains_counted (x_failure_domains x)); [|done].
    destruct (wf_domains _ W) as (_ & _ & _ & Hd). by eapply (Forall_at _ _ _ _ Hd). }
  unfold after_cross_connect. case_bool_decide as Hop.
  - eapply counted_ext; [|exact Hn]. intros d. simpl. unfold node_touched.
    rewrite bool_decide_eq_true_2 by auto. lia.
  - match goal with |- context [enter_node t ?to ?w0] =>
      pose proof (enter_node_counted to w0 (fun d => n d + carries d (x_failure_domains x) + carries d (p_failure_domains p)) Hn)
        as He; change (bw_port w0) with (bw_port w) in He end.
    rewrite Kp in *. eapply counted_ext; [|exact He]. intros d. simpl. lia.
Qed.

(** An express cross-connect joins two ports of one node. *)
Definition express_local (a : ArcRef) : Prop :=
  a_kind a = ArcKind.CrossConnect -> forall x, t_cross_connects t !! a_index a = Some x ->
  x_op x = CrossConnectOp.Express -> node (x_to x) = node (x_from x).

Lemma build_op_domains x p w reasons w' : build_op t r x p w = Value (reasons, w') -> bw_domains w' = bw_domains w.
Proof.
  unfold build_op, take_channel. intros E. destruct (x_op x); cbv zeta in E.
  - destruct (LowestSetBit _) as [slot|]; [|done]. by injection E as <- <-.
  - destruct (LowestSetBit _) as [slot|]; [|done]. by injection E as <- <-.
  - destruct (ensure_segment_put w) as [l Hl]. rewrite Hl in E.
    destruct (p_transmit_profile p) as [[profile|]| |]; try done. by injection E as <- <-.
Qed.

Lemma build_arc_counted a w w' n :
  DeparturePort t a = Value (bw_port w) -> express_local a -> build_arc t r a w = Value w' ->
  counted (bw_domains w) n -> counted (bw_domains w') (fun d => n d + touched_by_hop t d a).
Proof.
  destruct a as [[] i rev]; unfold build_arc; simpl; intros Hd Hlocal Hb Hc; unfold DeparturePort in Hd; simpl in Hd.
  - apply build_span_inv in Hb as (s & p & length_m & loss & osnr & blocked & pb & slot & Hs & _ & _ & _ & _ & _ & Hp & _ & _ & ->).
    rewrite Hs in Hd. injection Hd as Hd.
    match goal with |- context [after_span t r ?s ?p ?rv ?a1 ?a2 ?a3 ?a4 ?a5 ?a6] =>
      eapply counted_ext; [|apply (after_span_counted i s p rv a1 a2 a3 a4 a5 a6 n); done] end.
    intros d. simpl. unfold touched_by_hop, arrival, ArrivalPort, DeparturePort, arc_failure_domains, port_domains. simpl.
    rewrite Hs. simpl. rewrite Hp, Hd. done.
  - apply build_cross_connect_inv in Hb as (x & p & blocked & pb & reasons & w1 & Hx & _ & _ & Hp & _ & Ho & ->).
    rewrite Hx in Hd. injection Hd as Hd. destruct (build_op_fields _ _ _ _ _ _ _ Ho) as (Hport & _).
    apply build_op_domains in Ho.
    eapply counted_ext; [|apply (after_cross_connect_counted i x p pb reasons w1 n); [done..|by rewrite Ho|]].
    + intros d. simpl. unfold touched_by_hop, arrival, ArrivalPort, DeparturePort, arc_failure_domains, port_domains. simpl.
      rewrite Hx. simpl. rewrite Hp, Hd, Hport. done.
    + intros Hop. rewrite Hport, <- Hd. by apply (Hlocal eq_refl x).
Qed.

Lemma build_arcs_counted k arcs k' w w' n :
  walk t k arcs k' -> bw_port w = k -> Forall express_local arcs -> build_arcs t r arcs w = Value w' ->
  counted (bw_domains w) n -> counted (bw_domains w') (fun d => n d + sum_over (touched_by_hop t d) arcs).
Proof.
  intros Hw; revert w n; induction Hw as [k|k a m arcs k' Hd Ha Hw IH]; intros w n Hp Hl; simpl.
  { intros [= <-] Hc. eapply counted_ext; [|exact Hc]. intros d. simpl. lia. }
  inversion Hl as [|? ? Hla Hl']; subst. destruct (build_arc t r a w) as [w1|] eqn:E; [|done]. intros Hb Hc.
  pose proof (build_arc_advances t r a w w1 Hd E) as (Hp1 & _). rewrite (arrival_Value _ _ _ Ha) in Hp1.
  eapply counted_ext; [|apply (IH w1 (fun d => n d + touched_by_hop t d a)); [done..|by eapply build_arc_counted]].
  intros d. simpl. lia.
Qed.

Lemma start_counted w : start_walk t r = Value w ->
  counted (bw_domains w) (fun d => carries d (port_domains t (q_source r)) + carries d (node_domains t (node (q_source r)))).
Proof.
  unfold start_walk, port_domains, node_domains. destruct (FindPort t (q_source r)) as [p|] eqn:Ep; [|done].
  destruct (p_transmit_profile p) as [[profile|]| |]; try done. destruct (p_blocked_slots p) as [b| |]; try done.
  cbv zeta. intros [= <-].
  assert (counted (fold_left (fun counts d => bump d counts) (p_failure_domains p) [])
            (fun d => carries d (p_failure_domains p))) as Hc.
  { eapply counted_ext; [|apply (note_domains_counted (p_failure_domains p) [] (fun _ => 0))]; [done|by eapply port_increasing|].
    split; [constructor|]. done. }
  destruct (FindNode t (node (q_source r))) as [nd|] eqn:E.
  - apply (note_domains_counted (n_failure_domains nd)); [|done]. destruct (wf_domains _ W) as (Hd & _).
    rewrite List.Forall_forall in Hd. by apply Hd, (FindNode_some _ _ _ E).
  - eapply counted_ext; [|exact Hc]. intros d. unfold carries at 3. rewrite bool_decide_eq_false_2 by set_solver. lia.
Qed.

Definition find_exposure (d : FailureDomainId) (l : list FailureDomainExposure) : option FailureDomainExposure :=
  List.find (fun x => bool_decide (fx_id x = d)) l.

Lemma find_exposure_map d counts :
  find_exposure d (map (exposure_of r) counts) = (fun n => exposure_of r (d, n)) <$> find_count d counts.
Proof.
  unfold find_exposure, find_count, lookup_limit. induction counts as [|[x n] counts IH]; simpl; [done|].
  case_bool_decide as E; [by subst|]. exact IH.
Qed.

(** The exposure a plan declares is the exposure of its route.  On a walk
    whose express cross-connects stay inside a node, a failure domain has an
    entry exactly when the route touches it, with the number of members touched
    (source, arcs, ports, nodes entered) and the limit of the request, 0 when it
    sets none; entries are by increasing domain. *)
Theorem BuildPlan_exposure `{Hasher} (digest : Digest256) (arcs : list ArcRef) (plan : PlanArtifact) :
  walk t (q_source r) arcs (q_destination r) -> Forall express_local arcs -> BuildPlan t r digest arcs = Value plan ->
  StronglySorted (key_lt fx_id) (pl_exposure plan) /\
  forall d, find_exposure d (pl_exposure plan) =
    let n := members_on_route t (q_source r) arcs d in
    if n =? 0 then None
    else Some (MkExposure d (wrap32 n) (default 0 (lookup_limit d (max_members_per_failure_domain (constraints r))))).
Proof.
  intros Hw Hl (w0 & w & Hstart & Hb & _ & Hseal)%BuildPlan_inv.
  apply seal_walk_inv in Hseal as (_ & _ & _ & _ & _ & _ & _ & _ & -> & _).
  pose proof (finish_walk_fields r w) as F. injection F as _ _ _ _ _ ->.
  pose proof (start_counted w0 Hstart) as Hc0.
  apply start_walk_inv in Hstart as (p & profile & blocked & _ & _ & _ & _ & _ & Hp & _).
  destruct (build_arcs_counted _ _ _ _ _ _ Hw Hp Hl Hb Hc0) as [Hs Hc]. split.
  - clear -Hs. induction Hs as [|x l Hs IH Hx]; simpl; constructor; [done|]. apply Forall_map. eapply Forall_impl; [exact Hx|]. done.
  - intros d. rewrite find_exposure_map. destruct (Hc d) as [_ ->]. unfold tally, members_on_route. cbv zeta. by destruct (_ =? 0).
Qed.
End exposure.

(** ** The channel of a transparent segment *)

Module Drift.
Import Sample.
#[local] Existing Instance toy_hasher.

(** The row of three nodes, with slot 0 blocked on the second span. *)
Definition second_span : SpanRecord :=
  MkSpan (MkId "s2") (MkPortKey (MkId "B") (MkId "2")) (MkPortKey (MkId "C") (MkId "1")) true (Known 80000)
    (Known d10) (Known (double_of 30)) (Known (mask_Set mask_None 0)) [] 7 up src 3.
Definition row : TopologySnapshot :=
  snapshot_of (builder [node_named "A"; node_named "B"; node_named "C"]
    [port_of "A" "1"; port_of "B" "1"; port_of "B" "2"; port_of "C" "1"]
    [span_between "s1" "A" "1" "B" "1" 5; second_span] [Net.express "x" "B" "1" "2"]).
Definition reserved (e : Expected PlanArtifact) : list (string * Z * Z) :=
  match e with
  | Value p => map (fun v => (text (rv_resource v), first_slot (rv_channel v), rv_segment_index v)) (pl_reservations p)
  | Error _ => []
  end.
End Drift.

(** ** Witnesses *)

Section witnesses.
#[local] Existing Instance Sample.toy_hasher.

(** The channel drifts along a transparent segment.  The slot reserved on a
    span is the lowest one still usable when the walk reaches it, so a slot
    blocked further along is given up only there: on a route whose two spans are
    joined by an express cross-connect, without a conversion, the proven path of
    the search gets a plan that reserves slot 0 on the first span and slot 1 on
    the second, in one and the same segment. *)
Theorem transparent_channel_drifts :
  let o := RunSearch Drift.row Net.request default_options Net.never in
  map p_arcs (o_paths o) = [p_arcs the_path] /\ map p_proven (o_paths o) = [true] /\
  Drift.reserved (BuildPlan Drift.row Net.request zero_digest (p_arcs the_path)) = [("s1", 0, 0); ("s2", 1, 0)].
Proof. cbv zeta. split_and!; by vm_compute. Qed.

Lemma row_identified : identified Net.row.
Proof. split; vm_compute; by repeat (constructor; [done|]). Qed.

Lemma row_slots : 0 <= slot_count (t_spectrum Net.row) <= kMaxSpectrumSlots.
Proof. assert (slot_count (t_spectrum Net.row) = 8) as -> by (by vm_compute). by split. Qed.

Lemma reservations_are_free_witness :
  exists plan, BuildPlan Net.row Net.request zero_digest (p_arcs the_path) = Value plan /\
    Forall (reservation_free Net.row Net.request) (pl_reservations plan).
Proof.
  destruct (BuildPlan Net.row Net.request zero_digest (p_arcs the_path)) as [plan|] eqn:E; [|by vm_compute in E].
  exists plan. split; [reflexivity|].
  refine (reservations_are_free Net.row Net.request row_slots _ zero_digest (p_arcs the_path) plan E). by vm_compute.
Defined.

Lemma BuildPlan_totals_witness :
  exists plan, BuildPlan Net.row Net.request zero_digest (p_arcs the_path) = Value plan /\
    pl_total_cost plan = wrap64 (route_price Net.row (q_source Net.request) (p_arcs the_path)) /\ pl_hops plan = 3.
Proof.
  destruct (BuildPlan Net.row Net.request zero_digest (p_arcs the_path)) as [plan|] eqn:E; [|by vm_compute in E].
  exists plan. split; [reflexivity|].
  destruct (BuildPlan_totals Net.row Net.request zero_digest (p_arcs the_path) plan) as (Hc & Hh & _); [done| |exact E|by split].
  repeat (eapply walk_cons; [by vm_compute|by vm_compute|]). apply walk_nil.
Defined.

Lemma proven_path_has_plan_witness :
  exists plan, BuildPlan Net.row Net.request zero_digest (p_arcs the_path) = Value plan /\ pl_total_cost plan = 17.
Proof.
  destruct (proven_path_has_plan Net.row Net.request Net.row_wf Net.request_valid row_identified default_options Net.never
    the_path zero_digest the_path_found eq_refl) as (plan & E & Hc & _).
  exists plan. split; [exact E|]. rewrite Hc. reflexivity.
Defined.

Lemma BuildPlan_segments_witness :
  exists plan, BuildPlan Net.row Net.request zero_digest (p_arcs the_path) = Value plan /\
    map sg_index (pl_segments plan) = [0] /\ Forall totals_ok (pl_segments plan).
Proof.
  destruct (BuildPlan Net.row Net.request zero_digest (p_arcs the_path)) as [plan|] eqn:E; [|by vm_compute in E].
  exists plan. split; [reflexivity|].
  destruct (BuildPlan_segments Net.row Net.request zero_digest (p_arcs the_path) plan) as (Hi & _ & Ht & _);
    [by vm_compute|exact E|by split].
Defined.

Lemma BuildPlan_exposure_witness :
  exists plan, BuildPlan Net.row Net.request zero_digest (p_arcs the_path) = Value plan /\
    find_exposure (MkId "duct") (pl_exposure plan) = Some (MkExposure (MkId "duct") 2 2).
Proof.
  destruct (BuildPlan Net.row Net.request zero_digest (p_arcs the_path)) as [plan|] eqn:E; [|by vm_compute in E].
  exists plan. split; [reflexivity|].
  destruct (BuildPlan_exposure Net.row Net.request Net.row_wf zero_digest (p_arcs the_path) plan) as (_ & Hx); [| |exact E|].
  - repeat (eapply walk_cons; [by vm_compute|by vm_compute|]). apply walk_nil.
  - repeat constructor; intros Hk x Hx _; try discriminate Hk; vm_compute in Hx; by injection Hx as <-.
  - rewrite Hx. by vm_compute.
Defined.
End witnesses.
