(* ===== verification/PlanSteps.v ===== *)
(** * PlanSteps: the steps of a plan

    A reference definition of the steps of a route, and the theorem that
    [BuildPlan] writes exactly those, numbered from zero. *)

From S2P Require Import Prelude Status Ids Doubles Spectrum Sha256 Canonical Topology SnapshotText Builder Request.
From S2P Require Import Outcome SearchFacts SearchArcs Search Route Plan PlanBuild PlanFacts.

Lemma in_concat_map {A B} (f : A -> list B) l a b : In a l -> In b (f a) -> In b (concat (map f l)).
Proof. intros Ha Hb. apply in_concat. exists (f a). split; [by apply in_map|done]. Qed.

(** What a step is about: its kind and its resource. *)
Definition mark : Type := StepKind.t * ResourceKey.
Definition mark_of (s : PlanStep) : mark := (ps_kind s, ps_resource s).

Section marks.
Context (t : TopologySnapshot).

Definition node_mark (id : NodeId) : list mark :=
  match FindNode t id with Some n => [(StepKind.Node, ForNode (n_id n))] | None => [] end.

(** The node a hop enters, when it is another one. *)
Definition entered (from to : PortKey) : list mark :=
  if bool_decide (node to = node from) then [] else node_mark (node to).

Definition arc_marks (from : PortKey) (a : ArcRef) : list mark :=
  match a_kind a with
  | ArcKind.Span =>
      match t_spans t !! a_index a with
      | Some s => (StepKind.Span, ForSpan (s_id s)) :: entered from (arrival t a)
      | None => []
      end
  | ArcKind.CrossConnect =>
      match t_cross_connects t !! a_index a with
      | Some x =>
          (StepKind.CrossConnect, ForCrossConnect (x_id x)) ::
          (if bool_decide (x_op x = CrossConnectOp.Express) then []
           else (StepKind.Port, ForPort (x_to x)) :: entered from (x_to x))
      | None => []
      end
  end.

Fixpoint route_marks (from : PortKey) (arcs : list ArcRef) : list mark :=
  match arcs with
  | [] => []
  | a :: rest => arc_marks from a ++ route_marks (arrival t a) rest
  end.

Definition start_marks (source : PortKey) : list mark := (StepKind.Port, ForPort source) :: node_mark (node source).

(** The destination port, unless the last step is about it already. *)
Definition end_marks (destination : PortKey) (before : list mark) : list mark :=
  if bool_decide (snd <$> last before = Some (ForPort destination)) then before
  else before ++ [(StepKind.Port, ForPort destination)].

Definition plan_marks (source destination : PortKey) (arcs : list ArcRef) : list mark :=
  end_marks destination (start_marks source ++ route_marks source arcs).

Lemma end_marks_incl destination before : incl before (end_marks destination before).
Proof. unfold end_marks. case_bool_decide; [apply incl_refl|by apply incl_appl, incl_refl]. Qed.

Lemma route_marks_app from arcs m arcs' k :
  walk t from arcs m -> walk t m arcs' k -> route_marks from (arcs ++ arcs') = route_marks from arcs ++ route_marks m arcs'.
Proof.
  intros Hw Hw'. induction Hw as [|from a m' arcs m Hd Ha Hw IH]; [done|]. simpl.
  rewrite (arrival_Value _ _ _ Ha), IH by done. by rewrite app_assoc.
Qed.

(** The mark of a span is on the route that uses the span. *)
Lemma span_marked from arcs a s :
  In a arcs -> a_kind a = ArcKind.Span -> t_spans t !! a_index a = Some s ->
  In (StepKind.Span, ForSpan (s_id s)) (route_marks from arcs).
Proof.
  intros Hin Hk Hs. revert from. induction arcs as [|b arcs IH]; intros from; [done|]. simpl.
  apply in_or_app. destruct Hin as [->|Hin]; [left|by right; apply IH]. unfold arc_marks. rewrite Hk, Hs. by left.
Qed.

Lemma node_mark_kind id m : In m (node_mark id) -> kind (snd m) = ResourceKind.Node.
Proof. unfold node_mark. destruct (FindNode t id); [|done]. by intros [<-|[]]. Qed.

Lemma entered_kind from to m : In m (entered from to) -> kind (snd m) = ResourceKind.Node.
Proof. unfold entered. case_bool_decide; [done|]. apply node_mark_kind. Qed.

(** Only the spans of the route are marked as spans. *)
Lemma marked_span from arcs m :
  In m (route_marks from arcs) -> kind (snd m) = ResourceKind.Span ->
  exists a s, In a arcs /\ a_kind a = ArcKind.Span /\ t_spans t !! a_index a = Some s /\ snd m = ForSpan (s_id s).
Proof.
  revert from. induction arcs as [|a arcs IH]; intros from; [done|]. simpl. intros [Hin|Hin]%in_app_or Hk.
  - unfold arc_marks in Hin. destruct (a_kind a) eqn:Ea.
    + destruct (t_spans t !! a_index a) as [s|] eqn:Es; [|done]. destruct Hin as [<-|Hin].
      * exists a, s. split; [by left|]. by split.
      * by rewrite (entered_kind _ _ _ Hin) in Hk.
    + destruct (t_cross_connects t !! a_index a) as [x|]; [|done]. destruct Hin as [<-|Hin]; [done|].
      case_bool_decide; [done|]. destruct Hin as [<-|Hin]; [done|]. by rewrite (entered_kind _ _ _ Hin) in Hk.
  - destruct (IH _ Hin Hk) as (b & s & Hb & Hrest). exists b, s. split; [by right|done].
Qed.

Lemma plan_marked_span source destination arcs m :
  In m (plan_marks source destination arcs) -> kind (snd m) = ResourceKind.Span ->
  exists a s, In a arcs /\ a_kind a = ArcKind.Span /\ t_spans t !! a_index a = Some s /\ snd m = ForSpan (s_id s).
Proof.
  assert (In m (start_marks source ++ route_marks source arcs) -> kind (snd m) = ResourceKind.Span ->
    exists a s, In a arcs /\ a_kind a = ArcKind.Span /\ t_spans t !! a_index a = Some s /\ snd m = ForSpan (s_id s)) as Hin.
  { intros [[<-|Hin]%in_inv|Hin]%in_app_or Hk; [done|by rewrite (node_mark_kind _ _ Hin) in Hk|by eapply marked_span]. }
  unfold plan_marks, end_marks. case_bool_decide; [done|]. intros [Hm|[<-|[]]]%in_app_or; [by apply Hin|done].
Qed.
End marks.

(** ** The walk writes the marks *)

Section steps.
Context `{Platform} (t : TopologySnapshot) (r : PlanningRequest).

(** The steps of [w'] are those of [w] followed by [ms], and numbering goes on. *)
Definition writes (w w' : Walk) (ms : list mark) : Prop :=
  map mark_of (bw_steps w') = map mark_of (bw_steps w) ++ ms /\
  (map ps_index (bw_steps w) = map wrap32 (range (size (bw_steps w))) ->
   map ps_index (bw_steps w') = map wrap32 (range (size (bw_steps w')))).

Lemma writes_nothing w w' : bw_steps w' = bw_steps w -> writes w w' [].
Proof. intros E. unfold writes. rewrite E, app_nil_r. by split. Qed.

Lemma writes_trans w1 w2 w3 ms ms' : writes w1 w2 ms -> writes w2 w3 ms' -> writes w1 w3 (ms ++ ms').
Proof. intros [E1 N1] [E2 N2]. split; [by rewrite E2, E1, app_assoc|auto]. Qed.

Lemma push_step_writes k res segment reasons cost w : writes w (push_step k res segment reasons cost w) [(k, res)].
Proof.
  split; simpl; [by rewrite map_app|]. intros E. rewrite map_app, E, size_app1, range_succ by (unfold size; lia).
  by rewrite map_app.
Qed.

Lemma enter_node_writes to w : writes w (enter_node t to w) (entered t (bw_port w) to).
Proof.
  unfold enter_node, entered, node_mark. case_bool_decide; [by apply writes_nothing|].
  destruct (FindNode t (node to)) as [n|]; [|by apply writes_nothing]. exact (push_step_writes _ _ _ _ _ w).
Qed.

Lemma after_span_writes s p (reversed : bool) length_m loss osnr blocked slot w :
  writes w (after_span t r s p reversed length_m loss osnr blocked slot w)
    ((StepKind.Span, ForSpan (s_id s)) :: entered t (bw_port w) (if reversed then s_from s else s_to s)).
Proof.
  unfold after_span. cbv zeta. destruct (ensure_segment_put w) as [l ->].
  match goal with |- writes w (arrive _ (assume _ _ (reserve _ (enter_node t ?to ?w0)))) _ =>
    change (writes w (enter_node t to w0) ([(StepKind.Span, ForSpan (s_id s))] ++ entered t (bw_port w0) to));
    eapply writes_trans; [|apply enter_node_writes] end.
  exact (push_step_writes _ _ _ _ _ w).
Qed.

Lemma after_cross_connect_writes x p blocked reasons w :
  p_key p = x_to x ->
  writes w (after_cross_connect t x p blocked reasons w)
    ((StepKind.CrossConnect, ForCrossConnect (x_id x)) ::
     (if bool_decide (x_op x = CrossConnectOp.Express) then []
      else (StepKind.Port, ForPort (x_to x)) :: entered t (bw_port w) (x_to x))).
Proof.
  intros Hk. unfold after_cross_connect. cbv zeta. rewrite Hk. case_bool_decide.
  - exact (push_step_writes _ _ _ _ _ w).
  - match goal with |- writes w (arrive _ (charge _ (enter_node t ?to ?w0))) _ =>
      change (writes w (enter_node t to w0)
        ([(StepKind.CrossConnect, ForCrossConnect (x_id x))] ++ [(StepKind.Port, ForPort (x_to x))] ++
         entered t (bw_port w0) to)) end.
    rewrite app_assoc. eapply writes_trans; [|apply enter_node_writes].
    apply writes_trans with
      (w2 := push_step StepKind.CrossConnect (ForCrossConnect (x_id x)) (bw_segment_index w) reasons (x_cost x) w);
      [apply push_step_writes|].
    match goal with |- writes _ (push_step ?k ?res ?g ?b ?c ?w0) _ => exact (push_step_writes k res g b c w0) end.
Qed.

Lemma build_op_steps x p w reasons w' : build_op t r x p w = Value (reasons, w') -> bw_steps w' = bw_steps w.
Proof.
  unfold build_op, take_channel. intros E. destruct (x_op x); cbv zeta in E.
  - destruct (LowestSetBit _) as [slot|]; [|done]. by injection E as <- <-.
  - destruct (LowestSetBit _) as [slot|]; [|done]. by injection E as <- <-.
  - destruct (ensure_segment_put w) as [l Hl]. rewrite Hl in E.
    destruct (p_transmit_profile p) as [[profile|]| |]; try done. by injection E as <- <-.
Qed.

Lemma build_arc_writes a w w' :
  DeparturePort t a = Value (bw_port w) -> build_arc t r a w = Value w' ->
  writes w w' (arc_marks t (bw_port w) a) /\ bw_port w' = arrival t a.
Proof.
  intros Hd Hb. split; [|exact (proj1 (build_arc_advances t r a w w' Hd Hb))].
  unfold build_arc in Hb. unfold arc_marks, arrival, ArrivalPort. destruct (a_kind a).
  - apply build_span_inv in Hb as (s & p & length_m & loss & osnr & blocked & pb & slot & Hs & _ & _ & _ & _ & _ & _ & _ & _ & ->).
    rewrite Hs. simpl. exact (after_span_writes s p (a_reversed a) length_m loss osnr blocked slot _).
  - apply build_cross_connect_inv in Hb as (x & p & blocked & pb & reasons & w1 & Hx & _ & _ & Hp & _ & Ho & ->).
    rewrite Hx. apply FindPort_some in Hp as [Hk _]. pose proof (build_op_fields t r x p w reasons w1 Ho) as (Ep & _ & _).
    apply build_op_steps in Ho. pose proof (after_cross_connect_writes x p pb reasons w1 Hk) as Hw.
    unfold writes in *. by rewrite Ho, Ep in Hw.
Qed.

Lemma build_arcs_writes k arcs k' w w' :
  walk t k arcs k' -> bw_port w = k -> build_arcs t r arcs w = Value w' -> writes w w' (route_marks t k arcs).
Proof.
  intros Hw; revert w; induction Hw as [k|k a m arcs k' Hd Ha Hw IH]; intros w Hp; simpl.
  { intros [= <-]. by apply writes_nothing. }
  destruct (build_arc t r a w) as [w1|] eqn:E; [|done]. rewrite <- Hp in Hd.
  apply build_arc_writes in E as [H1 H2]; [|done]. rewrite (arrival_Value _ _ _ Ha) in *. intros H3.
  rewrite <- Hp. eapply writes_trans; [exact H1|]. by apply IH.
Qed.

Lemma start_writes w : start_walk t r = Value w ->
  map mark_of (bw_steps w) = start_marks t (q_source r) /\
  map ps_index (bw_steps w) = map wrap32 (range (size (bw_steps w))).
Proof.
  unfold start_walk, start_marks, node_mark. destruct (FindPort t (q_source r)) as [p|]; [|done].
  destruct (p_transmit_profile p) as [[profile|]| |]; try done. destruct (p_blocked_slots p) as [b| |]; try done.
  cbv zeta. intros [= <-]. destruct (FindNode t (node (q_source r))); by split.
Qed.

Lemma finish_writes w : map ps_index (bw_steps w) = map wrap32 (range (size (bw_steps w))) ->
  map mark_of (bw_steps (finish_walk r w)) = end_marks (q_destination r) (map mark_of (bw_steps w)) /\
  map ps_index (bw_steps (finish_walk r w)) = map wrap32 (range (size (bw_steps (finish_walk r w)))).
Proof.
  intros Hi. unfold finish_walk, end_marks. cbv zeta. destruct (ensure_segment_put w) as [l ->].
  assert (snd <$> last (map mark_of (bw_steps w)) = last_resource (bw_steps w)) as ->.
  { unfold last_resource. change (map mark_of (bw_steps w)) with (mark_of <$> bw_steps w). rewrite fmap_last.
    by destruct (last (bw_steps w)). }
  match goal with |- context [push_step ?k ?res ?g ?b ?c ?w0] => destruct (push_step_writes k res g b c w0) as [Hm Hn] end.
  cbn [bw_steps on_last_segment put_segments] in *.
  case_bool_decide; [done|]. split; [exact Hm|exact (Hn Hi)].
Qed.

Lemma BuildPlan_marks `{Hasher} (digest : Digest256) (arcs : list ArcRef) (plan : PlanArtifact) :
  walk t (q_source r) arcs (q_destination r) -> BuildPlan t r digest arcs = Value plan ->
  map mark_of (pl_steps plan) = plan_marks t (q_source r) (q_destination r) arcs /\
  map ps_index (pl_steps plan) = map wrap32 (range (size (pl_steps plan))).
Proof.
  intros Hw (w0 & w & Hstart & Hb & _ & Hseal)%BuildPlan_inv.
  apply seal_walk_inv in Hseal as (_ & _ & _ & _ & _ & _ & _ & _ & _ & _ & E & _). rewrite E.
  destruct (start_writes w0 Hstart) as [Hm Hi]. apply start_walk_inv in Hstart as (_ & _ & _ & _ & _ & _ & _ & _ & Hp & _).
  destruct (build_arcs_writes _ _ _ _ _ Hw Hp Hb) as [Hm' Hi']. unfold plan_marks. rewrite <- Hm, <- Hm'.
  exact (finish_writes w (Hi' Hi)).
Qed.

(** ** The reservations of a plan *)

(** The resources of the spans of a route. *)
Definition span_resources (arcs : list ArcRef) : list ResourceKey :=
  concat (map (fun a => match a_kind a, t_spans t !! a_index a with
                        | ArcKind.Span, Some s => [ForSpan (s_id s)]
                        | _, _ => []
                        end) arcs).

Lemma build_arc_reserves a w w' :
  build_arc t r a w = Value w' ->
  map rv_resource (bw_reservations w') = map rv_resource (bw_reservations w) ++ span_resources [a].
Proof.
  unfold build_arc, span_resources. simpl. rewrite app_nil_r. destruct (a_kind a); intros Hb.
  - apply build_span_inv in Hb as (s & p & length_m & loss & osnr & blocked & pb & slot & Hs & _ & _ & _ & _ & _ & _ & _ & _ & ->).
    rewrite Hs. match goal with |- context [after_span t r ?s ?p ?rv ?a1 ?a2 ?a3 ?a4 ?a5 ?a6] =>
      destruct (after_span_moved t r s p rv a1 a2 a3 a4 a5 a6) as [M _] end.
    by rewrite (mv_reservations _ _ _ _ _ _ _ M), map_app.
  - apply build_cross_connect_inv in Hb as (x & p & blocked & pb & reasons & w1 & Hx & _ & _ & _ & _ & Ho & ->).
    destruct (after_cross_connect_moved t x p pb reasons w1) as [M _].
    rewrite (mv_reservations _ _ _ _ _ _ _ M), map_app. simpl. rewrite app_nil_r. destruct (t_spans t !! a_index a); rewrite ?app_nil_r.
    all: f_equal; clear M; unfold build_op, take_channel in Ho; destruct (x_op x); cbv zeta in Ho.
    all: try (destruct (LowestSetBit _) as [slot|]; [|done]; by injection Ho as <- <-).
    all: destruct (ensure_segment_put w) as [l Hl]; rewrite Hl in Ho.
    all: destruct (p_transmit_profile p) as [[profile|]| |]; try done; by injection Ho as <- <-.
Qed.

Lemma build_arcs_reserves arcs w w' :
  build_arcs t r arcs w = Value w' ->
  map rv_resource (bw_reservations w') = map rv_resource (bw_reservations w) ++ span_resources arcs.
Proof.
  revert w. induction arcs as [|a arcs IH]; intros w; simpl; [intros [= <-]; by rewrite app_nil_r|].
  destruct (build_arc t r a w) as [w1|] eqn:E; [|done]. intros E'. rewrite (IH _ E'), (build_arc_reserves _ _ _ E).
  unfold span_resources. simpl. by rewrite app_nil_r, <- app_assoc.
Qed.

(** One reservation per span of the route, in its order. *)
Lemma BuildPlan_reservations `{Hasher} (digest : Digest256) (arcs : list ArcRef) (plan : PlanArtifact) :
  BuildPlan t r digest arcs = Value plan -> map rv_resource (pl_reservations plan) = span_resources arcs.
Proof.
  intros (w0 & w & Hstart & Hb & _ & Hseal)%BuildPlan_inv. apply seal_walk_inv in Hseal as (-> & _).
  pose proof (finish_walk_fields r w) as F. injection F as -> _ _ _ _ _.
  apply start_walk_inv in Hstart as (_ & _ & _ & _ & _ & _ & _ & _ & _ & Hr & _).
  by rewrite (build_arcs_reserves _ _ _ Hb), Hr.
Qed.

(** C28: the steps of a plan retell its route.  They are, in order and numbered
    from zero: the source port and its node; per span its own step and, when it
    leads to another node, that node's; per cross-connect its own step and,
    unless it is an express one, the port it leads to and the node entered; and
    at last the destination port, unless the step before is about it.  There is
    one reservation per span, in the same order. *)
Theorem BuildPlan_steps `{Hasher} (digest : Digest256) (arcs : list ArcRef) (plan : PlanArtifact) :
  walk t (q_source r) arcs (q_destination r) -> BuildPlan t r digest arcs = Value plan ->
  map mark_of (pl_steps plan) = plan_marks t (q_source r) (q_destination r) arcs /\
  map ps_index (pl_steps plan) = map wrap32 (range (size (pl_steps plan))) /\
  map rv_resource (pl_reservations plan) = span_resources arcs.
Proof.
  intros Hw Hb. destruct (BuildPlan_marks _ _ _ Hw Hb) as [Hm Hi]. split; [exact Hm|]. split; [exact Hi|].
  by eapply BuildPlan_reservations.
Qed.
End steps.

(** ** Witness *)

Section witness.
#[local] Existing Instance Sample.toy_hasher.

Lemma BuildPlan_steps_witness :
  exists plan, BuildPlan Net.row Net.request zero_digest (p_arcs the_path) = Value plan /\
    map (fun s => (ps_index s, text (ps_resource s))) (pl_steps plan) =
      [(0, "A:1"); (1, "A"); (2, "s1"); (3, "B"); (4, "x"); (5, "s2"); (6, "C"); (7, "C:1")] /\
    map mark_of (pl_steps plan) = plan_marks Net.row (q_source Net.request) (q_destination Net.request) (p_arcs the_path).
Proof.
  destruct (BuildPlan Net.row Net.request zero_digest (p_arcs the_path)) as [plan|] eqn:E; [|by vm_compute in E].
  exists plan. split; [reflexivity|]. split; [vm_compute in E; injection E as <-; reflexivity|].
  destruct (BuildPlan_steps Net.row Net.request zero_digest (p_arcs the_path) plan) as [Hm _]; [|exact E|exact Hm].
  repeat (eapply walk_cons; [by vm_compute|by vm_compute|]). apply walk_nil.
Defined.
End witness.
