(* ===== verification/Planner.v ===== *)
(** * Planner: validation, freshness, search passes and outcome

    [Planner::Plan] of [src/planner.cpp].  The function returns early from its
    first stages; here each stage answers the final result, or nothing when the
    next one is to run.  The cancel token is read during the searches only:
    [cancelled pass n] is what its [n]-th read of search pass [pass] answers. *)

From S2P Require Import Prelude Status Ids Doubles Spectrum Sha256 Canonical Topology SnapshotText Request Outcome.
From S2P Require Import SearchFacts SearchArcs Search Route Plan Result PlanBuild.

Definition kPlanBuildBudget : Z := 64.

Definition IsOpAllowed (c : ConstraintSet) (op : CrossConnectOp.t) : bool :=
  match op with
  | CrossConnectOp.Express => true
  | CrossConnectOp.Convert => allow_wavelength_conversion c
  | CrossConnectOp.Regenerate => allow_regeneration c
  end.

(** ** Merging a search pass into the result *)

Definition merge_statistics (a b : PlanningStatistics) : PlanningStatistics :=
  MkStatistics (wrap64 (labels_created a + labels_created b)) (wrap64 (labels_expanded a + labels_expanded b))
    (wrap64 (labels_dominated a + labels_dominated b)) (Z.max (peak_frontier a) (peak_frontier b))
    (wrap64 (arcs_examined a + arcs_examined b)) (Z.max (states_visited a) (states_visited b))
    (st_truncated a || st_truncated b).

(** One cut of the pass: added to the entry of its reason, or appended. *)
Fixpoint merge_cut (c : CutCount) (cuts : list CutCount) : list CutCount :=
  match cuts with
  | [] => [c]
  | e :: rest =>
      if bool_decide (c_reason e = c_reason c) then MkCutCount (c_reason e) (wrap64 (c_count e + c_count c)) :: rest
      else e :: merge_cut c rest
  end.

Definition MergeSearch (r : PlanningResult) (s : SearchOutcome) : PlanningResult :=
  MkResult (rs_outcome r) (rs_status r) (rs_request_digest r) (rs_snapshot_digest r) (rs_candidates r)
    (rs_witnesses r ++ o_witnesses s) (Z.lor (rs_limitations r) (o_limitations s))
    (fold_left (fun cuts c => merge_cut c cuts) (o_cuts s) (rs_cuts r))
    (merge_statistics (rs_statistics r) (o_statistics s)) (rs_optimality_proven r) (rs_digest r).

(** ** Exclusions of the next pass *)

Record Exclusions := MkExclusions {
  ex_nodes : list NodeId;
  ex_spans : list SpanId;
  ex_domains : list FailureDomainId;
}.

Definition parsed {A} (e : Expected A) : list A := match e with Value v => [v] | Error _ => [] end.

(** The node identities the resource of a step names: its own, or the one
    before the first colon of a port. *)
Definition step_nodes (s : PlanStep) : list NodeId :=
  match kind (ps_resource s) with
  | ResourceKind.Node => parsed (id_Parse (text (ps_resource s)))
  | ResourceKind.Port =>
      match split_at ":"%char (text (ps_resource s)) with
      | Some (node_text, _) => parsed (id_Parse node_text)
      | None => []
      end
  | _ => []
  end.

Definition step_spans (s : PlanStep) : list SpanId :=
  match kind (ps_resource s) with ResourceKind.Span => parsed (id_Parse (text (ps_resource s))) | _ => [] end.

Definition ExtendExclusions (p : PlanArtifact) (d : Disjointness.t) (x : Exclusions) : Exclusions :=
  match d with
  | Disjointness.Node =>
      MkExclusions (ex_nodes x ++ concat (map step_nodes (pl_steps p))) (ex_spans x) (ex_domains x)
  | Disjointness.Span =>
      MkExclusions (ex_nodes x) (ex_spans x ++ concat (map step_spans (pl_steps p))) (ex_domains x)
  | Disjointness.FailureDomain =>
      MkExclusions (ex_nodes x) (ex_spans x) (ex_domains x ++ map fx_id (pl_exposure p))
  | Disjointness.None => x
  end.

Definition SortUnique (x : Exclusions) : Exclusions :=
  MkExclusions (sort_unique (ex_nodes x)) (sort_unique (ex_spans x)) (sort_unique (ex_domains x)).

(** The request of an iterative pass. *)
Definition exclude (x : Exclusions) (c : ConstraintSet) : ConstraintSet :=
  MkConstraints (excluded_nodes c ++ ex_nodes x) (excluded_ports c) (excluded_spans c ++ ex_spans x)
    (excluded_cross_connects c) (excluded_failure_domains c ++ ex_domains x) (max_members_per_failure_domain c)
    (max_total_distance_m c) (max_total_span_count c) (max_total_loss_db c) (min_segment_osnr_db c)
    (allow_regeneration c) (allow_wavelength_conversion c) (require_spectrum_continuity_across_regeneration c)
    (allow_repeated_resources c).

Definition tightened (r : PlanningRequest) (x : Exclusions) : PlanningRequest :=
  MkRequest (format_version r) (q_id r) (q_source r) (q_destination r) (channel_width_slots r) 1 (max_regenerations r)
    (max_hops r) (max_total_cost r) Disjointness.None (exclude x (constraints r)) (required_source_generations r)
    (required_snapshot_generation r) (expected_snapshot_digest r) (accept_restored_evidence r)
    (max_search_expansions r) (max_search_labels r).

Definition iterative (r : PlanningRequest) : bool :=
  negb (bool_decide (q_disjointness r = Disjointness.None)) && (1 <? max_candidates r).

Definition build_budget (r : PlanningRequest) : Z :=
  if iterative r then 1
  else if bool_decide (q_disjointness r = Disjointness.None) then max_candidates r
  else Z.min kPlanBuildBudget (max_candidates r * 8).

(** ** Finishing a result *)

Definition witness_key (w : Witness) : Z * (ResourceKey * string) :=
  (Z.of_nat (CutSlot (w_reason w)), (w_resource w, w_detail w)).

Definition final_witnesses (l : list Witness) : list Witness :=
  firstn (Z.to_nat kMaxWitnessEntries) (unique_by (fun a b => bool_decide (a = b)) (sort_by (by_key witness_key) l)).

Definition final_cuts (l : list CutCount) : list CutCount :=
  sort_by (by_key (fun c => Z.of_nat (CutSlot (c_reason c)))) l.

Section planner.
Context `{Platform, Hasher}.

Definition FinaliseResult (r : PlanningResult) : PlanningResult :=
  Result_Seal
    (MkResult (rs_outcome r) (rs_status r) (rs_request_digest r) (rs_snapshot_digest r) (rs_candidates r)
       (final_witnesses (rs_witnesses r)) (rs_limitations r) (final_cuts (rs_cuts r)) (rs_statistics r)
       (rs_optimality_proven r) (rs_digest r)).

(** The result with another outcome and status, more limitations and
    witnesses, finished. *)
Definition conclude (o : PlanOutcome.t) (s : Status) (limitations : Z) (witnesses : list Witness) (r : PlanningResult) :
  PlanningResult :=
  FinaliseResult
    (MkResult o s (rs_request_digest r) (rs_snapshot_digest r) (rs_candidates r) (rs_witnesses r ++ witnesses)
       (Z.lor (rs_limitations r) limitations) (rs_cuts r) (rs_statistics r) (rs_optimality_proven r) (rs_digest r)).

Section plan.
Context (options : PlannerOptions) (t : TopologySnapshot) (r : PlanningRequest) (cancelled : nat -> nat -> bool).

Definition initial_result : PlanningResult :=
  MkResult PlanOutcome.Refused OkStatus (ComputeRequestDigest r) (t_digest t) [] [] kLimitationNone [] no_statistics
    false zero_digest.

(** Lines 122-129. *)
Definition check_request (result : PlanningResult) : option PlanningResult :=
  let status := Request_Validate r in
  if failed status then
    Some (conclude (if bool_decide (code status = StatusCode.Unsupported) then PlanOutcome.Unsupported
                    else PlanOutcome.Refused) status 0 [] result)
  else None.

Definition stale (detail : string) : Status := Failure StatusCode.Stale detail.

(** Lines 131-145. *)
Definition check_freshness (result : PlanningResult) : option PlanningResult :=
  if negb (bool_decide (t_freshness t = EvidenceFreshness.Fresh)) && negb (accept_restored_evidence r) then
    Some (conclude PlanOutcome.Indeterminate
      (stale ("the snapshot was restored from persistence and the caller did not accept restored " +:+ "evidence"))
      (Z.lor kLimitationRestoredEvidence kLimitationStaleEvidence)
      [MkWitness CutReason.UnresolvedReference (ForSource (MkId "snapshot"))
         ("restored from incarnation " +:+ Incarnation_ToHex (t_restored_from_incarnation t))] result)
  else None.

(** Lines 147-156. *)
Definition check_generation (result : PlanningResult) : option PlanningResult :=
  match required_snapshot_generation r with
  | Some minimum =>
      if t_generation t <? minimum then
        Some (conclude PlanOutcome.Indeterminate
          (stale ("snapshot generation " +:+ FormatU64 (t_generation t) +:+
                  " is older than the requested minimum " +:+ FormatU64 minimum)) kLimitationStaleEvidence [] result)
      else None
  | None => None
  end.

(** Lines 158-165. *)
Definition check_digest (result : PlanningResult) : option PlanningResult :=
  match expected_snapshot_digest r with
  | Some pinned =>
      if negb (digest_eqb pinned (t_digest t)) then
        Some (conclude PlanOutcome.Indeterminate
          (stale "snapshot digest does not match the digest the request pinned") kLimitationStaleEvidence [] result)
      else None
  | None => None
  end.

(** Lines 167-192, one entry. *)
Definition check_source (entry : SourceId * Generation) (result : PlanningResult) : option PlanningResult :=
  let '(id, minimum) := entry in
  if negb (HasSource t id) then
    Some (conclude PlanOutcome.Indeterminate
      (stale ("source '" +:+ str id +:+ "' is required by the request but is absent from the snapshot"))
      kLimitationStaleEvidence
      [MkWitness CutReason.UnresolvedReference (ForSource id) "required evidence source is absent"] result)
  else if SourceGeneration t id <? minimum then
    Some (conclude PlanOutcome.Indeterminate
      (stale ("source '" +:+ str id +:+ "' publishes generation " +:+ FormatU64 (SourceGeneration t id) +:+
              " but the request requires at least " +:+ FormatU64 minimum)) kLimitationStaleEvidence [] result)
  else None.

Fixpoint check_sources (entries : list (SourceId * Generation)) (result : PlanningResult) : option PlanningResult :=
  match entries with
  | [] => None
  | entry :: rest =>
      match check_source entry result with Some final => Some final | None => check_sources rest result end
  end.

(** Lines 194-203. *)
Definition check_grid (result : PlanningResult) : option PlanningResult :=
  if bool_decide (grid (t_spectrum t) = GridKind.Fixed50GHz) && negb (channel_width_slots r =? 1) then
    Some (conclude PlanOutcome.Unsupported
      (Failure StatusCode.Unsupported
         ("a fixed 50 GHz grid carries single-slot channels; multi-slot widths are only modelled " +:+
          "on the flexible grid")) 0 [] result)
  else None.

Definition put_cuts (cuts : list CutCount) (result : PlanningResult) : PlanningResult :=
  MkResult (rs_outcome result) (rs_status result) (rs_request_digest result) (rs_snapshot_digest result)
    (rs_candidates result) (rs_witnesses result) (rs_limitations result) cuts (rs_statistics result)
    (rs_optimality_proven result) (rs_digest result).

(** Lines 205-227. *)
Definition check_endpoints (result : PlanningResult) : option PlanningResult :=
  let source_present := bool_decide (is_Some (FindPort t (q_source r))) in
  let destination_present := bool_decide (is_Some (FindPort t (q_destination r))) in
  if negb source_present || negb destination_present then
    let reason := if source_present then CutReason.DestinationAbsent else CutReason.SourceAbsent in
    let result := put_cuts (rs_cuts result ++ [MkCutCount reason 1]) result in
    Some (if t_coverage_complete t then conclude PlanOutcome.Infeasible OkStatus 0 [] result
          else
            conclude PlanOutcome.Indeterminate
              (Failure StatusCode.NotFound
                 "an endpoint has no record and the snapshot does not claim complete coverage")
              kLimitationUnknownAdjacency
              [MkWitness reason (ForPort (if source_present then q_destination r else q_source r))
                 "no record for this port"] result)
  else None.

(** The stages before the search, in their order. *)
Definition admission (result : PlanningResult) : option PlanningResult :=
  let or_else (a : option PlanningResult) (b : option PlanningResult) := match a with Some x => Some x | None => b end in
  or_else (check_request result) (or_else (check_freshness result) (or_else (check_generation result)
    (or_else (check_digest result) (or_else (check_sources (required_source_generations r) result)
      (or_else (check_grid result) (check_endpoints result)))))).

(** ** Building the candidates of a pass (lines 286-307) *)

Record Built := MkBuilt { bt_plans : list PlanArtifact; bt_seen : list string; bt_unproven : bool }.

Fixpoint build_paths (budget : Z) (paths : list RawPath) (b : Built) : Expected Built :=
  match paths with
  | [] => Value b
  | path :: rest =>
      if negb (p_proven path) then build_paths budget rest (MkBuilt (bt_plans b) (bt_seen b) true)
      else if budget <=? size (bt_plans b) then Value b
      else
        let! plan := BuildPlan t r (ComputeRequestDigest r) (StripCycles t (q_source r) (p_arcs path)) in
        let hex := DigestHex plan in
        if existsb (String.eqb hex) (bt_seen b) then build_paths budget rest b
        else build_paths budget rest (MkBuilt (bt_plans b ++ [plan]) (hex :: bt_seen b) (bt_unproven b))
  end.

(** ** The passes (lines 229-340) *)

Record Passes := MkPasses {
  pa_result : PlanningResult;
  pa_accepted : list PlanArtifact;
  pa_exclusions : Exclusions;
  pa_first_optimum : bool;
  pa_knowledge_gap : bool;
  pa_truncation : bool;
  pa_stopping_status : Status;
}.

Inductive PassEnd := Return (r : PlanningResult) | Break (p : Passes) | Continue (p : Passes).

Definition put_result (result : PlanningResult) (p : Passes) : Passes :=
  MkPasses result (pa_accepted p) (pa_exclusions p) (pa_first_optimum p) (pa_knowledge_gap p) (pa_truncation p)
    (pa_stopping_status p).
Definition put_optimum (b : bool) (p : Passes) : Passes :=
  MkPasses (pa_result p) (pa_accepted p) (pa_exclusions p) b (pa_knowledge_gap p) (pa_truncation p)
    (pa_stopping_status p).
Definition put_exclusions (x : Exclusions) (p : Passes) : Passes :=
  MkPasses (pa_result p) (pa_accepted p) x (pa_first_optimum p) (pa_knowledge_gap p) (pa_truncation p)
    (pa_stopping_status p).
Definition stop (gap truncation : bool) (status : Status) (p : Passes) : Passes :=
  MkPasses (pa_result p) (pa_accepted p) (pa_exclusions p) (pa_first_optimum p) (pa_knowledge_gap p || gap)
    (pa_truncation p || truncation) status.
Definition accept (plans : list PlanArtifact) (p : Passes) : Passes :=
  MkPasses (pa_result p) (pa_accepted p ++ plans) (pa_exclusions p) (pa_first_optimum p) (pa_knowledge_gap p)
    (pa_truncation p) (pa_stopping_status p).
Definition note_limitation_of (bits : Z) (p : Passes) : Passes :=
  let result := pa_result p in
  put_result
    (MkResult (rs_outcome result) (rs_status result) (rs_request_digest result) (rs_snapshot_digest result)
       (rs_candidates result) (rs_witnesses result) (Z.lor (rs_limitations result) bits) (rs_cuts result)
       (rs_statistics result) (rs_optimality_proven result) (rs_digest result)) p.

(** Lines 309-328: the pass built nothing. *)
Definition nothing_built (unproven : bool) (search : SearchOutcome) (p : Passes) : Passes :=
  if unproven then
    stop true false
      (stale ("a route exists only under unpublished evidence, so neither feasibility nor " +:+
              "infeasibility can be proven")) p
  else if st_truncated (o_statistics search) || negb (o_exhausted search) then
    stop false true
      (Failure StatusCode.Truncated
         ("the search reached its configured bound before exhausting the reachable state " +:+ "space")) p
  else if negb (t_coverage_complete t) then
    note_limitation_of (Z.lor kLimitationUnknownAdjacency kLimitationUnresolvedReference)
      (stop true false
         (stale ("the snapshot does not claim complete coverage, so absence of a route cannot be " +:+ "proven")) p)
  else p.

(** Lines 330-339: what the pass built is accepted. *)
Definition accept_built (plans : list PlanArtifact) (p : Passes) : PassEnd :=
  if iterative r then
    match plans with
    | best :: _ =>
        Continue (accept [best] (put_exclusions (ExtendExclusions best (q_disjointness r) (pa_exclusions p)) p))
    | [] => Break p
    end
  else Break (accept (firstn (Z.to_nat (max_candidates r)) plans) p).

(** Lines 267-339: one search over [working], and its candidates. *)
Definition search_pass (pass : nat) (working : PlanningRequest) (p : Passes) : PassEnd :=
  let search := RunSearch t working options (cancelled pass) in
  let p := put_result (MergeSearch (pa_result p) search) p in
  if failed (o_status search) then
    Return (conclude (if bool_decide (code (o_status search) = StatusCode.Cancelled) then PlanOutcome.Cancelled
                      else PlanOutcome.Refused) (o_status search) 0 [] (pa_result p))
  else
    let p := if (pass =? 0)%nat then put_optimum (o_proved_optimum search) p else p in
    match build_paths (build_budget r) (o_paths search) (MkBuilt [] [] false) with
    | Error status => Return (conclude PlanOutcome.Refused status 0 [] (pa_result p))
    | Value built =>
        match sort_by PlanLess (bt_plans built) with
        | [] => Break (nothing_built (bt_unproven built) search p)
        | plans => accept_built plans p
        end
    end.

Definition one_pass (pass : nat) (p : Passes) : PassEnd :=
  if iterative r then
    let p := put_exclusions (SortUnique (pa_exclusions p)) p in
    let working := tightened r (pa_exclusions p) in
    let valid := Request_Validate working in
    if failed valid then Break (stop false false valid p) else search_pass pass working p
  else search_pass pass r p.

Fixpoint run_passes (count pass : nat) (p : Passes) : PlanningResult + Passes :=
  match count with
  | O => inr p
  | S count =>
      match one_pass pass p with
      | Return result => inl result
      | Break p => inr p
      | Continue p => run_passes count (S pass) p
      end
  end.

Definition pass_count : nat := if iterative r then Z.to_nat (max_candidates r) else 1.

Definition start_passes (result : PlanningResult) : Passes :=
  MkPasses result [] (MkExclusions [] [] []) false false false OkStatus.

(** ** Outcome classification (lines 342-376) *)

Definition publish (p : Passes) : PlanningResult :=
  let result := pa_result p in
  MkResult (rs_outcome result) (rs_status result) (rs_request_digest result) (rs_snapshot_digest result)
    (pa_accepted p) (rs_witnesses result) (rs_limitations result) (rs_cuts result) (rs_statistics result)
    (rs_optimality_proven result) (rs_digest result).

Definition prove_optimality (b : bool) (result : PlanningResult) : PlanningResult :=
  MkResult (rs_outcome result) (rs_status result) (rs_request_digest result) (rs_snapshot_digest result)
    (rs_candidates result) (rs_witnesses result) (rs_limitations result) (rs_cuts result) (rs_statistics result)
    b (rs_digest result).

Definition classify (p : Passes) : PlanningResult :=
  let result := publish p in
  match pa_accepted p with
  | _ :: _ =>
      let optimum := pa_first_optimum p && t_coverage_complete t in
      let greedy := iterative r && (size (pa_accepted p) <? max_candidates r) && negb (pa_knowledge_gap p) &&
                    negb (pa_truncation p) in
      conclude PlanOutcome.Feasible OkStatus
        (Z.lor (if greedy then kLimitationDisjointnessGreedy else 0)
           (if optimum then 0 else kLimitationOptimalityNotProven)) [] (prove_optimality optimum result)
  | [] =>
      if pa_knowledge_gap p then conclude PlanOutcome.Indeterminate (pa_stopping_status p) 0 [] result
      else if pa_truncation p then
        conclude PlanOutcome.Indeterminate (pa_stopping_status p) kLimitationSearchTruncated [] result
      else conclude PlanOutcome.Infeasible OkStatus 0 [] (prove_optimality false result)
  end.

(** [Planner::Plan] *)
Definition Plan : PlanningResult :=
  match admission initial_result with
  | Some final => final
  | None =>
      match run_passes pass_count 0 (start_passes initial_result) with
      | inl final => final
      | inr p => classify p
      end
  end.
End plan.
End planner.
