(* ===== verification/Validate.v ===== *)
(** * Validate: a plan against current evidence

    [src/validate.cpp]: [ValidatePlanBindings] compares the bindings of a plan
    with a snapshot, [RevalidatePlan] also derives the decisions of its steps and
    the totals of its segments again.  A failure of a step is what the loop of
    [RevalidatePlan] appends for it, at most one per step. *)

From S2P Require Import Prelude Status Ids Doubles Spectrum Sha256 Canonical Topology SnapshotText Outcome SearchFacts Plan.

Module PlanValidity.
Inductive t := Valid | Stale | ContentMismatch | MissingEvidence | IntegrityFailure | Unsupported | Refused | NotFresh.
#[global] Instance eq_dec : EqDecision t.
Proof. solve_decision. Defined.
End PlanValidity.

Definition PlanValidityName (v : PlanValidity.t) : string :=
  match v with
  | PlanValidity.Valid => "VALID"
  | PlanValidity.Stale => "STALE"
  | PlanValidity.ContentMismatch => "CONTENT_MISMATCH"
  | PlanValidity.MissingEvidence => "MISSING_EVIDENCE"
  | PlanValidity.IntegrityFailure => "INTEGRITY_FAILURE"
  | PlanValidity.Unsupported => "UNSUPPORTED"
  | PlanValidity.Refused => "REFUSED"
  | PlanValidity.NotFresh => "NOT_FRESH"
  end.

Record SourceMismatch := MkMismatch {
  sm_source : SourceId; sm_bound : Generation; sm_current : Generation; sm_present : bool;
}.

Record RevalidationFailure := MkFailure {
  rf_step_index : Z; rf_resource : ResourceKey; rf_reason : CutReason.t; rf_detail : string;
}.

Record ValidationPolicy := MkPolicy { vp_accept_restored_evidence : bool; vp_revalidate_on_mismatch : bool }.

Definition default_policy : ValidationPolicy := MkPolicy false false.

Record ValidationReport := MkReport {
  vr_validity : PlanValidity.t;
  vr_status : Status;
  vr_source_mismatches : list SourceMismatch;
  vr_bound_snapshot_digest : Digest256;
  vr_current_snapshot_digest : Digest256;
  vr_revalidated : bool;
  vr_failures : list RevalidationFailure;
}.

Definition report_ok (v : ValidationReport) : bool := bool_decide (vr_validity v = PlanValidity.Valid).

Definition true_false (b : bool) : string := if b then "true" else "false".

Definition explain_mismatch (m : SourceMismatch) : string :=
  "source_mismatch " +:+ str (sm_source m) +:+ " bound=" +:+ FormatU64 (sm_bound m) +:+ " current=" +:+
  FormatU64 (sm_current m) +:+ " present=" +:+ true_false (sm_present m) +:+ newline.

Definition explain_failure (f : RevalidationFailure) : string :=
  "failure step=" +:+ FormatU32 (rf_step_index f) +:+ " resource=" +:+ ResourceKeyToString (rf_resource f) +:+
  " reason=" +:+ CutReasonName (rf_reason f) +:+ " " +:+ rf_detail f +:+ newline.

Definition Report_ExplainText (v : ValidationReport) : string :=
  "validity: " +:+ PlanValidityName (vr_validity v) +:+ newline +:+
  (if failed (vr_status v) then
     "status: " +:+ StatusCodeName (code (vr_status v)) +:+ " " +:+ detail (vr_status v) +:+ newline
   else "") +:+
  "bound_snapshot_digest: " +:+ Digest_ToHex (vr_bound_snapshot_digest v) +:+ newline +:+
  "current_snapshot_digest: " +:+ Digest_ToHex (vr_current_snapshot_digest v) +:+ newline +:+
  "revalidated: " +:+ true_false (vr_revalidated v) +:+ newline +:+
  String.concat "" (map explain_mismatch (vr_source_mismatches v)) +:+
  String.concat "" (map explain_failure (vr_failures v)).

(** ** Bindings *)

(** Lines 111-119: the mismatch of a binding, when there is one. *)
Definition mismatch_of (t : TopologySnapshot) (b : SourceBinding) : option SourceMismatch :=
  let present := HasSource t (sb_source b) in
  let current := if present then SourceGeneration t (sb_source b) else 0 in
  if negb present || negb (current =? sb_generation b) then
    Some (MkMismatch (sb_source b) (sb_generation b) current present)
  else None.

Definition source_mismatches (t : TopologySnapshot) (p : PlanArtifact) : list SourceMismatch :=
  omap (mismatch_of t) (pl_bound_sources p).

Definition ValidatePlanBindings `{Platform, Hasher} (p : PlanArtifact) (t : TopologySnapshot) (policy : ValidationPolicy) :
  ValidationReport :=
  let report v s mismatches := MkReport v s mismatches (pl_snapshot_digest p) (t_digest t) false [] in
  if negb (pl_format_version p =? kPlanFormatVersion) || negb (pl_rule_version p =? kPlanningRuleVersion) then
    report PlanValidity.Unsupported
      (Failure StatusCode.Unsupported
         ("plan was produced by a format or planning rule revision this runtime does not " +:+ "reproduce")) []
  else
    let seal := VerifySeal p in
    if failed seal then report PlanValidity.IntegrityFailure seal []
    else if negb (bool_decide (t_freshness t = EvidenceFreshness.Fresh)) && negb (vp_accept_restored_evidence policy) then
      report PlanValidity.NotFresh
        (Failure StatusCode.Stale
           ("the snapshot was restored from persistence and the caller did not accept restored " +:+ "evidence")) []
    else
      match source_mismatches t p with
      | (_ :: _) as mismatches =>
          report PlanValidity.Stale
            (Failure StatusCode.Stale "at least one bound evidence generation no longer matches the current snapshot")
            mismatches
      | [] =>
          if negb (digest_eqb (pl_snapshot_digest p) (t_digest t)) then
            report PlanValidity.ContentMismatch
              (Failure StatusCode.Stale "source generations match but the snapshot content digest changed") []
          else report PlanValidity.Valid OkStatus []
      end.

(** ** Decisions of the steps *)

Definition fault : Type := CutReason.t * string.

Definition published_up (admin : Evidence AdminState.t) : bool :=
  match admin with Known a => bool_decide (a = AdminState.Up) | _ => false end.

(** Lines 157-165: the slots of a span a plan may hold. *)
Definition held_mask (t : TopologySnapshot) (blocked : Evidence SlotMask) : SlotMask :=
  match blocked with
  | Known b => FirstSlotMask (usable_slots (slot_count (t_spectrum t)) b) 1
  | _ => FirstSlotMask (mask_All (slot_count (t_spectrum t))) 1
  end.

(** Lines 253-256. *)
Definition wanted_mask (c : Channel) : SlotMask :=
  fold_left (fun m offset => mask_Set m (wrap16 (first_slot c + offset))) (range (width_slots c)) mask_None.

(** Lines 179-201. *)
Definition port_fault (t : TopologySnapshot) (resource : ResourceKey) : option fault :=
  match split_at ":"%char (text resource) with
  | None => Some (CutReason.None, "malformed port resource key")
  | Some (node_text, port_text) =>
      match id_Parse node_text, id_Parse port_text with
      | Value n, Value p =>
          match FindPort t (MkPortKey n p) with
          | None => Some (CutReason.UnresolvedReference, "port is absent from the snapshot")
          | Some record =>
              if negb (published_up (p_admin record)) then
                Some (CutReason.DestinationAdminDown, "port is not published as administratively up")
              else None
          end
      | _, _ => Some (CutReason.None, "malformed port resource key")
      end
  end.

(** Lines 202-218. *)
Definition node_fault (t : TopologySnapshot) (resource : ResourceKey) : option fault :=
  match id_Parse (text resource) with
  | Error _ => Some (CutReason.None, "malformed node resource key")
  | Value id =>
      match FindNode t id with
      | None => Some (CutReason.UnresolvedReference, "node is absent from the snapshot")
      | Some record =>
          if negb (published_up (n_admin record)) then
            Some (CutReason.DestinationAdminDown, "node is not published as administratively up")
          else None
      end
  end.

(** The first span, or cross-connect, of an identity (lines 225-231, 269-275). *)
Definition span_of_id (t : TopologySnapshot) (id : SpanId) : option SpanRecord :=
  List.find (fun s => bool_decide (s_id s = id)) (t_spans t).
Definition cross_connect_of_id (t : TopologySnapshot) (id : CrossConnectId) : option CrossConnectRecord :=
  List.find (fun x => bool_decide (x_id x = id)) (t_cross_connects t).

Definition reservation_of (p : PlanArtifact) (resource : ResourceKey) : option PlanReservation :=
  List.find (fun v => bool_decide (rv_resource v = resource)) (pl_reservations p).

(** Lines 219-262. *)
Definition span_fault (t : TopologySnapshot) (p : PlanArtifact) (resource : ResourceKey) : option fault :=
  match id_Parse (text resource) with
  | Error _ => Some (CutReason.None, "malformed span resource key")
  | Value id =>
      match span_of_id t id with
      | None => Some (CutReason.UnresolvedReference, "span is absent from the snapshot")
      | Some record =>
          if negb (published_up (s_admin record)) then
            Some (CutReason.SpanAdminDown, "span is not published as administratively up")
          else
            match reservation_of p resource with
            | None => Some (CutReason.None, "plan carries no spectrum requirement for this span")
            | Some v =>
                if negb (mask_IsSubsetOf (wanted_mask (rv_channel v)) (held_mask t (s_blocked_slots record))) then
                  Some (CutReason.PortSpectrumEmpty,
                        "the recorded channel is no longer inside the span's usable spectrum")
                else None
            end
      end
  end.

(** Lines 263-286. *)
Definition cross_connect_fault (t : TopologySnapshot) (resource : ResourceKey) : option fault :=
  match id_Parse (text resource) with
  | Error _ => Some (CutReason.None, "malformed cross-connect resource key")
  | Value id =>
      match cross_connect_of_id t id with
      | None => Some (CutReason.UnresolvedReference, "cross-connect is absent from the snapshot")
      | Some record =>
          if negb (published_up (x_admin record)) then
            Some (CutReason.CrossConnectAdminDown, "cross-connect is not published as administratively up")
          else None
      end
  end.

Definition step_fault (t : TopologySnapshot) (p : PlanArtifact) (resource : ResourceKey) : option fault :=
  match kind resource with
  | ResourceKind.Port => port_fault t resource
  | ResourceKind.Node => node_fault t resource
  | ResourceKind.Span => span_fault t p resource
  | ResourceKind.CrossConnect => cross_connect_fault t resource
  | ResourceKind.FailureDomain | ResourceKind.ReachProfile | ResourceKind.Channel | ResourceKind.Source => None
  end.

Definition step_failure (t : TopologySnapshot) (p : PlanArtifact) (s : PlanStep) : option RevalidationFailure :=
  match step_fault t p (ps_resource s) with
  | Some (reason, detail) => Some (MkFailure (ps_index s) (ps_resource s) reason detail)
  | None => None
  end.

(** ** Totals of the segments *)

Record Accounting := MkAccounting { ac_distance : Z; ac_loss : double; ac_osnr_inverse : double; ac_spans : Z }.

(** Lines 302-315. *)
Definition account `{Platform} (t : TopologySnapshot) (a : Accounting) (u : PlanSpanUse) : Accounting :=
  match span_of_id t (su_id u) with
  | None => a
  | Some s =>
      MkAccounting
        (match s_length_m s with Known length => wrap64 (ac_distance a + length) | _ => ac_distance a end)
        (match s_loss_db s with Known loss => dadd (ac_loss a) loss | _ => ac_loss a end)
        (match s_osnr_db s with
         | Known osnr => dadd (ac_osnr_inverse a) (pow10 (ddiv (dopp osnr) d10))
         | _ => ac_osnr_inverse a
         end)
        (wrap32 (ac_spans a + 1))
  end.

Definition accounting_of `{Platform} (t : TopologySnapshot) (s : PlanSegment) : Accounting :=
  fold_left (account t) (sg_spans s) (MkAccounting 0 d0 d0 0).

Definition accounting_osnr `{Platform} (a : Accounting) : double :=
  if dle (ac_osnr_inverse a) d0 then d0 else dmul (dopp d10) (log10 (ac_osnr_inverse a)).

Definition far_apart (a b : double) : bool := dgt (dabs (dsub a b)) epsilon9.

(** Lines 297-322: the totals of a segment do not come out again. *)
Definition segment_differs `{Platform} (t : TopologySnapshot) (s : PlanSegment) : bool :=
  let a := accounting_of t s in
  negb (ac_distance a =? sg_distance_m s) || negb (ac_spans a =? sg_span_count s) ||
  far_apart (ac_loss a) (sg_loss_db s) || far_apart (accounting_osnr a) (sg_osnr_db s).

Definition segment_failure `{Platform} (t : TopologySnapshot) (s : PlanSegment) : option RevalidationFailure :=
  if segment_differs t s then
    Some (MkFailure 0 (ForReachProfile (sg_profile s)) CutReason.None
            "segment accounting does not reproduce against the current snapshot")
  else None.

Definition revalidation_failures `{Platform} (p : PlanArtifact) (t : TopologySnapshot) : list RevalidationFailure :=
  omap (step_failure t p) (pl_steps p) ++ omap (segment_failure t) (pl_segments p).

(** ** Revalidation *)

(** Lines 324-338. *)
Definition verdict (report : ValidationReport) (failures : list RevalidationFailure) : ValidationReport :=
  let outcome v s :=
    MkReport v s (vr_source_mismatches report) (vr_bound_snapshot_digest report) (vr_current_snapshot_digest report) true
      failures in
  let valid := bool_decide (vr_validity report = PlanValidity.Valid) in
  match failures with
  | [] =>
      if valid then outcome (vr_validity report) (vr_status report)
      else
        outcome (vr_validity report)
          (Failure StatusCode.Stale
             ("bound generations changed, but every plan decision still reproduces against the " +:+ "current snapshot"))
  | _ :: _ =>
      if valid then
        outcome PlanValidity.MissingEvidence
          (Failure StatusCode.Internal "plan decisions no longer reproduce against the snapshot it is bound to")
      else
        outcome (vr_validity report)
          (Failure StatusCode.Stale "plan decisions no longer reproduce against the current snapshot")
  end.

Definition RevalidatePlan `{Platform, Hasher} (p : PlanArtifact) (t : TopologySnapshot) (policy : ValidationPolicy) :
  ValidationReport :=
  let report := ValidatePlanBindings p t (MkPolicy (vp_accept_restored_evidence policy) false) in
  if negb (bool_decide (vr_validity report = PlanValidity.Valid)) && negb (vp_revalidate_on_mismatch policy) then report
  else verdict report (revalidation_failures p t).
