(* ===== verification/ValidateFacts.v ===== *)
(** * ValidateFacts: what a validation report means

    The verdict of the bindings, what a revalidated plan has been checked for,
    and that a plan just built passes. *)

From Stdlib Require Import SpecFloat.
From S2P Require Import Prelude Status Ids Doubles Spectrum Sha256 Canonical Topology SnapshotText Builder Request Outcome.
From S2P Require Import SearchFacts SearchArcs Search Route Plan PlanBuild PlanFacts PlanSteps Validate.

Lemma omap_nil {A B} (f : A -> option B) (l : list A) : omap f l = [] <-> Forall (fun x => f x = None) l.
Proof.
  induction l as [|x l IH]; simpl; [done|]. rewrite Forall_cons. destruct (f x); simpl; [|by rewrite IH; naive_solver].
  split; [done|]. by intros [? _].
Qed.

Lemma far_apart_refl (x : double) : far_apart x x = false.
Proof.
  unfold far_apart. assert (dsub x x = d0 \/ dsub x x = S754_nan \/ dsub x x = S754_zero true) as [->|[->| ->]];
    [|by vm_compute..].
  unfold dsub, SFsub. destruct x as [[]|[]| |s m e]; simpl; auto. left. rewrite Z.sub_diag. by destruct s.
Qed.

(** ** Bindings *)

Section bindings.
Context `{Platform, Hasher} (p : PlanArtifact) (t : TopologySnapshot) (policy : ValidationPolicy).

Definition versions_match : Prop := pl_format_version p = kPlanFormatVersion /\ pl_rule_version p = kPlanningRuleVersion.
Definition evidence_usable : Prop := t_freshness t = EvidenceFreshness.Fresh \/ vp_accept_restored_evidence policy = true.
Definition binding_current (b : SourceBinding) : Prop :=
  HasSource t (sb_source b) = true /\ SourceGeneration t (sb_source b) = sb_generation b.

Record bindings_hold : Prop := {
  bh_versions : versions_match;
  bh_sealed : VerifySeal p = OkStatus;
  bh_usable : evidence_usable;
  bh_sources : Forall binding_current (pl_bound_sources p);
  bh_digest : pl_snapshot_digest p = t_digest t;
}.

Lemma mismatch_of_none b : mismatch_of t b = None <-> binding_current b.
Proof.
  unfold mismatch_of, binding_current. cbv zeta. destruct (HasSource t (sb_source b)); simpl; [|naive_solver].
  destruct (Z.eqb_spec (SourceGeneration t (sb_source b)) (sb_generation b)); simpl; naive_solver.
Qed.

Lemma VerifySeal_failed : failed (VerifySeal p) = false <-> VerifySeal p = OkStatus.
Proof. unfold VerifySeal. destruct (digest_eqb _ _); simpl; split; done. Qed.

(** The stages of the comparison and their verdicts. *)
Definition stage_verdict (v : PlanValidity.t) : Prop :=
  match v with
  | PlanValidity.Unsupported => ~ versions_match
  | PlanValidity.IntegrityFailure => versions_match /\ VerifySeal p <> OkStatus
  | PlanValidity.NotFresh => versions_match /\ VerifySeal p = OkStatus /\ ~ evidence_usable
  | PlanValidity.Stale =>
      versions_match /\ VerifySeal p = OkStatus /\ evidence_usable /\ ~ Forall binding_current (pl_bound_sources p)
  | PlanValidity.ContentMismatch =>
      versions_match /\ VerifySeal p = OkStatus /\ evidence_usable /\ Forall binding_current (pl_bound_sources p) /\
      pl_snapshot_digest p <> t_digest t
  | PlanValidity.Valid => bindings_hold
  | PlanValidity.MissingEvidence | PlanValidity.Refused => False
  end.

Lemma bindings_stage :
  let report := ValidatePlanBindings p t policy in
  stage_verdict (vr_validity report) /\ vr_failures report = [] /\ vr_revalidated report = false /\
  (failed (vr_status report) = false <-> vr_validity report = PlanValidity.Valid) /\
  vr_source_mismatches report =
    (if bool_decide (vr_validity report = PlanValidity.Stale) then source_mismatches t p else []).
Proof.
  cbv zeta. unfold ValidatePlanBindings. cbv zeta.
  destruct (Z.eqb_spec (pl_format_version p) kPlanFormatVersion) as [Ef|Ef]; simpl.
  2: { split; [intros []; done|]. by split_and!. }
  destruct (Z.eqb_spec (pl_rule_version p) kPlanningRuleVersion) as [Er|Er]; simpl.
  2: { split; [intros []; done|]. by split_and!. }
  assert versions_match as Hv by done.
  destruct (failed (VerifySeal p)) eqn:Es; simpl.
  { split; [split; [done|]; intros E; by rewrite E in Es|]. rewrite Es. by split_and!. }
  apply VerifySeal_failed in Es. case_bool_decide as Hf; simpl.
  1: assert evidence_usable as Hu by (by left).
  2: destruct (vp_accept_restored_evidence policy) eqn:Ea; simpl.
  2: assert evidence_usable as Hu by (by right).
  3: { split; [split; [done|]; split; [done|]; unfold evidence_usable; rewrite Ea; naive_solver|]. by split_and!. }
  all: assert (source_mismatches t p = [] <-> Forall binding_current (pl_bound_sources p)) as Hm
    by (unfold source_mismatches; rewrite omap_nil; by setoid_rewrite mismatch_of_none).
  all: destruct (source_mismatches t p) as [|m l]; simpl;
    [|split; [split; [exact Hv|split; [exact Es|split; [exact Hu|by intros Hb%Hm]]]|by split_and!]].
  all: pose proof (proj1 Hm eq_refl) as Hb; unfold digest_eqb; case_bool_decide as Hd; simpl;
    (split; [by split_and!|by split_and!]) || (split; [by split|by split_and!]).
Qed.

(** Two verdicts of one comparison are the same. *)
Lemma stage_verdict_unique v v' : stage_verdict v -> stage_verdict v' -> v = v'.
Proof. destruct v, v'; simpl; try reflexivity; intros Hv Hv'; try destruct Hv as []; try destruct Hv' as []; tauto. Qed.

(** C21: the verdict on the bindings.  [ValidatePlanBindings] is VALID exactly when
    the format and rule revisions are this runtime's, the seal verifies, the
    evidence is fresh or restored evidence is accepted, every bound source is
    present at its bound generation and the digests agree; otherwise it names
    the first of these that fails, with a failed status, and lists the sources
    that differ; it never answers REFUSED or MISSING_EVIDENCE. *)
Theorem bindings_verdict (v : PlanValidity.t) :
  let report := ValidatePlanBindings p t policy in
  (vr_validity report = v <-> stage_verdict v) /\
  (failed (vr_status report) = false <-> vr_validity report = PlanValidity.Valid) /\
  vr_failures report = [] /\ vr_revalidated report = false /\
  vr_source_mismatches report =
    (if bool_decide (vr_validity report = PlanValidity.Stale) then source_mismatches t p else []).
Proof.
  cbv zeta. destruct bindings_stage as (Hv & Hf & Hr & Hs & Hm).
  split; [|by split_and!]. split; [by intros <-|]. by apply stage_verdict_unique.
Qed.
End bindings.

(** ** The decisions of the steps *)

Section steps.
Context (p : PlanArtifact) (t : TopologySnapshot).
Context (Hslots : 0 <= slot_count (t_spectrum t) <= kMaxSpectrumSlots).

Definition published_record {A} (admin : A -> Evidence AdminState.t) (o : option A) : Prop :=
  exists x, o = Some x /\ admin x = Known AdminState.Up.

(** Every slot of the channel the masks can hold is in the model and, where the
    blocked slots are published, not among them. *)
Definition channel_held (blocked : Evidence SlotMask) (c : Channel) : Prop :=
  forall o, 0 <= o < width_slots c -> let slot := wrap16 (first_slot c + o) in
    slot < kMaxSpectrumSlots ->
    slot < slot_count (t_spectrum t) /\ forall b, blocked = Known b -> mask_Test b slot = false.

(** What a step has been checked for, by its resource. *)
Inductive reproduces : ResourceKey -> Prop :=
| reproduces_port n q :
    IsValidIdText (str n) = true -> IsValidIdText (str q) = true -> ~ In ":"%char (chars (str n)) ->
    published_record p_admin (FindPort t (MkPortKey n q)) -> reproduces (ForPort (MkPortKey n q))
| reproduces_node n :
    IsValidIdText (str n) = true -> published_record n_admin (FindNode t n) -> reproduces (ForNode n)
| reproduces_span id s v :
    IsValidIdText (str id) = true -> span_of_id t id = Some s -> s_admin s = Known AdminState.Up ->
    reservation_of p (ForSpan id) = Some v -> channel_held (s_blocked_slots s) (rv_channel v) -> reproduces (ForSpan id)
| reproduces_cross_connect id :
    IsValidIdText (str id) = true -> published_record x_admin (cross_connect_of_id t id) ->
    reproduces (ForCrossConnect id)
| reproduces_unchecked k :
    kind k = ResourceKind.FailureDomain \/ kind k = ResourceKind.ReachProfile \/ kind k = ResourceKind.Channel \/
    kind k = ResourceKind.Source -> reproduces k.

Lemma published_up_spec admin : published_up admin = true <-> admin = Known AdminState.Up.
Proof. destruct admin as [[]| |]; simpl; split; done. Qed.

Lemma id_Parse_Value {tag} text (id : StrongId tag) :
  id_Parse text = Value id <-> IsValidIdText text = true /\ id = MkId text.
Proof. unfold id_Parse. destruct (IsValidIdText text); simpl; naive_solver. Qed.

Lemma wanted_mask_wf c : wf_mask (wanted_mask c).
Proof.
  unfold wanted_mask. generalize (range (width_slots c)) mask_None mask_None_wf.
  induction l as [|o l IH]; simpl; intros m Hm; [done|]. by apply IH, mask_Set_wf.
Qed.

Lemma wanted_mask_Test c i : slot_in_range i ->
  mask_Test (wanted_mask c) i = true <-> exists o, 0 <= o < width_slots c /\ wrap16 (first_slot c + o) = i.
Proof.
  intros Hi. unfold wanted_mask.
  assert (forall l m, wf_mask m -> mask_Test (fold_left (fun m o => mask_Set m (wrap16 (first_slot c + o))) l m) i = true <->
    mask_Test m i = true \/ exists o, In o l /\ wrap16 (first_slot c + o) = i) as Hfold.
  { induction l as [|o l IH]; simpl; intros m Hm; [naive_solver|]. rewrite IH by (by apply mask_Set_wf).
    destruct (wrap_range 16 (first_slot c + o)) as [Hge _]; [done|].
    destruct (Z.lt_ge_cases (wrap16 (first_slot c + o)) 256) as [Hlt|Hout].
    - rewrite mask_Set_Test by (done || unfold slot_in_range, kMaxSpectrumSlots; lia).
      rewrite orb_true_iff, bool_decide_eq_true. naive_solver.
    - rewrite mask_Set_out by done. unfold slot_in_range, kMaxSpectrumSlots in Hi.
      assert (wrap16 (first_slot c + o) <> i) by lia. naive_solver. }
  rewrite Hfold by apply mask_None_wf. rewrite mask_None_Test by apply Hi. setoid_rewrite in_range. naive_solver.
Qed.

Lemma held_mask_Test blocked i : slot_in_range i ->
  mask_Test (held_mask t blocked) i = true <->
  i < slot_count (t_spectrum t) /\ forall b, blocked = Known b -> mask_Test b i = false.
Proof.
  intros Hi. unfold held_mask. assert (slot_in_range i -> i + 1 <= kMaxSpectrumSlots) as Hle by (unfold slot_in_range, kMaxSpectrumSlots; lia).
  assert (forall m, mask_Test (FirstSlotMask m 1) i = true <-> mask_Test m i = true) as Hfirst.
  { intros m. rewrite FirstSlotMask_Test by (done || lia). split.
    - intros (_ & _ & Hr). specialize (Hr 0 ltac:(lia)). by rewrite Z.add_0_r in Hr.
    - intros Hm. split; [lia|]. split; [by apply Hle|]. intros o Ho. by replace (i + o) with i by lia. }
  destruct blocked as [b| |]; rewrite Hfirst.
  - rewrite (proj2 (usable_slots_spec _ b Hslots) i Hi), andb_true_iff, Z.ltb_lt, negb_true_iff. naive_solver.
  - rewrite (proj2 (mask_All_wf _) i Hi), Z.ltb_lt. naive_solver.
  - rewrite (proj2 (mask_All_wf _) i Hi), Z.ltb_lt. naive_solver.
Qed.

Lemma held_mask_wf blocked : wf_mask (held_mask t blocked).
Proof. destruct blocked; apply FirstSlotMask_wf. Qed.

Lemma channel_held_spec blocked c :
  mask_IsSubsetOf (wanted_mask c) (held_mask t blocked) = true <-> channel_held blocked c.
Proof.
  rewrite mask_IsSubsetOf_spec by (apply wanted_mask_wf || apply held_mask_wf). unfold channel_held. split.
  - intros Hs o Ho Hslot. destruct (wrap_range 16 (first_slot c + o)) as [Hge _]; [done|].
    apply held_mask_Test; [by split|]. apply Hs; [by split|]. apply wanted_mask_Test; [by split|]. by exists o.
  - intros Hc i Hi Hw. apply held_mask_Test; [done|]. apply wanted_mask_Test in Hw as (o & Ho & <-); [|done].
    apply (Hc o Ho). apply Hi.
Qed.
Lemma published_fault {A} (admin : A -> Evidence AdminState.t) (o : option A) (absent down : fault) :
  match o with None => Some absent | Some x => if negb (published_up (admin x)) then Some down else None end = None <->
  published_record admin o.
Proof.
  unfold published_record. destruct o as [x|]; [|naive_solver].
  destruct (published_up (admin x)) eqn:E; simpl.
  - apply published_up_spec in E. split; [|done]. intros _. by exists x.
  - split; [done|]. intros (y & [= <-] & Hy%published_up_spec). congruence.
Qed.

Lemma port_fault_none k : kind k = ResourceKind.Port -> port_fault t k = None <-> reproduces k.
Proof.
  destruct k as [kd tx]. simpl. intros ->. unfold port_fault. simpl.
  split.
  - destruct (split_at ":"%char tx) as [[a b]|] eqn:E; [|done]. apply split_at_some in E as [-> Hcolon].
    destruct (id_Parse a) as [n|] eqn:En; [|done]. destruct (id_Parse b) as [q|] eqn:Eq; [|done].
    apply id_Parse_Value in En as [Hn ->], Eq as [Hq ->]. intros Hf%published_fault. exact (reproduces_port (MkId a) (MkId b) Hn Hq Hcolon Hf).
  - inversion 1 as [n q Hn Hq Hcolon Hf Heq| | | |? Hk]; [|naive_solver].
    assert (split_at ":"%char (CanonicalText (MkPortKey n q)) = Some (str n, str q)) as -> by (by apply split_at_app).
    rewrite !id_Parse_str by done. by apply published_fault.
Qed.

Lemma node_fault_none k : kind k = ResourceKind.Node -> node_fault t k = None <-> reproduces k.
Proof.
  destruct k as [kd tx]. simpl. intros ->. unfold node_fault. simpl. split.
  - destruct (id_Parse tx) as [n|] eqn:En; [|done]. apply id_Parse_Value in En as [Hn ->]. intros Hf%published_fault.
    exact (reproduces_node (MkId tx) Hn Hf).
  - inversion 1 as [|n Hn Hf Heq| | |? Hk]; [|naive_solver]. rewrite id_Parse_str by done. by apply published_fault.
Qed.

Lemma cross_connect_fault_none k : kind k = ResourceKind.CrossConnect -> cross_connect_fault t k = None <-> reproduces k.
Proof.
  destruct k as [kd tx]. simpl. intros ->. unfold cross_connect_fault. simpl. split.
  - destruct (id_Parse tx) as [x|] eqn:En; [|done]. apply id_Parse_Value in En as [Hn ->]. intros Hf%published_fault.
    exact (reproduces_cross_connect (MkId tx) Hn Hf).
  - inversion 1 as [| | |x Hn Hf Heq|? Hk]; [|naive_solver]. rewrite id_Parse_str by done. by apply published_fault.
Qed.

Lemma span_fault_none k : kind k = ResourceKind.Span -> span_fault t p k = None <-> reproduces k.
Proof.
  destruct k as [kd tx]. simpl. intros ->. unfold span_fault. simpl. split.
  - destruct (id_Parse tx) as [id|] eqn:En; [|done]. apply id_Parse_Value in En as [Hn ->].
    destruct (span_of_id t (MkId tx)) as [s|] eqn:Es; [|done].
    destruct (published_up (s_admin s)) eqn:Eu; simpl; [|done]. apply published_up_spec in Eu.
    destruct (reservation_of p (MkResourceKey ResourceKind.Span tx)) as [v|] eqn:Ev; [|done].
    destruct (mask_IsSubsetOf _ _) eqn:Em; simpl; [|done]. apply channel_held_spec in Em. intros _.
    exact (reproduces_span (MkId tx) s v Hn Es Eu Ev Em).
  - inversion 1 as [| |id s v Hn Es Eu Ev Em Heq| |? Hk]; [|naive_solver]. rewrite id_Parse_str by done.
    rewrite Es, Eu. simpl. unfold ForSpan in Ev. rewrite Ev. apply channel_held_spec in Em. by rewrite Em.
Qed.

Lemma step_failure_none s : step_failure t p s = None <-> reproduces (ps_resource s).
Proof.
  unfold step_failure. assert (step_fault t p (ps_resource s) = None <-> reproduces (ps_resource s)) as <-.
  { unfold step_fault. destruct (kind (ps_resource s)) eqn:Ek.
    - by apply node_fault_none.
    - by apply port_fault_none.
    - by apply span_fault_none.
    - by apply cross_connect_fault_none.
    - split; [|done]. intros _. apply reproduces_unchecked. naive_solver.
    - split; [|done]. intros _. apply reproduces_unchecked. naive_solver.
    - split; [|done]. intros _. apply reproduces_unchecked. naive_solver.
    - split; [|done]. intros _. apply reproduces_unchecked. naive_solver. }
  destruct (step_fault t p (ps_resource s)) as [[]|]; naive_solver.
Qed.

Lemma revalidation_clean `{Platform} :
  revalidation_failures p t = [] <->
  Forall (fun s => reproduces (ps_resource s)) (pl_steps p) /\ Forall (fun s => segment_differs t s = false) (pl_segments p).
Proof.
  unfold revalidation_failures. rewrite app_nil, !omap_nil. setoid_rewrite step_failure_none.
  assert (forall s, segment_failure t s = None <-> segment_differs t s = false) as Hs
    by (intros s; unfold segment_failure; by destruct (segment_differs t s)).
  by setoid_rewrite Hs.
Qed.
End steps.

(** ** Revalidation *)

Section revalidation.
Context `{Platform, Hasher} (p : PlanArtifact) (t : TopologySnapshot) (policy : ValidationPolicy).

(** The policy [RevalidatePlan] compares the bindings with. *)
Definition bindings_only : ValidationPolicy := MkPolicy (vp_accept_restored_evidence policy) false.

Lemma bindings_hold_only : bindings_hold p t bindings_only <-> bindings_hold p t policy.
Proof. split; intros []; split; done. Qed.

Lemma revalidated_valid :
  vr_validity (RevalidatePlan p t policy) = PlanValidity.Valid <->
  bindings_hold p t policy /\ revalidation_failures p t = [].
Proof.
  rewrite <- bindings_hold_only. unfold RevalidatePlan. cbv zeta.
  destruct (bindings_stage p t bindings_only) as (Hv & _). fold bindings_only.
  destruct (vr_validity (ValidatePlanBindings p t bindings_only)) eqn:Ev.
  1: { simpl. unfold verdict. cbv zeta. rewrite Ev. simpl in *. by destruct (revalidation_failures p t); naive_solver. }
  all: assert (~ bindings_hold p t bindings_only) as Hn
    by (intros Hb; discriminate (stage_verdict_unique _ _ _ _ PlanValidity.Valid Hv Hb)).
  all: assert (forall failures, vr_validity (verdict (ValidatePlanBindings p t bindings_only) failures) =
    vr_validity (ValidatePlanBindings p t bindings_only)) as Hverdict
    by (intros failures; unfold verdict; cbv zeta; rewrite Ev; by destruct failures).
  all: simpl; destruct (vp_revalidate_on_mismatch policy); simpl; rewrite ?Hverdict, Ev; naive_solver.
Qed.
(** C20: what a VALID revalidation stands for.  [RevalidatePlan] answers VALID
    exactly when the bindings hold and every decision reproduces: the port, node,
    span or cross-connect each step names parses, is in the snapshot and is
    published up, the channel reserved on each span lies in the model and off the
    slots the span publishes as blocked, and the distance, span count, loss and
    OSNR of every segment come out again from the spans it lists. *)
Theorem revalidation_sound :
  0 <= slot_count (t_spectrum t) <= kMaxSpectrumSlots ->
  vr_validity (RevalidatePlan p t policy) = PlanValidity.Valid <->
  bindings_hold p t policy /\ Forall (fun s => reproduces p t (ps_resource s)) (pl_steps p) /\
  Forall (fun s => segment_differs t s = false) (pl_segments p).
Proof. intros Hslots. by rewrite revalidated_valid, revalidation_clean. Qed.
End revalidation.

(** ** Witness *)

Section witness.
Import Net.
#[local] Existing Instance Sample.toy_hasher.

Lemma revalidation_sound_witness :
  exists plan, BuildPlan row request zero_digest (p_arcs the_path) = Value plan /\
    (vr_validity (RevalidatePlan plan row default_policy) = PlanValidity.Valid <->
     bindings_hold plan row default_policy /\ Forall (fun s => reproduces plan row (ps_resource s)) (pl_steps plan) /\
     Forall (fun s => segment_differs row s = false) (pl_segments plan)).
Proof.
  destruct (BuildPlan row request zero_digest (p_arcs the_path)) as [plan|] eqn:E; [|by vm_compute in E].
  exists plan. split; [reflexivity|]. exact (revalidation_sound plan row default_policy row_slots).
Defined.
End witness.
