(* ===== verification/PlannerFacts.v ===== *)
(** * PlannerFacts: what a planning result means

    Lemmas and theorems on [Planner.Plan]: every candidate is the plan of a
    proven path of a search, and each outcome is answered for the reason it
    names.  What the passes of a disjoint request keep apart is in [Disjoint]. *)

From S2P Require Import Prelude Status Ids Doubles Spectrum Sha256 Canonical Topology SnapshotText Builder Request Outcome.
From S2P Require Import SearchFacts SearchArcs Search Route Plan Result PlanBuild PlanFacts Planner.

(** ** The request of a pass asks for no less *)

Section tightened.
Context `{Platform} (t : TopologySnapshot) (r : PlanningRequest) (x : Exclusions).

Lemma port_admitted_tightened k : port_admitted t (tightened r x) k -> port_admitted t r k.
Proof. intros (Hp & He & Hn). split; [done|]. split; [done|]. intros Hin. apply Hn, in_or_app. by left. Qed.

Lemma disjoint_from_app {A} (l a b : list A) : disjoint_from l (a ++ b) -> disjoint_from l a.
Proof. intros Hd y Hy Hin. apply (Hd y Hy), in_or_app. by left. Qed.

Lemma arc_admitted_tightened a : arc_admitted t (tightened r x) a -> arc_admitted t r a.
Proof.
  intros [Ha Hp]. split; [|by apply port_admitted_tightened]. destruct (a_kind a).
  - destruct Ha as (s & Hs & Hd & He & Hf & Hr). exists s.
    split; [done|]. split; [done|]. split; [|split; [exact (disjoint_from_app _ _ (ex_domains x) Hf)|done]].
    intros Hin. apply He, in_or_app. by left.
  - destruct Ha as (y & Hy & Hd & He & Hf & Hc & Hr). exists y.
    split; [done|]. split; [done|]. split; [done|]. split; [exact (disjoint_from_app _ _ (ex_domains x) Hf)|done].
Qed.

Lemma path_ok_tightened path : path_ok t (tightened r x) path -> path_ok t r path.
Proof.
  intros []. split; try done; [by apply port_admitted_tightened|].
  eapply Forall_impl; [eassumption|]. apply arc_admitted_tightened.
Qed.

(** A plan is built for the original request. *)
Lemma BuildPlan_tightened `{Hasher} digest arcs : BuildPlan t (tightened r x) digest arcs = BuildPlan t r digest arcs.
Proof. reflexivity. Qed.
End tightened.

Lemma tightened_valid (r : PlanningRequest) : valid_request r -> valid_request (tightened r (MkExclusions [] [] [])).
Proof.
  intros []. split; try done. destruct valid_constraint_set. split; try done; simpl; by rewrite app_nil_r.
Qed.

(** ** Building the candidates of a pass *)

Section passes.
Context `{Platform, Hasher} (options : PlannerOptions) (t : TopologySnapshot) (r : PlanningRequest).
Context (cancelled : nat -> nat -> bool).
Context (W : wf_snapshot t) (I : identified t) (V : valid_request r).

(** The requests the passes search: the request itself or a tightened one. *)
Definition worked (working : PlanningRequest) : Prop :=
  working = r \/ exists x, working = tightened r x /\ valid_request working.

Definition searched (path : RawPath) : Prop :=
  exists working pass, worked working /\ In path (o_paths (RunSearch t working options (cancelled pass))).

(** A candidate is the plan of a proven path of a search, within everything the
    request asks for. *)
Definition candidate_of (plan : PlanArtifact) (path : RawPath) : Prop :=
  path_ok t r path /\ p_proven path = true /\ BuildPlan t r (ComputeRequestDigest r) (p_arcs path) = Value plan /\
  searched path.

Definition candidate_ok (plan : PlanArtifact) : Prop := exists path, candidate_of plan path.

(** The paths of a pass: found for the request itself or a tightened one. *)
Definition pass_path (path : RawPath) : Prop :=
  path_ok t r path /\ (p_proven path = true -> exists plan, candidate_of plan path).

Lemma searched_paths working pass :
  worked working -> Forall pass_path (o_paths (RunSearch t working options (cancelled pass))).
Proof.
  intros Hw. apply List.Forall_forall. intros path Hin.
  assert (searched path) as Hs by (by exists working, pass).
  assert (path_ok t r path /\ (p_proven path = true -> exists plan,
    BuildPlan t r (ComputeRequestDigest r) (p_arcs path) = Value plan)) as [Hok Hplan].
  { destruct Hw as [->|(x & -> & Vx)].
    - split; [by eapply RunSearch_path_ok|]. intros Hp.
      destruct (proven_path_plan t r W V I _ _ _ (ComputeRequestDigest r) Hin Hp) as (plan & E & _). by exists plan.
    - split; [eapply path_ok_tightened; by eapply RunSearch_path_ok|]. intros Hp.
      destruct (proven_path_plan t _ W Vx I _ _ _ (ComputeRequestDigest r) Hin Hp) as (plan & E & _). by exists plan. }
  split; [done|]. intros Hp. destruct (Hplan Hp) as [plan E]. by exists plan.
Qed.

Lemma build_paths_spec budget paths b :
  Forall pass_path paths -> Forall candidate_ok (bt_plans b) ->
  exists b', build_paths t r budget paths b = Value b' /\ Forall candidate_ok (bt_plans b') /\
    size (bt_plans b') <= Z.max budget (size (bt_plans b)) /\
    (bt_plans b = [] -> bt_seen b = [] -> 0 < budget -> bt_plans b' = [] ->
     Forall (fun path => p_proven path = false) paths /\ (bt_unproven b = true \/ paths <> [] -> bt_unproven b' = true)).
Proof.
  intros Hp. revert b. induction Hp as [|path paths [Hok Hplan] _ IH]; intros b Hb; simpl.
  { exists b. split; [done|]. split; [done|]. split; [lia|]. intros _ _ _ _. split; [constructor|]. intros [Hu|Hu]; [exact Hu|done]. }
  destruct (p_proven path) eqn:Ep; simpl.
  2: { destruct (IH (MkBuilt (bt_plans b) (bt_seen b) true)) as (b' & E & H1 & H2 & H3); [done|].
       exists b'. split; [done|]. split; [done|]. split; [done|]. intros Hb0 Hs0 Hbudget Hb'. destruct (H3 Hb0 Hs0 Hbudget Hb') as [HF Hu].
       split; [by constructor|]. intros _. apply Hu. by left. }
  destruct (Z.leb_spec budget (size (bt_plans b))) as [Hge|Hlt].
  { exists b. split; [done|]. split; [done|]. split; [lia|]. intros Hb0 _ Hbudget. rewrite Hb0 in Hge. unfold size in Hge. simpl in Hge. lia. }
  destruct (Hplan eq_refl) as (plan & Hc). pose proof Hc as (_ & _ & Hbuild & _).
  rewrite (StripCycles_simple t _ (q_destination r)) by apply Hok. rewrite Hbuild.
  destruct (existsb _ (bt_seen b)) eqn:Eseen.
  - destruct (IH b) as (b' & E & H1 & H2 & H3); [done|]. exists b'. split; [done|]. split; [done|]. split; [done|].
    intros _ Hs0. rewrite Hs0 in Eseen. done.
  - destruct (IH (MkBuilt (bt_plans b ++ [plan]) (DigestHex plan :: bt_seen b) (bt_unproven b))) as (b' & E & H1 & H2 & H3).
    + simpl. apply Forall_app. split; [done|]. constructor; [by exists path|done].
    + exists b'. split; [done|]. split; [done|]. simpl in H2. rewrite size_app1 in H2. split; [lia|].
      intros _ _ _ Hb'. exfalso. revert E. clear -Hb'.
      assert (forall ps c, bt_plans c <> [] -> forall c', build_paths t r budget ps c = Value c' -> bt_plans c' <> []) as Hkeep.
      { induction ps as [|q ps IHp]; intros c Hc c'; simpl; [by intros [= <-]|].
        destruct (p_proven q); simpl; [|by apply IHp]. destruct (budget <=? _); [by intros [= <-]|].
        destruct (BuildPlan _ _ _ _) as [pl|]; [|done]. destruct (existsb _ _); [by apply IHp|].
        apply IHp. simpl. by destruct (bt_plans c). }
      intros E. apply Hkeep in E; [done|]. simpl. by destruct (bt_plans b).
Qed.

(** ** The passes *)

Definition no_exclusions : Exclusions := MkExclusions [] [] [].

(** The request of the first search, and that search. *)
Definition first_request : PlanningRequest := if iterative r then tightened r no_exclusions else r.
Definition first_search : SearchOutcome := RunSearch t first_request options (cancelled 0%nat).

(** What an exhausted first search proves. *)
Definition no_route : Prop :=
  t_coverage_complete t = true /\ o_exhausted first_search = true /\
  st_truncated (o_statistics first_search) = false /\ o_paths first_search = [].

(** What every stage leaves alone until the result is published. *)
Record blank (result : PlanningResult) : Prop := {
  bl_candidates : rs_candidates result = [];
  bl_optimality : rs_optimality_proven result = false;
  bl_digests : rs_request_digest result = ComputeRequestDigest r /\ rs_snapshot_digest result = t_digest t;
}.

(** A search the caller cancelled. *)
Record cancelled_result (f : PlanningResult) : Prop := {
  cr_outcome : rs_outcome f = PlanOutcome.Cancelled;
  cr_blank : blank f;
  cr_sealed : sealed f;
  cr_requested : exists i n, cancelled i n = true;
}.

Record before (pass : nat) (p : Passes) : Prop := {
  be_candidates : blank (pa_result p);
  be_accepted : Forall candidate_ok (pa_accepted p) /\ length (pa_accepted p) = pass;
  be_first : pass = 0%nat -> pa_exclusions p = no_exclusions;
  be_optimum : (0 < pass)%nat -> iterative r = true /\ pa_first_optimum p = o_proved_optimum first_search;
  be_stops : pa_knowledge_gap p = false /\ pa_truncation p = false;
}.

Record after (p : Passes) : Prop := {
  af_candidates : blank (pa_result p);
  af_accepted : Forall candidate_ok (pa_accepted p) /\ size (pa_accepted p) <= max_candidates r;
  af_optimum : pa_accepted p <> [] -> pa_first_optimum p = o_proved_optimum first_search;
  af_empty : pa_accepted p = [] -> pa_knowledge_gap p = false -> pa_truncation p = false -> no_route;
}.

(** What a pass ends in. *)
Definition pass_end (pass : nat) (e : PassEnd) : Prop :=
  match e with
  | Return f => cancelled_result f
  | Break p => after p
  | Continue p => before (S pass) p /\ iterative r = true
  end.

Context (Hsource : is_Some (PortIndex t (q_source r))) (Hdestination : is_Some (PortIndex t (q_destination r))).
Context (Hcount : in_width 32 (max_candidates r)).

Lemma candidates_positive : 1 <= max_candidates r.
Proof. destruct Hcount. pose proof (valid_candidates _ V). lia. Qed.

Lemma build_budget_positive : 0 < build_budget r.
Proof. pose proof candidates_positive. unfold build_budget, kPlanBuildBudget. repeat case_match; lia. Qed.

Lemma iterative_candidates : iterative r = true -> 1 < max_candidates r.
Proof. unfold iterative. intros [_ E%Z.ltb_lt]%andb_true_iff. done. Qed.

Lemma nothing_built_fields unproven search p :
  let p' := nothing_built t unproven search p in
  (blank (pa_result p) -> blank (pa_result p')) /\ pa_accepted p' = pa_accepted p /\
  pa_first_optimum p' = pa_first_optimum p /\
  (pa_knowledge_gap p' = false -> pa_truncation p' = false ->
   unproven = false /\ st_truncated (o_statistics search) = false /\ o_exhausted search = true /\
   t_coverage_complete t = true).
Proof.
  unfold nothing_built. destruct unproven; simpl; [rewrite orb_true_r; by split_and!|].
  destruct (st_truncated _), (o_exhausted search); simpl; try (rewrite orb_true_r; by split_and!).
  destruct (t_coverage_complete t); simpl; [by split_and!|]. rewrite orb_true_r. split_and!; try done. by intros [].
Qed.

(** One search and what it builds. *)
Lemma search_pass_end pass working p :
  before pass p -> working = (if iterative r then tightened r (pa_exclusions p) else r) -> valid_request working ->
  (pass = 0%nat -> working = first_request) -> (Z.of_nat pass < max_candidates r) ->
  pass_end pass (search_pass options t r cancelled pass working p).
Proof.
  intros [Bc [Ba Bl] _ Bo [Bg Bt]] Hw Vw Hfirst Hpass. unfold search_pass. cbv zeta.
  assert (q_source working = q_source r /\ q_destination working = q_destination r) as [Es Ed].
  { rewrite Hw. destruct (iterative r); split; reflexivity. }
  pose proof (RunSearch_status t working options (cancelled pass)) as Hstatus. rewrite Es, Ed in Hstatus.
  specialize (Hstatus Hsource Hdestination). cbv zeta in Hstatus.
  assert (Forall pass_path (o_paths (RunSearch t working options (cancelled pass)))) as Hpaths.
  { apply searched_paths. rewrite Hw in Vw |- *. destruct (iterative r); [right; by eexists|by left]. }
  assert (pass = 0%nat -> RunSearch t working options (cancelled pass) = first_search) as Hsearch.
  { intros E. rewrite E, (Hfirst E). reflexivity. }
  generalize dependent (RunSearch t working options (cancelled pass)). intros search Hstatus Hpaths Hsearch.
  destruct (failed (o_status search)) eqn:Ef.
  { destruct Hstatus as [|(Hcode & _ & Hn)]; [done|]. rewrite Hcode. destruct Bc as [B1 B2 B3].
    split; [done|by split|done|by exists pass]. }
  destruct (build_paths_spec (build_budget r) (o_paths search) (MkBuilt [] [] false) Hpaths)
    as (b & -> & Hb & Hsize & Hnone); [constructor|].
  assert (sort_by PlanLess (bt_plans b) ≡ₚ bt_plans b) as Hperm by apply sort_by_perm.
  set (p1 := if (pass =? 0)%nat then _ else _).
  assert (blank (pa_result p1) /\ pa_accepted p1 = pa_accepted p /\ pa_knowledge_gap p1 = false /\
    pa_truncation p1 = false /\ pa_first_optimum p1 = o_proved_optimum first_search) as (E1 & E2 & E3 & E4 & E5).
  { unfold p1. destruct (Nat.eqb_spec pass 0) as [->|Hne]; simpl; split_and!; try done; try (by destruct Bc).
    - by rewrite Hsearch.
    - apply Bo. lia. }
  destruct (sort_by PlanLess (bt_plans b)) as [|best plans] eqn:Esort.
  - apply Permutation_nil in Hperm. destruct (nothing_built_fields (bt_unproven b) search p1) as (F1 & F2 & F3 & F4).
    split; rewrite ?F2, ?F3, ?E2; try done.
    + by apply F1.
    + split; [done|]. unfold size. lia.
    + intros Hnil Hg Ht. destruct (F4 Hg Ht) as (Hu & Htr & Hex & Hcov). rewrite Hnil in Bl. simpl in Bl. subst pass.
      unfold no_route. rewrite <- (Hsearch eq_refl). split_and!; try done.
      destruct (Hnone eq_refl eq_refl build_budget_positive Hperm) as [_ Hun].
      destruct (o_paths search); [done|]. rewrite Hun in Hu by (by right). done.
  - assert (Forall candidate_ok (best :: plans)) as Hok by (by rewrite Hperm).
    unfold accept_built. destruct (iterative r) eqn:Ei; simpl.
    + split; [|done]. apply Forall_cons in Hok as [Hbest _]. split; simpl; rewrite ?E2; try done.
      split; [apply Forall_app; split; [done|by constructor]|]. rewrite length_app. simpl. lia.
    + split; simpl; rewrite ?E2; try done.
      * split; [apply Forall_app; split; [done|by apply Forall_take]|].
        destruct pass; [|destruct (Bo ltac:(lia)); congruence].
        destruct (pa_accepted p); [|done]. unfold size. simpl. rewrite length_firstn. destruct Hcount. lia.
      * intros Hnil. apply app_nil in Hnil as [_ Hnil]. pose proof candidates_positive.
        destruct (Z.to_nat (max_candidates r)) eqn:En; [lia|done].
Qed.

Lemma first_request_eq pass p : before pass p -> pass = 0%nat -> iterative r = true ->
  tightened r (SortUnique (pa_exclusions p)) = first_request.
Proof. intros B Hp Hi. unfold first_request. by rewrite Hi, (be_first _ _ B Hp). Qed.

Lemma one_pass_end pass p :
  before pass p -> Z.of_nat pass < max_candidates r -> pass_end pass (one_pass options t r cancelled pass p).
Proof.
  intros B Hpass. unfold one_pass. destruct (iterative r) eqn:Ei.
  - cbv zeta. simpl. destruct (failed (Request_Validate (tightened r (SortUnique (pa_exclusions p))))) eqn:Ef.
    + destruct pass as [|pass].
      { rewrite (first_request_eq 0 p B eq_refl Ei) in Ef. unfold first_request, no_exclusions in Ef. rewrite Ei in Ef.
        by rewrite (proj2 (Request_Validate_ok _) (tightened_valid r V)) in Ef. }
      destruct B as [Bc [Ba Bl] _ Bo [Bg Bt]]. destruct (Bo ltac:(lia)) as [_ Hopt]. split; simpl; try done.
      * split; [done|]. unfold size. lia.
      * intros E. by rewrite E in Bl.
    + apply Request_Validate_ok in Ef. apply search_pass_end; simpl; try done.
      * by destruct B as [Bc [Ba Bl] Bx Bo [Bg Bt]]; split; simpl; try done; intros E; rewrite (Bx E).
      * by rewrite Ei.
      * intros E. by apply (first_request_eq pass p).
  - apply search_pass_end; try done; [by rewrite Ei|]. intros _. unfold first_request. by rewrite Ei.
Qed.

Lemma run_passes_end count pass p :
  before pass p -> Z.of_nat (pass + count) <= max_candidates r -> (0 < count + pass)%nat ->
  match run_passes options t r cancelled count pass p with
  | inl f => cancelled_result f
  | inr p' => after p'
  end.
Proof.
  revert pass p. induction count as [|count IH]; intros pass p B Hle Hpos; simpl.
  - destruct B as [Bc [Ba Bl] _ Bo [Bg Bt]]. destruct (Bo ltac:(lia)) as [_ Hopt]. split; try done.
    + split; [done|]. unfold size. lia.
    + intros E. rewrite E in Bl. simpl in Bl. lia.
  - pose proof (one_pass_end pass p B ltac:(lia)) as E. destruct (one_pass _ _ _ _ _ _) as [f|p'|p']; simpl in E.
    + done.
    + done.
    + apply IH; [apply E|lia|lia].
Qed.

Lemma run_passes_start :
  match run_passes options t r cancelled (pass_count r) 0 (start_passes (initial_result t r)) with
  | inl f => cancelled_result f
  | inr p => after p
  end.
Proof.
  pose proof candidates_positive. apply run_passes_end.
  - split; simpl; try done; intros; lia.
  - unfold pass_count. destruct (iterative r); simpl; lia.
  - unfold pass_count. destruct (iterative r); lia.
Qed.
End passes.

(** ** The stages before the search *)

Section results.
Context `{Platform, Hasher} (options : PlannerOptions) (t : TopologySnapshot) (r : PlanningRequest).
Context (cancelled : nat -> nat -> bool).
Abbreviation the_result := (Plan options t r cancelled).

(** The evidence is what the request insists on. *)
Record evidence_accepted : Prop := {
  ea_fresh : t_freshness t = EvidenceFreshness.Fresh \/ accept_restored_evidence r = true;
  ea_generation : forall g, required_snapshot_generation r = Some g -> g <= t_generation t;
  ea_digest : forall d, expected_snapshot_digest r = Some d -> d = t_digest t;
  ea_sources : forall id g, In (id, g) (required_source_generations r) ->
    HasSource t id = true /\ g <= SourceGeneration t id;
}.

(** A fixed grid carries single-slot channels only. *)
Definition grid_supported : Prop := grid (t_spectrum t) = GridKind.Fixed50GHz -> channel_width_slots r = 1.

Definition endpoints_present : Prop :=
  is_Some (FindPort t (q_source r)) /\ is_Some (FindPort t (q_destination r)).

(** Why the planner answers before it searches. *)
Inductive early_reason : PlanOutcome.t -> Prop :=
| early_invalid : failed (Request_Validate r) = true ->
    early_reason (if bool_decide (code (Request_Validate r) = StatusCode.Unsupported) then PlanOutcome.Unsupported
                  else PlanOutcome.Refused)
| early_stale : valid_request r -> ~ evidence_accepted -> early_reason PlanOutcome.Indeterminate
| early_grid : valid_request r -> evidence_accepted -> ~ grid_supported -> early_reason PlanOutcome.Unsupported
| early_endpoint : valid_request r -> evidence_accepted -> grid_supported -> ~ endpoints_present ->
    early_reason (if t_coverage_complete t then PlanOutcome.Infeasible else PlanOutcome.Indeterminate).

Definition early_answer (f : PlanningResult) : Prop := early_reason (rs_outcome f) /\ blank t r f /\ sealed f.

Lemma conclude_answer o s bits ws result :
  early_reason o -> blank t r result -> early_answer (conclude o s bits ws result).
Proof. intros He [B1 B2 B3]. split; [exact He|]. split; [by split|]. apply Result_Seal_sealed. Qed.

(** A stage that answers INDETERMINATE unless [c] holds. *)
Definition stale_unless (c : Prop) (answer : option PlanningResult) (result : PlanningResult) : Prop :=
  match answer with
  | Some f => ~ c /\ exists s bits ws, f = conclude PlanOutcome.Indeterminate s bits ws result
  | None => c
  end.

Lemma check_freshness_spec result :
  stale_unless (t_freshness t = EvidenceFreshness.Fresh \/ accept_restored_evidence r = true) (check_freshness t r result)
    result.
Proof.
  unfold check_freshness, stale_unless. case_bool_decide as Hf; simpl; [by left|].
  destruct (accept_restored_evidence r); simpl; [by right|]. split; [by intros [?|?]|]. by eexists _, _, _.
Qed.

Lemma check_generation_spec result :
  stale_unless (forall g, required_snapshot_generation r = Some g -> g <= t_generation t) (check_generation t r result) result.
Proof.
  unfold check_generation, stale_unless. destruct (required_snapshot_generation r) as [g|]; [|done].
  destruct (Z.ltb_spec (t_generation t) g); [|by intros ? [= <-]]. split; [|by eexists _, _, _].
  intros Hg. specialize (Hg g eq_refl). lia.
Qed.

Lemma check_digest_spec result :
  stale_unless (forall d, expected_snapshot_digest r = Some d -> d = t_digest t) (check_digest t r result) result.
Proof.
  unfold check_digest, stale_unless, digest_eqb. destruct (expected_snapshot_digest r) as [d|]; [|done].
  case_bool_decide as Hd; simpl; [by intros ? [= <-]|]. split; [|by eexists _, _, _]. intros E. by apply Hd, E.
Qed.

Lemma check_sources_spec entries result :
  stale_unless (forall id g, In (id, g) entries -> HasSource t id = true /\ g <= SourceGeneration t id)
    (check_sources t entries result) result.
Proof.
  unfold stale_unless. induction entries as [|[id g] entries IH]; simpl; [done|].
  destruct (HasSource t id) eqn:Eh; simpl; [destruct (Z.ltb_spec (SourceGeneration t id) g)|].
  - split; [|by eexists _, _, _]. intros Hall. destruct (Hall id g (or_introl eq_refl)). lia.
  - destruct (check_sources t entries result) as [f|].
    + destruct IH as [Hn Hf]. split; [|done]. intros Hall. apply Hn. intros id' g' Hin. apply Hall. by right.
    + intros id' g' [[= <- <-]|Hin]; [done|by apply IH].
  - split; [|by eexists _, _, _]. intros Hall. destruct (Hall id g (or_introl eq_refl)). congruence.
Qed.

Lemma stale_stage c answer result (next : option PlanningResult) (Q : Prop) :
  stale_unless c answer result -> valid_request r -> blank t r result -> (~ c -> ~ evidence_accepted) ->
  (c -> match next with Some f => early_answer f | None => Q end) ->
  match match answer with Some f => Some f | None => next end with Some f => early_answer f | None => Q end.
Proof.
  unfold stale_unless. intros Hs V B Hc Hnext. destruct answer as [f|]; [|by apply Hnext].
  destruct Hs as (Hn & s & bits & ws & ->). apply conclude_answer; [|done]. constructor; [done|]. by apply Hc.
Qed.

Lemma admission_spec result : blank t r result ->
  match admission t r result with
  | Some f => early_answer f
  | None => valid_request r /\ evidence_accepted /\ grid_supported /\ endpoints_present
  end.
Proof.
  intros B. unfold admission. cbv zeta. unfold check_request. cbv zeta.
  destruct (failed (Request_Validate r)) eqn:Ev; [apply conclude_answer; [by constructor|done]|].
  apply Request_Validate_ok in Ev as V.
  eapply stale_stage; [apply check_freshness_spec|done..|by intros ? []|]. intros Hf.
  eapply stale_stage; [apply check_generation_spec|done..|by intros ? []|]. intros Hg.
  eapply stale_stage; [apply check_digest_spec|done..|by intros ? []|]. intros Hd.
  eapply stale_stage; [apply check_sources_spec|done..|by intros ? []|]. intros Hs.
  assert evidence_accepted as A by by split.
  unfold check_grid. case_bool_decide as Hgrid; simpl.
  1: destruct (Z.eqb_spec (channel_width_slots r) 1) as [Hw|Hw]; simpl.
  2: { apply conclude_answer; [|done]. constructor; [done|done|]. intros Hx. by apply Hw, Hx. }
  all: assert grid_supported as G by (by intros ?).
  all: unfold check_endpoints; cbv zeta.
  all: assert (blank t r (put_cuts (rs_cuts result ++ [MkCutCount
    (if bool_decide (is_Some (FindPort t (q_source r))) then CutReason.DestinationAbsent else CutReason.SourceAbsent) 1]) result))
    as B' by (destruct B; by split).
  all: destruct (negb _ || negb _) eqn:Ee.
  all: try (rewrite orb_false_iff, !negb_false_iff, !bool_decide_eq_true in Ee; done).
  all: assert (~ endpoints_present) as Hends by
    (intros []; rewrite !bool_decide_eq_true_2 in Ee by done; done).
  all: pose proof (early_endpoint V A G Hends) as Hr; destruct (t_coverage_complete t); by apply conclude_answer.
Qed.

Lemma initial_blank : blank t r (initial_result t r).
Proof. by split. Qed.

(** ** How a result comes about *)

Lemma classify_outcome p : after options t r cancelled p ->
  rs_outcome (classify t r p) =
    (match pa_accepted p with
     | _ :: _ => PlanOutcome.Feasible
     | [] => if pa_knowledge_gap p || pa_truncation p then PlanOutcome.Indeterminate else PlanOutcome.Infeasible
     end) /\
  rs_candidates (classify t r p) = pa_accepted p /\ sealed (classify t r p) /\
  (rs_optimality_proven (classify t r p) = true ->
   pa_accepted p <> [] /\ t_coverage_complete t = true /\ o_proved_optimum (first_search options t r cancelled) = true) /\
  rs_request_digest (classify t r p) = ComputeRequestDigest r /\ rs_snapshot_digest (classify t r p) = t_digest t.
Proof.
  intros [[B1 B2 [B3 B4]] _ Ho _]. unfold classify. cbv zeta. destruct (pa_accepted p) as [|best rest] eqn:Ea.
  - destruct (pa_knowledge_gap p), (pa_truncation p); simpl; (split; [done|]); (split; [done|]);
      (split; [apply Result_Seal_sealed|]); (split; [|done]); rewrite ?B2; done.
  - split; [done|]. split; [done|]. split; [apply Result_Seal_sealed|]. split; [|done]. simpl.
    intros [E1 E2]%andb_true_iff. rewrite Ho in E1 by done. done.
Qed.

Inductive comes_about : PlanningResult -> Prop :=
| answered_early f : early_answer f -> comes_about f
| answered_cancelled f : valid_request r -> evidence_accepted -> grid_supported -> endpoints_present ->
    cancelled_result t r cancelled f -> comes_about f
| answered_searched p : valid_request r -> evidence_accepted -> grid_supported -> endpoints_present ->
    after options t r cancelled p -> comes_about (classify t r p).

Context (W : wf_snapshot t) (I : identified t) (Hcount : in_width 32 (max_candidates r)).

Lemma Plan_comes_about : comes_about the_result.
Proof.
  unfold Plan. pose proof (admission_spec _ initial_blank) as Ha. destruct (admission _ _ _) as [f|]; [by constructor|].
  destruct Ha as (V & A & G & [[p Hp] [q Hq]]).
  assert (forall k x, FindPort t k = Some x -> is_Some (PortIndex t k)) as Hindex.
  { unfold FindPort. intros k x. by destruct (PortIndex t k). }
  pose proof (run_passes_start options t r cancelled W I V ltac:(by eapply Hindex) ltac:(by eapply Hindex) Hcount) as Hr.
  assert endpoints_present by by split.
  destruct (run_passes _ _ _ _ _ _ _) as [f|p']; [by apply answered_cancelled|by apply answered_searched].
Qed.
(** Every candidate is the plan of a proven path. *)
Lemma candidates_ok (plan : PlanArtifact) : In plan (rs_candidates the_result) -> candidate_ok options t r cancelled plan /\ valid_request r.
Proof.
  intros Hin. destruct Plan_comes_about as [f (_ & [Hnil _ _] & _)|f V _ _ _ [_ [Hnil _ _] _ _]|p V A G E Ha].
  1,2: by rewrite Hnil in Hin.
  destruct (classify_outcome p Ha) as (_ & Hc & _). rewrite Hc in Hin. destruct Ha as [_ [Hok _] _ _].
  rewrite List.Forall_forall in Hok. split; [by apply Hok|done].
Qed.

(** ** Theorems *)

(** C1: every candidate is the sealed plan of a proven route.  A candidate the
    planner publishes is what [BuildPlan] makes of a walk from source to
    destination that stands on no port twice, is admitted by every exclusion
    and option of the request, rests on published evidence only, keeps the hop,
    regeneration, cost and failure-domain limits, and costs the price of that
    walk; it is bound to the digests of this request and this snapshot, and its
    seal verifies. *)
Theorem plan_candidates_sound (plan : PlanArtifact) :
  In plan (rs_candidates the_result) ->
  exists arcs, BuildPlan t r (ComputeRequestDigest r) arcs = Value plan /\
    walk t (q_source r) arcs (q_destination r) /\ List.NoDup (ports_of t (q_source r) arcs) /\
    port_admitted t r (q_source r) /\ Forall (arc_admitted t r) arcs /\
    Forall (arc_published t) arcs /\ Forall (port_published t) (ports_of t (q_source r) arcs) /\
    1 <= size arcs <= max_hops r /\ regeneration_count t arcs <= Z.max 0 (max_regenerations r) /\
    (forall ceiling, max_total_cost r = Some ceiling -> route_price t (q_source r) arcs <= ceiling) /\
    (forall domain limit, In (domain, limit) (max_members_per_failure_domain (constraints r)) ->
       members_on_route t (q_source r) arcs domain <= limit) /\
    pl_total_cost plan = wrap64 (route_price t (q_source r) arcs) /\
    pl_request_digest plan = ComputeRequestDigest r /\ pl_snapshot_digest plan = t_digest t /\
    VerifySeal plan = OkStatus.
Proof.
  intros [(path & Hpath & Hp & Hb & _) V]%candidates_ok. exists (p_arcs path).
  pose proof Hpath as [Pw Ps [Ph1 Ph2] Pso Pa [Pr1 Pr2] Ppr Pce Pme Ppu]. destruct (Ppu Hp) as [Pu1 Pu2].
  destruct (built_totals t r _ _ plan (valid_ends _ V) Pw Hb) as (Hcost & _ & _ & Hseal).
  pose proof Hb as (w0 & w & _ & _ & _ & Hsw)%BuildPlan_inv. apply seal_walk_inv in Hsw as (_&_&_&_&_&_&_&_&_&_&_&Hd).
  injection Hd as _ _ Hsd Hrd _. rewrite Pr1 in Pr2. rewrite Ph1 in Ph2. destruct Ph2. rewrite Ppr in Pce. by split_and!.
Qed.

Lemma plan_sealed : sealed the_result.
Proof.
  destruct Plan_comes_about as [f (He & B & S)|f _ _ _ _ [Ho B S _]|p V A G E Ha]; [done..|].
  by destruct (classify_outcome p Ha) as (_ & _ & Hs & _).
Qed.

(** C4: feasible means candidates.  The planner answers FEASIBLE exactly when it
    publishes a candidate, never publishes more than the request allows, seals
    its result over the digests of the request and the snapshot, and claims
    optimality only for a feasible answer, on a snapshot of complete coverage,
    when the first search proved its optimum. *)
Theorem plan_outcome_spec :
  (rs_outcome the_result = PlanOutcome.Feasible <-> rs_candidates the_result <> []) /\
  size (rs_candidates the_result) <= Z.max 0 (max_candidates r) /\
  sealed the_result /\ rs_request_digest the_result = ComputeRequestDigest r /\ rs_snapshot_digest the_result = t_digest t /\
  (rs_optimality_proven the_result = true ->
   rs_outcome the_result = PlanOutcome.Feasible /\ t_coverage_complete t = true /\
   o_proved_optimum (first_search options t r cancelled) = true).
Proof.
  assert (forall f, rs_outcome f <> PlanOutcome.Feasible -> blank t r f -> sealed f ->
    (rs_outcome f = PlanOutcome.Feasible <-> rs_candidates f <> []) /\
    size (rs_candidates f) <= Z.max 0 (max_candidates r) /\
    sealed f /\ rs_request_digest f = ComputeRequestDigest r /\ rs_snapshot_digest f = t_digest t /\
    (rs_optimality_proven f = true ->
     rs_outcome f = PlanOutcome.Feasible /\ t_coverage_complete t = true /\
     o_proved_optimum (first_search options t r cancelled) = true)) as Hblank.
  { intros f Hf [B1 B2 [B3 B4]] Hs. rewrite B1. split; [done|]. split; [unfold size; simpl; lia|].
    split; [done|]. split; [done|]. split; [done|]. by rewrite B2. }
  destruct Plan_comes_about as [f (He & B & S)|f _ _ _ _ [Ho B S _]|p V A G E Ha].
  - apply Hblank; [|done|done]. destruct He as [Hv| | |]; try done; [by case_bool_decide|by destruct (t_coverage_complete t)].
  - apply Hblank; [by rewrite Ho|done|done].
  - destruct (classify_outcome p Ha) as (Ho & -> & Hs & Hopt & Hd1 & Hd2). rewrite Ho.
    destruct Ha as [_ [_ Hsize] _ _]. split; [|split; [lia|]].
    + destruct (pa_accepted p); [|done]. by destruct (_ || _).
    + split; [done|]. split; [done|]. split; [done|]. intros Hp. destruct (Hopt Hp) as (Hne & Hcov & Hpr).
      split; [|done]. by destruct (pa_accepted p).
Qed.

(** C3: infeasible is a proof of absence within the search.  The planner answers
    INFEASIBLE only on a snapshot of complete coverage, for a valid request
    whose demands on the evidence are met, and only when an endpoint has no
    record, or the first search, run over the request's own constraints, ended
    with its frontier empty, was not cut short by a budget, and found no path,
    proven or not. *)
Theorem plan_infeasible_sound :
  rs_outcome the_result = PlanOutcome.Infeasible ->
  t_coverage_complete t = true /\ valid_request r /\ evidence_accepted /\ rs_candidates the_result = [] /\
  (~ endpoints_present \/
   (o_exhausted (first_search options t r cancelled) = true /\
    st_truncated (o_statistics (first_search options t r cancelled)) = false /\
    o_paths (first_search options t r cancelled) = [])).
Proof.
  destruct Plan_comes_about as [f (He & [B1 _ _] & S)|f _ _ _ _ [Ho B S _]|p V A G E Ha].
  - destruct He as [Hv| | |V A G E]; try done; [by case_bool_decide|]. destruct (t_coverage_complete t); [|done].
    intros _. split; [done|]. split; [done|]. split; [done|]. split; [done|]. by left.
  - by rewrite Ho.
  - destruct (classify_outcome p Ha) as (-> & -> & _). destruct Ha as [_ _ _ Hnone].
    destruct (pa_accepted p); [|done]. destruct (pa_knowledge_gap p), (pa_truncation p); try done. simpl. intros _.
    destruct (Hnone eq_refl eq_refl eq_refl) as (Hc & Hx & Ht & Hp). split; [done|]. split; [done|]. split; [done|].
    split; [done|]. by right.
Qed.

(** C5: the other outcomes name their reasons, and one of them comes later than it is
    documented to.  REFUSED is answered for a request that fails validation and
    for nothing else (a search or a plan never fails inside the planner);
    UNSUPPORTED for a request that asks for semantics that are not modelled, or
    for a wide channel on a fixed grid; CANCELLED only after a read of the cancel
    token answered true, and without a candidate; and a valid request whose
    demands on the evidence are not met (freshness, generation, digest, sources)
    is INDETERMINATE without a candidate.  README.md and planner.hpp list the
    capability surface before the freshness of the evidence; the code looks at
    the grid last, so where both apply the answer is not the documented
    UNSUPPORTED: the last part states this divergence. *)
Theorem plan_error_outcomes :
  (rs_outcome the_result = PlanOutcome.Refused <->
   failed (Request_Validate r) = true /\ code (Request_Validate r) <> StatusCode.Unsupported) /\
  (rs_outcome the_result = PlanOutcome.Unsupported <->
   (failed (Request_Validate r) = true /\ code (Request_Validate r) = StatusCode.Unsupported) \/
   (valid_request r /\ evidence_accepted /\ ~ grid_supported)) /\
  (rs_outcome the_result = PlanOutcome.Cancelled ->
   rs_candidates the_result = [] /\ exists pass n, cancelled pass n = true) /\
  (valid_request r -> ~ evidence_accepted ->
   rs_outcome the_result = PlanOutcome.Indeterminate /\ rs_candidates the_result = []) /\
  (valid_request r -> ~ grid_supported -> ~ evidence_accepted -> rs_outcome the_result <> PlanOutcome.Unsupported).
Proof.
  assert (valid_request r -> failed (Request_Validate r) = false) as Hvalid by apply Request_Validate_ok.
  destruct Plan_comes_about as [f (He & [B1 _ _] & S)|f V A G _ [Ho [B1 _ _] S Hr]|p V A G E Ha].
  - rewrite B1. inversion He as [Hv Hout|V A Hout|V A G Hout|V A G E Hout].
    + assert (~ valid_request r) by (intros V; rewrite Hvalid in Hv; done).
      case_bool_decide as Hc; split_and!; naive_solver.
    + split_and!; naive_solver congruence.
    + split_and!; naive_solver congruence.
    + destruct (t_coverage_complete t); split_and!; naive_solver congruence.
  - rewrite Ho, B1. split_and!; naive_solver congruence.
  - destruct (classify_outcome p Ha) as (-> & _).
    assert (forall o, (match pa_accepted p with
     | _ :: _ => PlanOutcome.Feasible
     | [] => if pa_knowledge_gap p || pa_truncation p then PlanOutcome.Indeterminate else PlanOutcome.Infeasible
     end) = o -> o <> PlanOutcome.Refused /\ o <> PlanOutcome.Unsupported /\ o <> PlanOutcome.Cancelled) as Hno.
    { intros o <-. destruct (pa_accepted p); [|done]. by destruct (_ || _). }
    specialize (Hno _ eq_refl). split_and!; naive_solver congruence.
Qed.
End results.

(** ** Witnesses *)

#[local] Existing Instance Sample.toy_hasher.

Section witnesses.
Import Net.

Definition never_twice : nat -> nat -> bool := fun _ _ => false.
Abbreviation row_result := (Plan default_options row request never_twice).

Lemma request_count : in_width 32 (max_candidates request).
Proof. by vm_compute. Qed.

Lemma row_outcome : rs_outcome row_result = PlanOutcome.Feasible.
Proof. by vm_compute. Qed.

Lemma plan_candidates_sound_witness :
  exists plan rest, rs_candidates row_result = plan :: rest /\ VerifySeal plan = OkStatus /\
    exists arcs, walk row (q_source request) arcs (q_destination request) /\
      pl_total_cost plan = wrap64 (route_price row (q_source request) arcs).
Proof.
  destruct (rs_candidates row_result) as [|plan rest] eqn:E; [by vm_compute in E|]. exists plan, rest. split; [reflexivity|].
  destruct (plan_candidates_sound default_options row request never_twice row_wf row_identified request_count plan)
    as (arcs & _ & Hw & _ & _ & _ & _ & _ & _ & _ & _ & _ & Hc & _ & _ & Hs).
  - rewrite E. by left.
  - split; [exact Hs|]. exists arcs. by split.
Defined.

Lemma plan_outcome_spec_witness : rs_candidates row_result <> [] /\ sealed row_result.
Proof.
  destruct (plan_outcome_spec default_options row request never_twice row_wf row_identified request_count)
    as (Hf & _ & Hs & _). split; [apply Hf, row_outcome|exact Hs].
Defined.

(** The row without a port for the destination. *)
Definition unended : PlanningRequest :=
  default_request (MkId "r") (MkPortKey (MkId "A") (MkId "1")) (MkPortKey (MkId "Z") (MkId "9")).

Lemma unended_count : in_width 32 (max_candidates unended).
Proof. by vm_compute. Qed.

Lemma plan_infeasible_sound_witness :
  rs_outcome (Plan default_options row unended never_twice) = PlanOutcome.Infeasible /\ t_coverage_complete row = true.
Proof.
  assert (rs_outcome (Plan default_options row unended never_twice) = PlanOutcome.Infeasible) as E by (by vm_compute).
  split; [exact E|].
  destruct (plan_infeasible_sound default_options row unended never_twice row_wf row_identified unended_count E) as [Hc _].
  exact Hc.
Defined.

(** A request from a port to itself. *)
Definition unmoved : PlanningRequest :=
  default_request (MkId "r") (MkPortKey (MkId "A") (MkId "1")) (MkPortKey (MkId "A") (MkId "1")).

Lemma unmoved_count : in_width 32 (max_candidates unmoved).
Proof. by vm_compute. Qed.

Lemma unmoved_invalid : failed (Request_Validate unmoved) = true /\ code (Request_Validate unmoved) <> StatusCode.Unsupported.
Proof. split; by vm_compute. Qed.

(** A wide channel on the fixed grid of the row, with and without a demand for a
    newer snapshot than there is. *)
Definition wide (minimum : option Generation) : PlanningRequest :=
  MkRequest kRequestFormatVersion (MkId "r") (q_source request) (q_destination request) 2 1 0 5 None Disjointness.None
    default_constraints [] minimum None false 50 60.

Lemma wide_count minimum : in_width 32 (max_candidates (wide minimum)).
Proof. by vm_compute. Qed.

Lemma wide_valid minimum : valid_request (wide minimum).
Proof. apply Request_Validate_ok. by vm_compute. Qed.

Lemma wide_unsupported minimum : ~ grid_supported row (wide minimum).
Proof. intros Hg. specialize (Hg ltac:(by vm_compute)). by vm_compute in Hg. Qed.

Lemma wide_stale : ~ evidence_accepted row (wide (Some 1000)).
Proof. intros [_ Hg _ _]. specialize (Hg 1000 eq_refl). by vm_compute in Hg. Qed.

Lemma wide_accepted : evidence_accepted row (wide None).
Proof. split; [left; by vm_compute|done|done|intros ? ? []]. Qed.

Lemma plan_error_outcomes_witness :
  rs_outcome (Plan default_options row unmoved never_twice) = PlanOutcome.Refused /\
  rs_outcome (Plan default_options row (wide None) never_twice) = PlanOutcome.Unsupported /\
  rs_outcome (Plan default_options row (wide (Some 1000)) never_twice) = PlanOutcome.Indeterminate.
Proof.
  split; [|split].
  - destruct (plan_error_outcomes default_options row unmoved never_twice row_wf row_identified unmoved_count) as ([_ Hr] & _).
    exact (Hr unmoved_invalid).
  - destruct (plan_error_outcomes default_options row (wide None) never_twice row_wf row_identified (wide_count None))
      as (_ & [_ Hu] & _).
    apply Hu. right. exact (conj (wide_valid None) (conj wide_accepted (wide_unsupported None))).
  - destruct (plan_error_outcomes default_options row (wide (Some 1000)) never_twice row_wf row_identified
      (wide_count (Some 1000))) as (_ & _ & _ & Hs & _).
    exact (proj1 (Hs (wide_valid (Some 1000)) wide_stale)).
Defined.
End witnesses.
