(* ===== verification/Disjoint.v ===== *)
(** * Disjoint: what a disjointness request keeps apart

    [ExtendExclusions] and the passes of [Planner.Plan]: how each pass excludes
    the resources of the candidates accepted before it, and what that does and
    does not keep apart. *)

From S2P Require Import Prelude Status Ids Doubles Spectrum Sha256 Canonical Topology SnapshotText Builder Request Outcome.
From S2P Require Import SearchFacts SearchArcs Search Route Plan Result PlanBuild PlanFacts PlanSteps Planner PlannerFacts.

(** ** Pairs of a sequence *)

Lemma ordered_pairs_snoc {A} (R : A -> A -> Prop) l x :
  ForallOrdPairs R l -> Forall (fun a => R a x) l -> ForallOrdPairs R (l ++ [x]).
Proof.
  induction 1 as [|a l Ha _ IH]; simpl; [by repeat constructor|]. intros [Hx Hl]%Forall_cons.
  constructor; [apply Forall_app; split; [exact Ha|by repeat constructor]|by apply IH].
Qed.

Lemma ordered_pairs_impl {A} (R S : A -> A -> Prop) l :
  (forall a b, R a b -> S a b) -> ForallOrdPairs R l -> ForallOrdPairs S l.
Proof. intros HRS. induction 1; constructor; [eapply Forall_impl; eauto|done]. Qed.

Lemma ordered_pairs_short {A} (R : A -> A -> Prop) (l : list A) : (length l <= 1)%nat -> ForallOrdPairs R l.
Proof. destruct l as [|a [|b l]]; simpl; intros; [constructor|repeat constructor|lia]. Qed.

(** ** Exclusions grow *)

Record excludes_more (x y : Exclusions) : Prop := {
  em_nodes : incl (ex_nodes x) (ex_nodes y);
  em_spans : incl (ex_spans x) (ex_spans y);
  em_domains : incl (ex_domains x) (ex_domains y);
}.

Lemma excludes_more_refl x : excludes_more x x.
Proof. split; apply incl_refl. Qed.

Lemma excludes_more_trans x y z : excludes_more x y -> excludes_more y z -> excludes_more x z.
Proof. intros [] []. split; eapply incl_tran; eauto. Qed.

Lemma SortUnique_more x : excludes_more x (SortUnique x).
Proof. split; intros y Hy; simpl; by apply sort_unique_in. Qed.

Lemma ExtendExclusions_more p d x : excludes_more x (ExtendExclusions p d x).
Proof. destruct d; split; intros y Hy; simpl; rewrite ?in_app_iff; auto. Qed.

Lemma ExtendExclusions_covers p d x : excludes_more (ExtendExclusions p d no_exclusions) (ExtendExclusions p d x).
Proof. destruct d; split; intros y Hy; simpl in *; rewrite ?in_app_iff; auto; done. Qed.

(** ** The candidates of the passes *)

Section passes.
Context `{Platform, Hasher} (options : PlannerOptions) (t : TopologySnapshot) (r : PlanningRequest).
Context (cancelled : nat -> nat -> bool).
Context (W : wf_snapshot t).

(** [plan] is what a proven path gives, found under the exclusions [x]. *)
Definition found_without (x : Exclusions) (plan : PlanArtifact) : Prop :=
  exists path, path_ok t (tightened r x) path /\ p_proven path = true /\
    BuildPlan t r (ComputeRequestDigest r) (p_arcs path) = Value plan.

(** [b] was found with everything excluded that [a] adds. *)
Definition apart (a b : PlanArtifact) : Prop :=
  (exists x, found_without x a) /\
  exists x, excludes_more (ExtendExclusions a (q_disjointness r) no_exclusions) x /\ found_without x b.

Record kept_apart (p : Passes) : Prop := {
  ka_found : Forall (fun a => exists x, found_without x a) (pa_accepted p);
  ka_covered : Forall (fun a => excludes_more (ExtendExclusions a (q_disjointness r) no_exclusions) (pa_exclusions p))
                 (pa_accepted p);
  ka_apart : ForallOrdPairs apart (pa_accepted p);
}.

Lemma build_paths_from budget paths b b' :
  build_paths t r budget paths b = Value b' ->
  Forall (fun plan => In plan (bt_plans b) \/ exists path, In path paths /\ p_proven path = true /\
    BuildPlan t r (ComputeRequestDigest r) (StripCycles t (q_source r) (p_arcs path)) = Value plan) (bt_plans b').
Proof.
  revert b. induction paths as [|path paths IH]; intros b; simpl.
  { intros [= <-]. apply List.Forall_forall. auto. }
  assert (forall b1, (forall plan, In plan (bt_plans b1) -> In plan (bt_plans b) \/
      p_proven path = true /\ BuildPlan t r (ComputeRequestDigest r) (StripCycles t (q_source r) (p_arcs path)) = Value plan) ->
    build_paths t r budget paths b1 = Value b' ->
    Forall (fun plan => In plan (bt_plans b) \/ exists q, (path = q \/ In q paths) /\ p_proven q = true /\
      BuildPlan t r (ComputeRequestDigest r) (StripCycles t (q_source r) (p_arcs q)) = Value plan) (bt_plans b')) as Hstep.
  { intros b1 Hb1 E. eapply Forall_impl; [exact (IH b1 E)|]. intros plan [Hin|(q & Hq & Hrest)]; simpl.
    - destruct (Hb1 plan Hin) as [?|?]; [by left|right; exists path; split; [by left|done]].
    - right. exists q. split; [by right|done]. }
  destruct (p_proven path); simpl; [|apply Hstep; auto].
  destruct (budget <=? _). { intros [= <-]. apply List.Forall_forall. auto. }
  destruct (BuildPlan t r _ _) as [plan|] eqn:Eb; [|done]. destruct (existsb _ _); apply Hstep; [auto|].
  simpl. intros q [Hq|[<-|[]]]%in_app_or; [by left|by right].
Qed.

Lemma accepted_put p x : pa_accepted (put_exclusions x p) = pa_accepted p.
Proof. done. Qed.

Lemma nothing_built_accepted unproven search p : pa_accepted (nothing_built t unproven search p) = pa_accepted p.
Proof. unfold nothing_built. repeat case_match; done. Qed.

(** A pass of an iterative request. *)
Lemma one_pass_iterative pass p :
  iterative r = true ->
  match one_pass options t r cancelled pass p with
  | Return _ => True
  | Break p' => pa_accepted p' = pa_accepted p
  | Continue p' => exists plan, found_without (SortUnique (pa_exclusions p)) plan /\
      pa_accepted p' = pa_accepted p ++ [plan] /\
      pa_exclusions p' = ExtendExclusions plan (q_disjointness r) (SortUnique (pa_exclusions p))
  end.
Proof.
  intros Hi. unfold one_pass. rewrite Hi. cbv zeta. cbn [pa_exclusions put_exclusions].
  set (x := SortUnique (pa_exclusions p)). destruct (failed (Request_Validate (tightened r x))) eqn:Ev; [done|].
  apply Request_Validate_ok in Ev. unfold search_pass. cbv zeta.
  assert (Forall (path_ok t (tightened r x)) (o_paths (RunSearch t (tightened r x) options (cancelled pass)))) as Hok.
  { apply List.Forall_forall. intros path. by apply RunSearch_path_ok. }
  generalize dependent (RunSearch t (tightened r x) options (cancelled pass)). intros search Hok.
  destruct (failed (o_status search)); [done|].
  set (p1 := if (pass =? 0)%nat then _ else _).
  assert (pa_accepted p1 = pa_accepted p /\ pa_exclusions p1 = x) as [E1 E2] by (unfold p1; by destruct (pass =? 0)%nat).
  destruct (build_paths _ _ _ _ _) as [b|] eqn:Eb; [|done]. apply build_paths_from in Eb.
  assert (sort_by PlanLess (bt_plans b) ≡ₚ bt_plans b) as Hperm by apply sort_by_perm. rewrite <- Hperm in Eb.
  destruct (sort_by PlanLess (bt_plans b)) as [|best rest]; [by rewrite nothing_built_accepted|].
  unfold accept_built. rewrite Hi. cbn [pa_accepted pa_exclusions accept put_exclusions]. rewrite E1, E2.
  exists best. split; [|done]. apply Forall_cons in Eb as [[[]|(path & Hin & Hp & Hb)] _].
  rewrite List.Forall_forall in Hok. specialize (Hok path Hin). exists path. split; [exact Hok|]. split; [exact Hp|].
  by rewrite (StripCycles_simple t _ (q_destination r)) in Hb by apply Hok.
Qed.

Lemma run_passes_apart count pass p :
  iterative r = true -> kept_apart p ->
  match run_passes options t r cancelled count pass p with
  | inl _ => True
  | inr p' => ForallOrdPairs apart (pa_accepted p')
  end.
Proof.
  intros Hi. revert pass p. induction count as [|count IH]; intros pass p [Kf Kc Ka]; simpl; [done|].
  pose proof (one_pass_iterative pass p Hi) as E. destruct (one_pass _ _ _ _ _ _) as [f|p'|p']; [done|by rewrite E|].
  destruct E as (plan & Hplan & Ea & Ex). apply IH. split; rewrite ?Ea, ?Ex.
  - apply Forall_app. split; [done|]. constructor; [by eexists|done].
  - apply Forall_app. split; [|constructor; [apply ExtendExclusions_covers|done]]. eapply Forall_impl; [exact Kc|].
    intros a Ha. eapply excludes_more_trans; [exact Ha|]. eapply excludes_more_trans; [apply SortUnique_more|].
    apply ExtendExclusions_more.
  - apply ordered_pairs_snoc; [done|]. apply List.Forall_forall. intros a Hin. rewrite List.Forall_forall in Kf, Kc.
    split; [by apply Kf|]. eexists. split; [|exact Hplan].
    eapply excludes_more_trans; [by apply Kc|apply SortUnique_more].
Qed.

(** ** Marks of a candidate *)

Lemma plan_step_marked x plan s :
  found_without x plan -> In s (pl_steps plan) ->
  exists path, path_ok t (tightened r x) path /\ p_proven path = true /\
    BuildPlan t r (ComputeRequestDigest r) (p_arcs path) = Value plan /\
    In (mark_of s) (plan_marks t (q_source r) (q_destination r) (p_arcs path)).
Proof.
  intros (path & Hok & Hp & Hb) Hin. exists path. split; [done|]. split; [done|]. split; [done|].
  destruct (BuildPlan_marks t r _ _ _ (po_walk _ _ _ Hok) Hb) as [<- _]. by apply in_map.
Qed.

(** A step about a span is about one that is not excluded. *)
Lemma span_step x plan s :
  found_without x plan -> In s (pl_steps plan) -> kind (ps_resource s) = ResourceKind.Span ->
  exists sp, In sp (t_spans t) /\ ps_resource s = ForSpan (s_id sp) /\ ~ In (s_id sp) (ex_spans x).
Proof.
  intros Hf Hin Hk. destruct (plan_step_marked x plan s Hf Hin) as (path & Hok & _ & _ & Hm).
  apply plan_marked_span in Hm as (a & sp & Ha & Hka & Hs & Hres); [|done]. exists sp.
  split; [by eapply list_elem_of_In, list_elem_of_lookup_2|]. split; [exact Hres|].
  pose proof (po_admitted _ _ _ Hok) as Had. rewrite List.Forall_forall in Had. destruct (Had a Ha) as [Hadm _].
  rewrite Hka in Hadm. destruct Hadm as (sp' & Hs' & _ & Hx & _). rewrite Hs in Hs'. injection Hs' as <-.
  intros Hex. apply Hx, in_or_app. by right.
Qed.

(** The node of the source is a step of every candidate. *)
Lemma source_step x plan :
  found_without x plan -> exists s, In s (pl_steps plan) /\ ps_resource s = ForNode (node (q_source r)).
Proof.
  intros (path & Hok & Hp & Hb). destruct (po_published _ _ _ Hok Hp) as [_ [Hsource _]%Forall_cons].
  destruct Hsource as (_ & _ & n & _ & _ & Hn & _). change (q_source (tightened r x)) with (q_source r) in Hn.
  destruct (BuildPlan_marks t r _ _ _ (po_walk _ _ _ Hok) Hb) as [Hm _].
  assert (In (StepKind.Node, ForNode (node (q_source r))) (map mark_of (pl_steps plan))) as Hin.
  { rewrite Hm. apply end_marks_incl, in_or_app. left. right. unfold node_mark. rewrite Hn.
    apply FindNode_some in Hn as [-> _]. by left. }
  apply in_map_iff in Hin as (s & E & Hs). exists s. split; [exact Hs|]. by injection E.
Qed.

(** ** The candidates of a disjoint request *)

Context (I : identified t) (Hcount : in_width 32 (max_candidates r)).
Abbreviation the_candidates := (rs_candidates (Plan options t r cancelled)).

Lemma candidates_apart : q_disjointness r <> Disjointness.None -> ForallOrdPairs apart the_candidates.
Proof.
  intros Hd. unfold Plan. pose proof (admission_spec t r _ (initial_blank t r)) as Ha.
  destruct (admission _ _ _) as [f|]; [destruct Ha as (_ & [Hnil _ _] & _); rewrite Hnil; constructor|].
  destruct Ha as (V & _ & _ & [[p Hp] [q Hq]]).
  assert (forall k x, FindPort t k = Some x -> is_Some (PortIndex t k)) as Hindex.
  { unfold FindPort. intros k x. by destruct (PortIndex t k). }
  pose proof (run_passes_start options t r cancelled W I V ltac:(by eapply Hindex) ltac:(by eapply Hindex) Hcount) as Hr.
  destruct (iterative r) eqn:Ei.
  - pose proof (run_passes_apart (pass_count r) 0 (start_passes (initial_result t r)) Ei) as Hx.
    destruct (run_passes _ _ _ _ _ _ _) as [f|p'].
    + destruct Hr as [_ [Hnil _ _] _ _]. rewrite Hnil. constructor.
    + destruct (classify_outcome options t r cancelled p' Hr) as (_ & -> & _). apply Hx. by repeat constructor.
  - assert (max_candidates r <= 1) as Hle.
    { unfold iterative in Ei. rewrite bool_decide_eq_false_2 in Ei by done. simpl in Ei. by apply Z.ltb_ge. }
    apply ordered_pairs_short. destruct (run_passes _ _ _ _ _ _ _) as [f|p'].
    + destruct Hr as [_ [-> _ _] _ _]. simpl. lia.
    + destruct (classify_outcome options t r cancelled p' Hr) as (_ & -> & _). destruct Hr as [_ [_ Hsize] _ _].
      unfold size in Hsize. lia.
Qed.

(** C6: span-disjoint candidates share no span.  When a request asks for
    span-disjoint candidates and the spans of the snapshot have well-formed
    identities, no step of one candidate is about a span that a step of another
    is about. *)
Theorem plan_span_disjoint :
  q_disjointness r = Disjointness.Span -> Forall (fun sp => IsValidIdText (str (s_id sp)) = true) (t_spans t) ->
  ForallOrdPairs (fun a b => forall s s', In s (pl_steps a) -> In s' (pl_steps b) ->
    kind (ps_resource s) = ResourceKind.Span -> ps_resource s <> ps_resource s') the_candidates.
Proof.
  intros Hd Hv. eapply ordered_pairs_impl; [|by apply candidates_apart; rewrite Hd].
  intros a b [[xa Ha] (x & [_ Hx _] & Hb)] s s' Hs Hs' Hk Heq. rewrite Hd in Hx. simpl in Hx.
  destruct (span_step xa a s Ha Hs Hk) as (sp & Hsp & Hres & _).
  destruct (span_step x b s' Hb Hs') as (sp' & _ & Hres' & Hnot); [by rewrite <- Heq|].
  apply Hnot, Hx, (in_concat_map step_spans _ s); [done|]. unfold step_spans. rewrite Hk, Hres.
  rewrite List.Forall_forall in Hv. simpl. rewrite id_Parse_str by auto. left.
  rewrite Heq, Hres' in Hres. unfold ForSpan in Hres. injection Hres as E. destruct (s_id sp), (s_id sp'); simpl in *. congruence.
Qed.

(** Node-disjointness never yields an alternative.  The resources of an
    accepted candidate include the node it starts from, which every other
    candidate starts from as well, so a request for node-disjoint candidates
    gets at most one whatever the snapshot offers. *)
Theorem plan_node_disjoint_single :
  q_disjointness r = Disjointness.Node -> IsValidIdText (str (node (q_source r))) = true ->
  size the_candidates <= 1.
Proof.
  intros Hd Hv. pose proof (candidates_apart ltac:(by rewrite Hd)) as Hap.
  destruct the_candidates as [|a [|b rest]]; [unfold size; simpl; lia..|]. exfalso.
  inversion_clear Hap as [|? ? Hall _]. apply Forall_cons in Hall as [[[xa Ha] (x & [Hx _ _] & Hb)] _].
  rewrite Hd in Hx. simpl in Hx. destruct (source_step xa a Ha) as (s & Hs & Hres).
  destruct Hb as (path & Hok & _). destruct (po_source _ _ _ Hok) as (_ & _ & Hnot).
  apply Hnot, in_or_app. right. apply Hx, (in_concat_map step_nodes _ s); [done|]. unfold step_nodes. rewrite Hres. simpl.
  rewrite id_Parse_str by done. by left.
Qed.

(** Domain-disjoint candidates use no arc of an exposed domain.  When a
    request asks for candidates of disjoint failure domains, no span and no
    cross-connect of a later candidate belongs to a domain an earlier one is
    exposed to. *)
Theorem plan_domain_disjoint_arcs :
  q_disjointness r = Disjointness.FailureDomain ->
  ForallOrdPairs (fun a b => exists arcs, BuildPlan t r (ComputeRequestDigest r) arcs = Value b /\
    Forall (fun arc => disjoint_from (arc_failure_domains t arc) (map fx_id (pl_exposure a))) arcs) the_candidates.
Proof.
  intros Hd. eapply ordered_pairs_impl; [|by apply candidates_apart; rewrite Hd].
  intros a b [_ (x & [_ _ Hx] & (path & Hok & _ & Hb))]. rewrite Hd in Hx. simpl in Hx. exists (p_arcs path). split; [exact Hb|].
  eapply Forall_impl; [exact (po_admitted _ _ _ Hok)|]. intros arc [Harc _] d Hin Hex. unfold arc_failure_domains in Hin.
  destruct (a_kind arc).
  - destruct Harc as (sp & Hs & _ & _ & Hf & _). rewrite Hs in Hin. apply (Hf d Hin), in_or_app. right. by apply Hx.
  - destruct Harc as (y & Hy & _ & _ & Hf & _). rewrite Hy in Hin. apply (Hf d Hin), in_or_app. right. by apply Hx.
Qed.
End passes.

(** ** Witnesses *)

Module Fork.
Import Sample.
#[local] Existing Instance toy_hasher.

Definition office (n : string) : NodeRecord :=
  MkNode (MkId n) NodeKind.Terminal [MkId "office"] 1 Coverage.Complete up src 3.

(** Two spans lead from A to B; node A stands in an office. *)
Definition fork : TopologySnapshot :=
  snapshot_of (builder [office "A"; node_named "B"] [port_of "A" "1"; port_of "B" "1"]
    [Corner.span_with "p" "A" "B" 1 []; Corner.span_with "q" "A" "B" 5 []] []).
Definition asking (d : Disjointness.t) : PlanningRequest :=
  MkRequest kRequestFormatVersion (MkId "r1") (Corner.end_port "A") (Corner.end_port "B") 1 2 0 5 None d
    default_constraints [] None None false 50 60.

Definition spans_of (result : PlanningResult) : list (list string) :=
  map (fun plan => map (fun v => text (rv_resource v)) (pl_reservations plan)) (rs_candidates result).
Definition exposures_of (result : PlanningResult) : list (list string) :=
  map (fun plan => map (fun x => str (fx_id x)) (pl_exposure plan)) (rs_candidates result).
Abbreviation answer d := (Plan default_options fork (asking d) never_twice).

Lemma fork_wf : wf_snapshot fork.
Proof.
  assert (Build (builder [office "A"; node_named "B"] [port_of "A" "1"; port_of "B" "1"]
    [Corner.span_with "p" "A" "B" 1 []; Corner.span_with "q" "A" "B" 5 []] []) =
    (Value fork, snd (Build (builder [office "A"; node_named "B"] [port_of "A" "1"; port_of "B" "1"]
    [Corner.span_with "p" "A" "B" 1 []; Corner.span_with "q" "A" "B" 5 []] [])))) as E by (by vm_compute).
  exact (Build_wf _ _ _ E).
Qed.

Lemma fork_identified : identified fork.
Proof. split; vm_compute; by repeat (constructor; [done|]). Qed.

Lemma fork_ids : Forall (fun sp => IsValidIdText (str (s_id sp)) = true) (t_spans fork).
Proof. vm_compute. by repeat (constructor; [done|]). Qed.
End Fork.

Section witnesses.
Import Fork.
#[local] Existing Instance Sample.toy_hasher.

(** A failure domain of a node is shared all the same.  The excluded domains
    are compared to those of the source port, of spans and of cross-connects, but
    not to those of nodes nor of the other ports of a route: a request for two candidates of disjoint
    failure domains is answered FEASIBLE with one route published twice, exposed
    both times to the domain of its source node. *)
Theorem domain_disjointness_leaks :
  rs_outcome (answer Disjointness.FailureDomain) = PlanOutcome.Feasible /\
  spans_of (answer Disjointness.FailureDomain) = [["p"]; ["p"]] /\
  exposures_of (answer Disjointness.FailureDomain) = [["office"]; ["office"]].
Proof. split_and!; by vm_compute. Qed.

Lemma plan_span_disjoint_witness :
  spans_of (answer Disjointness.Span) = [["p"]; ["q"]] /\
  ForallOrdPairs (fun a b => forall s s', In s (pl_steps a) -> In s' (pl_steps b) ->
    kind (ps_resource s) = ResourceKind.Span -> ps_resource s <> ps_resource s') (rs_candidates (answer Disjointness.Span)).
Proof.
  split; [by vm_compute|].
  refine (plan_span_disjoint default_options fork (asking Disjointness.Span) never_twice fork_wf fork_identified _
    eq_refl fork_ids). by vm_compute.
Defined.

Lemma plan_node_disjoint_single_witness :
  spans_of (answer Disjointness.Node) = [["p"]] /\ size (rs_candidates (answer Disjointness.Node)) <= 1.
Proof.
  split; [by vm_compute|].
  refine (plan_node_disjoint_single default_options fork (asking Disjointness.Node) never_twice fork_wf fork_identified _
    eq_refl eq_refl). by vm_compute.
Defined.

Lemma plan_domain_disjoint_arcs_witness :
  ForallOrdPairs (fun a b => exists arcs,
    BuildPlan fork (asking Disjointness.FailureDomain) (ComputeRequestDigest (asking Disjointness.FailureDomain)) arcs =
      Value b /\
    Forall (fun arc => disjoint_from (arc_failure_domains fork arc) (map fx_id (pl_exposure a))) arcs)
    (rs_candidates (answer Disjointness.FailureDomain)).
Proof.
  refine (plan_domain_disjoint_arcs default_options fork (asking Disjointness.FailureDomain) never_twice fork_wf
    fork_identified _ eq_refl). by vm_compute.
Defined.
End witnesses.
