(* ===== verification/Reach.v ===== *)
(** * Reach: the segments of a plan stay within their reach

    The search accumulates distance, span count, loss and OSNR along a
    transparent segment and compares them, hop by hop, with the reach profile
    the segment started with and with the ceilings of the request.  The theorem
    of this file carries that to the segments [BuildPlan] writes. *)

From S2P Require Import Prelude Status Ids Doubles Spectrum Sha256 Canonical Topology SnapshotText Builder Request.
From S2P Require Import Outcome SearchFacts SearchArcs Search Route Plan Result PlanBuild PlanFacts PlanSteps Planner PlannerFacts.

Section reach.
Context `{Platform} (t : TopologySnapshot) (r : PlanningRequest).

Definition at_most (ceiling : Evidence Z) (n : Z) : Prop := forall c, ceiling = Known c -> n <= c.
Definition within_limit (ceiling : option Z) (n : Z) : Prop := forall c, ceiling = Some c -> n <= c.

(** The OSNR a segment must keep: what its profile publishes, or the floor of
    the request when that is higher. *)
Definition osnr_needed (minimum : double) : double :=
  match min_segment_osnr_db (constraints r) with Some f => dmax minimum f | None => minimum end.

(** The totals of a segment respect a published profile and the request. *)
Record segment_within (s : PlanSegment) : Prop := {
  sw_profile : exists rp minimum,
    FindReachProfile t (sg_profile s) = Some rp /\ r_min_osnr_db rp = Known minimum /\
    at_most (r_max_span_count rp) (sg_span_count s) /\ at_most (r_max_distance_m rp) (sg_distance_m s) /\
    (forall c, r_max_loss_db rp = Known c -> dgt (sg_loss_db s) (dadd c epsilon9) = false) /\
    dlt (dadd (InverseToOsnr (total_inverse (sg_spans s))) epsilon9) (osnr_needed minimum) = false;
  sw_distance : within_limit (max_total_distance_m (constraints r)) (sg_distance_m s);
  sw_span_count : within_limit (max_total_span_count (constraints r)) (sg_span_count s);
  sw_loss : forall c, max_total_loss_db (constraints r) = Some c -> dgt (sg_loss_db s) (dadd c epsilon9) = false;
}.

Definition reaches (s : PlanSegment) : Prop := sg_spans s = [] \/ segment_within s.

Abbreviation e := (make_env t r).
Abbreviation within_label l :=
  (within_reach e (l_profile l) (segment_of l) /\ within_ceilings e (segment_of l) /\ reach_published e (l_profile l)).

(** The walk stands in the segment of the label. *)
Record tracks (l : Label) (arcs : list ArcRef) (w : Walk) (closed : list PlanSegment) (open : option PlanSegment) : Prop := {
  tr_split : split_segments t arcs w closed open;
  tr_totals : bw_distance w = l_distance_m l /\ bw_span_count w = l_span_count l /\ bw_loss w = l_loss_db l /\
    bw_osnr_inverse w = l_osnr_inverse l;
  tr_distance : 0 <= l_distance_m l;
  tr_profile : forall p, l_profile l = Some p -> exists rp, t_profiles t !! p = Some rp /\ r_id rp = bw_profile w;
  tr_open : open_spans open = [] \/ within_label l;
  tr_closed : Forall reaches closed;
}.

Lemma above_published (ceiling : Evidence Z) n : above Z.leb n (published ceiling) = false -> at_most ceiling n.
Proof. unfold above. intros E c ->. simpl in E. by apply negb_false_iff, Z.leb_le in E. Qed.

Lemma above_limit (ceiling : option Z) n : above Z.leb n ceiling = false -> within_limit ceiling n.
Proof. unfold above. intros E c ->. by apply negb_false_iff, Z.leb_le in E. Qed.

Lemma profile_info_eq p rp : t_profiles t !! p = Some rp -> profile_info e p = profile_facts rp.
Proof.
  intros Hp. unfold profile_info, at_or. simpl. by rewrite list_lookup_fmap, Hp.
Qed.

Context (W : wf_snapshot t).

(** A segment closed where the label stands. *)
Lemma close_reaches l arcs w closed open s regeneration :
  tracks l arcs w closed open -> sg_spans s = open_spans open -> reaches (close_segment w regeneration s).
Proof.
  intros [Sp (Td & Tc & Tl & To) _ Tp Topen _] Hs. unfold reaches. simpl. rewrite Hs.
  destruct Topen as [E|(Hreach & Hceil & p & Ep & Hmin)]; [by left|right].
  destruct (Tp p Ep) as (rp & Hrp & Hid). rewrite (profile_info_eq p rp Hrp) in Hmin. simpl in Hmin.
  destruct (r_min_osnr_db rp) as [minimum| |] eqn:Emin; try by destruct Hmin. rewrite Ep in Hreach.
  destruct Hreach as (R1 & R2 & R3 & R4). rewrite (profile_info_eq p rp Hrp) in R1, R2, R3. simpl in R1, R2, R3.
  unfold osnr_floor in R4. rewrite (profile_info_eq p rp Hrp) in R4. simpl in R4. rewrite Emin in R4. simpl in R4.
  specialize (R4 _ eq_refl). destruct Hceil as (C1 & C2 & C3). simpl in C1, C2, C3.
  destruct Sp as [_ _ _ _ _ _ (_ & _ & _ & Tinv) _]. change (match open with Some s => sg_spans s | None => [] end) with (open_spans open) in Tinv.
  split.
  - exists rp, minimum. simpl. rewrite Td, Tc, Tl, Hs, <- Tinv, To. split.
    { unfold FindReachProfile. rewrite <- Hid. by rewrite (find_by_key_complete r_id (r_id rp) (t_profiles t) p rp (wf_profiles _ W) Hrp eq_refl). }
    split; [done|]. split; [by apply above_published|]. split; [by apply above_published|]. split; [|exact R4].
    intros c Ec. rewrite Ec in R3. exact R3.
  - simpl. rewrite Td. by apply above_limit.
  - simpl. rewrite Tc. by apply above_limit.
  - simpl. rewrite Tl. intros c Ec. unfold loss_above in C3. change (constraints (e_request e)) with (constraints r) in C3.
    by rewrite Ec in C3.
Qed.
(** ** The hops of a route *)

(** The lengths of the spans are unsigned. *)
Context (Hlengths : forall s n, In s (t_spans t) -> s_length_m s = Known n -> 0 <= n).

Lemma AddCheckedU64_wrap a b s : 0 <= a -> 0 <= b -> AddCheckedU64 a b = Some s -> wrap64 (a + b) = s /\ 0 <= s.
Proof.
  intros Ha Hb. unfold AddCheckedU64. destruct (Z.ltb_spec (u64_max - b) a) as [|Hle]; [done|]. intros [= <-].
  split; [|lia]. apply wrap_small. unfold u64_max in *. width_lia.
Qed.

Lemma start_tracks l w : start_ok e l -> start_walk t r = Value w -> tracks l [] w [] None.
Proof.
  intros Hs Hw. destruct Hs as [_ _ Hi Hz _ _ Hpr _ _ _]. destruct Hz as (_ & _ & Hc & Hd & Hl & Ho).
  change (e_snapshot e) with t in Hi. change (q_source (e_request e)) with (q_source r) in Hi.
  apply start_walk_inv in Hw as (p & profile & blocked & Hp & Htx & _ & Hprofile & _ & _ & _ & Hsegs & Hindex & _ & Wd & Wl & Wo & Wc & _).
  split.
  - split; try done; by rewrite ?Hsegs, ?Hindex.
  - by rewrite Wd, Wl, Wo, Wc, Hc, Hd, Hl, Ho.
  - by rewrite Hd.
  - unfold FindPort in Hp. rewrite Hi in Hp. simpl in Hp. rewrite Hpr, (port_info_eq _ _ _ _ Hp). unfold port_facts. simpl.
    rewrite Htx, Hprofile. intros q Hq%find_by_key_some. done.
  - by left.
  - done.
Qed.

Lemma span_tracks current l arc arcs w w' closed open :
  span_hop e current arc l -> tracks current arcs w closed open ->
  build_arc t r (l_arc l) w = Value w' -> l_proven l = true ->
  exists open', tracks l (arcs ++ [l_arc l]) w' closed open'.
Proof.
  intros Hh [Sp (Td & Tc & Tl & To) Tw Tp _ Tcl] Hb Hproven.
  destruct (sh_segment _ _ _ _ Hh) as (distance & Hdist & Hseg). pose proof (sh_reach _ _ _ _ Hh) as Hreach.
  pose proof (sh_ceilings _ _ _ _ Hh) as Hceil. destruct (sh_proven _ _ _ _ Hh Hproven) as (Hpub & _ & _ & _ & Hrp).
  rewrite (sh_arc _ _ _ _ Hh) in *. unfold build_arc in Hb. simpl in Hb.
  destruct (build_span_split t r _ _ _ _ _ _ _ Sp Hb) as (s' & Sp'). exists (Some s').
  apply build_span_inv in Hb as (s & p & length_m & loss & osnr & blocked & pb & slot & Hs & El & Eo & En & _ & _ & _ & _ & _ & ->).
  match goal with |- context [after_span t r ?s ?p ?rv ?a1 ?a2 ?a3 ?a4 ?a5 ?a6] =>
    destruct (after_span_moved t r s p rv a1 a2 a3 a4 a5 a6) as (M & Fd & Fl & Fo & Fc) end.
  rewrite (span_info_eq _ _ _ _ Hs) in Hdist, Hseg. unfold span_distance in Hdist. simpl in Hdist. rewrite El in Hdist. simpl in Hdist.
  unfold span_loss, span_osnr_inverse in Hseg. simpl in Hseg. rewrite Eo, En in Hseg. simpl in Hseg.
  assert (l_profile l = l_profile current) as Eprofile by (by injection Hseg).
  apply AddCheckedU64_wrap in Hdist as [Hsum Hge];
    [|exact Tw|by apply (Hlengths s); [eapply list_elem_of_In, list_elem_of_lookup_2|]].
  injection Hseg as _ _ E1 E2 E3 E4 _. split; [exact Sp'| |by rewrite E1| |right; by rewrite Eprofile|exact Tcl].
  - rewrite Fd, Fl, Fo, Fc, E1, E2, E3, E4. simpl. by rewrite Td, Tl, To, Tc.
  - rewrite Eprofile, (mv_profile _ _ _ _ _ _ _ M). exact Tp.
Qed.

(** What an operation does to the totals and the profile. *)
Lemma build_op_totals x p w reasons w' :
  build_op t r x p w = Value (reasons, w') ->
  if bool_decide (x_op x = CrossConnectOp.Regenerate) then
    bw_distance w' = 0 /\ bw_span_count w' = 0 /\ bw_loss w' = d0 /\ bw_osnr_inverse w' = d0 /\
    p_transmit_profile p = Known (Some (bw_profile w'))
  else
    bw_distance w' = bw_distance w /\ bw_span_count w' = bw_span_count w /\ bw_loss w' = bw_loss w /\
    bw_osnr_inverse w' = bw_osnr_inverse w /\ bw_profile w' = bw_profile w.
Proof.
  unfold build_op, take_channel. destruct (x_op x); cbv zeta; intros E.
  - destruct (LowestSetBit _); [|done]. by injection E as <- <-.
  - destruct (LowestSetBit _); [|done]. by injection E as <- <-.
  - destruct (ensure_segment_put w) as [l Hl]. rewrite Hl in E.
    destruct (p_transmit_profile p) as [[profile|]| |]; try done. by injection E as <- <-.
Qed.

Lemma cross_connect_tracks current l x arcs w w' closed open :
  cross_connect_hop e current x l -> tracks current arcs w closed open -> size closed < u32_max ->
  build_arc t r (l_arc l) w = Value w' ->
  exists closed' open', tracks l (arcs ++ [l_arc l]) w' closed' open' /\ size closed' <= size closed + 1.
Proof.
  intros Hh T Hsize Hb. pose proof T as [Sp (Td & Tc & Tl & To) Tw Tp Topen Tcl].
  pose proof (xh_op _ _ _ _ Hh) as Hop. pose proof (xh_to _ _ _ _ Hh) as Hto. rewrite (xh_arc _ _ _ _ Hh) in *.
  unfold build_arc in Hb. simpl in Hb.
  destruct (build_cross_connect_split t r _ _ false _ _ _ _ Sp Hsize Hb) as (closed' & open' & xc & Hx & Sp' & Hcl).
  exists closed', open'. split; [|by eapply closes_size].
  apply build_cross_connect_inv in Hb as (xc' & p & blocked & pb & reasons & w1 & Hx' & _ & _ & Hp & _ & Ho & ->).
  rewrite Hx in Hx'. injection Hx' as <-.
  destruct (after_cross_connect_moved t xc p pb reasons w1) as (M & F1 & F2 & F3 & F4 & _).
  rewrite (cross_connect_record_eq _ _ _ _ Hx) in Hop. apply build_op_totals in Ho. unfold closes in Hcl.
  destruct (x_op xc) eqn:Eop; simpl in Hop, Ho, Hcl.
  3: { destruct Hop as (_ & _ & _ & Hg & _). injection Hg as _ Epr E1 E2 E3 E4 _. destruct Ho as (O1 & O2 & O3 & O4 & O5).
       destruct Hcl as (-> & s & Hs & ->). split; [exact Sp'| |by rewrite E1| |by left|].
       - by rewrite F1, F2, F3, F4, O1, O2, O3, O4, E1, E2, E3, E4.
       - rewrite Epr, (mv_profile _ _ _ _ _ _ _ M). rewrite (cross_connect_info_eq _ _ _ _ Hx) in Hto. simpl in Hto.
         unfold FindPort in Hp. rewrite Hto in Hp. simpl in Hp. rewrite (port_info_eq _ _ _ _ Hp). unfold port_facts. simpl.
         rewrite O5. intros q Hq%find_by_key_some. done.
       - constructor; [by eapply close_reaches|done]. }
  2: destruct Hop as [_ Hop].
  all: injection Hop as _ Epr E1 E2 E3 E4 E5; destruct Ho as (O1 & O2 & O3 & O4 & O5); destruct Hcl as [-> ->].
  all: split; [exact Sp'|by rewrite F1, F2, F3, F4, O1, O2, O3, O4, E1, E2, E3, E4|by rewrite E1| | |exact Tcl].
  all: try (by rewrite Epr, (mv_profile _ _ _ _ _ _ _ M), O5).
  all: rewrite Epr; unfold segment_of in *; rewrite Epr, E1, E2, E3, E4, E5; exact Topen.
Qed.
(** ** Along a route *)

Context (V : valid_request r).

Lemma route_arc_count l rest : Route e (l :: rest) -> size (rev (arcs_back (l :: rest))) = size rest.
Proof.
  unfold size. rewrite length_rev. revert l. induction rest as [|current rest IH]; intros l Hr; inversion Hr as [? Hs|? ? ? Hr1 Hst]; subst.
  - cbn [arcs_back]. by rewrite (so_is_start _ _ Hs).
  - change (arcs_back (l :: current :: rest)) with (if l_is_start l then [] else l_arc l :: arcs_back (current :: rest)).
    rewrite (route_step_not_start t r _ _ Hst). specialize (IH _ Hr1). simpl length in *. lia.
Qed.

Lemma Route_tracks l rest w0 w :
  Route e (l :: rest) -> l_proven l = true -> size rest <= u32_max ->
  start_walk t r = Value w0 -> build_arcs t r (rev (arcs_back (l :: rest))) w0 = Value w ->
  exists closed open, tracks l (rev (arcs_back (l :: rest))) w closed open /\ size closed <= size rest.
Proof.
  revert l w. induction rest as [|current rest IH]; intros l w Hr Hp Hsize Hw0; inversion Hr as [? Hs|? ? ? Hr1 Hst Hni Hm]; subst.
  - cbn [arcs_back]. rewrite (so_is_start _ _ Hs). intros [= <-]. exists [], None. split; [by apply start_tracks|done].
  - pose proof (rf_indexed _ _ _ _ (Route_facts t r W V _ _ Hr1)) as Hi. inversion Hi as [|? ? Hi0 _]; subst.
    pose proof (route_step_facts t r W _ _ Hi0 Hst) as Hf. pose proof (route_step_not_start t r _ _ Hst) as Hns.
    destruct (hf_proven _ _ _ _ Hf Hp) as (Hpc & _ & _). change (arcs_back (l :: current :: rest)) with
      (if l_is_start l then [] else l_arc l :: arcs_back (current :: rest)). rewrite Hns. cbn [rev].
    rewrite build_arcs_app. destruct (build_arcs t r (rev (arcs_back (current :: rest))) w0) as [w1|] eqn:E1; [|done].
    assert (size (current :: rest) = size rest + 1) as Hsz by (unfold size; simpl; lia).
    destruct (IH current w1 Hr1 Hpc ltac:(lia) Hw0 E1) as (closed & open & T & Hc).
    cbn [build_arcs]. destruct (build_arc t r (l_arc l) w1) as [w2|] eqn:E2; [|done]. intros [= <-]. rewrite Hsz.
    destruct Hst as [x Hin Hh|arc Hin Hh].
    + destruct (cross_connect_tracks _ _ _ _ _ _ _ _ Hh T ltac:(lia) E2) as (c & o & T' & Hc'). exists c, o. split; [done|lia].
    + destruct (span_tracks _ _ _ _ _ _ _ _ Hh T E2 Hp) as (o & T'). exists closed, o. split; [done|lia].
Qed.

Lemma path_segments_reach `{Hasher} options cancelled path digest plan :
  In path (o_paths (RunSearch t r options cancelled)) -> p_proven path = true ->
  BuildPlan t r digest (p_arcs path) = Value plan -> Forall reaches (pl_segments plan).
Proof.
  intros (l & rest & Hfound)%RunSearch_found Hp Hb; [|done..]. destruct Hfound as [Hr Hd Ha Hc Hh Hg Hpr].
  pose proof (Route_facts t r W V _ _ Hr) as F. rewrite Hpr in Hp. destruct (rf_hops _ _ _ _ F) as [Eh Lh].
  apply BuildPlan_inv in Hb as (w0 & w & Hw0 & Hw & _ & Hseal). rewrite Ha in Hw.
  assert (size rest <= u32_max) as Hsize.
  { pose proof (valid_hops _ V). unfold kMaxRequestedHops, u32_max in *. rewrite Eh, (route_arc_count _ _ Hr) in Lh. lia. }
  destruct (Route_tracks l rest w0 w Hr Hp Hsize Hw0 Hw) as (closed & open & T & _).
  apply seal_walk_inv in Hseal as (_ & _ & _ & _ & _ & -> & _).
  destruct (ensure_segment_split t _ _ _ _ (tr_split _ _ _ _ _ T)) as (s & _ & Hs & E).
  rewrite (finish_segments r w s closed E). apply Forall_rev. constructor; [by eapply close_reaches|apply T].
Qed.
End reach.

(** ** Theorem *)

Section candidates.
Context `{Platform, Hasher} (options : PlannerOptions) (t : TopologySnapshot) (r : PlanningRequest).
Context (cancelled : nat -> nat -> bool).
Context (W : wf_snapshot t) (I : identified t) (Hcount : in_width 32 (max_candidates r)).

(** C2: every segment of a candidate is within its reach.  The transparent
    segments of a plan the planner publishes either carry no span, or start with
    a published reach profile whose minimum OSNR is published, and their span
    count, distance, loss (to 1e-9 dB) and OSNR (to 1e-9 dB) respect every
    published field of that profile and the ceilings and the OSNR floor of the
    request. *)
Theorem plan_segments_reach (plan : PlanArtifact) :
  (forall s n, In s (t_spans t) -> s_length_m s = Known n -> 0 <= n) ->
  In plan (rs_candidates (Planner.Plan options t r cancelled)) -> Forall (reaches t r) (pl_segments plan).
Proof.
  intros Hlengths [(path & _ & Hp & Hb & working & pass & Hw & Hin) V]%candidates_ok; [|done..].
  destruct Hw as [->|(x & -> & Vx)].
  - by eapply path_segments_reach.
  - rewrite <- (BuildPlan_tightened t r x) in Hb.
    pose proof (path_segments_reach t (tightened r x) W Hlengths Vx options (cancelled pass) path _ plan Hin Hp Hb) as Hr.
    eapply Forall_impl; [exact Hr|].
    intros s [Hs|[]]; [by left|right; by split].
Qed.
End candidates.

(** ** Witness *)

Section witness.
Import Sample Net.
#[local] Existing Instance toy_hasher.

Lemma row_lengths s n : In s (t_spans row) -> s_length_m s = Known n -> 0 <= n.
Proof. intros Hs. vm_compute in Hs. repeat (destruct Hs as [<-|Hs]); try destruct Hs; by intros [= <-]. Qed.

(** The segments of the candidates of the row: one, over both spans. *)
Lemma row_segments :
  map (fun plan => map (fun s => map (fun u => str (su_id u)) (sg_spans s)) (pl_segments plan))
    (rs_candidates (Planner.Plan default_options row request never_twice)) = [[["s1"; "s2"]]].
Proof. by vm_compute. Qed.

Lemma plan_segments_reach_witness :
  exists plan rest, rs_candidates (Planner.Plan default_options row request never_twice) = plan :: rest /\
    Forall (reaches row request) (pl_segments plan).
Proof.
  destruct (rs_candidates (Planner.Plan default_options row request never_twice)) as [|plan rest] eqn:E; [by vm_compute in E|].
  exists plan, rest. split; [reflexivity|].
  apply (plan_segments_reach default_options row request never_twice row_wf row_identified request_count plan row_lengths).
  rewrite E. by left.
Defined.
End witness.
