(* ===== verification/Revalidate.v ===== *)
(** * Revalidate: a plan just built passes its own validation

    [RevalidatePlan] of a plan of a proven path, against the snapshot it was
    built on: what it needs to pass, and where it and the search disagree. *)

From S2P Require Import Prelude Status Ids Doubles Spectrum Sha256 Canonical Topology SnapshotText Builder Request Outcome.
From S2P Require Import SearchFacts SearchArcs Search Route Plan Result PlanBuild PlanFacts PlanSteps Planner PlannerFacts.
From S2P Require Import Validate ValidateFacts.

(** The identities of a snapshot read back from the text of a plan, and name one
    record each. *)
Record well_named (t : TopologySnapshot) : Prop := {
  wn_ports : forall p, In p (t_ports t) ->
    IsValidIdText (str (node (p_key p))) = true /\ IsValidIdText (str (port (p_key p))) = true /\
    ~ In ":"%char (chars (str (node (p_key p))));
  wn_spans : forall s, In s (t_spans t) -> IsValidIdText (str (s_id s)) = true;
  wn_cross_connects : forall x, In x (t_cross_connects t) -> IsValidIdText (str (x_id x)) = true;
  wn_distinct : List.NoDup (map s_id (t_spans t)) /\ List.NoDup (map x_id (t_cross_connects t));
}.

Lemma find_distinct {A K} `{EqDecision K} (key : A -> K) (l : list A) (i : nat) (x : A) :
  List.NoDup (map key l) -> l !! i = Some x -> List.find (fun y => bool_decide (key y = key x)) l = Some x.
Proof.
  revert i. induction l as [|y l IH]; intros i Hd Hi; [done|]. inversion Hd as [|? ? Hn Hd']; subst. simpl.
  destruct i as [|i]; simpl in Hi; [injection Hi as <-; by rewrite bool_decide_eq_true_2|].
  rewrite bool_decide_eq_false_2; [by eapply IH|]. intros E. apply Hn. rewrite E. apply in_map.
  by eapply list_elem_of_In, list_elem_of_lookup_2.
Qed.

Lemma distinct_same {A K} (key : A -> K) (l : list A) (x y : A) :
  List.NoDup (map key l) -> In x l -> In y l -> key x = key y -> x = y.
Proof.
  induction l as [|z l IH]; simpl; [done|]. intros Hd Hx Hy E. inversion Hd as [|? ? Hn Hd']; subst.
  destruct Hx as [->|Hx], Hy as [->|Hy]; [done|..|by apply IH]; exfalso; apply Hn.
  - rewrite E. by apply in_map.
  - rewrite <- E. by apply in_map.
Qed.

Section fresh.
Context `{Platform, Hasher} (t : TopologySnapshot) (r : PlanningRequest) (policy : ValidationPolicy).
Context (W : wf_snapshot t) (N : well_named t).
Context (Hslots : 0 <= slot_count (t_spectrum t) <= kMaxSpectrumSlots) (Hwidth : 0 <= channel_width_slots r).
Context (digest : Digest256) (arcs : list ArcRef) (plan : PlanArtifact).
Context (Hwalk : walk t (q_source r) arcs (q_destination r)) (Hsize : size arcs <= u32_max).
Context (Hbuild : BuildPlan t r digest arcs = Value plan).

Lemma in_lookup {A} (l : list A) i x : l !! i = Some x -> In x l.
Proof. intros Hi. by eapply list_elem_of_In, list_elem_of_lookup_2. Qed.

(** *** Its bindings hold *)

Lemma fresh_sources : Forall (binding_current t) (pl_bound_sources plan).
Proof.
  pose proof Hbuild as (w0 & w & _ & _ & _ & Hsw)%BuildPlan_inv.
  apply seal_walk_inv in Hsw as (_&_&_&_&_&_&_&_&_& -> & _). apply Forall_map, List.Forall_forall.
  intros s Hs. unfold binding_current, HasSource, SourceGeneration. simpl.
  assert (find_source t (src_id s) = Some s) as ->; [|done]. apply list_elem_of_In, list_elem_of_lookup_1 in Hs as [i Hi].
  unfold find_source. rewrite (find_by_key_complete src_id (src_id s) (t_sources t) i s); [done|apply W|done|done].
Qed.

Lemma fresh_bindings : evidence_usable t policy -> bindings_hold plan t policy.
Proof.
  intros Hu. pose proof Hbuild as (w0 & w & _ & _ & _ & Hsw)%BuildPlan_inv. split.
  - by apply seal_walk_versions in Hsw.
  - apply seal_walk_inv in Hsw as (_&_&_&_&Hs&_). by apply sealed_verifies.
  - done.
  - apply fresh_sources.
  - apply seal_walk_inv in Hsw as (_&_&_&_&_&_&_&_&_&_&_&E). by injection E.
Qed.
(** *** Its decisions reproduce *)

Context (Hports : Forall (port_published t) (ports_of t (q_source r) arcs)) (Harcs : Forall (arc_published t) arcs).

(** A node the resource names is published up. *)
Definition node_up (k : ResourceKey) : Prop :=
  forall n, In n (t_nodes t) -> k = ForNode (n_id n) -> n_admin n = Known AdminState.Up.

Abbreviation reproduced := (reproduces plan t).

Lemma port_reproduced k : In k (ports_of t (q_source r) arcs) -> reproduced (ForPort k).
Proof.
  intros Hk. rewrite List.Forall_forall in Hports. destruct (Hports k Hk) as (i & p & n & Hi & Hp & _ & Hup & _).
  apply (PortIndex_some t) in Hi as (p' & Hp' & Hkey). rewrite Hp in Hp'. injection Hp' as <-.
  destruct (wn_ports _ N p (in_lookup _ _ _ Hp)) as (H1 & H2 & H3). rewrite Hkey in *. destruct k as [n' q'].
  apply reproduces_port; [done..|]. exists p. split; [|done]. rewrite <- Hkey. unfold FindPort.
  by rewrite (PortIndex_complete t W i p Hp).
Qed.

Lemma node_reproduced k m :
  node_up (snd m) -> In k (ports_of t (q_source r) arcs) -> In m (node_mark t (node k)) -> reproduced (snd m).
Proof.
  unfold node_mark. intros Hup Hk. destruct (FindNode t (node k)) as [n|] eqn:En; [|done]. intros [<-|[]]. simpl in *.
  pose proof (FindNode_some _ _ _ En) as [E Hn]. specialize (Hup n Hn eq_refl). rewrite E.
  apply reproduces_node; [|by exists n].
  rewrite List.Forall_forall in Hports. destruct (Hports k Hk) as (i & p & _ & Hi & Hp & _).
  apply (PortIndex_some t) in Hi as (p' & Hp' & <-). rewrite Hp in Hp'. injection Hp' as <-.
  by apply (wn_ports _ N p (in_lookup _ _ _ Hp)).
Qed.

Lemma span_reproduced a s : In a arcs -> a_kind a = ArcKind.Span -> t_spans t !! a_index a = Some s ->
  reproduced (ForSpan (s_id s)).
Proof.
  intros Ha Hk Hs. destruct (wn_distinct _ N) as [Hd _].
  rewrite List.Forall_forall in Harcs. specialize (Harcs a Ha) as Hpub. unfold arc_published in Hpub. rewrite Hk in Hpub.
  destruct Hpub as (s' & Hs' & Hup & _). rewrite Hs in Hs'. injection Hs' as <-.
  assert (In (ForSpan (s_id s)) (map rv_resource (pl_reservations plan))) as Hin.
  { rewrite (BuildPlan_reservations t r digest arcs plan Hbuild). unfold span_resources.
    apply (in_concat_map _ _ a); [done|]. rewrite Hk, Hs. by left. }
  destruct (reservation_of plan (ForSpan (s_id s))) as [v|] eqn:Ev.
  - apply (reproduces_span plan t (s_id s) s v); [by apply (wn_spans _ N), (in_lookup _ _ _ Hs)| |done|done|].
    { by apply (find_distinct s_id _ (a_index a)). }
    apply find_some in Ev as [Hv Hres%bool_decide_eq_true].
    pose proof (reservations_free t r Hslots Hwidth digest arcs plan Hbuild) as Hfree. rewrite List.Forall_forall in Hfree.
    destruct (Hfree v Hv) as (s' & b & Hs' & Hb & Hres' & _ & _ & Hge & Hc).
    assert (s' = s) as ->.
    { apply (distinct_same s_id (t_spans t)); [done|done|by eapply in_lookup|]. rewrite Hres' in Hres.
      unfold ForSpan in Hres. injection Hres as E. by apply str_inj. }
    intros o Ho. cbv zeta. intros Hlt. destruct (Hc o Ho) as [Hin' Hfree']. unfold kMaxSpectrumSlots in *.
    assert (wrap16 (first_slot (rv_channel v) + o) = first_slot (rv_channel v) + o) as -> by (apply wrap_small; split; lia).
    split; [done|]. intros b' E. rewrite Hb in E. by injection E as <-.
  - exfalso. apply in_map_iff in Hin as (v & Hv & Hin). unfold reservation_of in Ev.
    pose proof (find_none _ _ Ev v Hin) as Hn. cbv beta in Hn. by rewrite bool_decide_eq_true_2 in Hn.
Qed.

Lemma cross_connect_reproduced a x : In a arcs -> a_kind a = ArcKind.CrossConnect -> t_cross_connects t !! a_index a = Some x ->
  reproduced (ForCrossConnect (x_id x)).
Proof.
  intros Ha Hk Hx. rewrite List.Forall_forall in Harcs. specialize (Harcs a Ha) as Hpub. unfold arc_published in Hpub.
  rewrite Hk in Hpub. destruct Hpub as (x' & Hx' & Hup & _). rewrite Hx in Hx'. injection Hx' as <-.
  apply reproduces_cross_connect; [by apply (wn_cross_connects _ N), (in_lookup _ _ _ Hx)|]. exists x. split; [|done].
  apply (find_distinct x_id _ (a_index a)); [by apply N|done].
Qed.
Lemma destination_on_route : In (q_destination r) (ports_of t (q_source r) arcs).
Proof.
  clear -Hwalk. revert Hwalk. generalize (q_source r) (q_destination r). intros k k'. induction 1 as [k|k a m l k' Hd Ha _ IH].
  - by left.
  - right. simpl. rewrite (arrival_Value _ _ _ Ha). exact IH.
Qed.

Lemma entered_reproduced from to m :
  node_up (snd m) -> In to (ports_of t (q_source r) arcs) -> In m (entered t from to) -> reproduced (snd m).
Proof. unfold entered. intros Hup. case_bool_decide; [done|]. by apply node_reproduced. Qed.

Lemma arc_marks_reproduced from a m :
  node_up (snd m) -> In a arcs -> In m (arc_marks t from a) -> reproduced (snd m).
Proof.
  intros Hup Ha. assert (In (arrival t a) (ports_of t (q_source r) arcs)) as Hto by (right; by apply in_map).
  unfold arc_marks. destruct (a_kind a) eqn:Hk.
  - destruct (t_spans t !! a_index a) as [s|] eqn:Hs; [|done]. intros [<-|Hin]; [by apply (span_reproduced a)|].
    by eapply entered_reproduced.
  - destruct (t_cross_connects t !! a_index a) as [x|] eqn:Hx; [|done].
    assert (arrival t a = x_to x) as E by (unfold arrival, ArrivalPort; by rewrite Hk, Hx). rewrite E in Hto.
    intros [<-|Hin]; [by apply (cross_connect_reproduced a)|]. case_bool_decide; [done|].
    destruct Hin as [<-|Hin]; [by apply port_reproduced|]. by eapply entered_reproduced.
Qed.

Lemma steps_reproduced :
  Forall (fun s => node_up (ps_resource s)) (pl_steps plan) -> Forall (fun s => reproduced (ps_resource s)) (pl_steps plan).
Proof.
  intros Hup. apply List.Forall_forall. intros s Hs. rewrite List.Forall_forall in Hup. specialize (Hup s Hs).
  change (ps_resource s) with (snd (mark_of s)) in Hup |- *.
  assert (In (mark_of s) (plan_marks t (q_source r) (q_destination r) arcs)) as Hm.
  { destruct (BuildPlan_marks t r digest arcs plan Hwalk Hbuild) as [<- _]. by apply in_map. }
  assert (forall m, In m (start_marks t (q_source r) ++ route_marks t (q_source r) arcs) -> node_up (snd m) ->
    reproduced (snd m)) as Hroute.
  { intros m [Hin|Hin]%in_app_or Hm'; clear Hup.
    - destruct Hin as [<-|Hin]; [apply port_reproduced; by left|]. apply (node_reproduced (q_source r)); [done|by left|done].
    - revert Hin. generalize (q_source r) at 1. assert (incl arcs arcs) as Hincl by apply incl_refl. revert Hincl.
      generalize arcs at 1 3. intros l. induction l as [|a l IH]; intros Hl from; simpl; [done|].
      intros [Hin|Hin]%in_app_or; [apply (arc_marks_reproduced from a); [done|apply Hl; by left|done]|].
      apply (IH (fun x Hx => Hl x (or_intror Hx)) _ Hin). }
  unfold plan_marks, end_marks in Hm. case_bool_decide; [exact (Hroute _ Hm Hup)|].
  apply in_app_or in Hm as [Hm|[E|[]]]; [exact (Hroute _ Hm Hup)|]. rewrite <- E. apply port_reproduced, destination_on_route.
Qed.

(** *** Its totals come out again *)

Lemma account_uses us d n acc :
  Forall (fun u => exists a, span_use t a u) us -> ac_distance acc = wrap64 d -> ac_spans acc = wrap32 n ->
  fold_left (account t) us acc =
    MkAccounting (wrap64 (d + sum_over su_length_m us)) (fold_left (fun x u => dadd x (su_loss_db u)) us (ac_loss acc))
      (fold_left (fun x u => dadd x (OsnrToInverse (su_osnr_db u))) us (ac_osnr_inverse acc)) (wrap32 (n + size us)).
Proof.
  intros Hus. revert d n acc. induction Hus as [|u us (a & s & Hs & Hid & _ & _ & _ & _ & Hl & Ho & Hq) _ IH]; intros d n acc Ed En.
  - simpl. rewrite !Z.add_0_r, <- Ed, <- En. by destruct acc.
  - destruct (wn_distinct _ N) as [Hd _]. simpl. unfold account at 2. rewrite Hid. unfold span_of_id.
    rewrite (find_distinct s_id (t_spans t) (a_index a) s Hd Hs), Hl, Ho, Hq.
    rewrite (IH (d + su_length_m u) (n + 1)).
    + unfold size. simpl length. f_equal; [f_equal; simpl; lia|f_equal; lia].
    + simpl. by rewrite Ed, wrap_add_l.
    + simpl. by rewrite En, wrap_add_l.
Qed.

Lemma segments_reproduced : Forall (fun s => segment_differs t s = false) (pl_segments plan).
Proof.
  destruct (plan_segments_split t r digest arcs plan Hsize Hbuild) as (_ & Huses & Htotals & _).
  assert (Forall (fun u => exists a, span_use t a u) (concat (map sg_spans (pl_segments plan)))) as Hall.
  { clear -Huses. induction Huses as [|a u l us Hu _ IH]; constructor; [by exists a|done]. }
  apply List.Forall_forall. intros s Hs. rewrite List.Forall_forall in Htotals.
  destruct (Htotals s Hs) as (Hc & Hd & Hl & Ho).
  assert (Forall (fun u => exists a, span_use t a u) (sg_spans s)) as Hus.
  { rewrite List.Forall_forall in Hall |- *. intros u Hu. apply Hall. by apply (in_concat_map _ _ s). }
  unfold segment_differs, accounting_of. rewrite (account_uses (sg_spans s) 0 0) by done. cbv zeta. simpl.
  rewrite Hc, Hd, Hl, Ho. unfold total_length, total_loss. rewrite !Z.add_0_l, !Z.eqb_refl, far_apart_refl. simpl.
  unfold accounting_osnr, segment_osnr, total_inverse. simpl. apply far_apart_refl.
Qed.

Lemma reproduced_up k : reproduced k -> node_up k.
Proof.
  intros Hk n Hn E. rewrite E in Hk. inversion Hk as [|id _ (n' & Hn' & Hup) Eid| | |? Hkind]; [|naive_solver].
  apply str_inj in Eid. subst id. apply list_elem_of_In, list_elem_of_lookup_1 in Hn as [i Hi].
  unfold FindNode, NodeIndex in Hn'. rewrite (find_by_key_complete n_id (n_id n) (t_nodes t) i n) in Hn'; [|apply W|done|done].
  simpl in Hn'. rewrite Hi in Hn'. by injection Hn' as ->.
Qed.

Lemma fresh_plan_valid : evidence_usable t policy ->
  vr_validity (RevalidatePlan plan t policy) = PlanValidity.Valid <->
  Forall (fun s => node_up (ps_resource s)) (pl_steps plan).
Proof.
  intros Hu. rewrite revalidated_valid, revalidation_clean by done. split.
  - intros (_ & Hs & _). eapply Forall_impl; [exact Hs|]. intros s. apply reproduced_up.
  - intros Hup. split; [by apply fresh_bindings|]. split; [by apply steps_reproduced|apply segments_reproduced].
Qed.
End fresh.

Section candidates.
Context `{Platform, Hasher} (options : PlannerOptions) (t : TopologySnapshot) (r : PlanningRequest).
Context (cancelled : nat -> nat -> bool) (policy : ValidationPolicy).
Context (W : wf_snapshot t) (I : identified t) (Hcount : in_width 32 (max_candidates r)).

(** C7: what the planner recommends passes its own validation, but for the
    nodes.  A candidate, validated again on the snapshot it was planned on under
    a policy that takes the evidence of that snapshot, is VALID exactly when
    every node one of its steps names is published up: bindings, ports, spans,
    channels, cross-connects and segment totals always reproduce, whatever the
    doubles of the platform are. *)
Theorem candidates_revalidate (plan : PlanArtifact) :
  well_named t -> 0 <= slot_count (t_spectrum t) <= kMaxSpectrumSlots -> 0 <= channel_width_slots r ->
  evidence_usable t policy -> In plan (rs_candidates (Planner.Plan options t r cancelled)) ->
  vr_validity (RevalidatePlan plan t policy) = PlanValidity.Valid <->
  Forall (fun s => node_up t (ps_resource s)) (pl_steps plan).
Proof.
  intros N Hslots Hwidth Hu [(path & Hok & Hp & Hb & _) V]%candidates_ok; [|done..].
  destruct (po_published _ _ _ Hok Hp) as [Harcs Hports]. destruct (po_hops _ _ _ Hok) as [Hh1 Hh2].
  apply (fresh_plan_valid t r policy W N Hslots Hwidth (ComputeRequestDigest r) (p_arcs path) plan); try done; [by apply Hok|].
  pose proof (valid_hops _ V) as [_ Hmax]. unfold kMaxRequestedHops, u32_max in *. lia.
Qed.
End candidates.

(** ** Two disagreements, and witnesses *)

Module Doubt.
Import Sample.
#[local] Existing Instance toy_hasher.

Definition row_with (middle : NodeRecord) (first : SpanRecord) : TopologySnapshot :=
  snapshot_of (builder [node_named "A"; middle; node_named "C"]
    [port_of "A" "1"; port_of "B" "1"; port_of "B" "2"; port_of "C" "1"]
    [first; span_between "s2" "B" "2" "C" "1" 7] [Net.express "x" "B" "1" "2"]).

(** The row of three nodes with the middle one published down. *)
Definition down_node : TopologySnapshot :=
  row_with (MkNode (MkId "B") NodeKind.Terminal [] 1 Coverage.Complete (Known AdminState.Down) src 3)
    (span_between "s1" "A" "1" "B" "1" 5).

(** The row whose first span no longer publishes its blocked slots. *)
Definition hushed_span : TopologySnapshot :=
  row_with (node_named "B")
    (MkSpan (MkId "s1") (MkPortKey (MkId "A") (MkId "1")) (MkPortKey (MkId "B") (MkId "1")) true (Known 80000)
       (Known d10) (Known (double_of 30)) Unknown [MkId "duct"] 5 up src 3).

Definition first_candidate (t : TopologySnapshot) : list PlanArtifact :=
  firstn 1 (rs_candidates (Planner.Plan default_options t Net.request never_twice)).
Definition verdicts (policy : ValidationPolicy) (t : TopologySnapshot) (plans : list PlanArtifact) :
  list (string * string * list (string * string)) :=
  map (fun plan => let v := RevalidatePlan plan t policy in
         (PlanValidityName (vr_validity v), detail (vr_status v),
          map (fun f => (text (rf_resource f), rf_detail f)) (vr_failures v))) plans.
End Doubt.

Section witnesses.
Import Sample Net Doubt.
#[local] Existing Instance toy_hasher.

(** A plan through a node that is published down.  The search reads the
    admin state of ports, spans and cross-connects but not of nodes, and
    [BuildPlan] marks every node step as administratively up: the planner
    answers FEASIBLE with a route through a node published down, and the
    candidate fails its own revalidation for that node. *)
Theorem down_node_recommended :
  rs_outcome (Planner.Plan default_options down_node request never_twice) = PlanOutcome.Feasible /\
  map n_admin (t_nodes down_node) = [Known AdminState.Up; Known AdminState.Down; Known AdminState.Up] /\
  verdicts default_policy down_node (first_candidate down_node) =
    [("MISSING_EVIDENCE", "plan decisions no longer reproduce against the snapshot it is bound to",
      [("B", "node is not published as administratively up")])].
Proof. split_and!; by vm_compute. Qed.

(** Revalidation takes unpublished spectrum for free.  When a span no longer
    publishes its blocked slots the search finds no proven path and [BuildPlan]
    refuses the route, yet [RevalidatePlan], asked to describe what changed,
    reports that every decision of the old plan still reproduces. *)
Theorem unpublished_spectrum_reproduces :
  verdicts (MkPolicy false true) hushed_span (first_candidate row) =
    [("CONTENT_MISMATCH",
      "bound generations changed, but every plan decision still reproduces against the current snapshot", [])] /\
  map p_proven (o_paths (RunSearch hushed_span request default_options never)) = [false] /\
  BuildPlan hushed_span request zero_digest (p_arcs the_path) =
    internal "plan build requires published span quality evidence".
Proof. split_and!; by vm_compute. Qed.

Lemma row_named : well_named row.
Proof.
  assert (List.NoDup (map s_id (t_spans row)) /\ List.NoDup (map x_id (t_cross_connects row))) as Hd.
  { split; apply NoDup_ListNoDup; refine (bool_decide_unpack (NoDup _) _); by vm_compute. }
  split; [intros x Hx|intros x Hx|intros x Hx|exact Hd]; vm_compute in Hx;
    repeat (destruct Hx as [<-|Hx]); try destruct Hx; try reflexivity.
  all: split; [reflexivity|split; [reflexivity|]]; simpl; intros [E|[]]; discriminate E.
Qed.

Lemma row_nodes_up k : node_up row k.
Proof. intros n Hn _. vm_compute in Hn. repeat (destruct Hn as [<-|Hn]); try destruct Hn; reflexivity. Qed.

Lemma candidates_revalidate_witness :
  exists plan rest, rs_candidates (Planner.Plan default_options row request never_twice) = plan :: rest /\
    vr_validity (RevalidatePlan plan row default_policy) = PlanValidity.Valid.
Proof.
  destruct (rs_candidates (Planner.Plan default_options row request never_twice)) as [|plan rest] eqn:E; [by vm_compute in E|].
  exists plan, rest. split; [reflexivity|].
  apply (candidates_revalidate default_options row request never_twice default_policy row_wf row_identified request_count plan
    row_named row_slots); [by vm_compute|by left|rewrite E; by left|].
  apply List.Forall_forall. intros s _. apply row_nodes_up.
Defined.
End witnesses.
