(* ===== verification/Proto.v ===== *)
(** * Proto: frames and message payloads of the inspection service

    [include/opp/proto.hpp] and [src/proto.cpp].  A [std::string] of bytes is a
    [string]; the writer and the reader of [Canonical] work on its bytes.  The
    decoders are computations over a reader that end at the first failing read,
    as every read of the code is followed by
    [if (!x.ok()) return x.status();]. *)

From S2P Require Import Prelude Status Ids Doubles Sha256 Canonical Validate.

(** ** Bounds and names *)

Definition kFrameMagic : Z := 0x3150504f.
Definition kProtocolVersion : Z := 1.
Definition kFrameHeaderBytes : Z := 4 + 4 + 4 + 8 + 8 + 4.
Definition kMaxFrameBytes : Z := 16 * 1024 * 1024.
Definition kMaxStoredPlans : Z := 100000.

(** The enumeration has a fixed underlying type: a cast gives it any 32-bit
    value, and [Other] holds those that no enumerator names. *)
Module MessageKind.
Inductive t :=
| Hello | HelloAck | Ingest | IngestAck | Plan | PlanAck | Validate | ValidateAck | GetPlan | GetPlanAck
| StoreList | StoreListAck | Cancel | CancelAck | Stats | StatsAck | Shutdown | ShutdownAck | Failure
| Other (number : Z).

#[global] Instance eq_dec : EqDecision t.
Proof. solve_decision. Defined.

Definition named : list t :=
  [Hello; HelloAck; Ingest; IngestAck; Plan; PlanAck; Validate; ValidateAck; GetPlan; GetPlanAck;
   StoreList; StoreListAck; Cancel; CancelAck; Stats; StatsAck; Shutdown; ShutdownAck; Failure].

Definition number (k : t) : Z :=
  match k with
  | Hello => 1 | HelloAck => 2 | Ingest => 3 | IngestAck => 4 | Plan => 5 | PlanAck => 6
  | Validate => 7 | ValidateAck => 8 | GetPlan => 9 | GetPlanAck => 10
  | StoreList => 11 | StoreListAck => 12 | Cancel => 13 | CancelAck => 14
  | Stats => 15 | StatsAck => 16 | Shutdown => 17 | ShutdownAck => 18 | Failure => 19
  | Other n => n
  end.

(** [static_cast<MessageKind>(n)] *)
Definition of_number (n : Z) : t := default (Other n) (List.find (fun k => number k =? n) named).
End MessageKind.

Definition MessageKindName (kind : MessageKind.t) : string :=
  match kind with
  | MessageKind.Hello => "HELLO"
  | MessageKind.HelloAck => "HELLO_ACK"
  | MessageKind.Ingest => "INGEST"
  | MessageKind.IngestAck => "INGEST_ACK"
  | MessageKind.Plan => "PLAN"
  | MessageKind.PlanAck => "PLAN_ACK"
  | MessageKind.Validate => "VALIDATE"
  | MessageKind.ValidateAck => "VALIDATE_ACK"
  | MessageKind.GetPlan => "GET_PLAN"
  | MessageKind.GetPlanAck => "GET_PLAN_ACK"
  | MessageKind.StoreList => "STORE_LIST"
  | MessageKind.StoreListAck => "STORE_LIST_ACK"
  | MessageKind.Cancel => "CANCEL"
  | MessageKind.CancelAck => "CANCEL_ACK"
  | MessageKind.Stats => "STATS"
  | MessageKind.StatsAck => "STATS_ACK"
  | MessageKind.Shutdown => "SHUTDOWN"
  | MessageKind.ShutdownAck => "SHUTDOWN_ACK"
  | MessageKind.Failure => "FAILURE"
  | MessageKind.Other _ => "UNKNOWN"
  end.

Record Frame := MkFrame {
  fr_kind : MessageKind.t; fr_sequence : Z; fr_epoch_pin : Epoch; fr_payload : string
}.

Definition IsRequest (f : Frame) : bool :=
  match fr_kind f with
  | MessageKind.Hello | MessageKind.Ingest | MessageKind.Plan | MessageKind.Validate | MessageKind.GetPlan
  | MessageKind.StoreList | MessageKind.Cancel | MessageKind.Stats | MessageKind.Shutdown => true
  | _ => false
  end.

(** ** Text payloads *)

(** [ByteWriter::Take] and back: a byte string and its bytes. *)
Definition bytes_text (b : list Z) : string := of_chars (map char_of b).

Definition substr (s : string) (offset count : Z) : string :=
  of_chars (firstn (Z.to_nat count) (skipn (Z.to_nat offset) (chars s))).

Definition Writer_Text (b : list Z) (text : string) : list Z := Writer_Bytes b (string_bytes text).

(** ** Decoders *)

(** A decoder reads from the start of its bytes. *)
Definition Reader A : Type := ByteReader -> Expected A * ByteReader.

Definition rreturn {A} (a : A) : Reader A := fun r => (Value a, r).
Definition rfail {A} (s : Status) : Reader A := fun r => (Error s, r).
Definition rbind {A B} (m : Reader A) (k : A -> Reader B) : Reader B :=
  fun r => let '(x, r') := m r in match x with Value a => k a r' | Error s => (Error s, r') end.

Notation "x <-- m ;; k" := (rbind m (fun x => k))
  (at level 100, m at next level, right associativity) : opp_scope.

(** [ByteReader::Text]: a text is read as its bytes. *)
Definition Reader_Text : Reader string := bytes <-- Reader_Bytes ;; rreturn (bytes_text bytes).

(** ** Frames *)

Section frames.
Context `{Hasher}.

Definition EncodeFrameBody (kind : MessageKind.t) (sequence : Z) (epoch_pin : Epoch) (payload : string) : string :=
  let b := Writer_U32 [] kFrameMagic in
  let b := Writer_U32 b kProtocolVersion in
  let b := Writer_U32 b (MessageKind.number kind) in
  let b := Writer_U64 b sequence in
  let b := Writer_U64 b epoch_pin in
  let b := Writer_U32 b (wrap32 (string_size payload)) in
  bytes_text b +:+ payload.

Definition EncodeFrame (f : Frame) : string :=
  let body := EncodeFrameBody (fr_kind f) (fr_sequence f) (fr_epoch_pin f) (fr_payload f) in
  body +:+ bytes_text (digest_bytes (hash_pieces [body])).

End frames.


Definition read_text {A} (m : Reader A) (text : string) : Expected A :=
  fst (m (MkReader (string_bytes text) 0)).

Definition FrameSize (bytes : string) : Expected Z :=
  if string_size bytes <? kFrameHeaderBytes then Error (Failure StatusCode.NotFound "frame header is incomplete")
  else
    let! length :=
      read_text
        (magic <-- Reader_U32 ;;
         if negb (magic =? kFrameMagic)
         then rfail (Failure StatusCode.MalformedInput "frame magic is not recognised")
         else
           version <-- Reader_U32 ;; kind <-- Reader_U32 ;; sequence <-- Reader_U64 ;; epoch <-- Reader_U64 ;;
           Reader_U32)
        (substr bytes 0 kFrameHeaderBytes) in
    if kMaxFrameBytes <? length then
      Error (Failure StatusCode.LimitExceeded "frame payload exceeds the permitted maximum size")
    else
      let total := kFrameHeaderBytes + length + 32 in
      if string_size bytes <? total then Error (Failure StatusCode.NotFound "frame body is incomplete")
      else Value total.

(** The frame and what [*consumed] is set to. *)
Definition DecodeFrame `{Hasher} (bytes : string) : Expected (Frame * Z) :=
  let! total := FrameSize bytes in
  let checksum := hash_pieces [substr bytes 0 (total - 32)] in
  if negb (String.eqb (bytes_text (digest_bytes checksum)) (substr bytes (total - 32) 32)) then
    Error (Failure StatusCode.IntegrityFailure "frame checksum does not match its content")
  else
    let! frame :=
      read_text
        (magic <-- Reader_U32 ;; version <-- Reader_U32 ;;
         if negb (version =? kProtocolVersion)
         then rfail (Failure StatusCode.Unsupported "transport revision is not supported by this runtime")
         else
           kind <-- Reader_U32 ;; sequence <-- Reader_U64 ;; epoch <-- Reader_U64 ;; length <-- Reader_U32 ;;
           rreturn (MkFrame (MessageKind.of_number kind) sequence epoch (substr bytes kFrameHeaderBytes length)))
        (substr bytes 0 kFrameHeaderBytes) in
    Value (frame, total).

(** ** Lemmas: bytes of texts *)

Abbreviation byte_list := (Forall (in_width 8)).

Lemma chars_bytes_text b : chars (bytes_text b) = map char_of b.
Proof. apply chars_of_chars. Qed.

Lemma string_bytes_text b : byte_list b -> string_bytes (bytes_text b) = b.
Proof.
  intros Hb. unfold string_bytes. rewrite chars_bytes_text, map_map.
  induction Hb as [|x l Hx Hl IH]; [done|]. simpl. rewrite IH. f_equal. by apply byte_of_char_of.
Qed.

Lemma bytes_text_string s : bytes_text (string_bytes s) = s.
Proof.
  unfold bytes_text, string_bytes. rewrite map_map, (map_ext _ id), map_id.
  - apply of_chars_chars.
  - apply char_of_byte_of.
Qed.

Lemma string_bytes_width s : byte_list (string_bytes s).
Proof. apply List.Forall_forall. intros x (c & <- & _)%in_map_iff. apply byte_width. Qed.

Lemma string_bytes_size s : size (string_bytes s) = string_size s.
Proof. unfold string_bytes. rewrite string_size_chars. unfold size. by rewrite length_map. Qed.

Lemma string_bytes_app a b : string_bytes (a +:+ b) = string_bytes a ++ string_bytes b.
Proof. unfold string_bytes. by rewrite chars_app, map_app. Qed.

Lemma string_bytes_inj a b : string_bytes a = string_bytes b -> a = b.
Proof. intros E. by rewrite <- (bytes_text_string a), E, bytes_text_string. Qed.

Lemma le_bytes_width n v : byte_list (le_bytes n v).
Proof.
  apply List.Forall_forall. intros x (i & <- & _)%in_map_iff.
  unfold in_width. rewrite (Z.land_ones _ 8) by lia. apply Z.mod_pos_bound. lia.
Qed.

Lemma low_byte_add b v : in_width 8 b -> Z.lor b (Z.shiftl v 8) = b + v * 2 ^ 8.
Proof.
  intros Hb. pose proof (Z.add_lor_land b (Z.shiftl v 8)) as Hadd.
  assert (Z.land b (Z.shiftl v 8) = 0) as Hland.
  { rewrite <- (Z.mod_small b (2 ^ 8)), <- Z.land_ones by done || lia. apply Z.bits_inj'. intros i Hi.
    rewrite !Z.land_spec, Z.bits_0, Z.testbit_ones_nonneg by lia.
    destruct (Z.ltb_spec i 8); [rewrite Z.shiftl_spec_low by lia|]; by rewrite ?andb_false_r. }
  rewrite Z.shiftl_mul_pow2 in * by lia. lia.
Qed.

Lemma le_value_width data : byte_list data -> 0 <= le_value data < 2 ^ (8 * Z.of_nat (length data)).
Proof.
  induction 1 as [|b l Hb Hl IH]; [simpl; lia|]. cbn [le_value length]. rewrite low_byte_add by done.
  unfold in_width in Hb. replace (8 * Z.of_nat (S (length l))) with (8 * Z.of_nat (length l) + 8) by lia.
  rewrite Z.pow_add_r by lia. lia.
Qed.

Lemma le_bytes_le_value data : byte_list data -> le_bytes (length data) (le_value data) = data.
Proof.
  induction 1 as [|b l Hb Hl IH]; [done|]. cbn [le_value length]. rewrite le_bytes_S, low_byte_add by done.
  change 255 with (Z.ones 8). rewrite Z.land_ones, Z.shiftr_div_pow2 by lia.
  rewrite Z_mod_plus_full, Z.mod_small, Z.div_add, Z.div_small, Z.add_0_l by done || lia. by rewrite IH.
Qed.

(** ** Codecs: what a read of one field promises

    On the encoding of an acceptable value the read answers the value and
    consumes the encoding; and it answers a value only on the encoding of it. *)

Class Codec {A} (m : Reader A) (enc : A -> list Z) (acceptable : A -> Prop) : Prop := {
  codec_bytes a : acceptable a -> byte_list (enc a);
  codec_reads a before rest :
    acceptable a -> m (reader_at before (enc a ++ rest)) = (Value a, reader_at (before ++ enc a) rest);
  codec_exact a before rest r :
    byte_list rest -> m (reader_at before rest) = (Value a, r) ->
    acceptable a /\ exists rest', rest = enc a ++ rest' /\ r = reader_at (before ++ enc a) rest'
}.

Lemma Take_exact n before rest data r :
  Take (reader_at before rest) n = (Value data, r) ->
  length data = n /\ exists rest', rest = data ++ rest' /\ r = reader_at (before ++ data) rest'.
Proof.
  unfold Take, reader_at, remaining; simpl. rewrite length_app, drop_app_length.
  destruct (Nat.ltb_spec (length before + length rest - length before) n) as [|Hn]; [done|].
  intros [= <- <-]. split; [rewrite length_firstn; lia|]. exists (skipn n rest).
  rewrite firstn_skipn. split; [done|].
  rewrite <- app_assoc, firstn_skipn, length_app, length_firstn. do 2 f_equal. lia.
Qed.

Lemma codec_uint n : Codec (Reader_uint n) (le_bytes n) (fun v => 0 <= v < 2 ^ (8 * Z.of_nat n)).
Proof.
  split.
  - intros v _. apply le_bytes_width.
  - intros v before rest Hv. by apply Reader_uint_at.
  - intros v before rest r Hb. unfold Reader_uint.
    destruct (Take (reader_at before rest) n) as [[data|] r'] eqn:Ht; [|done]. intros [= <- <-].
    apply Take_exact in Ht as (<- & rest' & -> & ->). apply Forall_app in Hb as [Hd _].
    split; [by apply le_value_width|]. exists rest'. by rewrite le_bytes_le_value.
Qed.

#[export] Instance codec_u32 : Codec Reader_U32 (le_bytes 4) (in_width 32) := codec_uint 4.
#[export] Instance codec_u64 : Codec Reader_U64 (le_bytes 8) (in_width 64) := codec_uint 8.

(** Composition: a read followed by the rest of a decoder. *)
Lemma codec_bind_reads {A B} {m : Reader A} {enc acceptable} `{!Codec m enc acceptable}
    (k : A -> Reader B) a before rest :
  acceptable a ->
  rbind m k (reader_at before (enc a ++ rest)) = k a (reader_at (before ++ enc a) rest).
Proof. intros Ha. unfold rbind. by rewrite (codec_reads a). Qed.

Lemma codec_bind_exact {A B} {m : Reader A} {enc acceptable} `{!Codec m enc acceptable}
    (k : A -> Reader B) b before rest r :
  byte_list rest -> rbind m k (reader_at before rest) = (Value b, r) ->
  exists a rest', acceptable a /\ rest = enc a ++ rest' /\ byte_list rest' /\
    k a (reader_at (before ++ enc a) rest') = (Value b, r).
Proof.
  intros Hb. unfold rbind. destruct (m (reader_at before rest)) as [[a|] r'] eqn:Hm; [|done].
  apply codec_exact in Hm as (Ha & rest' & -> & ->); [|done]. apply Forall_app in Hb as [_ Hr].
  intros Hk. by exists a, rest'.
Qed.

(** A codec mapped through a bijection of values. *)
Lemma codec_map {A B} (m : Reader A) enc ok (f : A -> B) (g : B -> A) (ok' : B -> Prop) :
  Codec m enc ok -> (forall b, ok' b -> ok (g b) /\ f (g b) = b) -> (forall a, ok a -> ok' (f a) /\ g (f a) = a) ->
  Codec (rbind m (fun a => rreturn (f a))) (fun b => enc (g b)) ok'.
Proof.
  intros Hc Hb Ha. split.
  - intros b Hok. by apply codec_bytes, Hb.
  - intros b before rest Hok. destruct (Hb b Hok) as [Hg E]. rewrite codec_bind_reads by done.
    unfold rreturn. by rewrite E.
  - intros b before rest r Hw Hr. apply codec_bind_exact in Hr as (a & rest' & Hok & -> & _ & Hk); [|done].
    injection Hk as <- <-. destruct (Ha a Hok) as [Hf ->]. split; [done|]. by exists rest'.
Qed.

Lemma codec_ext {A} (m m' : Reader A) enc ok : (forall r, m r = m' r) -> Codec m enc ok -> Codec m' enc ok.
Proof.
  intros E [Hb Hr He]. split; [done| |].
  - intros a before rest. rewrite <- E. apply Hr.
  - intros a before rest r. rewrite <- E. apply He.
Qed.

Definition bool_bytes (b : bool) : list Z := [if b then 1 else 0].

#[export] Instance codec_bool : Codec Reader_Bool bool_bytes (fun _ => True).
Proof.
  assert (forall b : bool, bool_bytes b = le_bytes 1 (if b then 1 else 0)) as E by (by intros []).
  split.
  - intros b _. rewrite E. apply le_bytes_width.
  - intros b before rest _. rewrite E. unfold Reader_Bool, Reader_U8.
    rewrite Reader_uint_at by (by destruct b). by destruct b.
  - intros b before rest r Hw. unfold Reader_Bool, Reader_U8.
    destruct (Reader_uint 1 (reader_at before rest)) as [[v|] r'] eqn:Hr; [|done].
    apply (codec_exact (Codec := codec_uint 1)) in Hr as (Hv & rest' & -> & ->); [|done].
    destruct (Z.ltb_spec 1 v); [done|]. intros [= <- <-]. split; [done|]. exists rest'.
    rewrite E. assert (v = 0 \/ v = 1) as [-> | ->] by lia; done.
Qed.

#[export] Instance codec_data :
  Codec Reader_Bytes (fun l => le_bytes 4 (size l) ++ l) (fun l => size l <= u32_max /\ byte_list l).
Proof.
  split.
  - intros l [_ Hl]. apply Forall_app. split; [apply le_bytes_width|done].
  - intros l before rest [Hs Hl]. rewrite <- app_assoc. unfold Reader_Bytes.
    rewrite (codec_reads (Codec := codec_u32)) by (unfold in_width, u32_max, size in *; lia).
    cbv beta iota. replace (Z.to_nat (size l)) with (length l) by (unfold size; lia).
    by rewrite Take_at, <- !app_assoc.
  - intros l before rest r Hw. unfold Reader_Bytes.
    destruct (Reader_U32 (reader_at before rest)) as [[n|] r'] eqn:Hr; [|done].
    apply (codec_exact (Codec := codec_u32)) in Hr as (Hn & rest' & -> & ->); [|done].
    intros (Hlen & rest2 & -> & ->)%Take_exact. apply Forall_app in Hw as [_ [Hl _]%Forall_app].
    unfold in_width in Hn. assert (size l = n) as -> by (unfold size; lia).
    split; [split; [unfold u32_max; lia|done]|]. exists rest2. by rewrite <- !app_assoc.
Qed.

Definition text_bytes (s : string) : list Z := le_bytes 4 (string_size s) ++ string_bytes s.
Definition text_fits (s : string) : Prop := string_size s <= u32_max.

#[export] Instance codec_text : Codec Reader_Text text_bytes text_fits.
Proof.
  assert (Codec Reader_Text (fun s => le_bytes 4 (size (string_bytes s)) ++ string_bytes s) text_fits) as Hc.
  { apply (codec_map _ _ _ bytes_text string_bytes _ codec_data).
    - intros s Hs. rewrite string_bytes_size, bytes_text_string. repeat split; [done|apply string_bytes_width].
    - intros l [Hs Hl]. unfold text_fits. by rewrite <- string_bytes_size, string_bytes_text. }
  destruct Hc as [Hb Hr He]. unfold text_bytes.
  split; intros s; [specialize (Hb s)|specialize (Hr s)|specialize (He s)]; by rewrite string_bytes_size in *.
Qed.

Lemma codec_take n :
  Codec (fun r => Take r n) id (fun l => length l = n /\ byte_list l).
Proof.
  split.
  - by intros l [_ Hl].
  - intros l before rest [<- _]. apply Take_at.
  - intros l before rest r Hw (<- & rest' & -> & ->)%Take_exact. apply Forall_app in Hw as [Hl _].
    split; [done|]. by exists rest'.
Qed.

Lemma wf_bytes_length n l : wf_bytes (Z.of_nat n) l <-> length l = n /\ byte_list l.
Proof. unfold wf_bytes, size. rewrite Nat2Z.inj_iff. done. Qed.

#[export] Instance codec_digest : Codec Reader_Digest digest_bytes (fun d => wf_bytes 32 (digest_bytes d)).
Proof.
  apply (codec_ext (l <-- (fun r => Take r 32) ;; rreturn (MkDigest l))).
  { intros r. unfold Reader_Digest, rbind. by destruct (Take r 32) as [[] ?]. }
  apply (codec_map _ _ _ MkDigest digest_bytes _ (codec_take 32)).
  - intros [l] Hl. split; [by apply (wf_bytes_length 32)|done].
  - intros l Hl. split; [by apply (wf_bytes_length 32)|done].
Qed.

#[export] Instance codec_incarnation :
  Codec Reader_Incarnation incarnation_bytes (fun i => wf_bytes 16 (incarnation_bytes i)).
Proof.
  apply (codec_ext (l <-- (fun r => Take r 16) ;; rreturn (MkIncarnation l))).
  { intros r. unfold Reader_Incarnation, rbind. by destruct (Take r 16) as [[] ?]. }
  apply (codec_map _ _ _ MkIncarnation incarnation_bytes _ (codec_take 16)).
  - intros [l] Hl. split; [by apply (wf_bytes_length 16)|done].
  - intros l Hl. split; [by apply (wf_bytes_length 16)|done].
Qed.

(** ** Lemmas: cutting byte strings *)

Lemma substr_middle a b c : substr (a +:+ (b +:+ c)) (string_size a) (string_size b) = b.
Proof.
  unfold substr. rewrite !chars_app, !string_size_chars. unfold size.
  rewrite !Nat2Z.id, drop_app_length, take_app_length. apply of_chars_chars.
Qed.

Lemma substr_front a b : substr (a +:+ b) 0 (string_size a) = a.
Proof. apply (substr_middle "" a b). Qed.

Lemma string_cut s n : 0 <= n <= string_size s -> exists a b, s = a +:+ b /\ string_size a = n.
Proof.
  intros Hn. rewrite string_size_chars in Hn. unfold size in Hn.
  exists (of_chars (firstn (Z.to_nat n) (chars s))), (of_chars (skipn (Z.to_nat n) (chars s))). split.
  - apply (inj chars). by rewrite chars_app, !chars_of_chars, firstn_skipn.
  - rewrite of_chars_size. unfold size. rewrite length_firstn. lia.
Qed.

Lemma string_app_inj_l a b c : a +:+ b = a +:+ c -> b = c.
Proof. intros E%(f_equal chars). rewrite !chars_app in E. apply app_inv_head in E. by apply (inj chars). Qed.

(** ** Lemmas: the header of a frame *)

Definition header_bytes (version kind sequence epoch length : Z) : list Z :=
  le_bytes 4 kFrameMagic ++ le_bytes 4 version ++ le_bytes 4 kind ++ le_bytes 8 sequence ++ le_bytes 8 epoch ++
  le_bytes 4 length.

Definition header_fits (version kind sequence epoch length : Z) : Prop :=
  in_width 32 version /\ in_width 32 kind /\ in_width 64 sequence /\ in_width 64 epoch /\ in_width 32 length.

(** What the second reading of the header makes of it, once its magic is right. *)
Definition frame_of (payload : string) (version kind sequence epoch : Z) : Expected Frame :=
  if negb (version =? kProtocolVersion)
  then Error (Failure StatusCode.Unsupported "transport revision is not supported by this runtime")
  else Value (MkFrame (MessageKind.of_number kind) sequence epoch payload).

Lemma header_bytes_size v k s e n : size (header_bytes v k s e n) = kFrameHeaderBytes.
Proof. unfold header_bytes, size. rewrite !length_app, !le_bytes_length. done. Qed.

Lemma header_bytes_width v k s e n : byte_list (header_bytes v k s e n).
Proof. unfold header_bytes. rewrite !Forall_app. repeat split; apply le_bytes_width. Qed.

Lemma header_text_size v k s e n : string_size (bytes_text (header_bytes v k s e n)) = kFrameHeaderBytes.
Proof. rewrite <- string_bytes_size, string_bytes_text by apply header_bytes_width. apply header_bytes_size. Qed.

Lemma read_text_at {A} (m : Reader A) text : read_text m text = fst (m (reader_at [] (string_bytes text ++ []))).
Proof. unfold read_text, reader_at. by rewrite app_nil_r. Qed.

(** The reads of a decoder, one field after the other. *)
Ltac run_reads :=
  rewrite ?read_text_at, ?string_bytes_text by auto using header_bytes_width; unfold header_bytes;
  rewrite <- ?app_assoc;
  repeat first
    [ rewrite codec_bind_reads by done
    | rewrite codec_reads by done
    | rewrite Z.eqb_refl; cbn [negb] ].

Lemma FrameSize_header v k s e n t :
  header_fits v k s e n ->
  FrameSize (bytes_text (header_bytes v k s e n) +:+ t) =
  if kMaxFrameBytes <? n then Error (Failure StatusCode.LimitExceeded "frame payload exceeds the permitted maximum size")
  else if string_size t <? n + 32 then Error (Failure StatusCode.NotFound "frame body is incomplete")
  else Value (kFrameHeaderBytes + n + 32).
Proof.
  intros (Hv & Hk & Hs & He & Hn). unfold FrameSize.
  rewrite string_size_app, header_text_size. pose proof (string_size_chars t) as Ht. unfold size in Ht.
  rewrite (proj2 (Z.ltb_ge _ _)) by lia.
  rewrite <- (header_text_size v k s e n) at 2. rewrite substr_front. run_reads. cbn [fst].
  destruct (kMaxFrameBytes <? n); [done|]. unfold kFrameHeaderBytes.
  destruct (Z.ltb_spec (string_size t) (n + 32)), (Z.ltb_spec (4 + 4 + 4 + 8 + 8 + 4 + string_size t)
    (4 + 4 + 4 + 8 + 8 + 4 + n + 32)); done || lia.
Qed.

Lemma le_cut a b l :
  byte_list l -> length l = (a + b)%nat ->
  exists v l', l = le_bytes a v ++ l' /\ 0 <= v < 2 ^ (8 * Z.of_nat a) /\ byte_list l' /\ length l' = b.
Proof.
  intros Hl Hlen. rewrite <- (firstn_skipn a l) in Hl. apply Forall_app in Hl as [Hd Ht].
  assert (length (firstn a l) = a) as Ha by (rewrite length_firstn; lia).
  pose proof (le_bytes_le_value _ Hd) as E. pose proof (le_value_width _ Hd) as Hv. rewrite Ha in E, Hv.
  exists (le_value (firstn a l)), (skipn a l). rewrite E, firstn_skipn. split_and!; [done..|lia| |done|].
  - lia.
  - rewrite length_skipn. lia.
Qed.

(** Any 32 bytes read as a header: a magic number, then five fields. *)
Lemma header_cut h :
  string_size h = kFrameHeaderBytes ->
  exists magic v k s e n, in_width 32 magic /\ header_fits v k s e n /\
    h = bytes_text (le_bytes 4 magic ++ le_bytes 4 v ++ le_bytes 4 k ++ le_bytes 8 s ++ le_bytes 8 e ++ le_bytes 4 n).
Proof.
  intros Hh. rewrite <- string_bytes_size in Hh. unfold size, kFrameHeaderBytes in Hh.
  destruct (le_cut 4 28 (string_bytes h)) as (m & l1 & E1 & Hm & Hl1 & Hn1); [apply string_bytes_width|lia|].
  destruct (le_cut 4 24 l1) as (v & l2 & -> & Hv & Hl2 & Hn2); [done..|].
  destruct (le_cut 4 20 l2) as (k & l3 & -> & Hk & Hl3 & Hn3); [done..|].
  destruct (le_cut 8 12 l3) as (s & l4 & -> & Hs & Hl4 & Hn4); [done..|].
  destruct (le_cut 8 4 l4) as (e & l5 & -> & He & Hl5 & Hn5); [done..|].
  destruct (le_cut 4 0 l5) as (n & l6 & -> & Hn & Hl6 & Hn6); [done..|].
  destruct l6; [|done]. rewrite app_nil_r in E1. exists m, v, k, s, e, n. rewrite <- E1, bytes_text_string.
  unfold header_fits, in_width. split_and!; lia || done.
Qed.

(** A frame is sized only when it starts with a header, and is there in full. *)
Lemma FrameSize_exact bytes total :
  FrameSize bytes = Value total ->
  exists v k s e n payload trailer rest,
    header_fits v k s e n /\ n <= kMaxFrameBytes /\ total = kFrameHeaderBytes + n + 32 /\
    bytes = bytes_text (header_bytes v k s e n) +:+ (payload +:+ (trailer +:+ rest)) /\
    string_size payload = n /\ string_size trailer = 32.
Proof.
  intros Hf. destruct (Z.ltb_spec (string_size bytes) kFrameHeaderBytes) as [Hs|Hlen].
  { unfold FrameSize in Hf. by rewrite (proj2 (Z.ltb_lt _ _)) in Hf. }
  destruct (string_cut bytes kFrameHeaderBytes) as (h & t & -> & Hh); [unfold kFrameHeaderBytes in *; lia|].
  destruct (header_cut h Hh) as (m & v & k & s & e & n & Hm & Hfit & ->).
  destruct (decide (m = kFrameMagic)) as [->|Hne].
  - fold (header_bytes v k s e n) in *. rewrite FrameSize_header in Hf by done.
    destruct (Z.ltb_spec kMaxFrameBytes n), (Z.ltb_spec (string_size t) (n + 32)); [done..|].
    injection Hf as <-. pose proof (proj2 (proj2 (proj2 (proj2 Hfit)))) as Hn. unfold in_width in Hn.
    destruct (string_cut t n) as (payload & t' & -> & Hp); [lia|]. rewrite string_size_app in *.
    destruct (string_cut t' 32) as (trailer & rest & -> & Ht); [lia|].
    by exists v, k, s, e, n, payload, trailer, rest.
  - exfalso. unfold FrameSize in Hf. rewrite (proj2 (Z.ltb_ge _ _)) in Hf by done.
    rewrite <- Hh, substr_front, read_text_at, string_bytes_text in Hf.
    2:{ rewrite !Forall_app. repeat split; apply le_bytes_width. }
    rewrite <- app_assoc, codec_bind_reads in Hf by done.
    by rewrite (proj2 (Z.eqb_neq _ _)) in Hf.
Qed.

(** ** Lemmas: frames *)

(** Every digest has 32 bytes: the law of [Hasher] the transport relies on. *)
Class WideHasher `{Hasher} : Prop := hash_wide pieces : wf_bytes 32 (digest_bytes (hash_pieces pieces)).

#[export] Instance sha_wide : WideHasher (H := sha_hasher).
Proof.
  intros pieces. apply Finalize_wide. assert (length (state_ Sha_Reset) = 8%nat) as Hr by done.
  revert Hr. generalize Sha_Reset. induction pieces as [|p ps IH]; intros h Hh; [done|]. by apply IH, Update_words.
Qed.

(** The values the fields of a [Frame] can take in the code, and a payload that
    the receiver takes. *)
Definition frame_fits (f : Frame) : Prop :=
  in_width 32 (MessageKind.number (fr_kind f)) /\
  MessageKind.of_number (MessageKind.number (fr_kind f)) = fr_kind f /\
  in_width 64 (fr_sequence f) /\ in_width 64 (fr_epoch_pin f) /\ string_size (fr_payload f) <= kMaxFrameBytes.

Lemma of_number_number n : MessageKind.number (MessageKind.of_number n) = n.
Proof.
  unfold MessageKind.of_number. destruct (List.find _ _) as [k|] eqn:Hf; [|done].
  apply find_some in Hf as [_ Hk]. by apply Z.eqb_eq.
Qed.

Section frame_lemmas.
Context `{Hasher, !WideHasher}.

Definition trailer_of (body : string) : string := bytes_text (digest_bytes (hash_pieces [body])).

Lemma trailer_size body : string_size (trailer_of body) = 32.
Proof.
  destruct (hash_wide [body]) as [Hs Hb].
  unfold trailer_of. by rewrite <- string_bytes_size, string_bytes_text.
Qed.

Lemma EncodeFrameBody_header kind s e payload :
  string_size payload <= kMaxFrameBytes ->
  EncodeFrameBody kind s e payload =
  bytes_text (header_bytes kProtocolVersion (MessageKind.number kind) s e (string_size payload)) +:+ payload.
Proof.
  intros Hp. unfold EncodeFrameBody, header_bytes, Writer_U32, Writer_U64. cbv zeta. rewrite <- !app_assoc.
  rewrite wrap_small; [done|]. unfold in_width, kMaxFrameBytes, string_size in *. lia.
Qed.

Lemma payload_fits p : string_size p <= kMaxFrameBytes -> in_width 32 (string_size p).
Proof. unfold in_width, kMaxFrameBytes, string_size. lia. Qed.

(** What [DecodeFrame] makes of a header, a payload and a trailer of the right
    lengths. *)
Lemma DecodeFrame_parts v k s e payload trailer rest :
  header_fits v k s e (string_size payload) -> string_size payload <= kMaxFrameBytes -> string_size trailer = 32 ->
  let head := bytes_text (header_bytes v k s e (string_size payload)) in
  DecodeFrame (head +:+ (payload +:+ (trailer +:+ rest))) =
  if negb (String.eqb (trailer_of (head +:+ payload)) trailer) then
    Error (Failure StatusCode.IntegrityFailure "frame checksum does not match its content")
  else
    let! f := frame_of payload v k s e in Value (f, kFrameHeaderBytes + string_size payload + 32).
Proof.
  intros Hfit Hp Ht head. unfold DecodeFrame. unfold head at 1.
  rewrite FrameSize_header, !string_size_app by done.
  rewrite (proj2 (Z.ltb_ge _ _)) by done. rewrite (proj2 (Z.ltb_ge _ _)) by (unfold string_size in *; lia).
  cbv beta iota zeta.
  assert (string_size (head +:+ payload) = kFrameHeaderBytes + string_size payload + 32 - 32) as Hb.
  { rewrite string_size_app. unfold head. rewrite header_text_size. lia. }
  rewrite <- Hb, <- Ht. rewrite (string_app_assoc head), substr_front.
  rewrite substr_middle, <- (string_app_assoc head). fold (trailer_of (head +:+ payload)).
  destruct (negb _); [done|].
  assert (string_size head = kFrameHeaderBytes) as Hh by apply header_text_size.
  rewrite <- Hh at 1. rewrite substr_front, read_text_at.
  assert (string_bytes head = header_bytes v k s e (string_size payload)) as ->.
  { apply string_bytes_text, header_bytes_width. }
  destruct Hfit as (Hv & Hk & Hs & He & Hn). run_reads. unfold frame_of.
  destruct (negb (v =? kProtocolVersion)); [done|]. run_reads.
  rewrite <- Hh at 1. by rewrite substr_middle.
Qed.

Lemma EncodeFrame_parts f rest :
  frame_fits f ->
  let head := bytes_text (header_bytes kProtocolVersion (MessageKind.number (fr_kind f)) (fr_sequence f)
                (fr_epoch_pin f) (string_size (fr_payload f))) in
  EncodeFrame f +:+ rest = head +:+ (fr_payload f +:+ (trailer_of (head +:+ fr_payload f) +:+ rest)).
Proof.
  intros (_ & _ & _ & _ & Hp) head. unfold EncodeFrame. cbv zeta. rewrite EncodeFrameBody_header by done.
  by rewrite <- !string_app_assoc.
Qed.

Lemma frame_header_fits f :
  frame_fits f ->
  header_fits kProtocolVersion (MessageKind.number (fr_kind f)) (fr_sequence f) (fr_epoch_pin f)
    (string_size (fr_payload f)).
Proof. intros (Hk & _ & Hs & He & Hp). by split_and!; [..|apply payload_fits]. Qed.

Lemma EncodeFrame_size f : frame_fits f -> string_size (EncodeFrame f) = kFrameHeaderBytes + string_size (fr_payload f) + 32.
Proof.
  intros Hf. rewrite <- (string_app_nil (EncodeFrame f)), EncodeFrame_parts by done.
  rewrite !string_size_app, header_text_size, trailer_size. change (string_size "") with 0. lia.
Qed.

Lemma DecodeFrame_encoded f rest :
  frame_fits f -> DecodeFrame (EncodeFrame f +:+ rest) = Value (f, string_size (EncodeFrame f)).
Proof.
  intros Hf. rewrite EncodeFrame_size, EncodeFrame_parts by done.
  rewrite DecodeFrame_parts; [|by apply frame_header_fits|apply Hf|apply trailer_size].
  rewrite String.eqb_refl. unfold frame_of. cbn [negb kProtocolVersion Z.eqb].
  destruct Hf as (_ & Hk & _). rewrite Hk. by destruct f.
Qed.

Lemma DecodeFrame_exact bytes f n :
  DecodeFrame bytes = Value (f, n) ->
  frame_fits f /\ exists rest, bytes = EncodeFrame f +:+ rest /\ n = string_size (EncodeFrame f).
Proof.
  intros Hd. assert (exists total, FrameSize bytes = Value total) as [total Hs].
  { unfold DecodeFrame in Hd. destruct (FrameSize bytes); [by eexists|done]. }
  apply FrameSize_exact in Hs as (v & k & s & e & m & payload & trailer & rest & Hfit & Hm & -> & -> & <- & Ht).
  rewrite DecodeFrame_parts in Hd by done.
  destruct (String.eqb_spec (trailer_of (bytes_text (header_bytes v k s e (string_size payload)) +:+ payload)) trailer)
    as [E|]; [|done].
  unfold frame_of in Hd. destruct (Z.eqb_spec v kProtocolVersion) as [->|]; [|done].
  cbn [negb] in Hd. injection Hd as <- <-.
  assert (frame_fits (MkFrame (MessageKind.of_number k) s e payload)) as Hf.
  { destruct Hfit as (_ & Hk & Hs & He & _).
    unfold frame_fits; cbn [fr_kind fr_sequence fr_epoch_pin fr_payload]. by rewrite !of_number_number. }
  split; [done|]. exists rest. rewrite EncodeFrame_size, EncodeFrame_parts by done.
  cbn [fr_kind fr_sequence fr_epoch_pin fr_payload]. rewrite of_number_number. by rewrite E.
Qed.

Lemma FrameSize_prefix f p q :
  frame_fits f -> EncodeFrame f = p +:+ q -> q <> "" ->
  exists why, FrameSize p = Error (Failure StatusCode.NotFound why).
Proof.
  intros Hf E Hq.
  destruct (Z.ltb_spec (string_size p) kFrameHeaderBytes) as [Hs|Hs].
  { exists "frame header is incomplete". unfold FrameSize. by rewrite (proj2 (Z.ltb_lt _ _)). }
  exists "frame body is incomplete".
  destruct (string_cut p kFrameHeaderBytes) as (h & t & -> & Hh); [unfold kFrameHeaderBytes in *; lia|].
  pose proof (EncodeFrame_size f Hf) as Hsize. rewrite E, !string_size_app in Hsize.
  rewrite <- (string_app_nil (EncodeFrame f)), EncodeFrame_parts in E by done.
  rewrite <- string_app_assoc in E.
  assert (h = bytes_text (header_bytes kProtocolVersion (MessageKind.number (fr_kind f)) (fr_sequence f)
                (fr_epoch_pin f) (string_size (fr_payload f)))) as ->.
  { apply (f_equal (fun x => substr x 0 kFrameHeaderBytes)) in E.
    rewrite <- (header_text_size kProtocolVersion (MessageKind.number (fr_kind f)) (fr_sequence f)
      (fr_epoch_pin f) (string_size (fr_payload f))) in E at 1.
    rewrite <- Hh, !substr_front in E. done. }
  rewrite FrameSize_header by (by apply frame_header_fits).
  destruct Hf as (_ & _ & _ & _ & Hp). rewrite (proj2 (Z.ltb_ge _ _)) by done.
  rewrite (proj2 (Z.ltb_lt _ _)); [done|].
  assert (0 < string_size q) by (destruct q; [done|unfold string_size; simpl; lia]). lia.
Qed.
End frame_lemmas.

(** ** Theorems *)

(** C32: framing is a bijection.  [DecodeFrame] answers a frame, and how many
    bytes it took, exactly when the bytes start with [EncodeFrame] of that frame,
    whatever follows; so bytes that are not an encoding (a changed field, length,
    payload or checksum) are never taken for a frame. *)
Theorem frame_decoding `{Hasher, !WideHasher} (bytes : string) (f : Frame) (n : Z) :
  DecodeFrame bytes = Value (f, n) <->
  frame_fits f /\ exists rest, bytes = EncodeFrame f +:+ rest /\ n = string_size (EncodeFrame f).
Proof.
  split; [apply DecodeFrame_exact|]. intros (Hf & rest & -> & ->). by apply DecodeFrame_encoded.
Qed.

(** A stream is drained frame by frame.  Any part of an encoded frame but
    the whole of it is answered NOT_FOUND, the answer that makes the receiver
    read on; with the whole of it, and whatever the next bytes are, the size
    answered is the frame's. *)
Theorem frame_stream `{Hasher, !WideHasher} (f : Frame) :
  frame_fits f ->
  (forall p q, EncodeFrame f = p +:+ q -> q <> "" ->
     exists why, FrameSize p = Error (Failure StatusCode.NotFound why) /\
                 DecodeFrame p = Error (Failure StatusCode.NotFound why)) /\
  (forall rest, FrameSize (EncodeFrame f +:+ rest) = Value (string_size (EncodeFrame f))).
Proof.
  intros Hf. split.
  - intros p q E Hq. destruct (FrameSize_prefix f p q Hf E Hq) as [why Hs]. exists why.
    split; [done|]. unfold DecodeFrame. by rewrite Hs.
  - intros rest. pose proof (DecodeFrame_encoded f rest Hf) as Hd.
    rewrite EncodeFrame_parts by done. rewrite FrameSize_header by (by apply frame_header_fits).
    rewrite EncodeFrame_size by done. destruct Hf as (_ & _ & _ & _ & Hp).
    rewrite (proj2 (Z.ltb_ge _ _)) by done. rewrite !string_size_app, trailer_size.
    rewrite (proj2 (Z.ltb_ge _ _)) by (unfold string_size; lia). done.
Qed.

Section witnesses.
(** A cheap digest of 32 bytes for the witness. *)
#[local] Instance zero_hasher : Hasher := fun pieces => MkDigest (repeat (wrap8 (size pieces)) 32).

#[local] Instance zero_wide : WideHasher (H := zero_hasher).
Proof.
  intros p. split; [done|]. apply Forall_forall. intros x ->%list_elem_of_In%repeat_spec. by apply wrap_range.
Qed.

Definition sample_frame : Frame := MkFrame MessageKind.Cancel 7 3 "payload".

Lemma frame_stream_witness :
  frame_fits sample_frame /\ FrameSize (EncodeFrame sample_frame +:+ "next") = Value 71.
Proof.
  assert (frame_fits sample_frame) as Hf by (by vm_compute).
  split; [exact Hf|]. exact (proj2 (frame_stream sample_frame Hf) "next").
Defined.

Lemma frame_decoding_witness :
  DecodeFrame (EncodeFrame sample_frame +:+ "next") = Value (sample_frame, 71).
Proof.
  apply (proj2 (frame_decoding (EncodeFrame sample_frame +:+ "next") sample_frame 71)).
  split; [by vm_compute|]. exists "next". split; [reflexivity|by vm_compute].
Defined.
End witnesses.
