(* ===== verification/Messages.v ===== *)
(** * Messages: the payload of every message

    The second half of [src/proto.cpp]: one record per message, its encoder and
    its decoder.  [Message] is the sum of the records, by kind. *)

From S2P Require Import Prelude Status Ids Doubles Sha256 Canonical Validate Proto.

(** ** Shared readers *)

(** [ExpectEnd] and [return message;] *)
Definition finish {A} (message : A) : Reader A :=
  fun r => let st := ExpectEnd r in (if failed st then Error st else Value message, r).

(** [for (i = 0; i < count; ++i)] over one read. *)
Fixpoint read_times {A} (m : Reader A) (count : nat) : Reader (list A) :=
  match count with
  | O => rreturn []
  | S n => x <-- m ;; rest <-- read_times m n ;; rreturn (x :: rest)
  end.

Definition read_list {A} (m : Reader A) (too_many : string) : Reader (list A) :=
  count <-- Reader_U32 ;;
  if kMaxStoredPlans <? count then rfail (Failure StatusCode.LimitExceeded too_many)
  else read_times m (Z.to_nat count).

(** [SnapshotId::Parse] of a text read. *)
Definition parse_id {t} (text : string) : Reader (StrongId t) :=
  match id_Parse text with Value id => rreturn id | Error s => rfail s end.

(** ** The messages *)

Record HelloMessage := MkHello { hm_protocol_version : Z; hm_client_name : string }.

Definition EncodeHello (m : HelloMessage) : string :=
  let w := Writer_U32 [] (hm_protocol_version m) in
  let w := Writer_Text w (hm_client_name m) in
  bytes_text w.

Definition DecodeHello (payload : string) : Expected HelloMessage :=
  read_text
    (version <-- Reader_U32 ;; name <-- Reader_Text ;; finish (MkHello version name))
    payload.

Record HelloAckMessage := MkHelloAck {
  ha_protocol_version : Z; ha_library_version : string; ha_incarnation : IncarnationId; ha_epoch : Epoch;
  ha_epoch_continuity : bool; ha_has_snapshot : bool; ha_snapshot_fresh : bool; ha_snapshot_id : SnapshotId;
  ha_snapshot_generation : Generation; ha_snapshot_digest : Digest256
}.

Definition EncodeHelloAck (m : HelloAckMessage) : string :=
  let w := Writer_U32 [] (ha_protocol_version m) in
  let w := Writer_Text w (ha_library_version m) in
  let w := Writer_Incarnation w (ha_incarnation m) in
  let w := Writer_U64 w (ha_epoch m) in
  let w := Writer_Bool w (ha_epoch_continuity m) in
  let w := Writer_Bool w (ha_has_snapshot m) in
  let w := Writer_Bool w (ha_snapshot_fresh m) in
  let w := Writer_Text w (str (ha_snapshot_id m)) in
  let w := Writer_U64 w (ha_snapshot_generation m) in
  let w := Writer_Digest w (ha_snapshot_digest m) in
  bytes_text w.

Definition DecodeHelloAck (payload : string) : Expected HelloAckMessage :=
  read_text
    (version <-- Reader_U32 ;; library <-- Reader_Text ;; incarnation <-- Reader_Incarnation ;;
     epoch <-- Reader_U64 ;; continuity <-- Reader_Bool ;; has_snapshot <-- Reader_Bool ;;
     fresh <-- Reader_Bool ;; id <-- Reader_Text ;;
     snapshot_id <-- (if bool_decide (id = "") then rreturn (MkId "") else parse_id id) ;;
     generation <-- Reader_U64 ;; digest <-- Reader_Digest ;;
     finish (MkHelloAck version library incarnation epoch continuity has_snapshot fresh snapshot_id generation digest))
    payload.

Record IngestMessage := MkIngest { im_snapshot_digest : Digest256; im_snapshot_text : string }.

Definition EncodeIngest (m : IngestMessage) : string :=
  let w := Writer_Digest [] (im_snapshot_digest m) in
  let w := Writer_Text w (im_snapshot_text m) in
  bytes_text w.

Definition DecodeIngest (payload : string) : Expected IngestMessage :=
  read_text (digest <-- Reader_Digest ;; text <-- Reader_Text ;; finish (MkIngest digest text)) payload.

Record IngestAckMessage := MkIngestAck {
  ia_snapshot_id : SnapshotId; ia_generation : Generation; ia_snapshot_digest : Digest256
}.

Definition EncodeIngestAck (m : IngestAckMessage) : string :=
  let w := Writer_Text [] (str (ia_snapshot_id m)) in
  let w := Writer_U64 w (ia_generation m) in
  let w := Writer_Digest w (ia_snapshot_digest m) in
  bytes_text w.

Definition DecodeIngestAck (payload : string) : Expected IngestAckMessage :=
  read_text
    (id <-- Reader_Text ;; snapshot_id <-- parse_id id ;; generation <-- Reader_U64 ;; digest <-- Reader_Digest ;;
     finish (MkIngestAck snapshot_id generation digest))
    payload.

Record PlanMessage := MkPlanMessage { pm_cancel_token : Z; pm_request_text : string }.

Definition EncodePlan (m : PlanMessage) : string :=
  let w := Writer_U64 [] (pm_cancel_token m) in
  let w := Writer_Text w (pm_request_text m) in
  bytes_text w.

Definition DecodePlan (payload : string) : Expected PlanMessage :=
  read_text (token <-- Reader_U64 ;; text <-- Reader_Text ;; finish (MkPlanMessage token text)) payload.

Record PlanAckMessage := MkPlanAck { pa_result_text : string }.

Definition EncodePlanAck (m : PlanAckMessage) : string := bytes_text (Writer_Text [] (pa_result_text m)).

Definition DecodePlanAck (payload : string) : Expected PlanAckMessage :=
  read_text (text <-- Reader_Text ;; finish (MkPlanAck text)) payload.

Record ValidateMessage := MkValidate { vm_policy : ValidationPolicy; vm_plan_text : string }.

Definition EncodeValidate (m : ValidateMessage) : string :=
  let w := Writer_Bool [] (vp_accept_restored_evidence (vm_policy m)) in
  let w := Writer_Bool w (vp_revalidate_on_mismatch (vm_policy m)) in
  let w := Writer_Text w (vm_plan_text m) in
  bytes_text w.

Definition DecodeValidate (payload : string) : Expected ValidateMessage :=
  read_text
    (accept <-- Reader_Bool ;; revalidate <-- Reader_Bool ;; text <-- Reader_Text ;;
     finish (MkValidate (MkPolicy accept revalidate) text))
    payload.

Definition PlanValidity_all : list PlanValidity.t :=
  [PlanValidity.Valid; PlanValidity.Stale; PlanValidity.ContentMismatch; PlanValidity.MissingEvidence;
   PlanValidity.IntegrityFailure; PlanValidity.Unsupported; PlanValidity.Refused; PlanValidity.NotFresh].

Definition PlanValidity_number (v : PlanValidity.t) : Z :=
  match v with
  | PlanValidity.Valid => 0 | PlanValidity.Stale => 1 | PlanValidity.ContentMismatch => 2
  | PlanValidity.MissingEvidence => 3 | PlanValidity.IntegrityFailure => 4 | PlanValidity.Unsupported => 5
  | PlanValidity.Refused => 6 | PlanValidity.NotFresh => 7
  end.

Record ValidateAckMessage := MkValidateAck { va_validity : PlanValidity.t; va_report_text : string }.

Definition EncodeValidateAck (m : ValidateAckMessage) : string :=
  let w := Writer_U32 [] (PlanValidity_number (va_validity m)) in
  let w := Writer_Text w (va_report_text m) in
  bytes_text w.

(** The range check and the cast at once. *)
Definition read_validity : Reader PlanValidity.t :=
  validity <-- Reader_U32 ;;
  match List.find (fun v => PlanValidity_number v =? validity) PlanValidity_all with
  | None => rfail (Failure StatusCode.MalformedInput "validation validity value is not recognised")
  | Some v => rreturn v
  end.

Definition DecodeValidateAck (payload : string) : Expected ValidateAckMessage :=
  read_text (validity <-- read_validity ;; text <-- Reader_Text ;; finish (MkValidateAck validity text)) payload.

Record GetPlanMessage := MkGetPlan { gm_digest : Digest256 }.

Definition EncodeGetPlan (m : GetPlanMessage) : string := bytes_text (Writer_Digest [] (gm_digest m)).

Definition DecodeGetPlan (payload : string) : Expected GetPlanMessage :=
  read_text (digest <-- Reader_Digest ;; finish (MkGetPlan digest)) payload.

Record GetPlanAckMessage := MkGetPlanAck { ga_digest : Digest256; ga_plan_text : string }.

Definition EncodeGetPlanAck (m : GetPlanAckMessage) : string :=
  let w := Writer_Digest [] (ga_digest m) in
  let w := Writer_Text w (ga_plan_text m) in
  bytes_text w.

Definition DecodeGetPlanAck (payload : string) : Expected GetPlanAckMessage :=
  read_text (digest <-- Reader_Digest ;; text <-- Reader_Text ;; finish (MkGetPlanAck digest text)) payload.

Definition EncodeStoreList : string := "".

Record StoreListAckMessage := MkStoreListAck { sa_digests : list Digest256; sa_rejected_files : list string }.

Definition EncodeStoreListAck (m : StoreListAckMessage) : string :=
  let w := Writer_U32 [] (wrap32 (size (sa_digests m))) in
  let w := fold_left Writer_Digest (sa_digests m) w in
  let w := Writer_U32 w (wrap32 (size (sa_rejected_files m))) in
  let w := fold_left Writer_Text (sa_rejected_files m) w in
  bytes_text w.

Definition DecodeStoreListAck (payload : string) : Expected StoreListAckMessage :=
  read_text
    (digests <-- read_list Reader_Digest "store listing exceeds the permitted number of entries" ;;
     rejected <-- read_list Reader_Text "store rejection list exceeds the permitted number of entries" ;;
     finish (MkStoreListAck digests rejected))
    payload.

Record CancelMessage := MkCancel { cm_cancel_token : Z }.

Definition EncodeCancel (m : CancelMessage) : string := bytes_text (Writer_U64 [] (cm_cancel_token m)).

Definition DecodeCancel (payload : string) : Expected CancelMessage :=
  read_text (token <-- Reader_U64 ;; finish (MkCancel token)) payload.

Record CancelAckMessage := MkCancelAck { ca_found : bool }.

Definition EncodeCancelAck (m : CancelAckMessage) : string := bytes_text (Writer_Bool [] (ca_found m)).

Definition DecodeCancelAck (payload : string) : Expected CancelAckMessage :=
  read_text (found <-- Reader_Bool ;; finish (MkCancelAck found)) payload.

Definition EncodeStats : string := "".

Record StatsAckMessage := MkStatsAck {
  st_incarnation : IncarnationId; st_epoch : Epoch; st_connections_accepted : Z; st_frames_handled : Z;
  st_frames_rejected : Z; st_snapshots_ingested : Z; st_plans_computed : Z; st_plans_rejected : Z;
  st_plans_cancelled : Z; st_active_requests : Z; st_stored_plans : Z; st_fenced_frames : Z
}.

Definition EncodeStatsAck (m : StatsAckMessage) : string :=
  let w := Writer_Incarnation [] (st_incarnation m) in
  let w := Writer_U64 w (st_epoch m) in
  let w := Writer_U64 w (st_connections_accepted m) in
  let w := Writer_U64 w (st_frames_handled m) in
  let w := Writer_U64 w (st_frames_rejected m) in
  let w := Writer_U64 w (st_snapshots_ingested m) in
  let w := Writer_U64 w (st_plans_computed m) in
  let w := Writer_U64 w (st_plans_rejected m) in
  let w := Writer_U64 w (st_plans_cancelled m) in
  let w := Writer_U64 w (st_active_requests m) in
  let w := Writer_U64 w (st_stored_plans m) in
  let w := Writer_U64 w (st_fenced_frames m) in
  bytes_text w.

Definition DecodeStatsAck (payload : string) : Expected StatsAckMessage :=
  read_text
    (incarnation <-- Reader_Incarnation ;; epoch <-- Reader_U64 ;; accepted <-- Reader_U64 ;;
     handled <-- Reader_U64 ;; rejected <-- Reader_U64 ;; ingested <-- Reader_U64 ;; computed <-- Reader_U64 ;;
     plans_rejected <-- Reader_U64 ;; cancelled <-- Reader_U64 ;; active <-- Reader_U64 ;; stored <-- Reader_U64 ;;
     fenced <-- Reader_U64 ;;
     finish (MkStatsAck incarnation epoch accepted handled rejected ingested computed plans_rejected cancelled
               active stored fenced))
    payload.

(** The decoder casts any number to the enumeration, so the code of a failure
    message is kept as its number. *)
Record FailureMessage := MkFailureMessage { fm_code : Z; fm_detail : string }.

Definition EncodeFailure (m : FailureMessage) : string :=
  let w := Writer_U32 [] (fm_code m) in
  let w := Writer_Text w (fm_detail m) in
  bytes_text w.

Definition DecodeFailure (payload : string) : Expected FailureMessage :=
  read_text (code <-- Reader_U32 ;; detail <-- Reader_Text ;; finish (MkFailureMessage code detail)) payload.

(** [static_cast<std::uint32_t>(code)] *)
Definition StatusCode_number (c : StatusCode.t) : Z :=
  match c with
  | StatusCode.Ok => 0 | StatusCode.InvalidArgument => 1 | StatusCode.MalformedInput => 2
  | StatusCode.LimitExceeded => 3 | StatusCode.DuplicateIdentity => 4 | StatusCode.NotFound => 5
  | StatusCode.ConflictingEvidence => 6 | StatusCode.Unsupported => 7 | StatusCode.Stale => 8
  | StatusCode.Fenced => 9 | StatusCode.Cancelled => 10 | StatusCode.Truncated => 11
  | StatusCode.IntegrityFailure => 12 | StatusCode.IoFailure => 13 | StatusCode.Refused => 14
  | StatusCode.Exhausted => 15 | StatusCode.Overflow => 16 | StatusCode.Internal => 17
  end.

Definition MakeFailureFrame (sequence : Z) (epoch_pin : Epoch) (s : Status) : Frame :=
  MkFrame MessageKind.Failure sequence epoch_pin
    (EncodeFailure (MkFailureMessage (StatusCode_number (code s)) (detail s))).

(** ** The sum of the messages *)

Inductive Message :=
| AHello (m : HelloMessage) | AHelloAck (m : HelloAckMessage) | AIngest (m : IngestMessage)
| AnIngestAck (m : IngestAckMessage) | APlan (m : PlanMessage) | APlanAck (m : PlanAckMessage)
| AValidate (m : ValidateMessage) | AValidateAck (m : ValidateAckMessage) | AGetPlan (m : GetPlanMessage)
| AGetPlanAck (m : GetPlanAckMessage) | AStoreListAck (m : StoreListAckMessage) | ACancel (m : CancelMessage)
| ACancelAck (m : CancelAckMessage) | AStatsAck (m : StatsAckMessage) | AFailure (m : FailureMessage).

Definition kind_of (x : Message) : MessageKind.t :=
  match x with
  | AHello _ => MessageKind.Hello | AHelloAck _ => MessageKind.HelloAck | AIngest _ => MessageKind.Ingest
  | AnIngestAck _ => MessageKind.IngestAck | APlan _ => MessageKind.Plan | APlanAck _ => MessageKind.PlanAck
  | AValidate _ => MessageKind.Validate | AValidateAck _ => MessageKind.ValidateAck
  | AGetPlan _ => MessageKind.GetPlan | AGetPlanAck _ => MessageKind.GetPlanAck
  | AStoreListAck _ => MessageKind.StoreListAck | ACancel _ => MessageKind.Cancel
  | ACancelAck _ => MessageKind.CancelAck | AStatsAck _ => MessageKind.StatsAck | AFailure _ => MessageKind.Failure
  end.

Definition encode (x : Message) : string :=
  match x with
  | AHello m => EncodeHello m | AHelloAck m => EncodeHelloAck m | AIngest m => EncodeIngest m
  | AnIngestAck m => EncodeIngestAck m | APlan m => EncodePlan m | APlanAck m => EncodePlanAck m
  | AValidate m => EncodeValidate m | AValidateAck m => EncodeValidateAck m | AGetPlan m => EncodeGetPlan m
  | AGetPlanAck m => EncodeGetPlanAck m | AStoreListAck m => EncodeStoreListAck m | ACancel m => EncodeCancel m
  | ACancelAck m => EncodeCancelAck m | AStatsAck m => EncodeStatsAck m | AFailure m => EncodeFailure m
  end.

Definition expected_map {A B} (f : A -> B) (e : Expected A) : Expected B := let! a := e in Value (f a).

(** The decoder of each kind that carries a payload. *)
Definition decode (kind : MessageKind.t) (payload : string) : Expected Message :=
  match kind with
  | MessageKind.Hello => expected_map AHello (DecodeHello payload)
  | MessageKind.HelloAck => expected_map AHelloAck (DecodeHelloAck payload)
  | MessageKind.Ingest => expected_map AIngest (DecodeIngest payload)
  | MessageKind.IngestAck => expected_map AnIngestAck (DecodeIngestAck payload)
  | MessageKind.Plan => expected_map APlan (DecodePlan payload)
  | MessageKind.PlanAck => expected_map APlanAck (DecodePlanAck payload)
  | MessageKind.Validate => expected_map AValidate (DecodeValidate payload)
  | MessageKind.ValidateAck => expected_map AValidateAck (DecodeValidateAck payload)
  | MessageKind.GetPlan => expected_map AGetPlan (DecodeGetPlan payload)
  | MessageKind.GetPlanAck => expected_map AGetPlanAck (DecodeGetPlanAck payload)
  | MessageKind.StoreListAck => expected_map AStoreListAck (DecodeStoreListAck payload)
  | MessageKind.Cancel => expected_map ACancel (DecodeCancel payload)
  | MessageKind.CancelAck => expected_map ACancelAck (DecodeCancelAck payload)
  | MessageKind.StatsAck => expected_map AStatsAck (DecodeStatsAck payload)
  | MessageKind.Failure => expected_map AFailure (DecodeFailure payload)
  | _ => Error (Failure StatusCode.Unsupported "no payload")
  end.

(** The values the fields have in the code, within the bounds of the wire. *)
Definition digest_fits (d : Digest256) : Prop := wf_bytes 32 (digest_bytes d).
Definition incarnation_fits (i : IncarnationId) : Prop := wf_bytes 16 (incarnation_bytes i).
Definition id_fits {t} (id : StrongId t) : Prop := IsValidIdText (str id) = true.
Definition list_fits {A} (ok : A -> Prop) (l : list A) : Prop := size l <= kMaxStoredPlans /\ Forall ok l.

Definition message_fits (x : Message) : Prop :=
  match x with
  | AHello (MkHello v n) => in_width 32 v /\ text_fits n
  | AHelloAck (MkHelloAck v l i e _ _ _ id g d) =>
      in_width 32 v /\ text_fits l /\ incarnation_fits i /\ in_width 64 e /\ (str id = "" \/ id_fits id) /\
      in_width 64 g /\ digest_fits d
  | AIngest (MkIngest d t) => digest_fits d /\ text_fits t
  | AnIngestAck (MkIngestAck id g d) => id_fits id /\ in_width 64 g /\ digest_fits d
  | APlan (MkPlanMessage c t) => in_width 64 c /\ text_fits t
  | APlanAck (MkPlanAck t) => text_fits t
  | AValidate (MkValidate _ t) => text_fits t
  | AValidateAck (MkValidateAck _ t) => text_fits t
  | AGetPlan (MkGetPlan d) => digest_fits d
  | AGetPlanAck (MkGetPlanAck d t) => digest_fits d /\ text_fits t
  | AStoreListAck (MkStoreListAck ds fs) => list_fits digest_fits ds /\ list_fits text_fits fs
  | ACancel (MkCancel c) => in_width 64 c
  | ACancelAck (MkCancelAck _) => True
  | AStatsAck (MkStatsAck i e a h r s c p x y z f) =>
      incarnation_fits i /\ in_width 64 e /\ in_width 64 a /\ in_width 64 h /\ in_width 64 r /\ in_width 64 s /\
      in_width 64 c /\ in_width 64 p /\ in_width 64 x /\ in_width 64 y /\ in_width 64 z /\ in_width 64 f
  | AFailure (MkFailureMessage c t) => in_width 32 c /\ text_fits t
  end.

(** ** Lemmas: the codecs of composite fields *)

Lemma Writer_Text_fits w t : text_fits t -> Writer_Text w t = w ++ text_bytes t.
Proof.
  intros Ht. unfold Writer_Text, Writer_Bytes, Writer_U32, text_bytes. rewrite string_bytes_size.
  rewrite wrap_small, <- app_assoc; [done|]. unfold in_width, text_fits, u32_max, string_size in *. lia.
Qed.

Definition all_bytes {A} (enc : A -> list Z) (l : list A) : list Z := concat (map enc l).
Definition list_bytes {A} (enc : A -> list Z) (l : list A) : list Z := le_bytes 4 (size l) ++ all_bytes enc l.

#[export] Instance codec_times {A} {m : Reader A} {enc ok} `{!Codec m enc ok} n :
  Codec (read_times m n) (all_bytes enc) (fun l => length l = n /\ Forall ok l).
Proof.
  induction n as [|n IH]; split; cbn [read_times].
  - by intros [] [].
  - by intros [|] before rest []; simpl; rewrite ?app_nil_r.
  - intros l before rest r _ [= <- <-]. split; [by split|]. exists rest. by rewrite app_nil_r.
  - intros l [Hn Hl]. apply List.Forall_forall. intros x (b & (a & <- & Ha)%in_map_iff & Hx)%in_concat.
    rewrite List.Forall_forall in Hl. pose proof (codec_bytes a (Hl a Ha)) as Hb.
    rewrite List.Forall_forall in Hb. by apply Hb.
  - intros [|a l] before rest [Hn Hl]; [done|]. apply Forall_cons in Hl as [Ha Hl]. injection Hn as Hn.
    change (all_bytes enc (a :: l)) with (enc a ++ all_bytes enc l).
    rewrite <- app_assoc, codec_bind_reads by done. rewrite codec_bind_reads by done.
    unfold rreturn. by rewrite <- app_assoc.
  - intros l before rest r Hw Hr. apply codec_bind_exact in Hr as (a & r1 & Ha & -> & H1 & Hr); [|done].
    apply codec_bind_exact in Hr as (l' & r2 & [Hn Hl] & -> & H2 & Hr); [|done]. injection Hr as <- <-.
    split; [split; [simpl; by f_equal|by constructor]|]. exists r2.
    change (all_bytes enc (a :: l')) with (enc a ++ all_bytes enc l'). by rewrite <- !app_assoc.
Qed.

Lemma codec_list {A} (m : Reader A) enc ok too_many :
  Codec m enc ok ->
  Codec (read_list m too_many) (list_bytes enc) (list_fits ok).
Proof.
  intros Hc. unfold read_list, list_fits, list_bytes, kMaxStoredPlans. split.
  - intros l [Hs Hl]. apply Forall_app. split; [apply le_bytes_width|].
    by apply (codec_bytes (Codec := codec_times (length l))).
  - intros l before rest [Hs Hl]. rewrite <- app_assoc.
    assert (in_width 32 (size l)) as Hw by (unfold in_width, size in *; lia).
    rewrite codec_bind_reads by done. rewrite (proj2 (Z.ltb_ge _ _)) by done.
    replace (Z.to_nat (size l)) with (length l) by (unfold size; lia).
    rewrite (codec_reads (Codec := codec_times (length l))) by done. by rewrite <- app_assoc.
  - intros l before rest r Hw Hr. apply codec_bind_exact in Hr as (n & r1 & Hn & -> & H1 & Hr); [|done].
    destruct (Z.ltb_spec 100000 n); [done|].
    apply (codec_exact (Codec := codec_times (Z.to_nat n))) in Hr as ([Hlen Hl] & r2 & -> & ->); [|done].
    unfold in_width in Hn. assert (size l = n) as -> by (unfold size; lia).
    split; [done|]. exists r2. by rewrite <- !app_assoc.
Qed.

#[export] Instance codec_digests t : Codec (read_list Reader_Digest t) _ _ := codec_list _ _ _ t _.
#[export] Instance codec_texts t : Codec (read_list Reader_Text t) _ _ := codec_list _ _ _ t _.

Definition validity_bytes (v : PlanValidity.t) : list Z := le_bytes 4 (PlanValidity_number v).

#[export] Instance codec_validity : Codec read_validity validity_bytes (fun _ => True).
Proof.
  unfold validity_bytes. split.
  - intros v _. apply le_bytes_width.
  - intros v before rest _. unfold read_validity. rewrite codec_bind_reads by (by destruct v). by destruct v.
  - intros v before rest r Hw Hr. apply codec_bind_exact in Hr as (n & r1 & Hn & -> & H1 & Hr); [|done].
    destruct (List.find _ _) as [v'|] eqn:Hf; [|done]. injection Hr as <- <-.
    apply find_some in Hf as [_ Hf]. apply Z.eqb_eq in Hf as <-. split; [done|]. by exists r1.
Qed.

(** ** Lemmas: whole payloads *)

Definition value_of {A} (p : Expected A * ByteReader) : Expected A := fst p.

Lemma value_bind {A B} {m : Reader A} {enc ok} `{!Codec m enc ok} (k : A -> Reader B) b before rest :
  byte_list rest -> fst (rbind m k (reader_at before rest)) = Value b ->
  exists a rest', ok a /\ rest = enc a ++ rest' /\ byte_list rest' /\
    fst (k a (reader_at (before ++ enc a) rest')) = Value b.
Proof.
  intros Hw. destruct (rbind m k (reader_at before rest)) as [e r] eqn:Hr. cbn [fst]. intros ->.
  apply codec_bind_exact in Hr as (a & rest' & Ha & E & Hw' & Hk); [|done]. exists a, rest'. by rewrite Hk.
Qed.

Lemma value_finish {A} (a b : A) before rest :
  fst (finish a (reader_at before rest)) = Value b <-> a = b /\ rest = [].
Proof.
  unfold finish, ExpectEnd, AtEnd, reader_at. cbn [offset_ bytes_]. rewrite length_app.
  destruct (Nat.eqb_spec (length before) (length before + length rest)) as [E|E]; simpl.
  - assert (rest = []) as -> by (destruct rest; [done|simpl in E; lia]). split; [by intros [= ->]|by intros [-> _]].
  - split; [done|]. intros [_ ->]. simpl in E. lia.
Qed.

Lemma value_parse_id {t B} (k : StrongId t -> Reader B) text r b :
  fst (rbind (parse_id text) k r) = Value b <-> IsValidIdText text = true /\ fst (k (MkId text) r) = Value b.
Proof.
  unfold parse_id, id_Parse, rbind. destruct (IsValidIdText text); cbn [negb].
  - unfold rreturn. tauto.
  - split; [done|]. by intros [].
Qed.

Lemma value_optional_id {t B} (k : StrongId t -> Reader B) text r b :
  fst (rbind (if bool_decide (text = "") then rreturn (MkId "") else parse_id text) k r) = Value b <->
  (text = "" \/ IsValidIdText text = true) /\ fst (k (MkId text) r) = Value b.
Proof.
  case_bool_decide as E.
  - subst. unfold rbind, rreturn. naive_solver.
  - rewrite value_parse_id. naive_solver.
Qed.

Lemma text_bytes_width t : byte_list (text_bytes t).
Proof. unfold text_bytes. apply Forall_app. split; [apply le_bytes_width|apply string_bytes_width]. Qed.

Lemma list_bytes_width {A} {m : Reader A} enc {ok} `{!Codec m enc ok} l : list_fits ok l -> byte_list (list_bytes enc l).
Proof.
  intros [_ Hl]. apply Forall_app. split; [apply le_bytes_width|].
  by apply (codec_bytes (Codec := codec_times (length l))).
Qed.

Lemma fold_Writer_Digest ds w : fold_left Writer_Digest ds w = w ++ all_bytes digest_bytes ds.
Proof.
  revert w; induction ds as [|d ds IH]; intros w; cbn [fold_left]; [by rewrite app_nil_r|].
  rewrite IH. unfold Writer_Digest. by rewrite <- app_assoc.
Qed.

Lemma fold_Writer_Text ts w : Forall text_fits ts -> fold_left Writer_Text ts w = w ++ all_bytes text_bytes ts.
Proof.
  intros Hts. revert w; induction Hts as [|t ts Ht Hts IH]; intros w; cbn [fold_left]; [by rewrite app_nil_r|].
  rewrite IH, Writer_Text_fits by done. by rewrite <- app_assoc.
Qed.

Lemma list_count {A} ok (l : list A) : list_fits ok l -> wrap32 (size l) = size l.
Proof.
  intros [Hs _]. apply wrap_small. unfold in_width, kMaxStoredPlans, size in *. lia.
Qed.

Lemma Writer_digests w ds :
  list_fits digest_fits ds ->
  fold_left Writer_Digest ds (Writer_U32 w (wrap32 (size ds))) = w ++ list_bytes digest_bytes ds.
Proof.
  intros Hds. rewrite fold_Writer_Digest, (list_count _ _ Hds). unfold Writer_U32, list_bytes. by rewrite <- app_assoc.
Qed.

Lemma Writer_texts w ts :
  list_fits text_fits ts -> fold_left Writer_Text ts (Writer_U32 w (wrap32 (size ts))) = w ++ list_bytes text_bytes ts.
Proof.
  intros Hts. rewrite fold_Writer_Text, (list_count _ _ Hts) by apply Hts.
  unfold Writer_U32, list_bytes. by rewrite <- app_assoc.
Qed.

Lemma Writer_Bool_bytes w b : Writer_Bool w b = w ++ bool_bytes b.
Proof. done. Qed.

Lemma Writer_validity w v : Writer_U32 w (PlanValidity_number v) = w ++ validity_bytes v.
Proof. done. Qed.

(** The text a writer leaves, as the encodings of the fields in order. *)
Ltac field_bytes :=
  cbv zeta;
  cbn [
    hm_protocol_version hm_client_name ha_protocol_version ha_library_version ha_incarnation ha_epoch
    ha_epoch_continuity ha_has_snapshot ha_snapshot_fresh ha_snapshot_id ha_snapshot_generation
    ha_snapshot_digest im_snapshot_digest im_snapshot_text ia_snapshot_id ia_generation ia_snapshot_digest
    pm_cancel_token pm_request_text pa_result_text vm_policy vm_plan_text va_validity va_report_text
    gm_digest ga_digest ga_plan_text sa_digests sa_rejected_files cm_cancel_token ca_found st_incarnation
    st_epoch st_connections_accepted st_frames_handled st_frames_rejected st_snapshots_ingested
    st_plans_computed st_plans_rejected st_plans_cancelled st_active_requests st_stored_plans
    st_fenced_frames fm_code fm_detail vp_accept_restored_evidence vp_revalidate_on_mismatch str];
  rewrite ?Writer_Bool_bytes, ?Writer_validity; rewrite ?Writer_digests, ?Writer_texts by done;
  unfold Writer_U32, Writer_U64, Writer_Digest, Writer_Incarnation;
  rewrite ?Writer_Text_fits by done; rewrite <- ?app_assoc; cbn [app].

Ltac byte_lists :=
  first
    [ apply le_bytes_width | apply text_bytes_width | by apply (codec_bytes (Codec := codec_bool))
    | by apply (list_bytes_width digest_bytes (ok := digest_fits)) | by apply (list_bytes_width text_bytes (ok := text_fits))
    | match goal with H : wf_bytes _ ?l |- byte_list ?l => exact (proj2 H) end
    | apply Forall_app; split; byte_lists ].

Lemma id_text_fits s : s = "" \/ IsValidIdText s = true -> text_fits s.
Proof.
  unfold text_fits, u32_max. intros [->|Hs]; [by vm_compute|]. destruct s as [|c s]; [by vm_compute|].
  unfold IsValidIdText in Hs. destruct (Z.ltb_spec kMaxIdLength (string_size (String c s))) as [|Hle]; [done|].
  unfold kMaxIdLength in Hle. lia.
Qed.

(** An identity read back fits a text. *)
Ltac note_ids :=
  repeat match goal with
  | H : IsValidIdText ?s = true |- _ =>
      lazymatch goal with _ : text_fits s |- _ => fail | _ => pose proof (id_text_fits s (or_intror H)) end
  | H : ?s = "" \/ IsValidIdText ?s = true |- _ =>
      lazymatch goal with _ : text_fits s |- _ => fail | _ => pose proof (id_text_fits s H) end
  end.

(** The encodings read off a run of a decoder that answered. *)
Ltac decode_exact H :=
  rewrite read_text_at, app_nil_r in H;
  repeat first
    [ apply value_finish in H as [<- ->]
    | apply value_optional_id in H as [? H]
    | apply value_parse_id in H as [? H]
    | apply value_bind in H as (? & ? & ? & ? & ? & H); [|first [assumption | apply string_bytes_width]] ];
  subst;
  match goal with E : string_bytes ?p = _ |- _ => rewrite <- (bytes_text_string p), E end.

(** Both directions of a decoder [dec] and its encoder [enc], for the message [m]. *)
Ltac decoder_law m dec enc :=
  split;
  [ let Hd := fresh "Hd" in
    intros Hd; unfold dec in Hd; decode_exact Hd; split;
    [cbn [message_fits]; unfold digest_fits, incarnation_fits, id_fits in *; cbn [str]; by tauto | unfold enc; field_bytes; by rewrite ?app_nil_r]
  | let Hf := fresh "Hf" in
    intros [Hf <-];
    destruct m; cbn [message_fits] in Hf;
    try match goal with i : SnapshotId |- _ => destruct i | q : ValidationPolicy |- _ => destruct q end;
    unfold digest_fits, incarnation_fits, id_fits in *; cbn [str] in *; destruct_and?; note_ids;
    unfold enc; field_bytes; unfold dec;
    rewrite read_text_at, string_bytes_text by byte_lists; rewrite <- ?app_assoc;
    repeat first
      [ rewrite codec_bind_reads by done
      | apply value_finish; done
      | apply value_parse_id; split; [done|]
      | apply value_optional_id; split; [done|] ] ].

Lemma DecodeHello_law p m : DecodeHello p = Value m <-> message_fits (AHello m) /\ EncodeHello m = p.
Proof. decoder_law m DecodeHello EncodeHello. Qed.

Lemma DecodeHelloAck_law p m : DecodeHelloAck p = Value m <-> message_fits (AHelloAck m) /\ EncodeHelloAck m = p.
Proof. decoder_law m DecodeHelloAck EncodeHelloAck. Qed.

Lemma DecodeIngest_law p m : DecodeIngest p = Value m <-> message_fits (AIngest m) /\ EncodeIngest m = p.
Proof. decoder_law m DecodeIngest EncodeIngest. Qed.

Lemma DecodeIngestAck_law p m : DecodeIngestAck p = Value m <-> message_fits (AnIngestAck m) /\ EncodeIngestAck m = p.
Proof. decoder_law m DecodeIngestAck EncodeIngestAck. Qed.

Lemma DecodePlan_law p m : DecodePlan p = Value m <-> message_fits (APlan m) /\ EncodePlan m = p.
Proof. decoder_law m DecodePlan EncodePlan. Qed.

Lemma DecodePlanAck_law p m : DecodePlanAck p = Value m <-> message_fits (APlanAck m) /\ EncodePlanAck m = p.
Proof. decoder_law m DecodePlanAck EncodePlanAck. Qed.

Lemma DecodeValidate_law p m : DecodeValidate p = Value m <-> message_fits (AValidate m) /\ EncodeValidate m = p.
Proof. decoder_law m DecodeValidate EncodeValidate. Qed.

Lemma DecodeValidateAck_law p m : DecodeValidateAck p = Value m <-> message_fits (AValidateAck m) /\ EncodeValidateAck m = p.
Proof. decoder_law m DecodeValidateAck EncodeValidateAck. Qed.

Lemma DecodeGetPlan_law p m : DecodeGetPlan p = Value m <-> message_fits (AGetPlan m) /\ EncodeGetPlan m = p.
Proof. decoder_law m DecodeGetPlan EncodeGetPlan. Qed.

Lemma DecodeGetPlanAck_law p m : DecodeGetPlanAck p = Value m <-> message_fits (AGetPlanAck m) /\ EncodeGetPlanAck m = p.
Proof. decoder_law m DecodeGetPlanAck EncodeGetPlanAck. Qed.

Lemma DecodeStoreListAck_law p m : DecodeStoreListAck p = Value m <-> message_fits (AStoreListAck m) /\ EncodeStoreListAck m = p.
Proof. decoder_law m DecodeStoreListAck EncodeStoreListAck. Qed.

Lemma DecodeCancel_law p m : DecodeCancel p = Value m <-> message_fits (ACancel m) /\ EncodeCancel m = p.
Proof. decoder_law m DecodeCancel EncodeCancel. Qed.

Lemma DecodeCancelAck_law p m : DecodeCancelAck p = Value m <-> message_fits (ACancelAck m) /\ EncodeCancelAck m = p.
Proof. decoder_law m DecodeCancelAck EncodeCancelAck. Qed.

Lemma DecodeStatsAck_law p m : DecodeStatsAck p = Value m <-> message_fits (AStatsAck m) /\ EncodeStatsAck m = p.
Proof. decoder_law m DecodeStatsAck EncodeStatsAck. Qed.

Lemma DecodeFailure_law p m : DecodeFailure p = Value m <-> message_fits (AFailure m) /\ EncodeFailure m = p.
Proof. decoder_law m DecodeFailure EncodeFailure. Qed.

(** ** Theorems *)

Lemma expected_map_value {A B} (f : A -> B) e b : expected_map f e = Value b <-> exists a, e = Value a /\ b = f a.
Proof. unfold expected_map. destruct e as [a|]; naive_solver. Qed.

(** C33: payloads and messages are in bijection, for every kind.  A payload
    decodes to a message exactly when it is what the encoder of that kind writes
    for it: every field comes back, and no other payload (a flag that is neither
    0 nor 1, an unknown verdict, an identity with foreign characters, a wrong
    length, bytes left over) decodes at all. *)
Theorem message_codec (kind : MessageKind.t) (payload : string) (x : Message) :
  decode kind payload = Value x <-> message_fits x /\ kind_of x = kind /\ encode x = payload.
Proof.
  split.
  - destruct kind; cbn [decode]; try done; intros (m & Hd & ->)%expected_map_value;
      revert Hd; rewrite ?DecodeHello_law, ?DecodeHelloAck_law, ?DecodeIngest_law, ?DecodeIngestAck_law,
        ?DecodePlan_law, ?DecodePlanAck_law, ?DecodeValidate_law, ?DecodeValidateAck_law, ?DecodeGetPlan_law,
        ?DecodeGetPlanAck_law, ?DecodeStoreListAck_law, ?DecodeCancel_law, ?DecodeCancelAck_law,
        ?DecodeStatsAck_law, ?DecodeFailure_law;
      by intros [Hf He].
  - intros (Hf & <- & <-). destruct x as [m|m|m|m|m|m|m|m|m|m|m|m|m|m|m]; cbn [decode kind_of encode];
      apply expected_map_value; exists m; (split; [|done]);
      first [ by apply DecodeHello_law | by apply DecodeHelloAck_law | by apply DecodeIngest_law
            | by apply DecodeIngestAck_law | by apply DecodePlan_law | by apply DecodePlanAck_law
            | by apply DecodeValidate_law | by apply DecodeValidateAck_law | by apply DecodeGetPlan_law
            | by apply DecodeGetPlanAck_law | by apply DecodeStoreListAck_law | by apply DecodeCancel_law
            | by apply DecodeCancelAck_law | by apply DecodeStatsAck_law | by apply DecodeFailure_law ].
Qed.

Lemma StatusCode_number_inj a b : StatusCode_number a = StatusCode_number b -> a = b.
Proof. by destruct a, b. Qed.

Lemma text_bytes_size t : size (text_bytes t) = 4 + string_size t.
Proof.
  pose proof (string_bytes_size t) as E. unfold text_bytes, size in *. rewrite length_app, le_bytes_length. lia.
Qed.

Lemma EncodeFailure_size c t : text_fits t -> string_size (EncodeFailure (MkFailureMessage c t)) = 8 + string_size t.
Proof.
  intros Ht. unfold EncodeFailure. field_bytes. rewrite <- string_bytes_size, string_bytes_text by byte_lists.
  pose proof (text_bytes_size t) as E. unfold size in *. rewrite length_app, le_bytes_length. lia.
Qed.

(** A rejection reaches the caller unchanged.  The frame made from a
    status decodes to a failure with the same code, number for number, the same
    detail, and the sequence number and epoch it was made with. *)
Theorem failure_reaches_caller `{Hasher, !WideHasher} (sequence : Z) (epoch : Epoch) (s : Status) (rest : string) :
  in_width 64 sequence -> in_width 64 epoch -> string_size (detail s) <= kMaxFrameBytes - 8 ->
  exists f n m,
    DecodeFrame (EncodeFrame (MakeFailureFrame sequence epoch s) +:+ rest) = Value (f, n) /\
    fr_kind f = MessageKind.Failure /\ fr_sequence f = sequence /\ fr_epoch_pin f = epoch /\
    DecodeFailure (fr_payload f) = Value m /\ fm_detail m = detail s /\
    (forall c, fm_code m = StatusCode_number c <-> c = code s).
Proof.
  intros Hs He Hd.
  assert (text_fits (detail s)) as Ht by (unfold text_fits, u32_max, kMaxFrameBytes in *; lia).
  exists (MakeFailureFrame sequence epoch s), (string_size (EncodeFrame (MakeFailureFrame sequence epoch s))),
    (MkFailureMessage (StatusCode_number (code s)) (detail s)).
  split_and!; try done.
  - apply DecodeFrame_encoded. unfold MakeFailureFrame, frame_fits.
    cbn [fr_kind fr_sequence fr_epoch_pin fr_payload]. rewrite EncodeFailure_size by done.
    split_and!; [by vm_compute|reflexivity|done|done|lia].
  - apply DecodeFailure_law. split; [|done]. split; [|done]. by destruct (code s); vm_compute.
  - intros c. cbn [fm_code]. split; [|by intros ->]. by intros <-%StatusCode_number_inj.
Qed.

Section witnesses.
#[local] Existing Instance Proto.zero_hasher.
#[local] Existing Instance Proto.zero_wide.

Lemma failure_reaches_caller_witness :
  exists f n m,
    DecodeFrame (EncodeFrame (MakeFailureFrame 9 2 (Failure StatusCode.Fenced "epoch 1 is over")) +:+ "") = Value (f, n) /\
    DecodeFailure (fr_payload f) = Value m /\ fm_code m = 9.
Proof.
  destruct (failure_reaches_caller 9 2 (Failure StatusCode.Fenced "epoch 1 is over") "")
    as (f & n & m & Hf & _ & _ & _ & Hm & _ & Hc); [by vm_compute..|].
  exists f, n, m. split; [exact Hf|]. split; [exact Hm|]. exact (proj2 (Hc StatusCode.Fenced) eq_refl).
Defined.
End witnesses.
