(* ===== verification/Lines.v ===== *)
(** * Lines: reading line-oriented records

    What the readers of [src/plan.cpp], [src/result.cpp], [src/request_io.cpp]
    and [src/snapshot_io.cpp] share: the loop over the lines of a text, the
    splitting of a line into tokens, the fields of a record and the position an
    error is reported at; and the lemmas by which a printed line reads back. *)

From Stdlib Require Import SpecFloat.
From S2P Require Import Prelude Status Ids Doubles Canonical SnapshotText.

(** ** The loop over the lines *)

Definition carriage_return : ascii := char_of 13.

(** [if (!line.empty() && line.back() == '\r') line.remove_suffix(1);] *)
Definition strip_cr (line : string) : string :=
  match rev (chars line) with
  | c :: front => if Ascii.eqb c carriage_return then of_chars (rev front) else line
  | [] => line
  end.

(** [step] is the body of the loop, on the number and the text of a line. *)
Fixpoint read_lines {S} (step : Z -> string -> S -> Expected S) (n : Z) (lines : list string) (s : S) : Expected S :=
  match lines with
  | [] => Value s
  | line :: rest => let! s' := step n (strip_cr line) s in read_lines step (n + 1) rest s'
  end.

Definition read_text_lines {S} (step : Z -> string -> S -> Expected S) (text : string) (s : S) : Expected S :=
  read_lines step 1 (text_lines [] (chars text)) s.

Definition line_prefix (n : Z) (what : string) : string := "line " +:+ to_string n +:+ ": " +:+ what.

(** The lambda [fail] of the readers. *)
Definition at_line {A} (n : Z) (e : Expected A) : Expected A :=
  match e with
  | Value v => Value v
  | Error s => let s := NormaliseDecodeStatus s in Error (Failure (code s) (line_prefix n (detail s)))
  end.

Definition line_tokens (n : Z) (line : string) : Expected (list string) :=
  match SplitTokens line with
  | Value values => Value values
  | Error s => Error (Failure (code s) (line_prefix n (detail s)))
  end.

(** A loop body that skips empty lines and handles the tokens of the others. *)
Definition token_step {S} (handle : Z -> list string -> S -> Expected S) (n : Z) (line : string) (s : S) : Expected S :=
  if bool_decide (line = "") then Value s
  else let! values := line_tokens n line in handle n values s.

Definition malformed {A} (what : string) : Expected A := Error (Failure StatusCode.MalformedInput what).

(** ** The fields of a record *)

Definition token (values : list string) (i : nat) : string := nth i values "".

(** [Field] of [request_io.cpp]. *)
Definition Field (tokens : list string) (index : nat) (what : string) : Expected string :=
  match nth_error tokens index with
  | Some v => Value v
  | None => malformed ("record is missing the " +:+ what +:+ " value")
  end.

(** [RequiredRawField] of [plan.cpp], [RequiredKey] of [snapshot_io.cpp]. *)
Definition RequiredRawField (tokens : list string) (first : nat) (key : string) : Expected string :=
  match FindKeyedField tokens first key with
  | Value v => Value v
  | Error s =>
      if bool_decide (code s = StatusCode.NotFound) then malformed ("record is missing the '" +:+ key +:+ "' field")
      else Error s
  end.

Definition RequiredKeyToken (tokens : list string) (first : nat) (key : string) : Expected string :=
  let! raw := FindKeyedField tokens first key in DecodeToken raw.

(** A field and the reader of its text. *)
Definition raw_field {A} (parse : string -> Expected A) (tokens : list string) (first : nat) (key : string) : Expected A :=
  let! raw := RequiredRawField tokens first key in parse raw.

Definition token_field {A} (parse : string -> Expected A) (tokens : list string) (first : nat) (key : string) : Expected A :=
  let! raw := RequiredKeyToken tokens first key in parse raw.

(** [FindKeyedField(values, first, "domains")]: a field that is missing, or
    given twice, leaves the list empty. *)
Definition read_domains (parse : string -> Expected (list FailureDomainId)) (values : list string) (first : nat) :
  Expected (list FailureDomainId) :=
  match FindKeyedField values first "domains" with
  | Value t => parse t
  | Error _ => Value []
  end.

(** The texts between the commas: one more than there are commas. *)
Fixpoint comma_pieces (piece : list ascii) (l : list ascii) : list string :=
  match l with
  | [] => [of_chars (rev piece)]
  | c :: rest => if Ascii.eqb c "," then of_chars (rev piece) :: comma_pieces [] rest else comma_pieces (c :: piece) rest
  end.

(** ** Printed lines *)

(** Printable characters other than the blank. *)
Definition graphic (c : ascii) : bool := (33 <=? byte_of c) && (byte_of c <=? 126).

Definition gtext (t : string) : Prop := forallb graphic (chars t) = true.
Definition gword (t : string) : Prop := t <> "" /\ gtext t.

(** The line is these tokens, separated by single blanks. *)
Definition prints (line : string) (tokens : list string) : Prop :=
  exists w ws, tokens = w :: ws /\ Forall gword tokens /\ line = join_words w ws.

(** The bounds of the readers on a line. *)
Definition line_fits (line : string) : Prop :=
  string_size line <= kMaxTextLineBytes /\
  Forall (fun t => string_size t <= kMaxTokenBytes) (split_words [] (chars line)).

#[export] Instance line_fits_dec line : Decision (line_fits line).
Proof. unfold line_fits. apply _. Defined.

Lemma gtext_app a b : gtext (a +:+ b) <-> gtext a /\ gtext b.
Proof. unfold gtext. by rewrite chars_app, forallb_app, andb_true_iff. Qed.

Lemma gtext_forall t : (forall c, In c (chars t) -> graphic c = true) -> gtext t.
Proof. apply forallb_forall. Qed.

Lemma graphic_not_blank c : graphic c = true -> is_blank c = false.
Proof.
  unfold graphic, is_blank. intros Hc.
  destruct (Ascii.eqb_spec c " ") as [->|]; [by vm_compute in Hc|].
  destruct (Ascii.eqb_spec c (char_of 9)) as [->|]; [by vm_compute in Hc|done].
Qed.

Lemma gword_word t : gword t -> word t.
Proof.
  intros [Hne Ht]. split; [done|]. intros c Hc. apply graphic_not_blank.
  unfold gtext in Ht. rewrite forallb_forall in Ht. auto.
Qed.

Lemma alnum_graphic c : is_alnum c = true -> graphic c = true.
Proof.
  unfold is_alnum, is_digit, graphic.
  destruct (Z.leb_spec 48 (byte_of c)), (Z.leb_spec (byte_of c) 57), (Z.leb_spec 97 (byte_of c)),
    (Z.leb_spec (byte_of c) 122), (Z.leb_spec 65 (byte_of c)), (Z.leb_spec (byte_of c) 90);
    simpl; try done; intros _;
    rewrite (proj2 (Z.leb_le _ _)), (proj2 (Z.leb_le _ _)) by lia; done.
Qed.

Lemma digit_alnum c : is_digit c = true -> is_alnum c = true.
Proof. unfold is_alnum. by intros ->. Qed.

Lemma raw_graphic c : IsRawTokenCharacter c = true -> graphic c = true.
Proof.
  unfold IsRawTokenCharacter. destruct (is_alnum c) eqn:Ha; [intros _; by apply alnum_graphic|].
  simpl. repeat match goal with
    | |- context [Ascii.eqb c ?d] => destruct (Ascii.eqb_spec c d) as [->|]; [intros _; reflexivity|]
    end.
  done.
Qed.

Lemma id_char_graphic c : is_id_char c = true -> graphic c = true.
Proof.
  unfold is_id_char. destruct (is_alnum c) eqn:Ha; [intros _; by apply alnum_graphic|].
  simpl. repeat match goal with
    | |- context [Ascii.eqb c ?d] => destruct (Ascii.eqb_spec c d) as [->|]; [intros _; reflexivity|]
    end.
  done.
Qed.

(** ** What the printers of a line write *)

Lemma gword_EncodeToken v : gword (EncodeToken v).
Proof.
  split; [apply EncodeToken_nonempty|]. apply gtext_forall. unfold EncodeToken.
  destruct (needs_escaping v) eqn:Hn; cbn [negb]; cbv iota.
  - cbv zeta. case_bool_decide; [by intros c [<-|[]]|]. rewrite chars_of_chars. intros c Hc.
    apply in_concat in Hc as (x & (c0 & <- & _)%in_map_iff & Hc). unfold escape_char in Hc.
    destruct (IsRawTokenCharacter c0) eqn:Hr; [destruct Hc as [<-|[]]; by apply raw_graphic|].
    assert (forall d, 0 <= d < 16 -> graphic (upper_hex d) = true) as Hup.
    { intros d Hd. destruct (upper_hex_digit d Hd) as [Hx _]. apply alnum_graphic.
      unfold IsHexDigit, is_alnum in *. destruct (is_digit (upper_hex d)); [done|]. simpl in *.
      apply orb_true_iff in Hx as [[H1 H2]%andb_true_iff|[H1 H2]%andb_true_iff];
        apply Z.leb_le in H1, H2; apply orb_true_iff; [left|right];
        apply andb_true_iff; split; apply Z.leb_le; lia. }
    destruct Hc as [<-|[<-|[<-|[]]]]; [done| |]; apply Hup; [apply hex_high_nibble, byte_width|apply hex_low_nibble].
  - unfold needs_escaping in Hn. destruct (_ || _); [done|]. apply negb_false_iff in Hn.
    rewrite forallb_forall in Hn. intros c Hc. by apply raw_graphic, Hn.
Qed.

Lemma gtext_number n : 0 <= n -> gtext (FormatU64 n).
Proof. intros Hn. apply gtext_forall. intros c Hc%to_string_digits; [|done]. by apply alnum_graphic, digit_alnum. Qed.

Lemma gword_number n : 0 <= n -> gword (FormatU64 n).
Proof. intros Hn. split; [apply to_string_nonempty|by apply gtext_number]. Qed.

Lemma gtext_id t : IsValidIdText t = true -> gtext t.
Proof. intros Ht. apply gtext_forall. intros c Hc. by eapply id_char_graphic, IsValidIdText_chars. Qed.

(** The identity alphabet is within the one of unescaped tokens. *)
Lemma EncodeToken_id t : IsValidIdText t = true -> EncodeToken t = t.
Proof.
  intros Ht. unfold EncodeToken, needs_escaping.
  rewrite bool_decide_eq_false_2 by (by apply IsValidIdText_nonempty).
  assert (string_size t <= kMaxIdLength) as Hsize.
  { destruct t as [|c t]; [by vm_compute|]. unfold IsValidIdText in Ht.
    destruct (Z.ltb_spec kMaxIdLength (string_size (String c t))); [done|lia]. }
  rewrite (proj2 (Z.ltb_ge _ _)) by (unfold kMaxTokenBytes, kMaxIdLength in *; lia). cbn [orb].
  rewrite (proj2 (forallb_forall _ _)); [done|]. intros c Hc. pose proof (IsValidIdText_chars t Ht c Hc) as Hid.
  unfold is_id_char, IsRawTokenCharacter in *. revert Hid.
  destruct (is_alnum c); [done|]. simpl.
  destruct (Ascii.eqb c "_"), (Ascii.eqb c "-"), (Ascii.eqb c "."), (Ascii.eqb c ":"), (Ascii.eqb c "/"),
    (Ascii.eqb c "@"), (Ascii.eqb c "+"); simpl; rewrite ?orb_true_r; done.
Qed.

Lemma hex_digit_alnum d : is_alnum (hex_digit d) = true.
Proof.
  unfold hex_digit. destruct (nth_in_or_default (Z.to_nat d) kHexDigits "0"%char) as [Hin| ->]; [|done].
  revert Hin. generalize (nth (Z.to_nat d) kHexDigits "0"%char). intros x Hx. repeat destruct Hx as [<-|Hx]; done.
Qed.

Lemma hex_alnum bytes c : In c (chars (ToHexImpl bytes)) -> is_alnum c = true.
Proof.
  unfold ToHexImpl. rewrite chars_of_chars. intros (l & (b & <- & _)%in_map_iff & Hc)%in_concat.
  destruct Hc as [<-|[<-|[]]]; apply hex_digit_alnum.
Qed.

Lemma gtext_hex bytes : gtext (ToHexImpl bytes).
Proof. apply gtext_forall. intros c Hc. by eapply alnum_graphic, hex_alnum. Qed.

Lemma EncodeToken_hex n bytes : wf_bytes n bytes -> 0 < n <= 512 -> EncodeToken (ToHexImpl bytes) = ToHexImpl bytes.
Proof.
  intros [Hs Hb] Hn. assert (string_size (ToHexImpl bytes) = n * 2) as Hsize.
  { unfold ToHexImpl. by rewrite of_chars_size, size_concat_pairs, Hs. }
  unfold EncodeToken, needs_escaping. rewrite bool_decide_eq_false_2.
  - rewrite (proj2 (Z.ltb_ge _ _)) by (unfold kMaxTokenBytes; lia). cbn [orb].
    rewrite (proj2 (forallb_forall _ _)); [done|]. intros c Hc%hex_alnum. unfold IsRawTokenCharacter. by rewrite Hc.
  - intros E. rewrite E in Hsize. change (string_size "") with 0 in Hsize. lia.
Qed.

Lemma gtext_double `{Platform, !CharconvLaws} v : is_double v -> gtext (double_or_nan v).
Proof.
  intros Hv. unfold double_or_nan, FormatDouble. rewrite (proj1 Hv). cbn [negb]. cbv zeta. cbn [ValueOr].
  destruct (String.eqb (to_chars v) "-0"); [done|].
  apply gtext_forall. intros c Hc. pose proof (to_chars_grammar v c Hv Hc) as Hg.
  destruct (is_digit c) eqn:Hd; [by apply alnum_graphic, digit_alnum|]. simpl in Hg. revert Hg.
  repeat match goal with
    | |- context [Ascii.eqb c ?d] => destruct (Ascii.eqb_spec c d) as [->|]; [intros _; reflexivity|]
    end.
  done.
Qed.

(** A double reads back, but for the sign of zero. *)
Definition plain_double (v : double) : Prop := is_double v /\ v <> S754_zero true.

Lemma ParseDouble_text `{Platform, !CharconvLaws} v : plain_double v -> ParseDouble (double_or_nan v) = Value v.
Proof.
  intros [Hv Hz]. unfold double_or_nan, FormatDouble. rewrite (proj1 Hv). cbn [negb]. cbv zeta. cbn [ValueOr].
  destruct (String.eqb_spec (to_chars v) "-0") as [E|_].
  - destruct Hz. assert (is_double (S754_zero true)) as Hm by done.
    pose proof (from_to_chars _ Hv) as E1. pose proof (from_to_chars _ Hm) as E2.
    rewrite to_chars_minus_zero, <- E, E1 in E2. congruence.
  - unfold ParseDouble. rewrite bool_decide_eq_false_2 by (by apply to_chars_nonempty).
    rewrite (proj2 (forallb_forall _ _)) by (intros c Hc; by apply (to_chars_grammar v)). cbn [negb].
    rewrite from_to_chars by done. by rewrite (proj1 Hv).
Qed.

Lemma gword_key key v : gtext key -> gtext v -> gword (key +:+ "=" +:+ v).
Proof.
  intros Hk Hv. split; [by destruct key|]. apply gtext_app. split; [done|]. by apply gtext_app.
Qed.

Lemma prints_begin r : gword r -> prints (Line_Begin r) [r].
Proof. intros Hr. exists r, []. split; [done|]. split; [by apply Forall_singleton|done]. Qed.

Lemma prints_snoc line tokens t : prints line tokens -> gword t -> prints (spaced line +:+ t) (tokens ++ [t]).
Proof.
  intros (w & ws & -> & Hws & ->) Ht. exists w, (ws ++ [t]). split; [done|].
  split; [apply (Forall_app_2 _ (w :: ws)); [done|by constructor]|].
  unfold join_words. by rewrite fold_left_app.
Qed.

Section printers.
Context (line : string) (tokens : list string) (Hl : prints line tokens).

Lemma prints_Add v : prints (Line_Add line v) (tokens ++ [EncodeToken v]).
Proof. apply prints_snoc; [done|apply gword_EncodeToken]. Qed.

Lemma prints_AddU64 v : 0 <= v -> prints (Line_AddU64 line v) (tokens ++ [FormatU64 v]).
Proof. intros Hv. apply prints_snoc; [done|by apply gword_number]. Qed.

Lemma prints_AddKeyRaw key v : gtext key -> gtext v -> prints (Line_AddKeyRaw line key v) (tokens ++ [key +:+ "=" +:+ v]).
Proof. intros Hk Hv. apply prints_snoc; [done|by apply gword_key]. Qed.

Lemma prints_AddKeyU64 key v :
  gtext key -> 0 <= v -> prints (Line_AddKeyU64 line key v) (tokens ++ [key +:+ "=" +:+ FormatU64 v]).
Proof. intros Hk Hv. apply prints_AddKeyRaw; [done|by apply gtext_number]. Qed.

Lemma prints_AddKeyToken key v :
  gtext key -> prints (Line_AddKeyToken line key v) (tokens ++ [key +:+ "=" +:+ EncodeToken v]).
Proof. intros Hk. apply prints_AddKeyRaw; [done|apply gword_EncodeToken]. Qed.

Lemma prints_AddKeyDouble `{Platform, !CharconvLaws} key v :
  gtext key -> is_double v -> prints (Line_AddKeyDouble line key v) (tokens ++ [key +:+ "=" +:+ double_or_nan v]).
Proof. intros Hk Hv. apply prints_AddKeyRaw; [done|by apply gtext_double]. Qed.

Lemma prints_AddDouble `{Platform, !CharconvLaws} v :
  plain_double v -> prints (Line_AddDouble line v) (tokens ++ [double_or_nan v]).
Proof.
  intros Hv. apply prints_snoc; [done|]. split; [|by apply gtext_double, Hv]. intros E.
  pose proof (ParseDouble_text v Hv) as Hp. by rewrite E in Hp.
Qed.
End printers.

(** ** Reading a printed line *)

Definition printed (line : string) : Prop := exists tokens, prints line tokens.

Lemma prints_chars line tokens c : prints line tokens -> In c (chars line) -> graphic c = true \/ c = " "%char.
Proof.
  intros (w & ws & -> & [[Hne Hw] Hws]%Forall_cons & ->). rewrite join_words_chars by done.
  unfold gtext in Hw. rewrite forallb_forall in Hw.
  intros [Hc|(l & (x & <- & Hx)%in_map_iff & Hc)%in_concat]%in_app_iff; [left; by apply Hw|].
  destruct Hc as [<-|Hc]; [by right|]. left. rewrite List.Forall_forall in Hws.
  destruct (Hws x Hx) as [_ Hg]. unfold gtext in Hg. rewrite forallb_forall in Hg. auto.
Qed.

Lemma prints_nonempty line tokens : prints line tokens -> line <> "".
Proof. intros (w & ws & -> & [[Hne _] _]%Forall_cons & ->). by apply join_words_nonempty. Qed.

Lemma prints_not line tokens c : prints line tokens -> graphic c = false -> c <> " "%char -> ~ In c (chars line).
Proof. intros Hl Hg Hb Hin. destruct (prints_chars _ _ _ Hl Hin); congruence. Qed.

Lemma strip_cr_prints line tokens : prints line tokens -> strip_cr line = line.
Proof.
  intros Hl. unfold strip_cr. destruct (rev (chars line)) as [|c front] eqn:E; [done|].
  destruct (Ascii.eqb_spec c carriage_return) as [->|]; [|done].
  destruct (prints_not line tokens carriage_return Hl); [done|done|].
  apply in_rev. rewrite E. by left.
Qed.

Lemma prints_tokens line tokens : prints line tokens -> line_fits line -> SplitTokens line = Value tokens.
Proof.
  intros (w & ws & -> & Hws & ->) [Hsize Hall].
  pose proof Hws as [Hw Hr]%Forall_cons.
  assert (Forall word ws) as Hwords by (eapply Forall_impl; [done|apply gword_word]).
  rewrite split_words_join in Hall by (done || by apply gword_word).
  apply SplitTokens_join; [by apply gword_word|done..].
Qed.

Lemma token_step_prints {S} (h : Z -> list string -> S -> Expected S) n line tokens s :
  prints line tokens -> line_fits line -> token_step h n (strip_cr line) s = h n tokens s.
Proof.
  intros Hl Hf. rewrite (strip_cr_prints _ _ Hl). unfold token_step, line_tokens.
  rewrite bool_decide_eq_false_2 by (by eapply prints_nonempty). by rewrite (prints_tokens _ _ Hl Hf).
Qed.

Lemma text_lines_line w line rest :
  ~ In (char_of 10) line ->
  text_lines w (line ++ char_of 10 :: rest) = of_chars (rev w ++ line) :: text_lines [] rest.
Proof.
  revert w; induction line as [|c line IH]; intros w Hn; cbn [app text_lines].
  - by rewrite Ascii.eqb_refl, app_nil_r.
  - destruct (Ascii.eqb_spec c (char_of 10)) as [->|]; [by destruct Hn; left|].
    rewrite IH by (intros Hin; apply Hn; by right). cbn [rev]. by rewrite <- app_assoc.
Qed.

Lemma text_lines_text lines : Forall printed lines -> text_lines [] (chars (text_of_lines lines)) = lines.
Proof.
  induction 1 as [|line lines [tokens Hl] Hls IH]; [done|].
  unfold text_of_lines in *. cbn [fold_right]. rewrite !chars_app. change (chars newline) with [char_of 10].
  cbn [app]. rewrite text_lines_line by (by eapply prints_not). cbn [rev app]. by rewrite of_chars_chars, IH.
Qed.

(** ** Reading one line after the other *)

Lemma read_lines_app {S} (step : Z -> string -> S -> Expected S) n a b s :
  read_lines step n (a ++ b) s = (let! s' := read_lines step n a s in read_lines step (n + size a) b s').
Proof.
  revert n s; induction a as [|line a IH]; intros n s; cbn [app read_lines].
  - f_equal. unfold size. simpl. lia.
  - destruct (step n (strip_cr line) s) as [s'|]; [|done]. rewrite IH.
    destruct (read_lines step (n + 1) a s'); [|done]. f_equal. unfold size. cbn [length]. lia.
Qed.

(** What every step keeps, the loop keeps. *)
Lemma read_lines_invariant {S} (P : S -> Prop) (step : Z -> string -> S -> Expected S) n lines s s' :
  (forall n line s s', step n line s = Value s' -> P s -> P s') -> P s -> read_lines step n lines s = Value s' -> P s'.
Proof.
  intros Hstep. revert n s; induction lines as [|line lines IH]; intros n s Hs; cbn [read_lines]; [by intros [= <-]|].
  destruct (step n (strip_cr line) s) as [t|] eqn:E; [|done]. intros Hr. by eapply IH, Hr; eapply Hstep.
Qed.

(** The lines of the items of one list: the state holds a value, and each line
    puts its item at the end of one list of the value. *)
Lemma read_pushed {S B X} (step : Z -> string -> S -> Expected S) (state : B -> S) (print : X -> string)
    (ok : X -> Prop) (get : B -> list X) (put : list X -> B -> B) (ins : X -> list X -> list X) n xs done b :
  (forall l b, get (put l b) = l) -> (forall l l' b, put l (put l' b) = put l b) -> (forall b, put (get b) b = b) ->
  (forall n x b, ok x -> line_fits (print x) ->
     step n (strip_cr (print x)) (state b) = Value (state (put (ins x (get b)) b))) ->
  (forall pre x post, done ++ xs = pre ++ x :: post -> ins x pre = pre ++ [x]) ->
  Forall ok xs -> Forall line_fits (map print xs) -> get b = done ->
  read_lines step n (map print xs) (state b) = Value (state (put (done ++ xs) b)).
Proof.
  intros Hget Hput Hid Hstep Hins Hok. revert n done b Hins.
  induction Hok as [|x xs Hx Hxs IH]; intros n done b Hins Hf Hd; cbn [map read_lines].
  - by rewrite app_nil_r, <- Hd, Hid.
  - cbn [map] in Hf. apply Forall_cons in Hf as [Hfx Hf]. rewrite Hstep by done.
    rewrite Hd, (Hins done x xs) by done. rewrite (IH _ (done ++ [x])); [|intros pre y post; rewrite <- app_assoc; apply Hins|done|by rewrite Hget].
    by rewrite Hput, <- app_assoc.
Qed.

(** [std::map::operator[]] followed by an assignment, on the entries by key. *)
Fixpoint map_set {K V} `{Ordered K, EqDecision K} (k : K) (v : V) (entries : list (K * V)) : list (K * V) :=
  match entries with
  | [] => [(k, v)]
  | (x, w) :: rest =>
      if k <o x then (k, v) :: entries
      else if bool_decide (k = x) then (k, v) :: rest
      else (x, w) :: map_set k v rest
  end.

Lemma map_set_last {K V} `{Ordered K, EqDecision K} (k : K) (v : V) pre :
  Forall (fun e => (fst e <o k) = true) pre -> map_set k v pre = pre ++ [(k, v)].
Proof.
  induction 1 as [|[x w] pre Hx Hpre IH]; [done|]. cbn [map_set fst app] in *.
  rewrite (ltb_asym _ _ Hx). rewrite bool_decide_eq_false_2; [by rewrite IH|].
  intros ->. by rewrite ltb_irrefl in Hx.
Qed.

(** ** Lists of identities *)

Lemma comma_pieces_one p l : ~ In ","%char l -> comma_pieces p l = [of_chars (rev p ++ l)].
Proof.
  revert p; induction l as [|c l IH]; intros p Hn; cbn [comma_pieces]; [by rewrite app_nil_r|].
  destruct (Ascii.eqb_spec c ",") as [->|]; [by destruct Hn; left|].
  rewrite IH by (intros Hin; apply Hn; by right). cbn [rev]. by rewrite <- app_assoc.
Qed.

Lemma comma_pieces_cons p l rest :
  ~ In ","%char l -> comma_pieces p (l ++ ","%char :: rest) = of_chars (rev p ++ l) :: comma_pieces [] rest.
Proof.
  revert p; induction l as [|c l IH]; intros p Hn; cbn [app comma_pieces].
  - by rewrite app_nil_r.
  - destruct (Ascii.eqb_spec c ",") as [->|]; [by destruct Hn; left|].
    rewrite IH by (intros Hin; apply Hn; by right). cbn [rev]. by rewrite <- app_assoc.
Qed.

Lemma id_no_comma t : IsValidIdText t = true -> ~ In ","%char (chars t).
Proof. intros Ht Hin. by apply (IsValidIdText_chars t Ht) in Hin. Qed.

Lemma comma_pieces_join ids :
  ids <> [] -> Forall (fun id : FailureDomainId => IsValidIdText (str id) = true) ids ->
  comma_pieces [] (chars (JoinDomains ids)) = map str ids.
Proof.
  unfold JoinDomains. induction ids as [|id ids IH]; [done|]. intros _ [Hid Hids]%Forall_cons. cbn [map].
  destruct ids as [|id' ids].
  - cbn. rewrite comma_pieces_one by (by apply id_no_comma). cbn. by rewrite of_chars_chars.
  - change (String.concat "," (str id :: map str (id' :: ids))) with
      (str id +:+ String ","%char (String.concat "," (map str (id' :: ids)))).
    rewrite chars_app. cbn [chars String.list_ascii_of_string].
    change (String.list_ascii_of_string ?x) with (chars x). rewrite comma_pieces_cons by (by apply id_no_comma).
    cbn [rev app]. rewrite of_chars_chars. f_equal. by apply IH.
Qed.

Lemma JoinDomains_nonempty ids :
  Forall (fun id : FailureDomainId => IsValidIdText (str id) = true) ids -> ids <> [] -> JoinDomains ids <> "".
Proof.
  intros Hids Hne E. pose proof (comma_pieces_join ids Hne Hids) as Hp. rewrite E in Hp.
  destruct ids as [|id ids]; [done|]. cbn [map] in Hp. injection Hp as Hs _.
  apply Forall_cons in Hids as [Hid _]. by rewrite <- Hs in Hid.
Qed.

Lemma gtext_JoinDomains ids :
  Forall (fun id : FailureDomainId => IsValidIdText (str id) = true) ids -> gtext (JoinDomains ids).
Proof.
  unfold JoinDomains. induction 1 as [|id ids Hid Hids IH]; [done|]. cbn [map].
  destruct ids as [|id' ids]; [by apply gtext_id|].
  change (gtext (str id +:+ "," +:+ String.concat "," (map str (id' :: ids)))).
  apply gtext_app. split; [by apply gtext_id|]. by apply gtext_app.
Qed.

(** ** Records: leading values, then fields spelled [key=value] *)

Definition kv (field : string * string) : string := fst field +:+ "=" +:+ snd field.

Definition record_line (line : string) (values : list string) (fields : list (string * string)) : Prop :=
  prints line (values ++ map kv fields).

(** The one value of a key. *)
Definition kv_get (key : string) (fields : list (string * string)) : option string :=
  match List.filter (fun e => String.eqb key (fst e)) fields with [e] => Some (snd e) | _ => None end.

Definition plain_key (key : string) : bool := negb (mem_char "=" key).

Lemma strip_prefix_some p s r : strip_prefix p s = Some r <-> s = p +:+ r.
Proof.
  revert s; induction p as [|c p IH]; intros s; cbn [strip_prefix]; [by split; [intros [= ->]|intros ->]|].
  destruct s as [|d s]; [done|]. destruct (Ascii.eqb_spec c d) as [->|Hne].
  - rewrite IH. by split; [intros ->|intros [= ->]].
  - split; [done|]. by intros [= -> _].
Qed.

Lemma plain_key_in key : plain_key key = true -> ~ In "="%char (chars key).
Proof.
  unfold plain_key, mem_char. intros Hk Hin. apply negb_true_iff in Hk.
  assert (existsb (Ascii.eqb "="%char) (chars key) = true) as E; [|by rewrite E in Hk].
  apply existsb_exists. exists "="%char. split; [done|apply Ascii.eqb_refl].
Qed.

Lemma keyed_value_kv key k v :
  plain_key key = true -> plain_key k = true ->
  keyed_value key (kv (k, v)) = if String.eqb key k then Some v else None.
Proof.
  intros Hkey Hk. apply plain_key_in in Hkey, Hk. unfold keyed_value, kv. cbn [fst snd].
  destruct (strip_prefix key (k +:+ "=" +:+ v)) as [r|] eqn:E.
  - apply strip_prefix_some in E. destruct r as [|c r].
    + destruct Hkey. assert (chars key = chars k ++ "="%char :: chars v) as ->; [|apply in_or_app; right; by left].
      apply (f_equal chars) in E. rewrite !chars_app in E. cbn in E. by rewrite app_nil_r in E.
    + destruct (Ascii.eqb_spec c "=") as [->|Hne].
      * pose proof (split_at_app "=" k v Hk) as E1. pose proof (split_at_app "=" key r Hkey) as E2.
        change ("=" +:+ v) with (String "="%char v) in E. rewrite E, E2 in E1. injection E1 as -> ->.
        by rewrite String.eqb_refl.
      * destruct (String.eqb_spec key k) as [->|]; [|done]. exfalso.
        apply (f_equal chars) in E. rewrite !chars_app in E. apply app_inv_head in E. injection E as E _. by destruct Hne.
  - destruct (String.eqb_spec key k) as [->|]; [|done]. exfalso.
    assert (strip_prefix k (k +:+ "=" +:+ v) = Some ("=" +:+ v)) by (by apply strip_prefix_some). congruence.
Qed.

Lemma keyed_fields key fields :
  plain_key key = true -> forallb (fun e => plain_key (fst e)) fields = true ->
  omap (keyed_value key) (map kv fields) = map snd (List.filter (fun e => String.eqb key (fst e)) fields).
Proof.
  intros Hkey. induction fields as [|[k v] fields IH]; [done|]. cbn [forallb map List.filter].
  intros [Hk Hf]%andb_true_iff. cbn [fst] in Hk. cbn. rewrite keyed_value_kv by done.
  fold (omap (keyed_value key) (map kv fields)) in *. destruct (String.eqb key k); cbn; by rewrite <- IH.
Qed.

(** Finding a field of a record. *)
Lemma find_kv {values fields first key} v :
  first = length values -> plain_key key = true -> forallb (fun e => plain_key (fst e)) fields = true ->
  kv_get key fields = Some v -> FindKeyedField (values ++ map kv fields) first key = Value v.
Proof.
  intros -> Hkey Hf. unfold kv_get, FindKeyedField. rewrite drop_app_length, keyed_fields by done.
  destruct (List.filter _ fields) as [|e [|e' l]]; [done| |done]. intros [= <-]. done.
Qed.

Lemma find_kv_none {values fields first key} :
  first = length values -> plain_key key = true -> forallb (fun e => plain_key (fst e)) fields = true ->
  List.filter (fun e => String.eqb key (fst e)) fields = [] ->
  exists s, FindKeyedField (values ++ map kv fields) first key = Error s /\ code s = StatusCode.NotFound.
Proof.
  intros -> Hkey Hf E. unfold FindKeyedField. rewrite drop_app_length, keyed_fields, E by done. by eexists.
Qed.

(** The texts of the encoded fields are within the bound of a token. *)
Definition fields_fit (fields : list (string * string)) : Prop :=
  forall key e v, kv_get key fields = Some e -> e = EncodeToken v -> string_size v <= kMaxTokenBytes.

Section record_fields.
Context {values : list string} {fields : list (string * string)} {first : nat} {key : string} {v : string}.
Context (Hfirst : first = length values) (Hkey : plain_key key = true).
Context (Hfields : forallb (fun e => plain_key (fst e)) fields = true).

Lemma RequiredRawField_at : kv_get key fields = Some v -> RequiredRawField (values ++ map kv fields) first key = Value v.
Proof. intros E. unfold RequiredRawField. by rewrite (find_kv v). Qed.

Lemma raw_field_at {A} (parse : string -> Expected A) :
  kv_get key fields = Some v -> raw_field parse (values ++ map kv fields) first key = parse v.
Proof. intros E. unfold raw_field. by rewrite RequiredRawField_at. Qed.

Lemma RequiredKeyToken_at t :
  fields_fit fields -> kv_get key fields = Some v -> v = EncodeToken t ->
  RequiredKeyToken (values ++ map kv fields) first key = Value t.
Proof. intros Hfit E ->. pose proof (Hfit _ _ t E eq_refl) as Ht. unfold RequiredKeyToken. rewrite (find_kv (EncodeToken t)) by done. by apply DecodeToken_EncodeToken. Qed.

Lemma token_field_at {A} (parse : string -> Expected A) t :
  fields_fit fields -> kv_get key fields = Some v -> v = EncodeToken t ->
  token_field parse (values ++ map kv fields) first key = parse t.
Proof. intros Hfit E Hv. unfold token_field. by rewrite (RequiredKeyToken_at t). Qed.
End record_fields.

Section record_printers.
Context (line : string) (values : list string).

Lemma record_begin r : gword r -> record_line (Line_Begin r) [r] [].
Proof. apply prints_begin. Qed.

Lemma record_Add v : record_line line values [] -> record_line (Line_Add line v) (values ++ [EncodeToken v]) [].
Proof. unfold record_line. cbn [map]. rewrite !app_nil_r. intros Hl. by apply prints_Add. Qed.

Lemma record_AddU64 v :
  record_line line values [] -> 0 <= v -> record_line (Line_AddU64 line v) (values ++ [FormatU64 v]) [].
Proof. unfold record_line. cbn [map]. rewrite !app_nil_r. intros Hl Hv. by apply prints_AddU64. Qed.

Lemma record_AddDouble `{Platform, !CharconvLaws} v :
  record_line line values [] -> plain_double v -> record_line (Line_AddDouble line v) (values ++ [double_or_nan v]) [].
Proof. unfold record_line. cbn [map]. rewrite !app_nil_r. intros Hl Hv. by apply prints_AddDouble. Qed.

Context (fields : list (string * string)) (Hl : record_line line values fields).

Lemma record_AddKeyRaw key v :
  gtext key -> gtext v -> record_line (Line_AddKeyRaw line key v) values (fields ++ [(key, v)]).
Proof.
  intros Hk Hv. unfold record_line in *. rewrite map_app, app_assoc. by apply prints_AddKeyRaw.
Qed.

Lemma record_AddKeyU64 key v :
  gtext key -> 0 <= v -> record_line (Line_AddKeyU64 line key v) values (fields ++ [(key, FormatU64 v)]).
Proof. intros Hk Hv. apply record_AddKeyRaw; [done|by apply gtext_number]. Qed.

Lemma record_AddKeyToken key v :
  gtext key -> record_line (Line_AddKeyToken line key v) values (fields ++ [(key, EncodeToken v)]).
Proof. intros Hk. apply record_AddKeyRaw; [done|apply gword_EncodeToken]. Qed.

Lemma record_AddKeyDouble `{Platform, !CharconvLaws} key v :
  gtext key -> is_double v -> record_line (Line_AddKeyDouble line key v) values (fields ++ [(key, double_or_nan v)]).
Proof. intros Hk Hv. apply record_AddKeyRaw; [done|by apply gtext_double]. Qed.

Definition domain_fields (ids : list FailureDomainId) : list (string * string) :=
  match ids with [] => [] | _ => [("domains", JoinDomains ids)] end.

Lemma record_AddDomains ids :
  Forall (fun id : FailureDomainId => IsValidIdText (str id) = true) ids ->
  record_line (AddDomains line ids) values (fields ++ domain_fields ids).
Proof.
  intros Hids. unfold AddDomains, domain_fields. destruct ids as [|id ids]; [by rewrite app_nil_r|].
  apply record_AddKeyRaw; [done|by apply gtext_JoinDomains].
Qed.
End record_printers.

(** Prints a record line to the end: the values and the fields are found on the
    way. *)
Ltac print_record :=
  repeat first
    [ apply record_AddDomains; [|done]
    | apply record_AddKeyDouble;
        [|apply _|reflexivity|match goal with Hv : plain_double ?v |- is_double ?v => exact (proj1 Hv) end]
    | apply record_AddKeyU64; [|reflexivity|unfold in_width in *; lia]
    | apply record_AddKeyToken; [|reflexivity]
    | apply record_AddKeyRaw; [|reflexivity|by auto]
    | apply record_AddDouble; [apply _| |done]
    | apply record_AddU64; [|unfold in_width in *; lia]
    | apply record_Add
    | apply record_begin; first [assumption | split; [discriminate|reflexivity]] ].

(** Every token of a line within the bounds is within them. *)
Lemma record_token_fits line values fields t :
  record_line line values fields -> line_fits line -> In t (values ++ map kv fields) -> string_size t <= kMaxTokenBytes.
Proof.
  intros (w & ws & E & Hws & ->) [_ Hall] Hin. rewrite E in *. pose proof Hws as [Hw Hr]%Forall_cons.
  assert (Forall word ws) as Hwords by (eapply Forall_impl; [done|apply gword_word]).
  rewrite split_words_join in Hall by (done || by apply gword_word).
  rewrite List.Forall_forall in Hall. by apply Hall.
Qed.

Lemma EncodeToken_size v : string_size v <= string_size (EncodeToken v).
Proof.
  destruct (decide (v = "")) as [->|Hne]; [by vm_compute|].
  destruct (EncodeToken_escaped v Hne) as [[-> _]| ->]; [lia|]. rewrite of_chars_size, string_size_chars.
  pose proof (escaped_length (chars v)). unfold size. lia.
Qed.

Lemma record_fields_fit line values fields : record_line line values fields -> line_fits line -> fields_fit fields.
Proof.
  intros Hl Hf key e v Hget ->. unfold kv_get in Hget.
  destruct (List.filter _ fields) as [|[k w] [|]] eqn:E; [done| |done]. injection Hget as ->.
  assert (In (k, EncodeToken v) fields) as Hin.
  { apply (filter_In (fun e => String.eqb key (fst e))). rewrite E. by left. }
  pose proof (record_token_fits _ _ _ (kv (k, EncodeToken v)) Hl Hf) as Hk.
  assert (string_size (kv (k, EncodeToken v)) <= kMaxTokenBytes) as Hs.
  { apply Hk, in_or_app. right. by apply in_map. }
  unfold kv in Hs. cbn [fst snd] in Hs. rewrite !string_size_chars, !chars_app in Hs. unfold size in Hs.
  rewrite !length_app in Hs. pose proof (EncodeToken_size v) as He. rewrite (string_size_chars (EncodeToken v)) in He.
  unfold size in He. lia.
Qed.

(** ** Values that read back *)

Definition id_ok {t} (id : StrongId t) : Prop := IsValidIdText (str id) = true.
Definition digest_ok (d : Digest256) : Prop := wf_bytes 32 (digest_bytes d).
Definition resource_ok (k : ResourceKey) : Prop := text k <> "".

Lemma ParseU64_text n : in_width 64 n -> ParseU64 (FormatU64 n) = Value n.
Proof. intros Hn. apply ParseUnsigned_to_string; [done|]. unfold in_width, u64_max in *. lia. Qed.

Lemma ParseU32_text n : in_width 32 n -> ParseU32 (FormatU64 n) = Value n.
Proof. intros Hn. apply ParseUnsigned_to_string; unfold in_width, u32_max in *; lia. Qed.

Lemma ParseU16_text n : in_width 16 n -> ParseU16 (FormatU64 n) = Value n.
Proof. intros Hn. apply ParseUnsigned_to_string; unfold in_width, u16_max in *; lia. Qed.

Lemma EncodeToken_digest d : digest_ok d -> EncodeToken (Digest_ToHex d) = Digest_ToHex d.
Proof. intros Hd. by apply (EncodeToken_hex 32). Qed.

Lemma printed_record line values fields : record_line line values fields -> printed line.
Proof. intros Hl. by eexists. Qed.

Lemma printed_map {X} (print : X -> string) (ok : X -> Prop) xs :
  (forall x, ok x -> printed (print x)) -> Forall ok xs -> Forall printed (map print xs).
Proof. intros Hp. induction 1; constructor; auto. Qed.

(** ** Records read back *)

(** The record a printed line is, and what its reader makes of it. *)
Definition reads_as {A} (line keyword : string) (read : list string -> Expected A) (a : A) : Prop :=
  exists values fields,
    record_line line values fields /\ token (values ++ map kv fields) 0 = keyword /\
    (line_fits line -> read (values ++ map kv fields) = Value a).

Lemma reads_as_intro {A} line keyword (read : list string -> Expected A) a values fields :
  record_line line values fields -> token (values ++ map kv fields) 0 = keyword ->
  (fields_fit fields -> read (values ++ map kv fields) = Value a) ->
  reads_as line keyword read a.
Proof.
  intros Hl Hk Hr. exists values, fields. split; [done|]. split; [done|]. intros Hf. by eapply Hr, record_fields_fit.
Qed.

Lemma printed_reads {A} line keyword (read : list string -> Expected A) a : reads_as line keyword read a -> printed line.
Proof. intros (values & fields & Hl & _). by eexists. Qed.

(** The optional list of domains at the end of a record. *)
Lemma read_domains_at parse values fields ids first :
  first = length values -> forallb (fun e => plain_key (fst e)) fields = true ->
  List.filter (fun e => String.eqb "domains" (fst e)) fields = [] -> (ids <> [] -> parse (JoinDomains ids) = Value ids) ->
  read_domains parse (values ++ map kv (fields ++ domain_fields ids)) first = Value ids.
Proof.
  intros Hfirst Hf Hnone Hparse. unfold read_domains, domain_fields. destruct ids as [|id ids].
  - rewrite app_nil_r. by destruct (find_kv_none (key := "domains") Hfirst eq_refl Hf Hnone) as (st & -> & _).
  - rewrite (find_kv (JoinDomains (id :: ids))); [by apply Hparse|done|done| |].
    + rewrite forallb_app, Hf. done.
    + unfold kv_get. by rewrite List.filter_app, Hnone.
Qed.

(** ** Automation for records *)

(** Computes the values and fields of a record, and keeps them apart. *)
Ltac simpl_record :=
  repeat match goal with
  | |- context [?values ++ map kv ?fields] =>
      progress (
        let values' := eval cbn [app] in values in
        let fields' := eval cbn [app domain_fields] in fields in
        change (values ++ map kv fields) with (values' ++ map kv fields'))
  end.

(** Replaces the reading of each field by the reader of its text. *)
Ltac read_fields Hsize :=
  repeat first
    [ erewrite token_field_at;
        [|reflexivity|reflexivity|reflexivity|exact Hsize|reflexivity|cbn [snd]; reflexivity]
    | erewrite RequiredKeyToken_at;
        [|reflexivity|reflexivity|reflexivity|exact Hsize|reflexivity|cbn [snd]; reflexivity]
    | erewrite raw_field_at; [|reflexivity|reflexivity|reflexivity|reflexivity] ];
  cbn [snd].

(** The positional values, then every text by the lemma of its reader. *)
Ltac read_values :=
  unfold token; cbn [length app map nth Nat.ltb Nat.leb Nat.eqb negb];
  repeat first
    [ rewrite ParseU64_text by done | rewrite ParseU32_text by done | rewrite ParseU16_text by done
    | rewrite ParseDouble_text by done | rewrite id_Parse_str by done | rewrite digest_hex_roundtrip by done
    | rewrite resource_key_roundtrip by done ].

Lemma at_line_value {A} n (e : Expected A) a : at_line n e = Value a <-> e = Value a.
Proof. destruct e; cbn; [done|]. split; done. Qed.

Lemma let_value {A B} (e : Expected A) (k : A -> Expected B) b :
  (let! x := e in k x) = Value b <-> exists a, e = Value a /\ k a = Value b.
Proof. destruct e; naive_solver. Qed.

Ltac open_reads :=
  repeat match goal with
  | Hr : at_line _ _ = Value _ |- _ => apply at_line_value in Hr
  | Hr : Value _ = Value _ |- _ => injection Hr as Hr; subst
  | Hr : malformed _ = Value _ |- _ => discriminate Hr
  | Hr : Error _ = Value _ |- _ => discriminate Hr
  | Hr : match ?e with Value _ => _ | Error _ => _ end = Value _ |- _ =>
      let E := fresh "E" in destruct e eqn:E; [|discriminate Hr]
  | Hr : (if ?c then _ else _) = Value _ |- _ => let E := fresh "E" in destruct c eqn:E
  | Hr : (let '(_, _) := ?c in _) = Value _ |- _ => destruct c
  end.

