(* ===== verification/PlanText.v ===== *)
(** * PlanText: reading a plan artifact back

    [ParsePlanArtifact] of [src/plan.cpp].  One reader per record of the text,
    the dispatch on the keyword of a line, and the checks after the last one.
    The theorems relate it to the printer of [Plan]. *)

From S2P Require Import Prelude Status Ids Doubles Spectrum Canonical SnapshotText Outcome Plan Lines.

Definition kMaxPlanArtifactBytes : Z := 8 * 1024 * 1024.

(** The default-constructed artifact. *)
Definition empty_plan : PlanArtifact :=
  MkPlan 1 1 (MkId "") zero_digest (MkId "") 0 zero_digest [] (MkPortKey (MkId "") (MkId "")) (MkPortKey (MkId "") (MkId ""))
    [] [] [] [] [] [] 1 0 0 d0 0 0 zero_digest.

(** Assignments to the fields of the artifact. *)

Definition plan_put_format (v : Z) (p : PlanArtifact) : PlanArtifact :=
  MkPlan v (pl_rule_version p) (pl_request_id p) (pl_request_digest p) (pl_snapshot_id p)
    (pl_snapshot_generation p) (pl_snapshot_digest p) (pl_bound_sources p) (pl_source p) (pl_destination p)
    (pl_steps p) (pl_segments p) (pl_reservations p) (pl_capability p) (pl_quality p) (pl_exposure p)
    (pl_channel_width_slots p) (pl_total_cost p) (pl_total_distance_m p) (pl_total_loss_db p) (pl_hops p)
    (pl_regenerations p) (pl_digest p).

Definition plan_put_rule (v : Z) (p : PlanArtifact) : PlanArtifact :=
  MkPlan (pl_format_version p) v (pl_request_id p) (pl_request_digest p) (pl_snapshot_id p)
    (pl_snapshot_generation p) (pl_snapshot_digest p) (pl_bound_sources p) (pl_source p) (pl_destination p)
    (pl_steps p) (pl_segments p) (pl_reservations p) (pl_capability p) (pl_quality p) (pl_exposure p)
    (pl_channel_width_slots p) (pl_total_cost p) (pl_total_distance_m p) (pl_total_loss_db p) (pl_hops p)
    (pl_regenerations p) (pl_digest p).

Definition plan_put_request (id : RequestId) (d : Digest256) (p : PlanArtifact) : PlanArtifact :=
  MkPlan (pl_format_version p) (pl_rule_version p) id d (pl_snapshot_id p) (pl_snapshot_generation p)
    (pl_snapshot_digest p) (pl_bound_sources p) (pl_source p) (pl_destination p) (pl_steps p) (pl_segments
    p) (pl_reservations p) (pl_capability p) (pl_quality p) (pl_exposure p) (pl_channel_width_slots p)
    (pl_total_cost p) (pl_total_distance_m p) (pl_total_loss_db p) (pl_hops p) (pl_regenerations p)
    (pl_digest p).

Definition plan_put_snapshot (id : SnapshotId) (g : Generation) (d : Digest256) (p : PlanArtifact) : PlanArtifact :=
  MkPlan (pl_format_version p) (pl_rule_version p) (pl_request_id p) (pl_request_digest p) id g d
    (pl_bound_sources p) (pl_source p) (pl_destination p) (pl_steps p) (pl_segments p) (pl_reservations p)
    (pl_capability p) (pl_quality p) (pl_exposure p) (pl_channel_width_slots p) (pl_total_cost p)
    (pl_total_distance_m p) (pl_total_loss_db p) (pl_hops p) (pl_regenerations p) (pl_digest p).

Definition plan_put_endpoints (s d : PortKey) (p : PlanArtifact) : PlanArtifact :=
  MkPlan (pl_format_version p) (pl_rule_version p) (pl_request_id p) (pl_request_digest p) (pl_snapshot_id
    p) (pl_snapshot_generation p) (pl_snapshot_digest p) (pl_bound_sources p) s d (pl_steps p) (pl_segments
    p) (pl_reservations p) (pl_capability p) (pl_quality p) (pl_exposure p) (pl_channel_width_slots p)
    (pl_total_cost p) (pl_total_distance_m p) (pl_total_loss_db p) (pl_hops p) (pl_regenerations p)
    (pl_digest p).

Definition plan_put_width (w : Z) (p : PlanArtifact) : PlanArtifact :=
  MkPlan (pl_format_version p) (pl_rule_version p) (pl_request_id p) (pl_request_digest p) (pl_snapshot_id
    p) (pl_snapshot_generation p) (pl_snapshot_digest p) (pl_bound_sources p) (pl_source p) (pl_destination
    p) (pl_steps p) (pl_segments p) (pl_reservations p) (pl_capability p) (pl_quality p) (pl_exposure p) w
    (pl_total_cost p) (pl_total_distance_m p) (pl_total_loss_db p) (pl_hops p) (pl_regenerations p)
    (pl_digest p).

Definition plan_put_totals (cost distance : Z) (loss : double) (hops regen : Z) (p : PlanArtifact) : PlanArtifact :=
  MkPlan (pl_format_version p) (pl_rule_version p) (pl_request_id p) (pl_request_digest p) (pl_snapshot_id
    p) (pl_snapshot_generation p) (pl_snapshot_digest p) (pl_bound_sources p) (pl_source p) (pl_destination
    p) (pl_steps p) (pl_segments p) (pl_reservations p) (pl_capability p) (pl_quality p) (pl_exposure p)
    (pl_channel_width_slots p) cost distance loss hops regen (pl_digest p).

Definition plan_put_bindings (l : list SourceBinding) (p : PlanArtifact) : PlanArtifact :=
  MkPlan (pl_format_version p) (pl_rule_version p) (pl_request_id p) (pl_request_digest p) (pl_snapshot_id
    p) (pl_snapshot_generation p) (pl_snapshot_digest p) l (pl_source p) (pl_destination p) (pl_steps p)
    (pl_segments p) (pl_reservations p) (pl_capability p) (pl_quality p) (pl_exposure p)
    (pl_channel_width_slots p) (pl_total_cost p) (pl_total_distance_m p) (pl_total_loss_db p) (pl_hops p)
    (pl_regenerations p) (pl_digest p).

Definition plan_put_steps (l : list PlanStep) (p : PlanArtifact) : PlanArtifact :=
  MkPlan (pl_format_version p) (pl_rule_version p) (pl_request_id p) (pl_request_digest p) (pl_snapshot_id
    p) (pl_snapshot_generation p) (pl_snapshot_digest p) (pl_bound_sources p) (pl_source p) (pl_destination
    p) l (pl_segments p) (pl_reservations p) (pl_capability p) (pl_quality p) (pl_exposure p)
    (pl_channel_width_slots p) (pl_total_cost p) (pl_total_distance_m p) (pl_total_loss_db p) (pl_hops p)
    (pl_regenerations p) (pl_digest p).

Definition plan_put_segments (l : list PlanSegment) (p : PlanArtifact) : PlanArtifact :=
  MkPlan (pl_format_version p) (pl_rule_version p) (pl_request_id p) (pl_request_digest p) (pl_snapshot_id
    p) (pl_snapshot_generation p) (pl_snapshot_digest p) (pl_bound_sources p) (pl_source p) (pl_destination
    p) (pl_steps p) l (pl_reservations p) (pl_capability p) (pl_quality p) (pl_exposure p)
    (pl_channel_width_slots p) (pl_total_cost p) (pl_total_distance_m p) (pl_total_loss_db p) (pl_hops p)
    (pl_regenerations p) (pl_digest p).

Definition plan_put_reservations (l : list PlanReservation) (p : PlanArtifact) : PlanArtifact :=
  MkPlan (pl_format_version p) (pl_rule_version p) (pl_request_id p) (pl_request_digest p) (pl_snapshot_id
    p) (pl_snapshot_generation p) (pl_snapshot_digest p) (pl_bound_sources p) (pl_source p) (pl_destination
    p) (pl_steps p) (pl_segments p) l (pl_capability p) (pl_quality p) (pl_exposure p)
    (pl_channel_width_slots p) (pl_total_cost p) (pl_total_distance_m p) (pl_total_loss_db p) (pl_hops p)
    (pl_regenerations p) (pl_digest p).

Definition plan_put_capability (l : list PlanAssumption) (p : PlanArtifact) : PlanArtifact :=
  MkPlan (pl_format_version p) (pl_rule_version p) (pl_request_id p) (pl_request_digest p) (pl_snapshot_id
    p) (pl_snapshot_generation p) (pl_snapshot_digest p) (pl_bound_sources p) (pl_source p) (pl_destination
    p) (pl_steps p) (pl_segments p) (pl_reservations p) l (pl_quality p) (pl_exposure p)
    (pl_channel_width_slots p) (pl_total_cost p) (pl_total_distance_m p) (pl_total_loss_db p) (pl_hops p)
    (pl_regenerations p) (pl_digest p).

Definition plan_put_quality (l : list PlanAssumption) (p : PlanArtifact) : PlanArtifact :=
  MkPlan (pl_format_version p) (pl_rule_version p) (pl_request_id p) (pl_request_digest p) (pl_snapshot_id
    p) (pl_snapshot_generation p) (pl_snapshot_digest p) (pl_bound_sources p) (pl_source p) (pl_destination
    p) (pl_steps p) (pl_segments p) (pl_reservations p) (pl_capability p) l (pl_exposure p)
    (pl_channel_width_slots p) (pl_total_cost p) (pl_total_distance_m p) (pl_total_loss_db p) (pl_hops p)
    (pl_regenerations p) (pl_digest p).

Definition plan_put_exposure (l : list FailureDomainExposure) (p : PlanArtifact) : PlanArtifact :=
  MkPlan (pl_format_version p) (pl_rule_version p) (pl_request_id p) (pl_request_digest p) (pl_snapshot_id
    p) (pl_snapshot_generation p) (pl_snapshot_digest p) (pl_bound_sources p) (pl_source p) (pl_destination
    p) (pl_steps p) (pl_segments p) (pl_reservations p) (pl_capability p) (pl_quality p) l
    (pl_channel_width_slots p) (pl_total_cost p) (pl_total_distance_m p) (pl_total_loss_db p) (pl_hops p)
    (pl_regenerations p) (pl_digest p).

(** [push_back] on the vectors of the artifact. *)
Definition plan_push_binding (x : SourceBinding) (p : PlanArtifact) : PlanArtifact := plan_put_bindings (pl_bound_sources p ++ [x]) p.
Definition plan_push_step (x : PlanStep) (p : PlanArtifact) : PlanArtifact := plan_put_steps (pl_steps p ++ [x]) p.
Definition plan_push_segment (x : PlanSegment) (p : PlanArtifact) : PlanArtifact := plan_put_segments (pl_segments p ++ [x]) p.
Definition plan_push_reservation (x : PlanReservation) (p : PlanArtifact) : PlanArtifact := plan_put_reservations (pl_reservations p ++ [x]) p.
Definition plan_push_capability (x : PlanAssumption) (p : PlanArtifact) : PlanArtifact := plan_put_capability (pl_capability p ++ [x]) p.
Definition plan_push_quality (x : PlanAssumption) (p : PlanArtifact) : PlanArtifact := plan_put_quality (pl_quality p ++ [x]) p.
Definition plan_push_exposure (x : FailureDomainExposure) (p : PlanArtifact) : PlanArtifact := plan_put_exposure (pl_exposure p ++ [x]) p.

Definition segment_push_span (u : PlanSpanUse) (s : PlanSegment) : PlanSegment :=
  MkPlanSegment (sg_index s) (sg_profile s) (sg_spans s ++ [u]) (sg_distance_m s) (sg_loss_db s) (sg_osnr_db s)
    (sg_span_count s) (sg_channel_runs s) (sg_ended_by_regeneration s) (sg_regeneration_resource s).

(** ** The records *)

Definition ParseDomainList (t : string) : Expected (list FailureDomainId) :=
  if bool_decide (t = "") then Value []
  else
    fold_right (fun piece rest => let! id := id_Parse piece in let! ids := rest in Value (id :: ids)) (Value [])
      (comma_pieces [] (chars t)).

Section reading.
Context `{Platform}.

Definition read_binding (values : list string) : Expected SourceBinding :=
  if (length values <? 2)%nat then malformed "binding takes a source id"
  else
    let! id := id_Parse (token values 1) in
    let! generation := raw_field ParseU64 values 2 "gen" in
    let! contribution := token_field Digest_FromHex values 2 "contrib" in
    Value (MkBinding id generation contribution).

Definition read_endpoints (values : list string) : Expected (PortKey * PortKey) :=
  let! snode := RequiredKeyToken values 1 "snode" in
  let! sport := RequiredKeyToken values 1 "sport" in
  let! dnode := RequiredKeyToken values 1 "dnode" in
  let! dport := RequiredKeyToken values 1 "dport" in
  let! sn := id_Parse snode in
  let! sp := id_Parse sport in
  let! dn := id_Parse dnode in
  let! dp := id_Parse dport in
  Value (MkPortKey sn sp, MkPortKey dn dp).

Definition read_totals (values : list string) : Expected (Z * Z * double * Z * Z) :=
  let! cost := raw_field ParseU64 values 1 "cost" in
  let! distance := raw_field ParseU64 values 1 "distance" in
  let! loss := raw_field ParseDouble values 1 "loss" in
  let! hops := raw_field ParseU32 values 1 "hops" in
  let! regen := raw_field ParseU32 values 1 "regen" in
  Value (cost, distance, loss, hops, regen).

Definition ParseStepKind (t : string) : Expected StepKind.t :=
  if String.eqb t "node" then Value StepKind.Node
  else if String.eqb t "port" then Value StepKind.Port
  else if String.eqb t "span" then Value StepKind.Span
  else if String.eqb t "crossconnect" then Value StepKind.CrossConnect
  else malformed ("step kind '" +:+ t +:+ "' is not recognised").

Definition read_step (values : list string) : Expected PlanStep :=
  if (length values <? 2)%nat then malformed "step takes an index"
  else
    let! index := ParseU32 (token values 1) in
    let! kind := token_field ParseStepKind values 2 "kind" in
    let! segment := raw_field ParseU32 values 2 "seg" in
    let! reason := raw_field ParseU32 values 2 "reason" in
    let! cost := raw_field ParseU64 values 2 "cost" in
    let! resource := token_field ResourceKeyFromString values 2 "res" in
    Value (MkStep index kind resource segment reason cost).

(** The end of a segment: whether it is a regeneration, and where. *)
Definition read_segment_end (values : list string) : Expected (bool * ResourceKey) :=
  let! ending := RequiredKeyToken values 2 "end" in
  if String.eqb ending "regeneration" then
    let! xc := token_field ResourceKeyFromString values 2 "xc" in
    Value (true, xc)
  else if negb (String.eqb ending "transparent") then malformed "segment end must be regeneration or transparent"
  else Value (false, empty_resource).

Definition read_segment (values : list string) : Expected PlanSegment :=
  if (length values <? 2)%nat then malformed "segment takes an index"
  else
    let! index := ParseU32 (token values 1) in
    let! profile := token_field id_Parse values 2 "profile" in
    let! runs := raw_field ParseU32 values 2 "runs" in
    let! distance := raw_field ParseU64 values 2 "distance" in
    let! loss := raw_field ParseDouble values 2 "loss" in
    let! osnr := raw_field ParseDouble values 2 "osnr" in
    let! spans := raw_field ParseU32 values 2 "spans" in
    let! (ended, xc) := read_segment_end values in
    Value (MkPlanSegment index profile [] distance loss osnr spans runs ended xc).

(** The lambda [split]: the key text is cut at its first colon. *)
Definition split_port (t : string) : Expected PortKey :=
  match split_at ":"%char t with
  | None => malformed "port key must be spelled node:port"
  | Some (n, p) =>
      let! node := id_Parse n in
      let! port := id_Parse p in
      Value (MkPortKey node port)
  end.

Definition read_flag (t : string) : Expected bool :=
  let! v := ParseU32 t in
  if 1 <? v then malformed "rev must be 0 or 1" else Value (v =? 1).

(** The use of a span, once the segment index has been read. *)
Definition read_span_use (values : list string) : Expected PlanSpanUse :=
  let! id := token_field id_Parse values 2 "id" in
  let! from_text := RequiredKeyToken values 2 "from" in
  let! to_text := RequiredKeyToken values 2 "to" in
  let! from := split_port from_text in
  let! to := split_port to_text in
  let! reversed := raw_field read_flag values 2 "rev" in
  let! length := raw_field ParseU64 values 2 "len" in
  let! loss := raw_field ParseDouble values 2 "loss" in
  let! osnr := raw_field ParseDouble values 2 "osnr" in
  let! cost := raw_field ParseU64 values 2 "cost" in
  let! slot := raw_field ParseU16 values 2 "slot" in
  let! domains := read_domains ParseDomainList values 2 in
  Value (MkSpanUse id from to reversed length loss osnr cost slot domains).

Definition read_segspan (have_segment : bool) (segments : nat) (values : list string) : Expected (nat * PlanSpanUse) :=
  if (length values <? 2)%nat then malformed "segspan takes a segment index"
  else
    let! index := ParseU32 (token values 1) in
    if negb have_segment || (Z.of_nat segments <=? index) then malformed "segspan appears before its segment record"
    else
      let! use := read_span_use values in
      Value (Z.to_nat index, use).

Definition read_reservation (values : list string) : Expected PlanReservation :=
  let! resource := token_field ResourceKeyFromString values 1 "res" in
  let! first := raw_field ParseU16 values 1 "first" in
  let! width := raw_field ParseU16 values 1 "width" in
  let! segment := raw_field ParseU32 values 1 "seg" in
  Value (MkReservation resource (MkChannel first width) segment).

Definition read_assumption (values : list string) : Expected PlanAssumption :=
  let! resource := token_field ResourceKeyFromString values 1 "res" in
  let! field := RequiredKeyToken values 1 "field" in
  let! value := RequiredKeyToken values 1 "value" in
  Value (MkAssumption resource field value).

Definition read_exposure (values : list string) : Expected FailureDomainExposure :=
  let! domain := token_field id_Parse values 1 "domain" in
  let! count := raw_field ParseU32 values 1 "count" in
  let! limit := raw_field ParseU32 values 1 "limit" in
  Value (MkExposure domain count limit).

(** ** The loop *)

Record PlanReading := MkPlanReading {
  pr_header_seen : bool; pr_digest_seen : bool; pr_have_segment : bool; pr_plan : PlanArtifact
}.

Definition start_plan_reading : PlanReading := MkPlanReading false false false empty_plan.

Definition read_plan_header (n : Z) (values : list string) (s : PlanReading) : Expected PlanReading :=
  if negb (length values =? 2)%nat || negb (String.eqb (token values 0) "OPP-PLAN") then
    malformed "plan must start with the OPP-PLAN magic line"
  else
    let! version := at_line n (ParseU32 (token values 1)) in
    if negb (version =? kPlanFormatVersion) then
      Error (Failure StatusCode.Unsupported
        ("plan format revision " +:+ token values 1 +:+ " is not supported by this runtime"))
    else Value (MkPlanReading true (pr_digest_seen s) (pr_have_segment s) (plan_put_format version (pr_plan s))).

Definition read_rule (n : Z) (values : list string) (p : PlanArtifact) : Expected PlanArtifact :=
  let! version :=
    at_line n (if negb (length values =? 2)%nat then malformed "rule takes one value" else ParseU32 (token values 1)) in
  if negb (version =? kPlanningRuleVersion) then
    Error (Failure StatusCode.Unsupported
      ("plan was produced by planning rule revision " +:+ token values 1 +:+ ", which this runtime does not reproduce"))
  else Value (plan_put_rule version p).

Definition read_request (values : list string) (p : PlanArtifact) : Expected PlanArtifact :=
  if negb (length values =? 3)%nat then malformed "request takes an id and a digest"
  else
    let! id := id_Parse (token values 1) in
    let! digest := Digest_FromHex (token values 2) in
    Value (plan_put_request id digest p).

Definition read_snapshot (values : list string) (p : PlanArtifact) : Expected PlanArtifact :=
  if negb (length values =? 4)%nat then malformed "snapshot takes an id, a generation and a digest"
  else
    let! id := id_Parse (token values 1) in
    let! generation := ParseU64 (token values 2) in
    let! digest := Digest_FromHex (token values 3) in
    Value (plan_put_snapshot id generation digest p).

Definition read_digest (values : list string) (p : PlanArtifact) : Expected PlanArtifact :=
  if negb (length values =? 2)%nat then malformed "digest takes one value"
  else let! digest := Digest_FromHex (token values 1) in Value (plan_put_digest digest p).

Definition read_plan_record (n : Z) (values : list string) (s : PlanReading) : Expected PlanReading :=
  let p := pr_plan s in
  let keyword := token values 0 in
  let next (e : Expected PlanArtifact) : Expected PlanReading :=
    let! p' := at_line n e in Value (MkPlanReading true false (pr_have_segment s) p') in
  if String.eqb keyword "digest" then
    let! p' := at_line n (read_digest values p) in Value (MkPlanReading true true (pr_have_segment s) p')
  else if String.eqb keyword "rule" then
    let! p' := read_rule n values p in Value (MkPlanReading true false (pr_have_segment s) p')
  else if String.eqb keyword "request" then next (read_request values p)
  else if String.eqb keyword "snapshot" then next (read_snapshot values p)
  else if String.eqb keyword "binding" then next (let! b := read_binding values in Value (plan_push_binding b p))
  else if String.eqb keyword "endpoints" then
    next (let! (source, destination) := read_endpoints values in Value (plan_put_endpoints source destination p))
  else if String.eqb keyword "channel" then
    next (let! width := raw_field ParseU16 values 1 "width" in Value (plan_put_width width p))
  else if String.eqb keyword "totals" then
    next (let! (cost, distance, loss, hops, regen) := read_totals values in
          Value (plan_put_totals cost distance loss hops regen p))
  else if String.eqb keyword "step" then next (let! x := read_step values in Value (plan_push_step x p))
  else if String.eqb keyword "segment" then
    let! x := at_line n (read_segment values) in Value (MkPlanReading true false true (plan_push_segment x p))
  else if String.eqb keyword "segspan" then
    next (let! (index, use) := read_segspan (pr_have_segment s) (length (pl_segments p)) values in
          Value (plan_put_segments (alter (segment_push_span use) index (pl_segments p)) p))
  else if String.eqb keyword "reservation" then
    next (let! x := read_reservation values in Value (plan_push_reservation x p))
  else if String.eqb keyword "capability" || String.eqb keyword "quality" then
    next (let! x := read_assumption values in
          Value (if String.eqb keyword "capability" then plan_push_capability x p else plan_push_quality x p))
  else if String.eqb keyword "exposure" then next (let! x := read_exposure values in Value (plan_push_exposure x p))
  else at_line n (malformed ("unknown plan record '" +:+ keyword +:+ "'")).

Definition read_plan_line (n : Z) (values : list string) (s : PlanReading) : Expected PlanReading :=
  if negb (pr_header_seen s) then read_plan_header n values s
  else if pr_digest_seen s then malformed "plan content appears after the digest line"
  else read_plan_record n values s.

(** [for (i = 0; ...) if (items[i].index != i)] *)
Definition dense (indices : list Z) : bool :=
  bool_decide (indices = map Z.of_nat (seq 0 (length indices))).

Context `{Hasher}.

Definition finish_plan (s : PlanReading) : Expected PlanArtifact :=
  let p := pr_plan s in
  if negb (pr_header_seen s) then malformed "plan is empty"
  else if negb (pr_digest_seen s) then malformed "plan is missing its digest line"
  else if bool_decide (pl_steps p = []) then malformed "plan declares no steps"
  else if bool_decide (pl_segments p = []) then malformed "plan declares no transparent segment"
  else if negb (dense (map ps_index (pl_steps p))) then
    malformed "plan step indices must be dense and ordered from zero"
  else if negb (dense (map sg_index (pl_segments p))) then
    malformed "plan segment indices must be dense and ordered from zero"
  else let st := VerifySeal p in if failed st then Error st else Value p.

Definition ParsePlanArtifact (bytes : string) : Expected PlanArtifact :=
  if kMaxPlanArtifactBytes <? string_size bytes then
    Error (Failure StatusCode.LimitExceeded "plan artifact exceeds the permitted maximum size")
  else
    let! s := read_text_lines (token_step read_plan_line) bytes start_plan_reading in
    finish_plan s.
End reading.

(** ** What a plan must hold to read back

    The ranges the types of the fields give in the code, identities that were
    parsed, finite numbers; and two conditions the types do not give: a node
    identity at the end of a span has no colon, and zero has no sign. *)

Record binding_ok (b : SourceBinding) : Prop := {
  bo_source : id_ok (sb_source b);
  bo_generation : in_width 64 (sb_generation b);
  bo_contribution : digest_ok (sb_contribution b)
}.

Record step_ok (s : PlanStep) : Prop := {
  so_index : in_width 32 (ps_index s);
  so_segment : in_width 32 (ps_segment_index s);
  so_reason : in_width 32 (ps_reason_bits s);
  so_cost : in_width 64 (ps_cost s);
  so_resource : resource_ok (ps_resource s)
}.

Record port_ok (k : PortKey) : Prop := {
  po_node : id_ok (node k);
  po_port : id_ok (port k);
  po_colon : mem_char ":" (str (node k)) = false
}.

Record span_use_ok (u : PlanSpanUse) : Prop := {
  uo_id : id_ok (su_id u);
  uo_from : port_ok (su_from u);
  uo_to : port_ok (su_to u);
  uo_length : in_width 64 (su_length_m u);
  uo_loss : plain_double (su_loss_db u);
  uo_osnr : plain_double (su_osnr_db u);
  uo_cost : in_width 64 (su_cost u);
  uo_slot : in_width 16 (su_first_slot u);
  uo_domains : Forall id_ok (su_failure_domains u)
}.

Record segment_ok (s : PlanSegment) : Prop := {
  go_index : in_width 32 (sg_index s);
  go_profile : id_ok (sg_profile s);
  go_runs : in_width 32 (sg_channel_runs s);
  go_distance : in_width 64 (sg_distance_m s);
  go_loss : plain_double (sg_loss_db s);
  go_osnr : plain_double (sg_osnr_db s);
  go_spans : in_width 32 (sg_span_count s);
  go_regeneration :
    if sg_ended_by_regeneration s then resource_ok (sg_regeneration_resource s)
    else sg_regeneration_resource s = empty_resource;
  go_uses : Forall span_use_ok (sg_spans s)
}.

Record reservation_ok (v : PlanReservation) : Prop := {
  ro_resource : resource_ok (rv_resource v);
  ro_first : in_width 16 (first_slot (rv_channel v));
  ro_width : in_width 16 (width_slots (rv_channel v));
  ro_segment : in_width 32 (rv_segment_index v)
}.

Record exposure_ok (x : FailureDomainExposure) : Prop := {
  xo_id : id_ok (fx_id x);
  xo_count : in_width 32 (fx_member_count x);
  xo_limit : in_width 32 (fx_limit x)
}.

Record plan_ok (p : PlanArtifact) : Prop := {
  ok_format : pl_format_version p = kPlanFormatVersion;
  ok_rule : pl_rule_version p = kPlanningRuleVersion;
  ok_request_id : id_ok (pl_request_id p);
  ok_request_digest : digest_ok (pl_request_digest p);
  ok_snapshot_id : id_ok (pl_snapshot_id p);
  ok_generation : in_width 64 (pl_snapshot_generation p);
  ok_snapshot_digest : digest_ok (pl_snapshot_digest p);
  ok_bindings : Forall binding_ok (pl_bound_sources p);
  ok_source : id_ok (node (pl_source p)) /\ id_ok (port (pl_source p));
  ok_destination : id_ok (node (pl_destination p)) /\ id_ok (port (pl_destination p));
  ok_steps : Forall step_ok (pl_steps p) /\ pl_steps p <> [] /\ dense (map ps_index (pl_steps p)) = true;
  ok_segments : Forall segment_ok (pl_segments p) /\ pl_segments p <> [] /\ dense (map sg_index (pl_segments p)) = true;
  ok_reservations : Forall reservation_ok (pl_reservations p);
  ok_capability : Forall (fun a => resource_ok (as_resource a)) (pl_capability p);
  ok_quality : Forall (fun a => resource_ok (as_resource a)) (pl_quality p);
  ok_exposure : Forall exposure_ok (pl_exposure p);
  ok_width : in_width 16 (pl_channel_width_slots p);
  ok_cost : in_width 64 (pl_total_cost p);
  ok_distance : in_width 64 (pl_total_distance_m p);
  ok_loss : plain_double (pl_total_loss_db p);
  ok_hops : in_width 32 (pl_hops p);
  ok_regenerations : in_width 32 (pl_regenerations p);
  ok_digest : digest_ok (pl_digest p)
}.

(** A plan whose text reads back. *)
Record candidate_ok `{Platform, Hasher} (p : PlanArtifact) : Prop := {
  ca_plan : plan_ok p;
  ca_fits : Forall line_fits (plan_lines p true);
  ca_size : string_size (CanonicalBytes p) <= kMaxPlanArtifactBytes;
  ca_seal : failed (VerifySeal p) = false
}.

(** ** Lemmas: texts of the fields read back *)

Lemma port_text_split_ok k : port_ok k -> split_port (CanonicalText k) = Value k.
Proof.
  intros [Hn Hp Hc]. unfold split_port, CanonicalText. change (":" +:+ ?x) with (String ":"%char x).
  rewrite split_at_app.
  - rewrite !id_Parse_str by done. by destruct k.
  - intros Hin. unfold mem_char in Hc. assert (existsb (Ascii.eqb ":"%char) (chars (str (node k))) = true) as E.
    { apply existsb_exists. exists ":"%char. split; [done|apply Ascii.eqb_refl]. }
    by rewrite E in Hc.
Qed.

Lemma step_kind_text k : ParseStepKind (StepKindName k) = Value k.
Proof. by destruct k. Qed.

(** ** Lemmas: the records read back *)

Ltac read_values :=
  Lines.read_values; repeat first [ rewrite step_kind_text | rewrite port_text_split_ok by done ]; Lines.read_values.

Section records.
Context `{Platform, !CharconvLaws}.

Lemma step_reads s : step_ok s -> reads_as (step_line s) "step" read_step s.
Proof.
  intros [Hi Hs Hr Hc Hk]. eapply reads_as_intro; [unfold step_line; print_record|simpl_record; reflexivity|].
  simpl_record. intros Hsize. unfold read_step. read_fields Hsize. read_values. by destruct s.
Qed.

Lemma binding_reads b : binding_ok b -> reads_as (binding_line b) "binding" read_binding b.
Proof.
  intros [Hs Hg Hc]. eapply reads_as_intro; [unfold binding_line; print_record|simpl_record; reflexivity|].
  simpl_record. intros Hsize. unfold read_binding. read_fields Hsize. read_values. rewrite EncodeToken_id by done.
  read_values. by destruct b.
Qed.

Lemma reservation_reads v : reservation_ok v -> reads_as (reservation_line v) "reservation" read_reservation v.
Proof.
  intros [Hr Hf Hw Hs]. eapply reads_as_intro; [unfold reservation_line; print_record|simpl_record; reflexivity|].
  simpl_record. intros Hsize. unfold read_reservation. read_fields Hsize. read_values.
  destruct v as [r [f w] g]. done.
Qed.

Lemma exposure_reads x : exposure_ok x -> reads_as (exposure_line x) "exposure" read_exposure x.
Proof.
  intros [Hi Hc Hl]. eapply reads_as_intro; [unfold exposure_line; print_record|simpl_record; reflexivity|].
  simpl_record. intros Hsize. unfold read_exposure. read_fields Hsize. read_values. by destruct x.
Qed.

Lemma assumption_reads keyword a :
  gword keyword -> resource_ok (as_resource a) -> reads_as (assumption_line keyword a) keyword read_assumption a.
Proof.
  intros Hk Hr. eapply reads_as_intro; [unfold assumption_line; print_record|simpl_record; reflexivity|].
  simpl_record. intros Hsize. unfold read_assumption. read_fields Hsize. read_values. by destruct a.
Qed.

Lemma endpoints_reads p :
  plan_ok p -> reads_as (endpoints_line p) "endpoints" read_endpoints (pl_source p, pl_destination p).
Proof.
  intros Hp. destruct (ok_source _ Hp) as [Hsn Hsp], (ok_destination _ Hp) as [Hdn Hdp].
  eapply reads_as_intro; [unfold endpoints_line; print_record|simpl_record; reflexivity|].
  simpl_record. intros Hsize. unfold read_endpoints. read_fields Hsize. read_values.
  by destruct (pl_source p), (pl_destination p).
Qed.

Lemma totals_reads p :
  plan_ok p ->
  reads_as (totals_line p) "totals" read_totals
    (pl_total_cost p, pl_total_distance_m p, pl_total_loss_db p, pl_hops p, pl_regenerations p).
Proof.
  intros [].
  eapply reads_as_intro; [unfold totals_line; print_record|simpl_record; reflexivity|].
  simpl_record. intros Hsize. unfold read_totals. read_fields Hsize. by read_values.
Qed.

Definition segment_head (s : PlanSegment) : PlanSegment :=
  MkPlanSegment (sg_index s) (sg_profile s) [] (sg_distance_m s) (sg_loss_db s) (sg_osnr_db s)
    (sg_span_count s) (sg_channel_runs s) (sg_ended_by_regeneration s) (sg_regeneration_resource s).

Lemma segment_reads s : segment_ok s -> reads_as (segment_line s) "segment" read_segment (segment_head s).
Proof.
  intros [Hi Hp Hr Hd Hl Ho Hn Hx Hu]. unfold segment_line, segment_head.
  destruct (sg_ended_by_regeneration s);
    (eapply reads_as_intro;
      [print_record|simpl_record; reflexivity|]);
    simpl_record; intros Hsize; unfold read_segment, read_segment_end; read_fields Hsize; cbn [String.eqb Ascii.eqb Bool.eqb];
    read_fields Hsize; read_values; by rewrite ?Hx.
Qed.
Lemma ParseDomainList_text ids : Forall id_ok ids -> ids <> [] -> ParseDomainList (JoinDomains ids) = Value ids.
Proof.
  intros Hids Hne. unfold ParseDomainList. rewrite comma_pieces_join by done.
  rewrite bool_decide_eq_false_2 by (by apply JoinDomains_nonempty).
  clear Hne. induction Hids as [|id ids Hid Hids IH]; [done|]. cbn [map fold_right].
  rewrite id_Parse_str by done. by rewrite IH.
Qed.

Lemma flag_text (b : bool) : read_flag (FormatU64 (if b then 1 else 0)) = Value b.
Proof. by destruct b. Qed.

Lemma span_use_reads s u n :
  span_use_ok u -> in_width 32 (sg_index s) -> sg_index s < Z.of_nat n ->
  reads_as (segspan_line s u) "segspan" (read_segspan true n) (Z.to_nat (sg_index s), u).
Proof.
  intros [Hid Hfrom Hto Hlen Hloss Hosnr Hcost Hslot Hdom] Hi Hn.
  eapply reads_as_intro.
  - unfold segspan_line. apply record_AddDomains; [|done].
    assert (0 <= (if su_reversed u then 1 else 0)) by (by destruct (su_reversed u)). print_record.
  - cbn [app]. reflexivity.
  - intros Hsize. unfold read_segspan, read_span_use. rewrite read_domains_at by (done || by intros; apply ParseDomainList_text).
    assert (domain_fields (su_failure_domains u) = [] \/
      exists v, domain_fields (su_failure_domains u) = [("domains", v)]) as Htail.
    { destruct (su_failure_domains u); [by left|right; by eexists]. }
    destruct Htail as [E|[v E]]; rewrite E in *; simpl_record; read_fields Hsize; read_values;
      rewrite (proj2 (Z.leb_gt _ _)), flag_text by lia; cbn [orb negb]; by destruct u.
Qed.
End records.

(** ** Lemmas: the loop over the lines of a plan *)

Section loop.
Context `{Platform, !CharconvLaws}.

(** The state after the header and before the digest. *)
Definition reading (have_segment : bool) (p : PlanArtifact) : PlanReading := MkPlanReading true false have_segment p.

Abbreviation plan_step := (token_step read_plan_line).

Lemma record_step {A} line keyword (read : list string -> Expected A) a n have p :
  reads_as line keyword read a -> line_fits line ->
  exists values, token values 0 = keyword /\ read values = Value a /\
    plan_step n (strip_cr line) (reading have p) = read_plan_record n values (reading have p).
Proof.
  intros (values & fields & Hl & Hk & Hr) Hf. exists (values ++ map kv fields).
  split; [done|]. split; [by apply Hr|]. by rewrite (token_step_prints _ _ _ _ _ Hl Hf).
Qed.

(** The lines of the items of one vector. *)
Lemma read_vector {X} (print : X -> string) (ok : X -> Prop) (get : PlanArtifact -> list X)
    (put : list X -> PlanArtifact -> PlanArtifact) n xs have p :
  (forall l q, get (put l q) = l) -> (forall l l' q, put l (put l' q) = put l q) -> (forall q, put (get q) q = q) ->
  (forall n x p, ok x -> line_fits (print x) ->
     plan_step n (strip_cr (print x)) (reading have p) = Value (reading have (put (get p ++ [x]) p))) ->
  Forall ok xs -> Forall line_fits (map print xs) ->
  read_lines plan_step n (map print xs) (reading have p) = Value (reading have (put (get p ++ xs) p)).
Proof.
  intros Hget Hput Hid Hstep Hok Hf.
  by apply (read_pushed plan_step (reading have) print ok get put (fun x l => l ++ [x]) n xs (get p) p).
Qed.

(** One line of each kind. *)
Ltac read_record lemma :=
  match goal with
  | Hf : line_fits ?line |- plan_step ?n _ (reading ?have ?p) = _ =>
      let E := fresh "E" in
      destruct (record_step _ _ _ _ n have p lemma Hf) as (values & Hk & Hr & E); rewrite E;
      unfold read_plan_record; rewrite Hk; cbn [String.eqb Ascii.eqb Bool.eqb orb pr_plan pr_have_segment reading];
      rewrite Hr; reflexivity
  end.

Lemma read_bindings n xs have p :
  Forall binding_ok xs -> Forall line_fits (map binding_line xs) ->
  read_lines plan_step n (map binding_line xs) (reading have p) =
  Value (reading have (plan_put_bindings (pl_bound_sources p ++ xs) p)).
Proof.
  intros Hok Hf. apply (read_vector _ binding_ok); try done; [by intros []|].
  intros m x q Hx Hl. read_record (binding_reads x Hx).
Qed.
Lemma read_steps n xs have p :
  Forall step_ok xs -> Forall line_fits (map step_line xs) ->
  read_lines plan_step n (map step_line xs) (reading have p) = Value (reading have (plan_put_steps (pl_steps p ++ xs) p)).
Proof.
  intros Hok Hf. apply (read_vector _ step_ok); try done; [by intros []|].
  intros m x q Hx Hl. read_record (step_reads x Hx).
Qed.

Lemma read_reservations n xs have p :
  Forall reservation_ok xs -> Forall line_fits (map reservation_line xs) ->
  read_lines plan_step n (map reservation_line xs) (reading have p) =
  Value (reading have (plan_put_reservations (pl_reservations p ++ xs) p)).
Proof.
  intros Hok Hf. apply (read_vector _ reservation_ok); try done; [by intros []|].
  intros m x q Hx Hl. read_record (reservation_reads x Hx).
Qed.

Lemma gword_capability : gword "capability".
Proof. done. Qed.
Lemma gword_quality : gword "quality".
Proof. done. Qed.

Lemma read_capability n xs have p :
  Forall (fun a => resource_ok (as_resource a)) xs -> Forall line_fits (map (assumption_line "capability") xs) ->
  read_lines plan_step n (map (assumption_line "capability") xs) (reading have p) =
  Value (reading have (plan_put_capability (pl_capability p ++ xs) p)).
Proof.
  intros Hok Hf. apply (read_vector _ (fun a => resource_ok (as_resource a))); try done; [by intros []|].
  intros m x q Hx Hl. read_record (assumption_reads "capability" x gword_capability Hx).
Qed.

Lemma read_quality n xs have p :
  Forall (fun a => resource_ok (as_resource a)) xs -> Forall line_fits (map (assumption_line "quality") xs) ->
  read_lines plan_step n (map (assumption_line "quality") xs) (reading have p) =
  Value (reading have (plan_put_quality (pl_quality p ++ xs) p)).
Proof.
  intros Hok Hf. apply (read_vector _ (fun a => resource_ok (as_resource a))); try done; [by intros []|].
  intros m x q Hx Hl. read_record (assumption_reads "quality" x gword_quality Hx).
Qed.

Lemma read_exposures n xs have p :
  Forall exposure_ok xs -> Forall line_fits (map exposure_line xs) ->
  read_lines plan_step n (map exposure_line xs) (reading have p) =
  Value (reading have (plan_put_exposure (pl_exposure p ++ xs) p)).
Proof.
  intros Hok Hf. apply (read_vector _ exposure_ok); try done; [by intros []|].
  intros m x q Hx Hl. read_record (exposure_reads x Hx).
Qed.

Lemma read_segments n xs have p :
  Forall segment_ok xs -> Forall line_fits (map segment_line xs) -> xs <> [] ->
  read_lines plan_step n (map segment_line xs) (reading have p) =
  Value (reading true (plan_put_segments (pl_segments p ++ map segment_head xs) p)).
Proof.
  intros Hok. revert n have p. induction Hok as [|x xs Hx Hxs IH]; intros n have p Hf Hne; [done|].
  cbn [map read_lines] in *. apply Forall_cons in Hf as [Hfx Hf].
  assert (plan_step n (strip_cr (segment_line x)) (reading have p) =
    Value (reading true (plan_push_segment (segment_head x) p))) as ->.
  { read_record (segment_reads x Hx). }
  destruct xs as [|y xs]; [done|]. rewrite IH by done. unfold plan_push_segment. cbn [pl_segments plan_put_segments].
  by rewrite <- app_assoc.
Qed.

(** The uses of the spans of one segment, then of all of them. *)
Lemma read_span_uses n s us pre done rest p :
  Forall span_use_ok us -> Forall line_fits (map (segspan_line s) us) -> in_width 32 (sg_index s) ->
  sg_index s = size done ->
  pl_segments p = done ++ fold_left (fun g u => segment_push_span u g) pre (segment_head s) :: rest ->
  read_lines plan_step n (map (segspan_line s) us) (reading true p) =
  Value (reading true (plan_put_segments
    (done ++ fold_left (fun g u => segment_push_span u g) (pre ++ us) (segment_head s) :: rest) p)).
Proof.
  intros Hok. revert n pre p. induction Hok as [|u us Hu Hus IH]; intros n pre p Hf Hi Hd Hp; cbn [map read_lines].
  - rewrite app_nil_r, <- Hp. by destruct p.
  - cbn [map] in Hf. apply Forall_cons in Hf as [Hfu Hf].
    assert (sg_index s < Z.of_nat (length (pl_segments p))) as Hlt.
    { rewrite Hp, length_app, Hd. unfold size. cbn [length]. lia. }
    assert (plan_step n (strip_cr (segspan_line s u)) (reading true p) =
      Value (reading true (plan_put_segments (alter (segment_push_span u) (Z.to_nat (sg_index s)) (pl_segments p)) p))) as ->.
    { read_record (span_use_reads s u (length (pl_segments p)) Hu Hi Hlt). }
    rewrite (IH _ (pre ++ [u])); [|done..|].
    + cbn [plan_put_segments]. by rewrite <- app_assoc.
    + cbn [pl_segments plan_put_segments]. rewrite Hp, Hd. unfold size. rewrite Nat2Z.id.
      rewrite fold_left_app. cbn [fold_left]. by rewrite list.alter_app_r_alt, Nat.sub_diag by lia.
Qed.
Lemma fold_push_spans us s :
  fold_left (fun g u => segment_push_span u g) us (segment_head s) =
  MkPlanSegment (sg_index s) (sg_profile s) us (sg_distance_m s) (sg_loss_db s) (sg_osnr_db s)
    (sg_span_count s) (sg_channel_runs s) (sg_ended_by_regeneration s) (sg_regeneration_resource s).
Proof.
  induction us as [|u us IH] using rev_ind; [done|]. by rewrite fold_left_app, IH.
Qed.

Lemma read_all_uses n todo done p :
  Forall segment_ok todo -> Forall line_fits (concat (map (fun s => map (segspan_line s) (sg_spans s)) todo)) ->
  map sg_index todo = map Z.of_nat (seq (length done) (length todo)) ->
  pl_segments p = done ++ map segment_head todo ->
  read_lines plan_step n (concat (map (fun s => map (segspan_line s) (sg_spans s)) todo)) (reading true p) =
  Value (reading true (plan_put_segments (done ++ todo) p)).
Proof.
  intros Hok. revert n done p. induction Hok as [|s todo Hs Htodo IH]; intros n done p Hf Hi Hp.
  - cbn. cbn [map] in Hp. rewrite <- Hp. by destruct p.
  - cbn [map concat] in *. apply Forall_app in Hf as [Hfs Hf]. cbn [length seq map] in Hi. injection Hi as Hi His.
    rewrite read_lines_app. rewrite (read_span_uses _ s (sg_spans s) [] done (map segment_head todo) p);
      [|apply Hs|done|apply Hs|done|done].
    cbn [app]. rewrite fold_push_spans.
    rewrite (IH _ (done ++ [s])); [|done| |].
    + cbn [plan_put_segments]. by rewrite <- app_assoc.
    + rewrite length_app, Nat.add_1_r. done.
    + cbn [pl_segments plan_put_segments]. rewrite <- app_assoc. cbn [app]. by destruct s.
Qed.

(** ** Lemmas: the lines that come once *)

Lemma record_step_at values fields line n have p :
  record_line line values fields -> line_fits line ->
  plan_step n (strip_cr line) (reading have p) = read_plan_record n (values ++ map kv fields) (reading have p).
Proof. intros Hl Hf. by rewrite (token_step_prints _ _ _ _ _ Hl Hf). Qed.

Ltac read_once :=
  match goal with
  | Hf : line_fits _ |- _ =>
      erewrite record_step_at; [|print_record|exact Hf]; simpl_record; unfold read_plan_record;
      read_values; cbn [String.eqb Ascii.eqb Bool.eqb orb pr_plan pr_have_segment reading]
  end.

Definition rule_line (p : PlanArtifact) : string := Line_AddU32 (Line_Begin "rule") (pl_rule_version p).
Definition request_line (p : PlanArtifact) : string :=
  Line_Add (Line_Add (Line_Begin "request") (str (pl_request_id p))) (Digest_ToHex (pl_request_digest p)).
Definition snapshot_line (p : PlanArtifact) : string :=
  Line_Add (Line_AddU64 (Line_Add (Line_Begin "snapshot") (str (pl_snapshot_id p))) (pl_snapshot_generation p))
    (Digest_ToHex (pl_snapshot_digest p)).
Definition channel_line (p : PlanArtifact) : string :=
  Line_AddKeyU64 (Line_Begin "channel") "width" (pl_channel_width_slots p).
Definition digest_line (p : PlanArtifact) : string := Line_Add (Line_Begin "digest") (Digest_ToHex (pl_digest p)).

Lemma rule_reads n p q :
  plan_ok p -> line_fits (rule_line p) ->
  plan_step n (strip_cr (rule_line p)) (reading false q) = Value (reading false (plan_put_rule (pl_rule_version p) q)).
Proof.
  intros Hp Hf. unfold rule_line, Line_AddU32 in *. rewrite (ok_rule _ Hp) in *.
  assert (0 <= kPlanningRuleVersion) by done. read_once. reflexivity.
Qed.

Lemma request_reads n p q :
  plan_ok p -> line_fits (request_line p) ->
  plan_step n (strip_cr (request_line p)) (reading false q) =
  Value (reading false (plan_put_request (pl_request_id p) (pl_request_digest p) q)).
Proof.
  intros [] Hf. unfold request_line in *. read_once. unfold read_request.
  rewrite EncodeToken_id, EncodeToken_digest by done. by read_values.
Qed.

Lemma snapshot_reads n p q :
  plan_ok p -> line_fits (snapshot_line p) ->
  plan_step n (strip_cr (snapshot_line p)) (reading false q) =
  Value (reading false (plan_put_snapshot (pl_snapshot_id p) (pl_snapshot_generation p) (pl_snapshot_digest p) q)).
Proof.
  intros [] Hf. unfold snapshot_line in *. read_once. unfold read_snapshot.
  rewrite EncodeToken_id, EncodeToken_digest by done. by read_values.
Qed.

Lemma channel_reads n p q :
  plan_ok p -> line_fits (channel_line p) ->
  plan_step n (strip_cr (channel_line p)) (reading false q) =
  Value (reading false (plan_put_width (pl_channel_width_slots p) q)).
Proof.
  intros [] Hf. unfold channel_line in *. read_once.
  change ["channel"; kv ?f] with (["channel"] ++ map kv [f]). read_fields Hf. by read_values.
Qed.

Lemma digest_reads n p q have :
  plan_ok p -> line_fits (digest_line p) ->
  plan_step n (strip_cr (digest_line p)) (reading have q) =
  Value (MkPlanReading true true have (plan_put_digest (pl_digest p) q)).
Proof.
  intros [] Hf. unfold digest_line in *. read_once. unfold read_digest. rewrite EncodeToken_digest by done. by read_values.
Qed.
(** Every line of a plan is a printed line. *)
Lemma header_prints : prints ("OPP-PLAN " +:+ FormatU32 kPlanFormatVersion) ["OPP-PLAN"; "1"].
Proof. exists "OPP-PLAN", ["1"]. split_and!; [done| |done]. repeat constructor; done. Qed.

Lemma uses_printed s : segment_ok s -> Forall printed (map (segspan_line s) (sg_spans s)).
Proof.
  intros Hs. apply (printed_map _ span_use_ok); [|apply Hs]. intros u Hu.
  apply (printed_reads _ _ _ _ (span_use_reads s u (S (Z.to_nat (sg_index s))) Hu (go_index _ Hs) ltac:(lia))).
Qed.

Lemma plan_lines_printed p digest : plan_ok p -> Forall printed (plan_lines p digest).
Proof.
  intros Hp. unfold plan_lines. rewrite (ok_format _ Hp), (ok_rule _ Hp). pose proof Hp as [].
  assert (0 <= kPlanningRuleVersion) by done. repeat apply Forall_app_2.
  - repeat apply Forall_cons_2; [by eexists; apply header_prints|eapply printed_record; print_record..|done].
  - apply (printed_map _ binding_ok); [|done]. intros x Hx. by eapply printed_reads, binding_reads.
  - repeat apply Forall_cons_2; [|eapply printed_record; print_record| |done].
    + by eapply printed_reads, endpoints_reads.
    + by eapply printed_reads, totals_reads.
  - apply (printed_map _ step_ok); [|apply ok_steps0]. intros x Hx. by eapply printed_reads, step_reads.
  - apply (printed_map _ segment_ok); [|apply ok_segments0]. intros x Hx. by eapply printed_reads, segment_reads.
  - destruct ok_segments0 as (Hs & _ & _). induction Hs; [done|]. cbn [map concat].
    apply Forall_app_2; [by apply uses_printed|done].
  - apply (printed_map _ reservation_ok); [|done]. intros x Hx. by eapply printed_reads, reservation_reads.
  - apply (printed_map _ (fun a => resource_ok (as_resource a))); [|done].
    intros x Hx. eapply printed_reads, (assumption_reads "capability"); [apply gword_capability|done].
  - apply (printed_map _ (fun a => resource_ok (as_resource a))); [|done].
    intros x Hx. eapply printed_reads, (assumption_reads "quality"); [apply gword_quality|done].
  - apply (printed_map _ exposure_ok); [|done]. intros x Hx. by eapply printed_reads, exposure_reads.
  - destruct digest; [|done]. apply Forall_singleton. eapply printed_record; print_record.
Qed.

(** ** Lemmas: the whole text *)

Lemma dense_indices l : dense l = true -> l = map Z.of_nat (seq 0 (length l)).
Proof. unfold dense. by rewrite bool_decide_eq_true. Qed.

Lemma dense_segments p :
  plan_ok p -> map sg_index (pl_segments p) = map Z.of_nat (seq (length (@nil PlanSegment)) (length (pl_segments p))).
Proof.
  intros Hp. destruct (ok_segments _ Hp) as (_ & _ & Hd). apply dense_indices in Hd. by rewrite length_map in Hd.
Qed.

Lemma endpoints_step n p q :
  plan_ok p -> line_fits (endpoints_line p) ->
  plan_step n (strip_cr (endpoints_line p)) (reading false q) =
  Value (reading false (plan_put_endpoints (pl_source p) (pl_destination p) q)).
Proof. intros Hp Hf. read_record (endpoints_reads p Hp). Qed.

Lemma totals_step n p q :
  plan_ok p -> line_fits (totals_line p) ->
  plan_step n (strip_cr (totals_line p)) (reading false q) =
  Value (reading false (plan_put_totals (pl_total_cost p) (pl_total_distance_m p) (pl_total_loss_db p) (pl_hops p)
    (pl_regenerations p) q)).
Proof. intros Hp Hf. read_record (totals_reads p Hp). Qed.

Lemma read_plan_lines p :
  plan_ok p -> Forall line_fits (plan_lines p true) ->
  read_lines plan_step 1 (plan_lines p true) start_plan_reading = Value (MkPlanReading true true true p).
Proof.
  intros Hp Hf. unfold plan_lines in *.
  fold (rule_line p) (request_line p) (snapshot_line p) (channel_line p) (digest_line p) in *.
  rewrite (ok_format _ Hp) in *.
  repeat match goal with Hl : Forall line_fits (_ ++ _) |- _ => apply Forall_app in Hl as [? Hl] end.
  repeat match goal with Hl : Forall line_fits (_ :: _) |- _ => apply Forall_cons in Hl as [? Hl] end.
  destruct (ok_steps _ Hp) as (Hsteps & Hne & Hdense). destruct (ok_segments _ Hp) as (Hsegs & Hgne & Hgdense).
  cbn [app read_lines].
  rewrite (token_step_prints _ _ _ _ _ header_prints) by done.
  assert (read_plan_line 1 ["OPP-PLAN"; "1"] start_plan_reading = Value (reading false empty_plan)) as ->.
  { vm_compute. reflexivity. }
  rewrite rule_reads, request_reads, snapshot_reads by done.
  rewrite read_lines_app, read_bindings by (done || apply Hp). cbn [read_lines].
  rewrite endpoints_step, channel_reads, totals_step by done.
  rewrite read_lines_app, read_steps by done.
  rewrite read_lines_app, read_segments by done.
  rewrite read_lines_app, (read_all_uses _ (pl_segments p) []); [|done|done|by apply dense_segments|done].
  rewrite read_lines_app, read_reservations by (done || apply Hp).
  rewrite read_lines_app, read_capability by (done || apply Hp).
  rewrite read_lines_app, read_quality by (done || apply Hp).
  rewrite read_lines_app, read_exposures by (done || apply Hp).
  cbn [read_lines]. rewrite digest_reads by done. f_equal.
  destruct Hp, p. cbn in *. by subst.
Qed.
End loop.

Lemma plan_reads `{Platform, !CharconvLaws, Hasher} (p : PlanArtifact) :
  plan_ok p -> Forall line_fits (plan_lines p true) -> string_size (CanonicalBytes p) <= kMaxPlanArtifactBytes ->
  failed (VerifySeal p) = false -> ParsePlanArtifact (CanonicalBytes p) = Value p.
Proof.
  intros Hp Hf Hsize Hseal. unfold ParsePlanArtifact. rewrite (proj2 (Z.ltb_ge _ _)) by done.
  unfold read_text_lines, CanonicalBytes, PlanToText. rewrite text_lines_text by (by apply plan_lines_printed).
  rewrite read_plan_lines by done. unfold finish_plan. cbn [pr_plan pr_header_seen pr_digest_seen negb].
  destruct (ok_steps _ Hp) as (_ & Hs & Hds). destruct (ok_segments _ Hp) as (_ & Hg & Hdg).
  rewrite !bool_decide_eq_false_2 by done. rewrite Hds, Hdg. cbn [negb]. cbv zeta. by rewrite Hseal.
Qed.

Lemma candidate_reads `{Platform, !CharconvLaws, Hasher} p : candidate_ok p -> ParsePlanArtifact (CanonicalBytes p) = Value p.
Proof. intros []. by apply plan_reads. Qed.

(** ** Theorems *)

(** C34: plans read back.  The canonical bytes of a sealed plan, whose values are
    in the ranges of their fields and whose lines are within the bounds of the
    reader, are read back to the same plan, field for field. *)
Theorem plan_roundtrip `{Platform, !CharconvLaws, Hasher} (p : PlanArtifact) :
  plan_ok p -> Forall line_fits (plan_lines p true) -> string_size (CanonicalBytes p) <= kMaxPlanArtifactBytes ->
  failed (VerifySeal p) = false -> ParsePlanArtifact (CanonicalBytes p) = Value p.
Proof. apply plan_reads. Qed.

(** Keeping the revisions of the header. *)
Definition known_revisions (s : PlanReading) : Prop :=
  pl_format_version (pr_plan s) = kPlanFormatVersion /\ pl_rule_version (pr_plan s) = kPlanningRuleVersion.

Lemma read_plan_line_revisions `{Platform} n values s s' :
  read_plan_line n values s = Value s' -> known_revisions s -> known_revisions s'.
Proof.
  unfold known_revisions, read_plan_line. intros Hr [Hv Hu].
  destruct (negb (pr_header_seen s)).
  - unfold read_plan_header in Hr. open_reads. cbn. split; [|done]. apply negb_false_iff in E1. by apply Z.eqb_eq.
  - destruct (pr_digest_seen s); [done|]. unfold read_plan_record in Hr. cbv zeta in Hr. open_reads.
    all: unfold read_digest, read_rule, read_request, read_snapshot in *; open_reads.
    all: repeat match goal with Hp : _ * _ |- _ => destruct Hp end; open_reads.
    all: try (split; [exact Hv|exact Hu]).
    + split; [exact Hv|]. apply negb_false_iff, Z.eqb_eq in E3. exact E3.
    + by destruct (String.eqb (token values 0) "capability").
Qed.

Lemma read_plan_revisions `{Platform} n lines s s' :
  read_lines (token_step read_plan_line) n lines s = Value s' -> known_revisions s -> known_revisions s'.
Proof.
  revert n s; induction lines as [|line lines IH]; intros n s; cbn [read_lines]; [by intros [= <-]|].
  destruct (token_step read_plan_line n (strip_cr line) s) as [s1|] eqn:E; [|done]. intros Hr Hs.
  apply (IH _ _ Hr). unfold token_step in E. case_bool_decide; [by injection E as <-|].
  destruct (line_tokens n (strip_cr line)); [|done]. by eapply read_plan_line_revisions.
Qed.

Definition well_read `{Platform, Hasher} (p : PlanArtifact) : Prop :=
  p = Seal p /\ pl_format_version p = kPlanFormatVersion /\ pl_rule_version p = kPlanningRuleVersion /\
  pl_steps p <> [] /\ pl_segments p <> [] /\
  map ps_index (pl_steps p) = map Z.of_nat (seq 0 (length (pl_steps p))) /\
  map sg_index (pl_segments p) = map Z.of_nat (seq 0 (length (pl_segments p))).

Lemma parsed_plan_well_read `{Platform, Hasher} (bytes : string) (p : PlanArtifact) :
  ParsePlanArtifact bytes = Value p -> well_read p.
Proof.
  unfold ParsePlanArtifact. destruct (_ <? _); [done|]. intros (s & Hr & Hfin)%let_value.
  apply read_plan_revisions in Hr as [Hv Hu]; [|done]. unfold finish_plan in Hfin. cbv zeta in Hfin.
  destruct (pr_header_seen s), (pr_digest_seen s); try done. cbn [negb] in Hfin.
  do 2 (case_bool_decide; [done|]).
  destruct (dense (map ps_index _)) eqn:Hs, (dense (map sg_index _)) eqn:Hg; try done. cbn [negb] in Hfin.
  destruct (failed (VerifySeal (pr_plan s))) eqn:Hseal; [done|]. injection Hfin as <-.
  apply dense_indices in Hs, Hg. rewrite length_map in Hs, Hg. split_and!; try done.
  unfold VerifySeal, digest_eqb in Hseal. case_bool_decide as Hd; [|done]. unfold Seal. rewrite Hd.
  by destruct (pr_plan s).
Qed.

(** Whatever the reader accepts is a sealed plan of the supported
    revisions: its digest is the digest of its content, it has steps and
    segments, and both are numbered densely from zero. *)
Theorem parsed_plan_sealed `{Platform, Hasher} (bytes : string) (p : PlanArtifact) :
  ParsePlanArtifact bytes = Value p ->
  p = Seal p /\ pl_format_version p = kPlanFormatVersion /\ pl_rule_version p = kPlanningRuleVersion /\
  pl_steps p <> [] /\ pl_segments p <> [] /\
  map ps_index (pl_steps p) = map Z.of_nat (seq 0 (length (pl_steps p))) /\
  map sg_index (pl_segments p) = map Z.of_nat (seq 0 (length (pl_segments p))).
Proof. apply parsed_plan_well_read. Qed.

(** ** A plan whose span starts at a node of a given name *)

Module SamplePlan.
(** A cheap stand-in for the digest, of the right length. *)
#[local] Instance size_hasher : Hasher :=
  fun pieces => MkDigest (repeat (wrap8 (fold_left (fun n s => n + string_size s) pieces 0)) 32).

Definition end_of (n : string) : PortKey := MkPortKey (MkId n) (MkId "1").

Definition draft (n : string) : PlanArtifact :=
  MkPlan 1 1 (MkId "r1") zero_digest (MkId "snap") 7 zero_digest [MkBinding (MkId "inv") 3 zero_digest]
    (MkPortKey (MkId "S") (MkId "1")) (end_of "B")
    [MkStep 0 StepKind.Span (ForSpan (MkId "s")) 0 9 5; MkStep 1 StepKind.Node (ForNode (MkId "B")) 0 1 1]
    [MkPlanSegment 0 (MkId "P")
       [MkSpanUse (MkId "s") (end_of n) (end_of "B") false 80000 d10 (double_of 30) 5 2 [MkId "duct"; MkId "hall"]]
       80000 d10 (double_of 30) 1 1 false empty_resource]
    [MkReservation (ForSpan (MkId "s")) (MkChannel 2 1) 0]
    [MkAssumption (ForNode (MkId "B")) "admin" "up by request"] [] [MkExposure (MkId "duct") 1 0]
    1 6 80000 d10 1 0 zero_digest.

Definition plan (n : string) : PlanArtifact := Seal (draft n).

Lemma plan_A_ok : plan_ok (plan "A").
Proof. split; try (by vm_compute); repeat constructor; by vm_compute. Qed.

Lemma plan_A_fits : Forall line_fits (plan_lines (plan "A") true).
Proof. apply (bool_decide_unpack _). by vm_compute. Qed.

(** The first use of the plan read back. *)
Definition first_use (e : Expected PlanArtifact) : option PlanSpanUse :=
  match e with
  | Value p => match pl_segments p with s :: _ => hd_error (sg_spans s) | [] => None end
  | Error _ => None
  end.

Definition read_digest_of (e : Expected PlanArtifact) : option Digest256 :=
  match e with Value p => Some (pl_digest p) | Error _ => None end.
End SamplePlan.

(** A node identity with a colon, which the identity alphabet allows, does not
    read back: the plan whose span starts at port 1 of node "A:9" is read as one
    whose span starts at port "9:1" of node "A", and the seal does not tell the
    two apart, since they print the same text. *)
Theorem colon_port_misread :
  let p := SamplePlan.plan "A:9" in
  let e := ParsePlanArtifact (H0 := SamplePlan.size_hasher) (CanonicalBytes p) in
  IsValidIdText "A:9" = true /\ expected_ok e = true /\
  SamplePlan.read_digest_of e = Some (pl_digest p) /\
  (su_from <$> SamplePlan.first_use (Value p)) = Some (MkPortKey (MkId "A:9") (MkId "1")) /\
  (su_from <$> SamplePlan.first_use e) = Some (MkPortKey (MkId "A") (MkId "9:1")).
Proof. vm_compute. repeat split. Qed.

Section witnesses.
Existing Instance SamplePlan.size_hasher.

Lemma plan_roundtrip_witness :
  failed (VerifySeal (SamplePlan.plan "A")) = false /\
  ParsePlanArtifact (CanonicalBytes (SamplePlan.plan "A")) = Value (SamplePlan.plan "A").
Proof.
  split; [by vm_compute|].
  apply (plan_roundtrip (SamplePlan.plan "A") SamplePlan.plan_A_ok SamplePlan.plan_A_fits); by vm_compute.
Defined.

Lemma parsed_plan_sealed_witness :
  ParsePlanArtifact (CanonicalBytes (SamplePlan.plan "A")) = Value (SamplePlan.plan "A") /\
  SamplePlan.plan "A" = Seal (SamplePlan.plan "A").
Proof.
  assert (ParsePlanArtifact (CanonicalBytes (SamplePlan.plan "A")) = Value (SamplePlan.plan "A")) as E by (by vm_compute).
  split; [exact E|]. exact (proj1 (parsed_plan_sealed _ _ E)).
Defined.
End witnesses.
