(* ===== verification/RequestText.v ===== *)
(** * RequestText: reading requests and validation policies

    The reading half of [src/request_io.cpp], and the two functions on
    validation policies.  One reader per group of keywords, as in the code. *)

From S2P Require Import Prelude Status Ids Doubles Spectrum Canonical Topology SnapshotText Request Validate Lines.

(** ** Assignments to the fields of a request *)

Definition rq_put_id (v : RequestId) (r : PlanningRequest) : PlanningRequest :=
  MkRequest (format_version r) v (q_source r) (q_destination r) (channel_width_slots r) (max_candidates r)
    (max_regenerations r) (max_hops r) (max_total_cost r) (q_disjointness r) (constraints r)
    (required_source_generations r) (required_snapshot_generation r) (expected_snapshot_digest r)
    (accept_restored_evidence r) (max_search_expansions r) (max_search_labels r).

Definition rq_put_source (v : PortKey) (r : PlanningRequest) : PlanningRequest :=
  MkRequest (format_version r) (q_id r) v (q_destination r) (channel_width_slots r) (max_candidates r)
    (max_regenerations r) (max_hops r) (max_total_cost r) (q_disjointness r) (constraints r)
    (required_source_generations r) (required_snapshot_generation r) (expected_snapshot_digest r)
    (accept_restored_evidence r) (max_search_expansions r) (max_search_labels r).

Definition rq_put_destination (v : PortKey) (r : PlanningRequest) : PlanningRequest :=
  MkRequest (format_version r) (q_id r) (q_source r) v (channel_width_slots r) (max_candidates r)
    (max_regenerations r) (max_hops r) (max_total_cost r) (q_disjointness r) (constraints r)
    (required_source_generations r) (required_snapshot_generation r) (expected_snapshot_digest r)
    (accept_restored_evidence r) (max_search_expansions r) (max_search_labels r).

Definition rq_put_width (v : Z) (r : PlanningRequest) : PlanningRequest :=
  MkRequest (format_version r) (q_id r) (q_source r) (q_destination r) v (max_candidates r)
    (max_regenerations r) (max_hops r) (max_total_cost r) (q_disjointness r) (constraints r)
    (required_source_generations r) (required_snapshot_generation r) (expected_snapshot_digest r)
    (accept_restored_evidence r) (max_search_expansions r) (max_search_labels r).

Definition rq_put_candidates (v : Z) (r : PlanningRequest) : PlanningRequest :=
  MkRequest (format_version r) (q_id r) (q_source r) (q_destination r) (channel_width_slots r) v
    (max_regenerations r) (max_hops r) (max_total_cost r) (q_disjointness r) (constraints r)
    (required_source_generations r) (required_snapshot_generation r) (expected_snapshot_digest r)
    (accept_restored_evidence r) (max_search_expansions r) (max_search_labels r).

Definition rq_put_regenerations (v : Z) (r : PlanningRequest) : PlanningRequest :=
  MkRequest (format_version r) (q_id r) (q_source r) (q_destination r) (channel_width_slots r)
    (max_candidates r) v (max_hops r) (max_total_cost r) (q_disjointness r) (constraints r)
    (required_source_generations r) (required_snapshot_generation r) (expected_snapshot_digest r)
    (accept_restored_evidence r) (max_search_expansions r) (max_search_labels r).

Definition rq_put_hops (v : Z) (r : PlanningRequest) : PlanningRequest :=
  MkRequest (format_version r) (q_id r) (q_source r) (q_destination r) (channel_width_slots r)
    (max_candidates r) (max_regenerations r) v (max_total_cost r) (q_disjointness r) (constraints r)
    (required_source_generations r) (required_snapshot_generation r) (expected_snapshot_digest r)
    (accept_restored_evidence r) (max_search_expansions r) (max_search_labels r).

Definition rq_put_cost (v : option Z) (r : PlanningRequest) : PlanningRequest :=
  MkRequest (format_version r) (q_id r) (q_source r) (q_destination r) (channel_width_slots r)
    (max_candidates r) (max_regenerations r) (max_hops r) v (q_disjointness r) (constraints r)
    (required_source_generations r) (required_snapshot_generation r) (expected_snapshot_digest r)
    (accept_restored_evidence r) (max_search_expansions r) (max_search_labels r).

Definition rq_put_disjointness (v : Disjointness.t) (r : PlanningRequest) : PlanningRequest :=
  MkRequest (format_version r) (q_id r) (q_source r) (q_destination r) (channel_width_slots r)
    (max_candidates r) (max_regenerations r) (max_hops r) (max_total_cost r) v (constraints r)
    (required_source_generations r) (required_snapshot_generation r) (expected_snapshot_digest r)
    (accept_restored_evidence r) (max_search_expansions r) (max_search_labels r).

Definition rq_put_constraints (v : ConstraintSet) (r : PlanningRequest) : PlanningRequest :=
  MkRequest (format_version r) (q_id r) (q_source r) (q_destination r) (channel_width_slots r)
    (max_candidates r) (max_regenerations r) (max_hops r) (max_total_cost r) (q_disjointness r) v
    (required_source_generations r) (required_snapshot_generation r) (expected_snapshot_digest r)
    (accept_restored_evidence r) (max_search_expansions r) (max_search_labels r).

Definition rq_put_srcgen (v : list (SourceId * Generation)) (r : PlanningRequest) : PlanningRequest :=
  MkRequest (format_version r) (q_id r) (q_source r) (q_destination r) (channel_width_slots r)
    (max_candidates r) (max_regenerations r) (max_hops r) (max_total_cost r) (q_disjointness r) (constraints
    r) v (required_snapshot_generation r) (expected_snapshot_digest r) (accept_restored_evidence r)
    (max_search_expansions r) (max_search_labels r).

Definition rq_put_generation (v : option Generation) (r : PlanningRequest) : PlanningRequest :=
  MkRequest (format_version r) (q_id r) (q_source r) (q_destination r) (channel_width_slots r)
    (max_candidates r) (max_regenerations r) (max_hops r) (max_total_cost r) (q_disjointness r) (constraints
    r) (required_source_generations r) v (expected_snapshot_digest r) (accept_restored_evidence r)
    (max_search_expansions r) (max_search_labels r).

Definition rq_put_digest (v : option Digest256) (r : PlanningRequest) : PlanningRequest :=
  MkRequest (format_version r) (q_id r) (q_source r) (q_destination r) (channel_width_slots r)
    (max_candidates r) (max_regenerations r) (max_hops r) (max_total_cost r) (q_disjointness r) (constraints
    r) (required_source_generations r) (required_snapshot_generation r) v (accept_restored_evidence r)
    (max_search_expansions r) (max_search_labels r).

Definition rq_put_restored (v : bool) (r : PlanningRequest) : PlanningRequest :=
  MkRequest (format_version r) (q_id r) (q_source r) (q_destination r) (channel_width_slots r)
    (max_candidates r) (max_regenerations r) (max_hops r) (max_total_cost r) (q_disjointness r) (constraints
    r) (required_source_generations r) (required_snapshot_generation r) (expected_snapshot_digest r) v
    (max_search_expansions r) (max_search_labels r).

Definition rq_put_expansions (v : Z) (r : PlanningRequest) : PlanningRequest :=
  MkRequest (format_version r) (q_id r) (q_source r) (q_destination r) (channel_width_slots r)
    (max_candidates r) (max_regenerations r) (max_hops r) (max_total_cost r) (q_disjointness r) (constraints
    r) (required_source_generations r) (required_snapshot_generation r) (expected_snapshot_digest r)
    (accept_restored_evidence r) v (max_search_labels r).

Definition rq_put_labels (v : Z) (r : PlanningRequest) : PlanningRequest :=
  MkRequest (format_version r) (q_id r) (q_source r) (q_destination r) (channel_width_slots r)
    (max_candidates r) (max_regenerations r) (max_hops r) (max_total_cost r) (q_disjointness r) (constraints
    r) (required_source_generations r) (required_snapshot_generation r) (expected_snapshot_digest r)
    (accept_restored_evidence r) (max_search_expansions r) v.

Definition cs_put_nodes (v : list NodeId) (c : ConstraintSet) : ConstraintSet :=
  MkConstraints v (excluded_ports c) (excluded_spans c) (excluded_cross_connects c)
    (excluded_failure_domains c) (max_members_per_failure_domain c) (max_total_distance_m c)
    (max_total_span_count c) (max_total_loss_db c) (min_segment_osnr_db c) (allow_regeneration c)
    (allow_wavelength_conversion c) (require_spectrum_continuity_across_regeneration c)
    (allow_repeated_resources c).

Definition cs_put_ports (v : list PortKey) (c : ConstraintSet) : ConstraintSet :=
  MkConstraints (excluded_nodes c) v (excluded_spans c) (excluded_cross_connects c)
    (excluded_failure_domains c) (max_members_per_failure_domain c) (max_total_distance_m c)
    (max_total_span_count c) (max_total_loss_db c) (min_segment_osnr_db c) (allow_regeneration c)
    (allow_wavelength_conversion c) (require_spectrum_continuity_across_regeneration c)
    (allow_repeated_resources c).

Definition cs_put_spans (v : list SpanId) (c : ConstraintSet) : ConstraintSet :=
  MkConstraints (excluded_nodes c) (excluded_ports c) v (excluded_cross_connects c)
    (excluded_failure_domains c) (max_members_per_failure_domain c) (max_total_distance_m c)
    (max_total_span_count c) (max_total_loss_db c) (min_segment_osnr_db c) (allow_regeneration c)
    (allow_wavelength_conversion c) (require_spectrum_continuity_across_regeneration c)
    (allow_repeated_resources c).

Definition cs_put_xcs (v : list CrossConnectId) (c : ConstraintSet) : ConstraintSet :=
  MkConstraints (excluded_nodes c) (excluded_ports c) (excluded_spans c) v (excluded_failure_domains c)
    (max_members_per_failure_domain c) (max_total_distance_m c) (max_total_span_count c) (max_total_loss_db
    c) (min_segment_osnr_db c) (allow_regeneration c) (allow_wavelength_conversion c)
    (require_spectrum_continuity_across_regeneration c) (allow_repeated_resources c).

Definition cs_put_domains (v : list FailureDomainId) (c : ConstraintSet) : ConstraintSet :=
  MkConstraints (excluded_nodes c) (excluded_ports c) (excluded_spans c) (excluded_cross_connects c) v
    (max_members_per_failure_domain c) (max_total_distance_m c) (max_total_span_count c) (max_total_loss_db
    c) (min_segment_osnr_db c) (allow_regeneration c) (allow_wavelength_conversion c)
    (require_spectrum_continuity_across_regeneration c) (allow_repeated_resources c).

Definition cs_put_limits (v : list (FailureDomainId * Z)) (c : ConstraintSet) : ConstraintSet :=
  MkConstraints (excluded_nodes c) (excluded_ports c) (excluded_spans c) (excluded_cross_connects c)
    (excluded_failure_domains c) v (max_total_distance_m c) (max_total_span_count c) (max_total_loss_db c)
    (min_segment_osnr_db c) (allow_regeneration c) (allow_wavelength_conversion c)
    (require_spectrum_continuity_across_regeneration c) (allow_repeated_resources c).

Definition cs_put_distance (v : option Z) (c : ConstraintSet) : ConstraintSet :=
  MkConstraints (excluded_nodes c) (excluded_ports c) (excluded_spans c) (excluded_cross_connects c)
    (excluded_failure_domains c) (max_members_per_failure_domain c) v (max_total_span_count c)
    (max_total_loss_db c) (min_segment_osnr_db c) (allow_regeneration c) (allow_wavelength_conversion c)
    (require_spectrum_continuity_across_regeneration c) (allow_repeated_resources c).

Definition cs_put_span_count (v : option Z) (c : ConstraintSet) : ConstraintSet :=
  MkConstraints (excluded_nodes c) (excluded_ports c) (excluded_spans c) (excluded_cross_connects c)
    (excluded_failure_domains c) (max_members_per_failure_domain c) (max_total_distance_m c) v
    (max_total_loss_db c) (min_segment_osnr_db c) (allow_regeneration c) (allow_wavelength_conversion c)
    (require_spectrum_continuity_across_regeneration c) (allow_repeated_resources c).

Definition cs_put_loss (v : option double) (c : ConstraintSet) : ConstraintSet :=
  MkConstraints (excluded_nodes c) (excluded_ports c) (excluded_spans c) (excluded_cross_connects c)
    (excluded_failure_domains c) (max_members_per_failure_domain c) (max_total_distance_m c)
    (max_total_span_count c) v (min_segment_osnr_db c) (allow_regeneration c) (allow_wavelength_conversion
    c) (require_spectrum_continuity_across_regeneration c) (allow_repeated_resources c).

Definition cs_put_osnr (v : option double) (c : ConstraintSet) : ConstraintSet :=
  MkConstraints (excluded_nodes c) (excluded_ports c) (excluded_spans c) (excluded_cross_connects c)
    (excluded_failure_domains c) (max_members_per_failure_domain c) (max_total_distance_m c)
    (max_total_span_count c) (max_total_loss_db c) v (allow_regeneration c) (allow_wavelength_conversion c)
    (require_spectrum_continuity_across_regeneration c) (allow_repeated_resources c).

Definition cs_put_allow_regen (v : bool) (c : ConstraintSet) : ConstraintSet :=
  MkConstraints (excluded_nodes c) (excluded_ports c) (excluded_spans c) (excluded_cross_connects c)
    (excluded_failure_domains c) (max_members_per_failure_domain c) (max_total_distance_m c)
    (max_total_span_count c) (max_total_loss_db c) (min_segment_osnr_db c) v (allow_wavelength_conversion c)
    (require_spectrum_continuity_across_regeneration c) (allow_repeated_resources c).

Definition cs_put_allow_conv (v : bool) (c : ConstraintSet) : ConstraintSet :=
  MkConstraints (excluded_nodes c) (excluded_ports c) (excluded_spans c) (excluded_cross_connects c)
    (excluded_failure_domains c) (max_members_per_failure_domain c) (max_total_distance_m c)
    (max_total_span_count c) (max_total_loss_db c) (min_segment_osnr_db c) (allow_regeneration c) v
    (require_spectrum_continuity_across_regeneration c) (allow_repeated_resources c).

Definition cs_put_continuity (v : bool) (c : ConstraintSet) : ConstraintSet :=
  MkConstraints (excluded_nodes c) (excluded_ports c) (excluded_spans c) (excluded_cross_connects c)
    (excluded_failure_domains c) (max_members_per_failure_domain c) (max_total_distance_m c)
    (max_total_span_count c) (max_total_loss_db c) (min_segment_osnr_db c) (allow_regeneration c)
    (allow_wavelength_conversion c) v (allow_repeated_resources c).

Definition cs_put_repeated (v : bool) (c : ConstraintSet) : ConstraintSet :=
  MkConstraints (excluded_nodes c) (excluded_ports c) (excluded_spans c) (excluded_cross_connects c)
    (excluded_failure_domains c) (max_members_per_failure_domain c) (max_total_distance_m c)
    (max_total_span_count c) (max_total_loss_db c) (min_segment_osnr_db c) (allow_regeneration c)
    (allow_wavelength_conversion c) (require_spectrum_continuity_across_regeneration c) v.

(** A change of the constraints of a request. *)
Definition on_constraints (f : ConstraintSet -> ConstraintSet) (r : PlanningRequest) : PlanningRequest :=
  rq_put_constraints (f (constraints r)) r.

(** The default-constructed request. *)
Definition empty_request : PlanningRequest :=
  default_request (MkId "") (MkPortKey (MkId "") (MkId "")) (MkPortKey (MkId "") (MkId "")).

(** ** The records *)

(** [have_id], [have_source] and [have_destination] are kept by the loop. *)
Record RequestReading := MkRequestReading {
  rr_header_seen : bool; rr_have_id : bool; rr_have_source : bool; rr_have_destination : bool;
  rr_request : PlanningRequest
}.

Definition start_request_reading : RequestReading := MkRequestReading false false false false empty_request.

Section reading.
Context `{Platform}.

(** Two values that name a port. *)
Definition read_port_key (values : list string) : Expected PortKey :=
  let! node_text := Field values 1 "node" in
  let! port_text := Field values 2 "port" in
  let! node := id_Parse node_text in
  let! port := id_Parse port_text in
  Value (MkPortKey node port).

Definition number_keywords : list string :=
  ["width"; "candidates"; "regenerations"; "hops"; "search-expansions"; "search-labels"; "max-distance"; "max-spans"].

Definition read_number (keyword : string) (values : list string) (r : PlanningRequest) : Expected PlanningRequest :=
  let! t := Field values 1 keyword in
  if String.eqb keyword "width" then let! v := ParseU16 t in Value (rq_put_width v r)
  else if String.eqb keyword "candidates" then let! v := ParseU32 t in Value (rq_put_candidates v r)
  else if String.eqb keyword "regenerations" then let! v := ParseU32 t in Value (rq_put_regenerations v r)
  else if String.eqb keyword "hops" then let! v := ParseU32 t in Value (rq_put_hops v r)
  else if String.eqb keyword "search-expansions" then let! v := ParseU64 t in Value (rq_put_expansions v r)
  else if String.eqb keyword "search-labels" then let! v := ParseU64 t in Value (rq_put_labels v r)
  else if String.eqb keyword "max-distance" then
    let! v := ParseU64 t in Value (on_constraints (cs_put_distance (Some v)) r)
  else let! v := ParseU32 t in Value (on_constraints (cs_put_span_count (Some v)) r).

Definition exclusion_keywords : list string :=
  ["exclude-node"; "exclude-span"; "exclude-crossconnect"; "exclude-domain"].

Definition read_exclusion (keyword : string) (values : list string) (c : ConstraintSet) : Expected ConstraintSet :=
  let! t := Field values 1 keyword in
  if String.eqb keyword "exclude-node" then
    let! id := id_Parse t in Value (cs_put_nodes (excluded_nodes c ++ [id]) c)
  else if String.eqb keyword "exclude-span" then
    let! id := id_Parse t in Value (cs_put_spans (excluded_spans c ++ [id]) c)
  else if String.eqb keyword "exclude-crossconnect" then
    let! id := id_Parse t in Value (cs_put_xcs (excluded_cross_connects c ++ [id]) c)
  else let! id := id_Parse t in Value (cs_put_domains (excluded_failure_domains c ++ [id]) c).

Definition read_srcgen (values : list string) (r : PlanningRequest) : Expected PlanningRequest :=
  let! id_text := Field values 1 "source" in
  let! gen_text := Field values 2 "generation" in
  let! id := id_Parse id_text in
  let! generation := ParseU64 gen_text in
  Value (rq_put_srcgen (map_set id generation (required_source_generations r)) r).

Definition read_domain_limit (values : list string) (c : ConstraintSet) : Expected ConstraintSet :=
  let! id_text := Field values 1 "domain" in
  let! limit_text := Field values 2 "limit" in
  let! id := id_Parse id_text in
  let! limit := ParseU32 limit_text in
  Value (cs_put_limits (map_set id limit (max_members_per_failure_domain c)) c).

Definition read_ceiling (keyword : string) (values : list string) (c : ConstraintSet) : Expected ConstraintSet :=
  let! t := Field values 1 keyword in
  let! v := ParseDouble t in
  Value (if String.eqb keyword "max-loss" then cs_put_loss (Some v) c else cs_put_osnr (Some v) c).

Definition flag_keywords : list string :=
  ["accept-restored-evidence"; "allow-regeneration"; "allow-conversion";
   "require-spectrum-continuity-across-regeneration"; "allow-repeated-resources"].

Definition read_switch (keyword : string) (values : list string) (r : PlanningRequest) : Expected PlanningRequest :=
  let! t := Field values 1 keyword in
  let! v := ParseBoolToken t in
  Value
    (if String.eqb keyword "accept-restored-evidence" then rq_put_restored v r
     else if String.eqb keyword "allow-regeneration" then on_constraints (cs_put_allow_regen v) r
     else if String.eqb keyword "allow-conversion" then on_constraints (cs_put_allow_conv v) r
     else if String.eqb keyword "require-spectrum-continuity-across-regeneration"
     then on_constraints (cs_put_continuity v) r
     else on_constraints (cs_put_repeated v) r).

Definition mentions (keyword : string) (keywords : list string) : bool := existsb (String.eqb keyword) keywords.

(** ** The loop *)

Definition read_request_header (values : list string) (s : RequestReading) : Expected RequestReading :=
  if negb (length values =? 2)%nat || negb (String.eqb (token values 0) kRequestMagic) then
    malformed "request must start with the OPP-REQUEST magic line"
  else
    let! version := ParseU32 (token values 1) in
    if negb (version =? kRequestFormatVersion) then
      Error (Failure StatusCode.Unsupported
        ("request format revision " +:+ token values 1 +:+ " is not supported by this runtime"))
    else
      Value (MkRequestReading true (rr_have_id s) (rr_have_source s) (rr_have_destination s) (rr_request s)).

Definition read_request_record (n : Z) (values : list string) (s : RequestReading) : Expected RequestReading :=
  let r := rr_request s in
  let keyword := token values 0 in
  let next (e : Expected PlanningRequest) : Expected RequestReading :=
    let! r' := at_line n e in
    Value (MkRequestReading true (rr_have_id s) (rr_have_source s) (rr_have_destination s) r') in
  let next_constraints (e : Expected ConstraintSet) : Expected RequestReading :=
    next (let! c := e in Value (rq_put_constraints c r)) in
  if String.eqb keyword "id" then
    let! id := at_line n (let! t := Field values 1 "id" in id_Parse t) in
    Value (MkRequestReading true true (rr_have_source s) (rr_have_destination s) (rq_put_id id r))
  else if String.eqb keyword "source" || String.eqb keyword "destination" then
    let! key := at_line n (read_port_key values) in
    Value
      (if String.eqb keyword "source"
       then MkRequestReading true (rr_have_id s) true (rr_have_destination s) (rq_put_source key r)
       else MkRequestReading true (rr_have_id s) (rr_have_source s) true (rq_put_destination key r))
  else if mentions keyword number_keywords then next (read_number keyword values r)
  else if String.eqb keyword "cost" then
    next (let! t := Field values 1 "cost" in let! v := ParseU64 t in Value (rq_put_cost (Some v) r))
  else if String.eqb keyword "snapshot-generation" then
    next (let! t := Field values 1 "snapshot-generation" in let! v := ParseU64 t in Value (rq_put_generation (Some v) r))
  else if String.eqb keyword "snapshot-digest" then
    next (let! t := Field values 1 "snapshot-digest" in let! d := Digest_FromHex t in Value (rq_put_digest (Some d) r))
  else if String.eqb keyword "disjointness" then
    next
      (let! t := Field values 1 "disjointness" in
       match ParseDisjointness t with
       | Some d => Value (rq_put_disjointness d r)
       | None => malformed "disjointness token is not recognised"
       end)
  else if String.eqb keyword "srcgen" then next (read_srcgen values r)
  else if mentions keyword exclusion_keywords then next_constraints (read_exclusion keyword values (constraints r))
  else if String.eqb keyword "exclude-port" then
    next (let! key := read_port_key values in
          Value (on_constraints (fun c => cs_put_ports (excluded_ports c ++ [key]) c) r))
  else if String.eqb keyword "domain-limit" then next_constraints (read_domain_limit values (constraints r))
  else if String.eqb keyword "max-loss" || String.eqb keyword "min-osnr" then
    next_constraints (read_ceiling keyword values (constraints r))
  else if mentions keyword flag_keywords then next (read_switch keyword values r)
  else at_line n (malformed ("unknown request record '" +:+ keyword +:+ "'")).

Definition read_request_line (n : Z) (values : list string) (s : RequestReading) : Expected RequestReading :=
  if negb (rr_header_seen s) then read_request_header values s else read_request_record n values s.

Definition finish_request (s : RequestReading) : Expected PlanningRequest :=
  if negb (rr_header_seen s) then malformed "request is empty"
  else if negb (rr_have_id s) then malformed "request id is missing"
  else if negb (rr_have_source s) then malformed "request source is missing"
  else if negb (rr_have_destination s) then malformed "request destination is missing"
  else Value (rr_request s).

Definition ParseRequestText (t : string) : Expected PlanningRequest :=
  let! s := read_text_lines (token_step read_request_line) t start_request_reading in
  finish_request s.
End reading.

(** ** Validation policies *)

Definition ValidationPolicyToText (policy : ValidationPolicy) : string :=
  text_of_lines
    ["OPP-VALIDATION-POLICY 1";
     token_line "accept-restored-evidence" [bool_token (vp_accept_restored_evidence policy)];
     token_line "revalidate-on-mismatch" [bool_token (vp_revalidate_on_mismatch policy)]].

Definition read_policy_record (values : list string) (s : bool * ValidationPolicy) : Expected (bool * ValidationPolicy) :=
  let '(header_seen, policy) := s in
  let keyword := token values 0 in
  if negb header_seen then
    if negb (length values =? 2)%nat || negb (String.eqb keyword "OPP-VALIDATION-POLICY") then
      malformed "policy must start with the OPP-VALIDATION-POLICY magic line"
    else Value (true, policy)
  else
    let! t := Field values 1 keyword in
    let! v := ParseBoolToken t in
    if String.eqb keyword "accept-restored-evidence" then
      Value (true, MkPolicy v (vp_revalidate_on_mismatch policy))
    else if String.eqb keyword "revalidate-on-mismatch" then
      Value (true, MkPolicy (vp_accept_restored_evidence policy) v)
    else malformed ("unknown validation policy record '" +:+ keyword +:+ "'").

(** Here a line that does not split is reported without its number. *)
Definition read_policy_line (n : Z) (line : string) (s : bool * ValidationPolicy) : Expected (bool * ValidationPolicy) :=
  if bool_decide (line = "") then Value s
  else let! values := SplitTokens line in read_policy_record values s.

Definition ParseValidationPolicyText (t : string) : Expected ValidationPolicy :=
  let! (header_seen, policy) := read_text_lines read_policy_line t (false, default_policy) in
  if negb header_seen then malformed "validation policy is empty" else Value policy.

(** ** What a request must hold to read back *)

Definition key_ok (k : PortKey) : Prop := id_ok (node k) /\ id_ok (port k).

Definition option_ok {A} (ok : A -> Prop) (o : option A) : Prop := match o with Some v => ok v | None => True end.

(** Entries by strictly increasing key, as a map iterates them. *)
Definition by_key {K V} `{Ordered K} (entries : list (K * V)) : Prop :=
  StronglySorted (fun a b => (fst a <o fst b) = true) entries.

Record constraints_ok (c : ConstraintSet) : Prop := {
  co_nodes : Forall id_ok (excluded_nodes c);
  co_ports : Forall key_ok (excluded_ports c);
  co_spans : Forall id_ok (excluded_spans c);
  co_cross_connects : Forall id_ok (excluded_cross_connects c);
  co_domains : Forall id_ok (excluded_failure_domains c);
  co_limits : Forall (fun e => id_ok (fst e) /\ in_width 32 (snd e)) (max_members_per_failure_domain c);
  co_limits_map : by_key (max_members_per_failure_domain c);
  co_distance : option_ok (in_width 64) (max_total_distance_m c);
  co_span_count : option_ok (in_width 32) (max_total_span_count c);
  co_loss : option_ok plain_double (max_total_loss_db c);
  co_osnr : option_ok plain_double (min_segment_osnr_db c)
}.

Record request_ok (r : PlanningRequest) : Prop := {
  qo_format : format_version r = kRequestFormatVersion;
  qo_id : id_ok (q_id r);
  qo_source : key_ok (q_source r);
  qo_destination : key_ok (q_destination r);
  qo_width : in_width 16 (channel_width_slots r);
  qo_candidates : in_width 32 (max_candidates r);
  qo_regenerations : in_width 32 (max_regenerations r);
  qo_hops : in_width 32 (max_hops r);
  qo_cost : option_ok (in_width 64) (max_total_cost r);
  qo_constraints : constraints_ok (constraints r);
  qo_srcgen : Forall (fun e => id_ok (fst e) /\ in_width 64 (snd e)) (required_source_generations r);
  qo_srcgen_map : by_key (required_source_generations r);
  qo_generation : option_ok (in_width 64) (required_snapshot_generation r);
  qo_digest : option_ok digest_ok (expected_snapshot_digest r);
  qo_expansions : in_width 64 (max_search_expansions r);
  qo_labels : in_width 64 (max_search_labels r)
}.

(** ** Lemmas: the lines read back *)

Section loop.
Context `{Platform, !CharconvLaws}.

Abbreviation request_step := (token_step read_request_line).

(** The state of the loop after the first [seen] of id, source, destination. *)
Definition reading (id source destination : bool) (r : PlanningRequest) : RequestReading :=
  MkRequestReading true id source destination r.

Lemma request_step_at line values n i s d r :
  record_line line values [] -> line_fits line ->
  request_step n (strip_cr line) (reading i s d r) = read_request_record n values (reading i s d r).
Proof.
  intros Hl Hf. unfold record_line in Hl. cbn [map] in Hl. rewrite app_nil_r in Hl.
  by rewrite (token_step_prints _ _ _ _ _ Hl Hf).
Qed.

(** Reads one printed line: prints it, picks the branch of its keyword, and
    reads the texts. *)
Ltac read_request :=
  match goal with
  | Hf : line_fits ?line |- _ =>
      erewrite request_step_at;
        [|unfold token_line, u64_line, double_line, Line_AddU32; cbn [fold_left]; print_record|exact Hf];
      cbn [app]; unfold read_request_record, read_port_key, read_number, read_exclusion, read_srcgen, read_domain_limit,
        read_ceiling, read_switch, Field;
      cbn [token nth nth_error String.eqb Ascii.eqb Bool.eqb orb mentions existsb number_keywords exclusion_keywords
           flag_keywords rr_request rr_have_id rr_have_source rr_have_destination reading];
      rewrite ?EncodeToken_id, ?EncodeToken_digest by done; read_values
  end.

Lemma id_line_reads n id r :
  id_ok id -> line_fits (token_line "id" [str id]) ->
  request_step n (strip_cr (token_line "id" [str id])) (reading false false false r) =
  Value (reading true false false (rq_put_id id r)).
Proof. intros Hid Hf. read_request. reflexivity. Qed.
Lemma source_reads n k r :
  key_ok k -> line_fits (token_line "source" [str (node k); str (port k)]) ->
  request_step n (strip_cr (token_line "source" [str (node k); str (port k)])) (reading true false false r) =
  Value (reading true true false (rq_put_source k r)).
Proof. intros [Hn Hp] Hf. destruct k as [kn kp]. cbn [node port] in *. read_request. reflexivity. Qed.

Lemma destination_reads n k r :
  key_ok k -> line_fits (token_line "destination" [str (node k); str (port k)]) ->
  request_step n (strip_cr (token_line "destination" [str (node k); str (port k)])) (reading true true false r) =
  Value (reading true true true (rq_put_destination k r)).
Proof. intros [Hn Hp] Hf. destruct k as [kn kp]. cbn [node port] in *. read_request. reflexivity. Qed.

(** A line that sets one field, once the identity and the ends are known. *)
Definition line_sets (line : string) (set : PlanningRequest -> PlanningRequest) : Prop :=
  forall n r, line_fits line -> request_step n (strip_cr line) (reading true true true r) = Value (reading true true true (set r)).

Lemma width_reads v : in_width 16 v -> line_sets (u64_line "width" v) (rq_put_width v).
Proof. intros Hok n r Hf. read_request. reflexivity. Qed.

Lemma candidates_reads v : in_width 32 v -> line_sets (u64_line "candidates" v) (rq_put_candidates v).
Proof. intros Hok n r Hf. read_request. reflexivity. Qed.

Lemma regenerations_reads v : in_width 32 v -> line_sets (u64_line "regenerations" v) (rq_put_regenerations v).
Proof. intros Hok n r Hf. read_request. reflexivity. Qed.

Lemma hops_reads v : in_width 32 v -> line_sets (u64_line "hops" v) (rq_put_hops v).
Proof. intros Hok n r Hf. read_request. reflexivity. Qed.

Lemma search_expansions_reads v : in_width 64 v -> line_sets (u64_line "search-expansions" v) (rq_put_expansions v).
Proof. intros Hok n r Hf. read_request. reflexivity. Qed.

Lemma search_labels_reads v : in_width 64 v -> line_sets (u64_line "search-labels" v) (rq_put_labels v).
Proof. intros Hok n r Hf. read_request. reflexivity. Qed.

Lemma max_distance_reads v : in_width 64 v -> line_sets (u64_line "max-distance" v) (on_constraints (cs_put_distance (Some v))).
Proof. intros Hok n r Hf. read_request. reflexivity. Qed.

Lemma max_spans_reads v : in_width 32 v -> line_sets (u64_line "max-spans" v) (on_constraints (cs_put_span_count (Some v))).
Proof. intros Hok n r Hf. read_request. reflexivity. Qed.

Lemma cost_reads v : in_width 64 v -> line_sets (u64_line "cost" v) (rq_put_cost (Some v)).
Proof. intros Hok n r Hf. read_request. reflexivity. Qed.

Lemma snapshot_generation_reads v : in_width 64 v -> line_sets (u64_line "snapshot-generation" v) (rq_put_generation (Some v)).
Proof. intros Hok n r Hf. read_request. reflexivity. Qed.

Lemma snapshot_digest_reads d : digest_ok d -> line_sets (token_line "snapshot-digest" [Digest_ToHex d]) (rq_put_digest (Some d)).
Proof. intros Hok n r Hf. read_request. reflexivity. Qed.

Lemma disjointness_reads d : line_sets (token_line "disjointness" [DisjointnessName d]) (rq_put_disjointness d).
Proof. intros n r Hf. destruct d; by read_request. Qed.

Lemma accept_restored_evidence_reads v : line_sets (token_line "accept-restored-evidence" [bool_token v]) (rq_put_restored v).
Proof. intros n r Hf. destruct v; by read_request. Qed.

Lemma allow_regeneration_reads v : line_sets (token_line "allow-regeneration" [bool_token v]) (on_constraints (cs_put_allow_regen v)).
Proof. intros n r Hf. destruct v; by read_request. Qed.

Lemma allow_conversion_reads v : line_sets (token_line "allow-conversion" [bool_token v]) (on_constraints (cs_put_allow_conv v)).
Proof. intros n r Hf. destruct v; by read_request. Qed.

Lemma require_spectrum_continuity_across_regeneration_reads v : line_sets (token_line "require-spectrum-continuity-across-regeneration" [bool_token v]) (on_constraints (cs_put_continuity v)).
Proof. intros n r Hf. destruct v; by read_request. Qed.

Lemma allow_repeated_resources_reads v : line_sets (token_line "allow-repeated-resources" [bool_token v]) (on_constraints (cs_put_repeated v)).
Proof. intros n r Hf. destruct v; by read_request. Qed.

Lemma max_loss_reads v : plain_double v -> line_sets (double_line "max-loss" v) (on_constraints (cs_put_loss (Some v))).
Proof. intros Hok n r Hf. read_request. reflexivity. Qed.

Lemma min_osnr_reads v : plain_double v -> line_sets (double_line "min-osnr" v) (on_constraints (cs_put_osnr (Some v))).
Proof. intros Hok n r Hf. read_request. reflexivity. Qed.

Lemma exclude_node_reads id : id_ok id -> line_sets (token_line "exclude-node" [str id]) (on_constraints (fun c => cs_put_nodes (excluded_nodes c ++ [id]) c)).
Proof. intros Hok n r Hf. read_request. reflexivity. Qed.

Lemma exclude_span_reads id : id_ok id -> line_sets (token_line "exclude-span" [str id]) (on_constraints (fun c => cs_put_spans (excluded_spans c ++ [id]) c)).
Proof. intros Hok n r Hf. read_request. reflexivity. Qed.

Lemma exclude_crossconnect_reads id : id_ok id -> line_sets (token_line "exclude-crossconnect" [str id]) (on_constraints (fun c => cs_put_xcs (excluded_cross_connects c ++ [id]) c)).
Proof. intros Hok n r Hf. read_request. reflexivity. Qed.

Lemma exclude_domain_reads id : id_ok id -> line_sets (token_line "exclude-domain" [str id]) (on_constraints (fun c => cs_put_domains (excluded_failure_domains c ++ [id]) c)).
Proof. intros Hok n r Hf. read_request. reflexivity. Qed.
Lemma exclude_port_reads k :
  key_ok k -> line_sets (token_line "exclude-port" [str (node k); str (port k)])
    (on_constraints (fun c => cs_put_ports (excluded_ports c ++ [k]) c)).
Proof. intros [Hn Hp] n r Hf. destruct k as [kn kp]. cbn [node port] in *. read_request. reflexivity. Qed.

Lemma domain_limit_reads (e : FailureDomainId * Z) :
  id_ok (fst e) /\ in_width 32 (snd e) -> line_sets (Line_AddU32 (token_line "domain-limit" [str (fst e)]) (snd e))
    (on_constraints (fun c => cs_put_limits (map_set (fst e) (snd e) (max_members_per_failure_domain c)) c)).
Proof. intros [Hi Hv] n r Hf. read_request. reflexivity. Qed.

Lemma srcgen_reads (e : SourceId * Generation) :
  id_ok (fst e) /\ in_width 64 (snd e) -> line_sets (Line_AddU64 (token_line "srcgen" [str (fst e)]) (snd e))
    (fun r => rq_put_srcgen (map_set (fst e) (snd e) (required_source_generations r)) r).
Proof. intros [Hi Hv] n r Hf. read_request. reflexivity. Qed.

(** ** Lemmas: groups of lines *)

Abbreviation request_loop n lines r := (read_lines request_step n lines (reading true true true r)).

Lemma read_optional {A} (print : A -> string) (ok : A -> Prop) (get : PlanningRequest -> option A)
    (set : option A -> PlanningRequest -> PlanningRequest) n o r :
  (forall r, set (get r) r = r) -> (forall v, ok v -> line_sets (print v) (set (Some v))) -> option_ok ok o ->
  Forall line_fits (optional_line print o) -> get r = None ->
  request_loop n (optional_line print o) r = Value (reading true true true (set o r)).
Proof.
  intros Hid Hset Hok Hf Hn. destruct o as [v|]; cbn [optional_line read_lines option_ok] in *.
  - apply Forall_cons in Hf as [Hf _]. by rewrite (Hset v Hok).
  - by rewrite <- Hn, Hid.
Qed.

Lemma read_optional_constraint {A} (print : A -> string) (ok : A -> Prop) (get : ConstraintSet -> option A)
    (set : option A -> ConstraintSet -> ConstraintSet) n o r :
  (forall c, set (get c) c = c) -> (forall v, ok v -> line_sets (print v) (on_constraints (set (Some v)))) ->
  option_ok ok o -> Forall line_fits (optional_line print o) -> get (constraints r) = None ->
  request_loop n (optional_line print o) r = Value (reading true true true (on_constraints (set o) r)).
Proof.
  intros Hid Hset. apply (read_optional print ok (fun r => get (constraints r)) (fun o => on_constraints (set o))); [|done].
  intros q. unfold on_constraints. rewrite Hid. by destruct q.
Qed.

Lemma read_distance n o r :
  option_ok (in_width 64) o -> Forall line_fits (optional_line (u64_line "max-distance") o) ->
  max_total_distance_m (constraints r) = None ->
  request_loop n (optional_line (u64_line "max-distance") o) r = Value (reading true true true (on_constraints (cs_put_distance o) r)).
Proof. apply read_optional_constraint; [by intros []|apply max_distance_reads]. Qed.

Lemma read_span_count n o r :
  option_ok (in_width 32) o -> Forall line_fits (optional_line (u64_line "max-spans") o) ->
  max_total_span_count (constraints r) = None ->
  request_loop n (optional_line (u64_line "max-spans") o) r = Value (reading true true true (on_constraints (cs_put_span_count o) r)).
Proof. apply read_optional_constraint; [by intros []|apply max_spans_reads]. Qed.

Lemma read_loss n o r :
  option_ok plain_double o -> Forall line_fits (optional_line (double_line "max-loss") o) ->
  max_total_loss_db (constraints r) = None ->
  request_loop n (optional_line (double_line "max-loss") o) r = Value (reading true true true (on_constraints (cs_put_loss o) r)).
Proof. apply read_optional_constraint; [by intros []|apply max_loss_reads]. Qed.

Lemma read_osnr n o r :
  option_ok plain_double o -> Forall line_fits (optional_line (double_line "min-osnr") o) ->
  min_segment_osnr_db (constraints r) = None ->
  request_loop n (optional_line (double_line "min-osnr") o) r = Value (reading true true true (on_constraints (cs_put_osnr o) r)).
Proof. apply read_optional_constraint; [by intros []|apply min_osnr_reads]. Qed.

Lemma read_cost n o r :
  option_ok (in_width 64) o -> Forall line_fits (optional_line (u64_line "cost") o) -> max_total_cost r = None ->
  request_loop n (optional_line (u64_line "cost") o) r = Value (reading true true true (rq_put_cost o r)).
Proof. apply read_optional; [by intros []|apply cost_reads]. Qed.

Lemma read_generation n o r :
  option_ok (in_width 64) o -> Forall line_fits (optional_line (u64_line "snapshot-generation") o) ->
  required_snapshot_generation r = None ->
  request_loop n (optional_line (u64_line "snapshot-generation") o) r = Value (reading true true true (rq_put_generation o r)).
Proof. apply read_optional; [by intros []|apply snapshot_generation_reads]. Qed.

Lemma read_digest n o r :
  option_ok digest_ok o -> Forall line_fits (optional_line (fun d => token_line "snapshot-digest" [Digest_ToHex d]) o) ->
  expected_snapshot_digest r = None ->
  request_loop n (optional_line (fun d => token_line "snapshot-digest" [Digest_ToHex d]) o) r =
  Value (reading true true true (rq_put_digest o r)).
Proof. apply (read_optional (fun d => token_line "snapshot-digest" [Digest_ToHex d])); [by intros []|apply snapshot_digest_reads]. Qed.

(** A list that the lines extend, from the empty one. *)
Lemma read_list {X} (print : X -> string) (ok : X -> Prop) (get : PlanningRequest -> list X)
    (put : list X -> PlanningRequest -> PlanningRequest) (ins : X -> list X -> list X) n xs r :
  (forall l r, get (put l r) = l) -> (forall l l' r, put l (put l' r) = put l r) -> (forall r, put (get r) r = r) ->
  (forall x, ok x -> line_sets (print x) (fun r => put (ins x (get r)) r)) ->
  (forall pre x post, xs = pre ++ x :: post -> ins x pre = pre ++ [x]) ->
  Forall ok xs -> Forall line_fits (map print xs) -> get r = [] ->
  request_loop n (map print xs) r = Value (reading true true true (put xs r)).
Proof.
  intros Hget Hput Hid Hset Hins Hok Hf Hr.
  apply (read_pushed request_step (reading true true true) print ok get put ins n xs [] r); try done.
  intros m x q Hx Hl. by apply Hset.
Qed.

Lemma map_set_by_key {K V} `{Ordered K, EqDecision K} (xs : list (K * V)) :
  by_key xs -> forall pre x post, xs = pre ++ x :: post -> map_set (fst x) (snd x) pre = pre ++ [x].
Proof.
  intros Hs pre [k v] post ->. apply map_set_last. unfold by_key in Hs.
  induction pre as [|y pre IH]; [done|]. cbn [app] in Hs. apply StronglySorted_inv in Hs as [Hs Hy].
  constructor; [|by apply IH]. rewrite List.Forall_forall in Hy. apply (Hy (k, v)), in_or_app. by right; left.
Qed.

(** The same for a list of the constraints. *)
Lemma read_constraint_list {X} (print : X -> string) (ok : X -> Prop) (get : ConstraintSet -> list X)
    (put : list X -> ConstraintSet -> ConstraintSet) (ins : X -> list X -> list X) n xs r :
  (forall l c, get (put l c) = l) -> (forall l l' c, put l (put l' c) = put l c) -> (forall c, put (get c) c = c) ->
  (forall x, ok x -> line_sets (print x) (on_constraints (fun c => put (ins x (get c)) c))) ->
  (forall pre x post, xs = pre ++ x :: post -> ins x pre = pre ++ [x]) ->
  Forall ok xs -> Forall line_fits (map print xs) -> get (constraints r) = [] ->
  request_loop n (map print xs) r = Value (reading true true true (on_constraints (put xs) r)).
Proof.
  intros Hget Hput Hid Hset Hins Hok Hf Hr.
  apply (read_list print ok (fun r => get (constraints r)) (fun l => on_constraints (put l)) ins); try done.
  - intros l q. apply Hget.
  - intros l l' q. unfold on_constraints. cbn. by rewrite Hput.
  - intros q. unfold on_constraints. rewrite Hid. by destruct q.
Qed.

Lemma read_excluded_nodes n xs r :
  Forall id_ok xs -> Forall line_fits (map (fun id => token_line "exclude-node" [str id]) xs) -> excluded_nodes (constraints r) = [] ->
  request_loop n (map (fun id => token_line "exclude-node" [str id]) xs) r = Value (reading true true true (on_constraints (cs_put_nodes xs) r)).
Proof.
  apply (read_constraint_list _ id_ok excluded_nodes cs_put_nodes (fun x l => l ++ [x])); try done; [by intros []|].
  intros x Hx. by apply exclude_node_reads.
Qed.

Lemma read_excluded_ports n xs r :
  Forall key_ok xs -> Forall line_fits (map (fun key => token_line "exclude-port" [str (node key); str (port key)]) xs) -> excluded_ports (constraints r) = [] ->
  request_loop n (map (fun key => token_line "exclude-port" [str (node key); str (port key)]) xs) r = Value (reading true true true (on_constraints (cs_put_ports xs) r)).
Proof.
  apply (read_constraint_list _ key_ok excluded_ports cs_put_ports (fun x l => l ++ [x])); try done; [by intros []|].
  intros x Hx. by apply exclude_port_reads.
Qed.

Lemma read_excluded_spans n xs r :
  Forall id_ok xs -> Forall line_fits (map (fun id => token_line "exclude-span" [str id]) xs) -> excluded_spans (constraints r) = [] ->
  request_loop n (map (fun id => token_line "exclude-span" [str id]) xs) r = Value (reading true true true (on_constraints (cs_put_spans xs) r)).
Proof.
  apply (read_constraint_list _ id_ok excluded_spans cs_put_spans (fun x l => l ++ [x])); try done; [by intros []|].
  intros x Hx. by apply exclude_span_reads.
Qed.

Lemma read_excluded_crossconnects n xs r :
  Forall id_ok xs -> Forall line_fits (map (fun id => token_line "exclude-crossconnect" [str id]) xs) -> excluded_cross_connects (constraints r) = [] ->
  request_loop n (map (fun id => token_line "exclude-crossconnect" [str id]) xs) r = Value (reading true true true (on_constraints (cs_put_xcs xs) r)).
Proof.
  apply (read_constraint_list _ id_ok excluded_cross_connects cs_put_xcs (fun x l => l ++ [x])); try done; [by intros []|].
  intros x Hx. by apply exclude_crossconnect_reads.
Qed.

Lemma read_excluded_domains n xs r :
  Forall id_ok xs -> Forall line_fits (map (fun id => token_line "exclude-domain" [str id]) xs) -> excluded_failure_domains (constraints r) = [] ->
  request_loop n (map (fun id => token_line "exclude-domain" [str id]) xs) r = Value (reading true true true (on_constraints (cs_put_domains xs) r)).
Proof.
  apply (read_constraint_list _ id_ok excluded_failure_domains cs_put_domains (fun x l => l ++ [x])); try done; [by intros []|].
  intros x Hx. by apply exclude_domain_reads.
Qed.

Lemma read_domain_limits n xs r :
  by_key xs -> Forall (fun e => id_ok (fst e) /\ in_width 32 (snd e)) xs ->
  Forall line_fits (map (fun e => Line_AddU32 (token_line "domain-limit" [str (fst e)]) (snd e)) xs) ->
  max_members_per_failure_domain (constraints r) = [] ->
  request_loop n (map (fun e => Line_AddU32 (token_line "domain-limit" [str (fst e)]) (snd e)) xs) r =
  Value (reading true true true (on_constraints (cs_put_limits xs) r)).
Proof.
  intros Hs. apply (read_constraint_list _ (fun e => id_ok (fst e) /\ in_width 32 (snd e)) max_members_per_failure_domain
    cs_put_limits (fun e l => map_set (fst e) (snd e) l)); try done; [by intros []| |by apply map_set_by_key].
  intros x Hx. by apply domain_limit_reads.
Qed.

Lemma read_srcgens n xs r :
  by_key xs -> Forall (fun e => id_ok (fst e) /\ in_width 64 (snd e)) xs ->
  Forall line_fits (map (fun e => Line_AddU64 (token_line "srcgen" [str (fst e)]) (snd e)) xs) ->
  required_source_generations r = [] ->
  request_loop n (map (fun e => Line_AddU64 (token_line "srcgen" [str (fst e)]) (snd e)) xs) r =
  Value (reading true true true (rq_put_srcgen xs r)).
Proof.
  intros Hs. apply (read_list _ (fun e => id_ok (fst e) /\ in_width 64 (snd e)) required_source_generations
    rq_put_srcgen (fun e l => map_set (fst e) (snd e) l)); try done; [by intros []| |by apply map_set_by_key].
  intros x Hx. by apply srcgen_reads.
Qed.

(** ** Lemmas: the whole text *)

Lemma read_constraint_lines n c r :
  constraints_ok c -> Forall line_fits (constraint_lines c) -> constraints r = constraints empty_request ->
  request_loop n (constraint_lines c) r = Value (reading true true true (rq_put_constraints c r)).
Proof.
  intros [] Hf Hr. unfold constraint_lines in *.
  repeat match goal with Hl : Forall line_fits (_ ++ _) |- _ => apply Forall_app in Hl as [? Hl] end.
  repeat match goal with Hl : Forall line_fits (_ :: _) |- _ => apply Forall_cons in Hl as [? Hl] end.
  assert (r = rq_put_constraints (constraints empty_request) r) as -> by (destruct r; cbn in Hr; by subst).
  rewrite read_lines_app, read_excluded_nodes by done.
  rewrite read_lines_app, read_excluded_ports by done.
  rewrite read_lines_app, read_excluded_spans by done.
  rewrite read_lines_app, read_excluded_crossconnects by done.
  rewrite read_lines_app, read_excluded_domains by done.
  rewrite read_lines_app, read_domain_limits by done.
  rewrite read_lines_app, read_distance by done.
  rewrite read_lines_app, read_span_count by done.
  rewrite read_lines_app, read_loss by done.
  rewrite read_lines_app, read_osnr by done.
  cbn [read_lines].
  rewrite allow_regeneration_reads, allow_conversion_reads by done.
  rewrite require_spectrum_continuity_across_regeneration_reads, allow_repeated_resources_reads by done.
  by destruct c, r.
Qed.

Lemma request_header_prints : prints (kRequestMagic +:+ " " +:+ FormatU32 kRequestFormatVersion) ["OPP-REQUEST"; "1"].
Proof. exists "OPP-REQUEST", ["1"]. split; [done|]. split; [repeat constructor; by vm_compute|by vm_compute]. Qed.

#[local] Opaque u64_line token_line double_line Line_AddU64 optional_line.

Lemma read_request_lines r :
  request_ok r -> Forall line_fits (request_lines r) ->
  read_lines request_step 1 (request_lines r) start_request_reading = Value (reading true true true r).
Proof.
  intros Hr Hf. pose proof Hr as []. unfold request_lines in *.
  repeat match goal with Hl : Forall line_fits (_ ++ _) |- _ => apply Forall_app in Hl as [? Hl] end.
  repeat match goal with Hl : Forall line_fits (_ :: _) |- _ => apply Forall_cons in Hl as [? Hl] end.
  cbn [app read_lines]. rewrite (token_step_prints _ _ _ _ _ request_header_prints) by done.
  assert (read_request_line 1 ["OPP-REQUEST"; "1"] start_request_reading = Value (reading false false false empty_request)) as ->.
  { vm_compute. reflexivity. }
  rewrite id_line_reads, source_reads, destination_reads by assumption.
  rewrite width_reads, candidates_reads, regenerations_reads, hops_reads by assumption.
  rewrite read_lines_app, read_cost by first [assumption|reflexivity]. cbn [read_lines].
  rewrite disjointness_reads, accept_restored_evidence_reads, search_expansions_reads, search_labels_reads by assumption.
  rewrite read_lines_app, read_srcgens by first [assumption|reflexivity].
  rewrite read_lines_app, read_generation by first [assumption|reflexivity].
  rewrite read_lines_app, read_digest by first [assumption|reflexivity].
  rewrite read_constraint_lines by first [assumption|reflexivity].
  destruct r. cbn in *. by subst.
Qed.

#[local] Transparent u64_line token_line double_line Line_AddU64 optional_line.

Lemma bool_token_prints record b : gword record -> printed (token_line record [bool_token b]).
Proof. intros Hw. eapply printed_record. unfold token_line. cbn [fold_left]. print_record. Qed.

Lemma optional_printed {A} (print : A -> string) (ok : A -> Prop) o :
  (forall v, ok v -> printed (print v)) -> option_ok ok o -> Forall printed (optional_line print o).
Proof. intros Hp Ho. destruct o; [|done]. apply Forall_singleton. by apply Hp. Qed.

Lemma u64_printed record w v : gword record -> in_width w v -> printed (u64_line record v).
Proof. intros Hw Hv. eapply printed_record. unfold u64_line. print_record. Qed.

Lemma double_printed record v : gword record -> plain_double v -> printed (double_line record v).
Proof. intros Hw Hv. eapply printed_record. unfold double_line. print_record. Qed.

Lemma tokens_printed record tokens : gword record -> printed (token_line record tokens).
Proof.
  intros Hw. unfold token_line. assert (printed (Line_Begin record)) as Hp by (eexists; by apply prints_begin).
  revert Hp. generalize (Line_Begin record). induction tokens as [|t tokens IH]; intros line Hp; [done|].
  cbn [fold_left]. apply IH. destruct Hp as [ts Hp]. eexists. by apply prints_Add.
Qed.

Lemma number_printed record tokens w v :
  gword record -> in_width w v -> printed (Line_AddU64 (token_line record tokens) v).
Proof. intros Hw Hv. destruct (tokens_printed record tokens Hw) as [ts Hp]. eexists. apply prints_AddU64; [done|unfold in_width in Hv; lia]. Qed.

Lemma request_lines_printed r : request_ok r -> Forall printed (request_lines r).
Proof.
  intros Hr. pose proof Hr as []. destruct qo_constraints0. unfold request_lines, constraint_lines.
  repeat first
    [ apply Forall_app_2 | apply Forall_cons_2 | apply Forall_nil_2
    | eapply printed_map; [|eassumption]; intros ? Hx; cbv beta in Hx
    | eapply optional_printed; [|eassumption]; intros ? Hx
    | apply tokens_printed; split; [discriminate|reflexivity]
    | eapply u64_printed; [split; [discriminate|reflexivity]|eassumption]
    | apply double_printed; [split; [discriminate|reflexivity]|assumption]
    | eapply number_printed; [split; [discriminate|reflexivity]|apply Hx]
    | eexists; apply request_header_prints ].
Qed.
End loop.

(** ** Theorems *)

Lemma request_text_reads `{Platform, !CharconvLaws} (r : PlanningRequest) :
  request_ok r -> Forall line_fits (request_lines r) -> ParseRequestText (RequestToText r) = Value r.
Proof.
  intros Hr Hf. unfold ParseRequestText, read_text_lines, RequestToText.
  by rewrite text_lines_text, read_request_lines by (done || by apply request_lines_printed).
Qed.

(** Requests read back.  The canonical text of a request whose values are in
    the ranges of their fields, whose two maps list each key once in order, and
    whose lines are within the bounds of the reader, is read back to the same
    request: every exclusion, limit, ceiling and optional requirement with it. *)
Theorem request_roundtrip `{Platform, !CharconvLaws} (r : PlanningRequest) :
  request_ok r -> Forall line_fits (request_lines r) -> ParseRequestText (RequestToText r) = Value r.
Proof. apply request_text_reads. Qed.

(** Every validation policy reads back. *)
Lemma policy_roundtrip p : ParseValidationPolicyText (ValidationPolicyToText p) = Value p.
Proof. by destruct p as [[] []]; vm_compute. Qed.

(** ** A request with a line of every kind *)

Module SampleRequest.
Definition sample_constraints : ConstraintSet :=
  MkConstraints [MkId "N1"; MkId "N2"] [MkPortKey (MkId "N:3") (MkId "4")] [MkId "s9"] [MkId "x1"] [MkId "duct"]
    [(MkId "duct", 2); (MkId "hall", 1)] (Some 900000) (Some 12) (Some d10) (Some d10) true false false false.

Definition sample : PlanningRequest :=
  MkRequest 1 (MkId "r1") (MkPortKey (MkId "S") (MkId "1")) (MkPortKey (MkId "D") (MkId "1")) 4 3 2 16 (Some 70)
    Disjointness.FailureDomain sample_constraints [(MkId "inv", 7); (MkId "nms", 9)] (Some 12) (Some zero_digest) true 5000 6000.

Lemma sample_request_ok : request_ok sample.
Proof.
  assert (plain_double d10) as Hd by (split; [by vm_compute|discriminate]).
  split; [| | | | | | | | |split|..]; match goal with
    | |- Forall (fun e => id_ok _ /\ _) _ =>
        unfold sample, sample_constraints; cbn [constraints max_members_per_failure_domain required_source_generations];
        repeat (apply Forall_cons_2; [split; by vm_compute|]); apply Forall_nil_2
    | |- _ => first [by vm_compute | exact Hd | repeat constructor; by vm_compute]
    end.
Qed.

Lemma sample_request_fits : Forall line_fits (request_lines sample).
Proof. apply (bool_decide_unpack _). by vm_compute. Qed.
End SampleRequest.

Lemma request_roundtrip_witness :
  request_ok SampleRequest.sample /\ ParseRequestText (RequestToText SampleRequest.sample) = Value SampleRequest.sample.
Proof.
  split; [exact SampleRequest.sample_request_ok|].
  exact (request_roundtrip SampleRequest.sample SampleRequest.sample_request_ok SampleRequest.sample_request_fits).
Defined.
