(* ===== verification/ResultText.v ===== *)
(** * ResultText: reading planning results

    The reading half of [src/result.cpp].  A result carries whole plans between
    two marker lines: while it is inside one, the loop copies lines to a buffer
    and hands the buffer to the reader of plans at the end marker. *)

From S2P Require Import Prelude Status Ids Doubles Spectrum Canonical SnapshotText Outcome Plan Result Lines PlanText.

(** ** Assignments to the fields of a result *)

Definition rs_put_outcome (v : PlanOutcome.t) (r : PlanningResult) : PlanningResult :=
  MkResult v (rs_status r) (rs_request_digest r) (rs_snapshot_digest r) (rs_candidates r) (rs_witnesses r)
    (rs_limitations r) (rs_cuts r) (rs_statistics r) (rs_optimality_proven r) (rs_digest r).

Definition rs_put_status (v : Status) (r : PlanningResult) : PlanningResult :=
  MkResult (rs_outcome r) v (rs_request_digest r) (rs_snapshot_digest r) (rs_candidates r) (rs_witnesses r)
    (rs_limitations r) (rs_cuts r) (rs_statistics r) (rs_optimality_proven r) (rs_digest r).

Definition rs_put_request_digest (v : Digest256) (r : PlanningResult) : PlanningResult :=
  MkResult (rs_outcome r) (rs_status r) v (rs_snapshot_digest r) (rs_candidates r) (rs_witnesses r)
    (rs_limitations r) (rs_cuts r) (rs_statistics r) (rs_optimality_proven r) (rs_digest r).

Definition rs_put_snapshot_digest (v : Digest256) (r : PlanningResult) : PlanningResult :=
  MkResult (rs_outcome r) (rs_status r) (rs_request_digest r) v (rs_candidates r) (rs_witnesses r)
    (rs_limitations r) (rs_cuts r) (rs_statistics r) (rs_optimality_proven r) (rs_digest r).

Definition rs_put_candidates (v : list PlanArtifact) (r : PlanningResult) : PlanningResult :=
  MkResult (rs_outcome r) (rs_status r) (rs_request_digest r) (rs_snapshot_digest r) v (rs_witnesses r)
    (rs_limitations r) (rs_cuts r) (rs_statistics r) (rs_optimality_proven r) (rs_digest r).

Definition rs_put_witnesses (v : list Witness) (r : PlanningResult) : PlanningResult :=
  MkResult (rs_outcome r) (rs_status r) (rs_request_digest r) (rs_snapshot_digest r) (rs_candidates r) v
    (rs_limitations r) (rs_cuts r) (rs_statistics r) (rs_optimality_proven r) (rs_digest r).

Definition rs_put_limitations (v : Z) (r : PlanningResult) : PlanningResult :=
  MkResult (rs_outcome r) (rs_status r) (rs_request_digest r) (rs_snapshot_digest r) (rs_candidates r) (rs_witnesses r)
    v (rs_cuts r) (rs_statistics r) (rs_optimality_proven r) (rs_digest r).

Definition rs_put_cuts (v : list CutCount) (r : PlanningResult) : PlanningResult :=
  MkResult (rs_outcome r) (rs_status r) (rs_request_digest r) (rs_snapshot_digest r) (rs_candidates r) (rs_witnesses r)
    (rs_limitations r) v (rs_statistics r) (rs_optimality_proven r) (rs_digest r).

Definition rs_put_statistics (v : PlanningStatistics) (r : PlanningResult) : PlanningResult :=
  MkResult (rs_outcome r) (rs_status r) (rs_request_digest r) (rs_snapshot_digest r) (rs_candidates r) (rs_witnesses r)
    (rs_limitations r) (rs_cuts r) v (rs_optimality_proven r) (rs_digest r).

Definition rs_put_optimality (v : bool) (r : PlanningResult) : PlanningResult :=
  MkResult (rs_outcome r) (rs_status r) (rs_request_digest r) (rs_snapshot_digest r) (rs_candidates r) (rs_witnesses r)
    (rs_limitations r) (rs_cuts r) (rs_statistics r) v (rs_digest r).

(** The default-constructed result. *)
Definition empty_result : PlanningResult :=
  MkResult PlanOutcome.Refused OkStatus zero_digest zero_digest [] [] 0 [] no_statistics false zero_digest.

(** ** The records *)

Definition kPlanOutcomes : list PlanOutcome.t :=
  [PlanOutcome.Feasible; PlanOutcome.Infeasible; PlanOutcome.Indeterminate; PlanOutcome.Unsupported;
   PlanOutcome.Cancelled; PlanOutcome.Refused].

Definition kStatusCodes : list StatusCode.t :=
  [StatusCode.Ok; StatusCode.InvalidArgument; StatusCode.MalformedInput; StatusCode.LimitExceeded;
   StatusCode.DuplicateIdentity; StatusCode.NotFound; StatusCode.ConflictingEvidence; StatusCode.Unsupported;
   StatusCode.Stale; StatusCode.Fenced; StatusCode.Cancelled; StatusCode.Truncated; StatusCode.IntegrityFailure;
   StatusCode.IoFailure; StatusCode.Refused; StatusCode.Exhausted; StatusCode.Overflow; StatusCode.Internal].

(** The first entry of a table that has the name. *)
Definition by_name {A} (table : list A) (name : A -> string) (t : string) (unknown : string) : Expected A :=
  match List.find (fun x => String.eqb t (name x)) table with
  | Some x => Value x
  | None => malformed unknown
  end.

Definition read_outcome (values : list string) : Expected PlanOutcome.t :=
  if negb (length values =? 2)%nat then malformed "outcome takes one value"
  else by_name kPlanOutcomes PlanOutcomeName (token values 1) "outcome value is not recognised".

(** The text of an optional field; a field that is not found, or is repeated,
    leaves [old]. *)
Definition optional_text (values : list string) (key old : string) : Expected string :=
  match FindKeyedField values 2 key with
  | Value raw => DecodeToken raw
  | Error _ => Value old
  end.

Definition read_status (values : list string) (old : Status) : Expected Status :=
  if (length values <? 2)%nat then malformed "status takes a code"
  else
    let! c := by_name kStatusCodes StatusCodeName (token values 1) "status code is not recognised" in
    let! d := optional_text values "detail" (detail old) in
    Value (MkStatus c d).

Definition read_result_digest (what : string) (values : list string) : Expected Digest256 :=
  if negb (length values =? 2)%nat then malformed what else Digest_FromHex (token values 1).

Definition read_limitations (values : list string) : Expected Z :=
  if (length values <? 2)%nat then malformed "limitations takes a mask" else ParseU32 (token values 1).

Definition read_optimality (values : list string) : Expected bool :=
  if negb (length values =? 2)%nat then malformed "optimality takes one value"
  else if String.eqb (token values 1) "proven" then Value true
  else if String.eqb (token values 1) "not_proven" then Value false
  else malformed "optimality value is not recognised".

(** The lambda [read] of the statistics record. *)
Definition counter_field (values : list string) (key : string) : Expected Z :=
  let! raw := FindKeyedField values 1 key in ParseU64 raw.

Definition read_statistics (values : list string) : Expected PlanningStatistics :=
  let! created := counter_field values "labels_created" in
  let! expanded := counter_field values "labels_expanded" in
  let! dominated := counter_field values "labels_dominated" in
  let! frontier := counter_field values "peak_frontier" in
  let! arcs := counter_field values "arcs_examined" in
  let! states := counter_field values "states_visited" in
  let! truncated := counter_field values "truncated" in
  Value (MkStatistics created expanded dominated frontier arcs states (negb (truncated =? 0))).

Definition read_cut_reason (what t : string) : Expected CutReason.t :=
  match FindCutReasonByName t with Some r => Value r | None => malformed what end.

Definition read_witness (values : list string) : Expected Witness :=
  if (length values <? 2)%nat then malformed "witness takes a reason"
  else
    let! reason := read_cut_reason "witness reason is not recognised" (token values 1) in
    let! resource := token_field ResourceKeyFromString values 2 "res" in
    let! d := optional_text values "detail" "" in
    Value (MkWitness reason resource d).

Definition read_cut (values : list string) : Expected CutCount :=
  if negb (length values =? 3)%nat then malformed "cut takes a reason and a count"
  else
    let! reason := read_cut_reason "cut reason is not recognised" (token values 1) in
    let! count := ParseU64 (token values 2) in
    Value (MkCutCount reason count).

(** ** The loop *)

(** [expected] is [expected_digests.back()]; the code keeps the whole vector and
    reads its last entry. *)
Record ResultReading := MkResultReading {
  re_header_seen : bool;
  re_digest_seen : bool;
  re_candidate : option string;
  re_expected : list Digest256;
  re_result : PlanningResult
}.

Definition start_result_reading : ResultReading := MkResultReading false false None [] empty_result.

Definition result_magic_line : string := "result must start with the OPP-RESULT magic line".

Section reading.
Context `{Platform}.

Definition read_result_header (values : list string) (s : ResultReading) : Expected ResultReading :=
  if negb (length values =? 2)%nat || negb (String.eqb (token values 0) "OPP-RESULT") then malformed result_magic_line
  else Value (MkResultReading true (re_digest_seen s) (re_candidate s) (re_expected s) (re_result s)).

Definition read_result_record (n : Z) (values : list string) (s : ResultReading) : Expected ResultReading :=
  let r := re_result s in
  let keyword := token values 0 in
  let next (e : Expected PlanningResult) : Expected ResultReading :=
    let! r' := at_line n e in Value (MkResultReading true false None (re_expected s) r') in
  if String.eqb keyword "candidate-plan-begin" then Value (MkResultReading true false (Some "") (re_expected s) r)
  else if String.eqb keyword "outcome" then next (let! o := read_outcome values in Value (rs_put_outcome o r))
  else if String.eqb keyword "status" then
    next (let! st := read_status values (rs_status r) in Value (rs_put_status st r))
  else if String.eqb keyword "request-digest" || String.eqb keyword "snapshot-digest" then
    next
      (let! d := read_result_digest "digest record takes one value" values in
       Value (if String.eqb keyword "request-digest" then rs_put_request_digest d r else rs_put_snapshot_digest d r))
  else if String.eqb keyword "limitations" then
    next (let! v := read_limitations values in Value (rs_put_limitations v r))
  else if String.eqb keyword "optimality" then
    next (let! v := read_optimality values in Value (rs_put_optimality v r))
  else if String.eqb keyword "statistics" then
    next (let! v := read_statistics values in Value (rs_put_statistics v r))
  else if String.eqb keyword "witness" then
    next (let! w := read_witness values in Value (rs_put_witnesses (rs_witnesses r ++ [w]) r))
  else if String.eqb keyword "cut" then
    next (let! c := read_cut values in Value (rs_put_cuts (rs_cuts r ++ [c]) r))
  else if String.eqb keyword "candidate" then
    let! d := at_line n (read_result_digest "candidate takes a digest" values) in
    Value (MkResultReading true false None (re_expected s ++ [d]) r)
  else if String.eqb keyword "digest" then
    let! d := at_line n (read_result_digest "digest takes one value" values) in
    Value (MkResultReading true true None (re_expected s) (result_put_digest d r))
  else at_line n (malformed ("unknown result record '" +:+ keyword +:+ "'")).

Definition read_result_line (n : Z) (values : list string) (s : ResultReading) : Expected ResultReading :=
  if negb (re_header_seen s) then read_result_header values s
  else if re_digest_seen s then malformed "result content appears after the digest line"
  else read_result_record n values s.

Context `{Hasher}.

(** The buffer ends at the marker: it is a plan, the one its index announced. *)
Definition close_candidate (buffer : string) (s : ResultReading) : Expected ResultReading :=
  match ParsePlanArtifact buffer with
  | Error st => Error (Failure (code st) ("candidate plan: " +:+ detail st))
  | Value p =>
      if match last (re_expected s) with Some d => negb (digest_eqb (pl_digest p) d) | None => false end then
        Error (Failure StatusCode.IntegrityFailure "candidate plan digest disagrees with its index record")
      else
        let r := re_result s in
        Value (MkResultReading (re_header_seen s) (re_digest_seen s) None (re_expected s)
          (rs_put_candidates (rs_candidates r ++ [p]) r))
  end.

Definition result_step (n : Z) (line : string) (s : ResultReading) : Expected ResultReading :=
  match re_candidate s with
  | Some buffer =>
      if String.eqb line "candidate-plan-end" then close_candidate buffer s
      else
        let buffer := buffer +:+ line +:+ newline in
        if kMaxPlanArtifactBytes <? string_size buffer then
          Error (Failure StatusCode.LimitExceeded "candidate plan exceeds the permitted maximum size")
        else Value (MkResultReading (re_header_seen s) (re_digest_seen s) (Some buffer) (re_expected s) (re_result s))
  | None => token_step read_result_line n line s
  end.

Definition finish_result (s : ResultReading) : Expected PlanningResult :=
  if negb (re_header_seen s) then malformed "result is empty"
  else if negb (re_digest_seen s) then malformed "result is missing its digest line"
  else if match re_candidate s with Some _ => true | None => false end then
    malformed "result ends inside a candidate plan"
  else
    let r := re_result s in
    if negb (digest_eqb (rs_digest (Result_Seal r)) (rs_digest r)) then
      Error (Failure StatusCode.IntegrityFailure "result digest does not match its content")
    else Value r.

Definition ParseResultText (t : string) : Expected PlanningResult :=
  let! s := read_text_lines result_step t start_result_reading in finish_result s.
End reading.

(** ** What a result must hold to read back *)

Record statistics_ok (s : PlanningStatistics) : Prop := {
  st_created : in_width 64 (labels_created s);
  st_expanded : in_width 64 (labels_expanded s);
  st_dominated : in_width 64 (labels_dominated s);
  st_frontier : in_width 64 (peak_frontier s);
  st_arcs : in_width 64 (arcs_examined s);
  st_states : in_width 64 (states_visited s)
}.

Record result_ok `{Platform, Hasher} (r : PlanningResult) : Prop := {
  ro_request : digest_ok (rs_request_digest r);
  ro_snapshot : digest_ok (rs_snapshot_digest r);
  ro_candidates : Forall candidate_ok (rs_candidates r);
  ro_witnesses : Forall (fun w => resource_ok (w_resource w)) (rs_witnesses r);
  ro_limitations : in_width 32 (rs_limitations r);
  ro_cuts : Forall (fun c => in_width 64 (c_count c)) (rs_cuts r);
  ro_statistics : statistics_ok (rs_statistics r);
  ro_digest : digest_ok (rs_digest r)
}.

(** ** Lemmas: the lines of a result *)

Lemma text_of_lines_app a b : text_of_lines (a ++ b) = text_of_lines a +:+ text_of_lines b.
Proof.
  unfold text_of_lines. induction a as [|l a IH]; [done|]. cbn [app fold_right]. rewrite IH.
  by rewrite <- !string_app_assoc.
Qed.

Section lines.
Context `{Platform}.

Definition candidate_lines (p : PlanArtifact) : list string :=
  [Result.digest_line "candidate" (pl_digest p); "candidate-plan-begin"] ++ plan_lines p true ++ ["candidate-plan-end"].

Definition head_lines (r : PlanningResult) : list string :=
  ["OPP-RESULT 1";
   Line_Add (Line_Begin "outcome") (PlanOutcomeName (rs_outcome r));
   status_line (rs_status r);
   Result.digest_line "request-digest" (rs_request_digest r);
   Result.digest_line "snapshot-digest" (rs_snapshot_digest r);
   limitations_line (rs_limitations r);
   Line_Add (Line_Begin "optimality") (if rs_optimality_proven r then "proven" else "not_proven");
   statistics_line (rs_statistics r)].

Definition result_lines (r : PlanningResult) : list string :=
  head_lines r ++ map witness_line (rs_witnesses r) ++ map cut_line (rs_cuts r) ++
  concat (map candidate_lines (rs_candidates r)) ++ [Result.digest_line "digest" (rs_digest r)].

Lemma candidate_text_lines p : candidate_text p = text_of_lines (candidate_lines p).
Proof.
  unfold candidate_text, candidate_lines. rewrite !text_of_lines_app. unfold CanonicalBytes, PlanToText, text_of_lines.
  cbn [fold_right]. unfold Result.digest_line, DigestHex. by rewrite <- !string_app_assoc.
Qed.

Lemma concat_cons (x : string) l : String.concat "" (x :: l) = x +:+ String.concat "" l.
Proof. destruct l; cbn; [by rewrite string_app_nil|done]. Qed.

Lemma ResultToText_lines r : ResultToText r = text_of_lines (result_lines r).
Proof.
  unfold ResultToText, result_lines. rewrite !text_of_lines_app. repeat f_equal.
  induction (rs_candidates r) as [|p l IH]; [done|]. cbn [map concat].
  by rewrite concat_cons, text_of_lines_app, <- IH, candidate_text_lines.
Qed.
End lines.

(** ** Lemmas: the records read back *)

Lemma outcome_by_name o what : by_name kPlanOutcomes PlanOutcomeName (EncodeToken (PlanOutcomeName o)) what = Value o.
Proof. by destruct o. Qed.

Lemma status_by_name c what : by_name kStatusCodes StatusCodeName (EncodeToken (StatusCodeName c)) what = Value c.
Proof. by destruct c. Qed.

Lemma reason_by_name c what : read_cut_reason what (EncodeToken (CutReasonName c)) = Value c.
Proof. by destruct c. Qed.

Section records.
Context `{Platform, !CharconvLaws}.

Lemma outcome_reads o :
  reads_as (Line_Add (Line_Begin "outcome") (PlanOutcomeName o)) "outcome" read_outcome o.
Proof.
  eapply reads_as_intro; [print_record|simpl_record; reflexivity|].
  simpl_record. intros _. unfold read_outcome. read_values. by rewrite outcome_by_name.
Qed.

Lemma optional_text_at values fields key old t :
  length values = 2%nat -> plain_key key = true -> forallb (fun e => plain_key (fst e)) fields = true ->
  fields_fit fields -> kv_get key fields = Some (EncodeToken t) ->
  optional_text (values ++ map kv fields) key old = Value t.
Proof.
  intros Hv Hk Hf Hfit Hg. unfold optional_text. rewrite (find_kv (EncodeToken t)) by done.
  apply DecodeToken_EncodeToken. by eapply Hfit.
Qed.

Lemma status_reads s old : reads_as (status_line s) "status" (fun values => read_status values old) s.
Proof.
  eapply reads_as_intro; [unfold status_line; print_record|simpl_record; reflexivity|].
  simpl_record. intros Hsize. unfold read_status. rewrite (optional_text_at _ _ _ _ (detail s)) by done.
  read_values. rewrite status_by_name. by destruct s.
Qed.

Lemma result_digest_reads record what d :
  gword record -> digest_ok d -> reads_as (Result.digest_line record d) record (read_result_digest what) d.
Proof.
  intros Hr Hd. eapply reads_as_intro; [unfold Result.digest_line; print_record|simpl_record; reflexivity|].
  simpl_record. intros _. unfold read_result_digest. rewrite EncodeToken_digest by done. by read_values.
Qed.

Lemma limitations_reads v : in_width 32 v -> reads_as (limitations_line v) "limitations" read_limitations v.
Proof.
  intros Hv. eapply reads_as_intro; [unfold limitations_line, Line_AddU32; print_record|simpl_record; reflexivity|].
  simpl_record. intros _. unfold read_limitations. by read_values.
Qed.

Lemma optimality_reads (b : bool) :
  reads_as (Line_Add (Line_Begin "optimality") (if b then "proven" else "not_proven")) "optimality" read_optimality b.
Proof.
  eapply reads_as_intro; [print_record|simpl_record; reflexivity|]. simpl_record. intros _. by destruct b.
Qed.

Lemma counter_field_at values fields key v :
  length values = 1%nat -> plain_key key = true -> forallb (fun e => plain_key (fst e)) fields = true ->
  in_width 64 v -> kv_get key fields = Some (FormatU64 v) -> counter_field (values ++ map kv fields) key = Value v.
Proof.
  intros Hv Hk Hf Hw Hg. unfold counter_field. rewrite (find_kv (FormatU64 v)) by done. by apply ParseU64_text.
Qed.

Lemma statistics_reads s : statistics_ok s -> reads_as (statistics_line s) "statistics" read_statistics s.
Proof.
  intros []. assert (in_width 64 (if st_truncated s then 1 else 0)) as Ht by (by destruct (st_truncated s)).
  eapply reads_as_intro; [unfold statistics_line; print_record|simpl_record; reflexivity|].
  simpl_record. intros _. unfold read_statistics.
  repeat (erewrite counter_field_at; [|reflexivity|reflexivity|reflexivity| |reflexivity]; [|assumption]).
  destruct s as [a b c d e f []]; reflexivity.
Qed.

Lemma witness_reads w : resource_ok (w_resource w) -> reads_as (witness_line w) "witness" read_witness w.
Proof.
  intros Hw. eapply reads_as_intro; [unfold witness_line; print_record|simpl_record; reflexivity|].
  simpl_record. intros Hsize. unfold read_witness. rewrite (optional_text_at _ _ _ _ (w_detail w)) by done.
  read_fields Hsize. read_values. rewrite reason_by_name. by destruct w.
Qed.

Lemma cut_reads c : in_width 64 (c_count c) -> reads_as (cut_line c) "cut" read_cut c.
Proof.
  intros Hc. eapply reads_as_intro; [unfold cut_line; print_record|simpl_record; reflexivity|].
  simpl_record. intros _. unfold read_cut. read_values. rewrite reason_by_name. by destruct c.
Qed.
End records.

(** ** Lemmas: the loop over the lines of a result *)

Section loop.
Context `{Platform, !CharconvLaws, Hasher}.

(** The state between the header and the digest, outside a plan. *)
Definition reading (expected : list Digest256) (r : PlanningResult) : ResultReading :=
  MkResultReading true false None expected r.

Lemma result_record_step {A} line keyword (read : list string -> Expected A) a n expected r :
  reads_as line keyword read a -> line_fits line ->
  exists values, token values 0 = keyword /\ read values = Value a /\
    result_step n (strip_cr line) (reading expected r) = read_result_record n values (reading expected r).
Proof.
  intros (values & fields & Hl & Hk & Hr) Hf. exists (values ++ map kv fields).
  split; [done|]. split; [by apply Hr|]. unfold result_step. cbn [re_candidate reading].
  by rewrite (token_step_prints _ _ _ _ _ Hl Hf).
Qed.

Ltac read_record lemma :=
  match goal with
  | Hf : line_fits ?line |- result_step ?n _ (reading ?expected ?r) = _ =>
      let E := fresh "E" in
      destruct (result_record_step _ _ _ _ n expected r lemma Hf) as (values & Hkey & Hread & E); rewrite E;
      unfold read_result_record; rewrite Hkey; cbn [String.eqb Ascii.eqb Bool.eqb orb re_result re_expected reading];
      rewrite Hread; reflexivity
  end.

Lemma read_witnesses n xs e r :
  Forall (fun w => resource_ok (w_resource w)) xs -> Forall line_fits (map witness_line xs) -> rs_witnesses r = [] ->
  read_lines result_step n (map witness_line xs) (reading e r) = Value (reading e (rs_put_witnesses xs r)).
Proof.
  intros Hok Hf Hr.
  apply (read_pushed result_step (reading e) witness_line (fun w => resource_ok (w_resource w)) rs_witnesses
    rs_put_witnesses (fun x l => l ++ [x]) n xs [] r); try done; [by intros []|].
  clear Hf. intros m x q Hx Hl. read_record (witness_reads x Hx).
Qed.

Lemma read_cuts n xs e r :
  Forall (fun c => in_width 64 (c_count c)) xs -> Forall line_fits (map cut_line xs) -> rs_cuts r = [] ->
  read_lines result_step n (map cut_line xs) (reading e r) = Value (reading e (rs_put_cuts xs r)).
Proof.
  intros Hok Hf Hr.
  apply (read_pushed result_step (reading e) cut_line (fun c => in_width 64 (c_count c)) rs_cuts
    rs_put_cuts (fun x l => l ++ [x]) n xs [] r); try done; [by intros []|].
  clear Hf. intros m x q Hx Hl. read_record (cut_reads x Hx).
Qed.

(** *** The plans *)

(** No line of a plan is the end marker: the reader of plans refuses it. *)
Lemma marker_refused n s : exists st, token_step read_plan_line n "candidate-plan-end" s = Error st.
Proof.
  unfold token_step. rewrite bool_decide_eq_false_2 by done.
  replace (line_tokens n "candidate-plan-end") with (Value ["candidate-plan-end"]) by (by vm_compute).
  unfold read_plan_line. destruct (negb (pr_header_seen s)); [by eexists|].
  destruct (pr_digest_seen s); by eexists.
Qed.

Lemma read_lines_values {S} (step : Z -> string -> S -> Expected S) n lines s s' :
  read_lines step n lines s = Value s' -> Forall (fun line => exists m t t', step m (strip_cr line) t = Value t') lines.
Proof.
  revert n s; induction lines as [|line lines IH]; intros n s; [done|]. cbn [read_lines].
  destruct (step n (strip_cr line) s) as [t|] eqn:E; [|done]. intros Hr. constructor; [by do 3 eexists|]. by eapply IH.
Qed.

Lemma plan_lines_marker p :
  plan_ok p -> Forall line_fits (plan_lines p true) -> Forall (fun line => strip_cr line <> "candidate-plan-end") (plan_lines p true).
Proof.
  intros Hp Hf. pose proof (read_lines_values _ _ _ _ _ (read_plan_lines p Hp Hf)) as Hall.
  eapply Forall_impl; [exact Hall|]. intros line (m & t & t' & Hs) E. rewrite E in Hs.
  destruct (marker_refused m t) as [st Hm]. congruence.
Qed.

Lemma string_size_nonneg s : 0 <= string_size s.
Proof. unfold string_size. lia. Qed.

(** Copying the lines of a plan. *)
Lemma copy_lines lines n buffer e r :
  Forall printed lines -> Forall (fun line => strip_cr line <> "candidate-plan-end") lines ->
  string_size (buffer +:+ text_of_lines lines) <= kMaxPlanArtifactBytes ->
  read_lines result_step n lines (MkResultReading true false (Some buffer) e r) =
  Value (MkResultReading true false (Some (buffer +:+ text_of_lines lines)) e r).
Proof.
  intros Hp. revert n buffer; induction Hp as [|line lines [tokens Hl] Hls IH]; intros n buffer Hm Hsize.
  - by rewrite string_app_nil.
  - apply Forall_cons in Hm as [Hm Hms]. cbn [read_lines]. unfold result_step at 1. cbn [re_candidate].
    destruct (String.eqb_spec (strip_cr line) "candidate-plan-end") as [E|_]; [done|].
    rewrite (strip_cr_prints _ _ Hl).
    assert (buffer +:+ text_of_lines (line :: lines) = (buffer +:+ line +:+ newline) +:+ text_of_lines lines) as E.
    { unfold text_of_lines. cbn [fold_right]. by rewrite !string_app_assoc. }
    rewrite E in *. cbv zeta. rewrite (proj2 (Z.ltb_ge _ _)).
    + by rewrite IH.
    + rewrite string_size_app in Hsize. pose proof (string_size_nonneg (text_of_lines lines)). lia.
Qed.

Lemma begin_line_prints : prints "candidate-plan-begin" ["candidate-plan-begin"].
Proof. exists "candidate-plan-begin", []. split; [done|]. split; [repeat constructor; by vm_compute|done]. Qed.

Lemma read_candidate n p e r :
  candidate_ok p -> Forall line_fits (candidate_lines p) ->
  read_lines result_step n (candidate_lines p) (reading e r) =
  Value (reading (e ++ [pl_digest p]) (rs_put_candidates (rs_candidates r ++ [p]) r)).
Proof.
  intros [Hp Hf Hsize Hseal] Hall. unfold candidate_lines in *. cbn [app] in *.
  apply Forall_cons in Hall as [Hc Hall]. apply Forall_cons in Hall as [Hb _]. cbn [read_lines].
  assert (result_step n (strip_cr (Result.digest_line "candidate" (pl_digest p))) (reading e r) =
          Value (reading (e ++ [pl_digest p]) r)) as ->.
  { assert (gword "candidate") as Hw by done.
    read_record (result_digest_reads "candidate" "candidate takes a digest" _ Hw (ok_digest _ Hp)). }
  assert (result_step (n + 1) (strip_cr "candidate-plan-begin") (reading (e ++ [pl_digest p]) r) =
          Value (MkResultReading true false (Some "") (e ++ [pl_digest p]) r)) as ->.
  { unfold result_step. cbn [re_candidate reading]. by rewrite (token_step_prints _ _ _ _ _ begin_line_prints). }
  rewrite read_lines_app, copy_lines by (done || by apply plan_lines_printed || by apply plan_lines_marker).
  cbn [read_lines]. unfold result_step. cbn [re_candidate].
  replace (strip_cr "candidate-plan-end") with "candidate-plan-end" by (by vm_compute).
  rewrite String.eqb_refl. unfold close_candidate. change ("" +:+ text_of_lines (plan_lines p true)) with (CanonicalBytes p).
  rewrite PlanText.plan_reads by done. cbn [re_expected re_header_seen re_digest_seen re_result].
  rewrite last_snoc. unfold digest_eqb. by rewrite bool_decide_eq_true_2.
Qed.

Lemma read_candidates n ps e r :
  Forall candidate_ok ps -> Forall line_fits (concat (map candidate_lines ps)) ->
  read_lines result_step n (concat (map candidate_lines ps)) (reading e r) =
  Value (reading (e ++ map pl_digest ps) (rs_put_candidates (rs_candidates r ++ ps) r)).
Proof.
  intros Hok. revert n e r; induction Hok as [|p ps Hp Hps IH]; intros n e r Hf.
  - cbn [map concat read_lines]. rewrite !app_nil_r. by destruct r.
  - cbn [map concat] in *. apply Forall_app in Hf as [Hf Hfs].
    rewrite read_lines_app, read_candidate, IH by done. cbn [rs_candidates rs_put_candidates map].
    rewrite <- !app_assoc. by destruct r.
Qed.

(** *** The whole text *)

Lemma outcome_step n e r o :
  line_fits (Line_Add (Line_Begin "outcome") (PlanOutcomeName o)) ->
  result_step n (strip_cr (Line_Add (Line_Begin "outcome") (PlanOutcomeName o))) (reading e r) =
  Value (reading e (rs_put_outcome o r)).
Proof. intros Hf. read_record (outcome_reads o). Qed.

Lemma status_step n e r s :
  line_fits (status_line s) ->
  result_step n (strip_cr (status_line s)) (reading e r) = Value (reading e (rs_put_status s r)).
Proof. intros Hf. read_record (status_reads s (rs_status r)). Qed.

Lemma request_digest_step n e r d :
  digest_ok d -> line_fits (Result.digest_line "request-digest" d) ->
  result_step n (strip_cr (Result.digest_line "request-digest" d)) (reading e r) =
  Value (reading e (rs_put_request_digest d r)).
Proof.
  intros Hd Hf. assert (gword "request-digest") as Hw by done.
  read_record (result_digest_reads "request-digest" "digest record takes one value" d Hw Hd).
Qed.

Lemma snapshot_digest_step n e r d :
  digest_ok d -> line_fits (Result.digest_line "snapshot-digest" d) ->
  result_step n (strip_cr (Result.digest_line "snapshot-digest" d)) (reading e r) =
  Value (reading e (rs_put_snapshot_digest d r)).
Proof.
  intros Hd Hf. assert (gword "snapshot-digest") as Hw by done.
  read_record (result_digest_reads "snapshot-digest" "digest record takes one value" d Hw Hd).
Qed.

Lemma limitations_step n e r v :
  in_width 32 v -> line_fits (limitations_line v) ->
  result_step n (strip_cr (limitations_line v)) (reading e r) = Value (reading e (rs_put_limitations v r)).
Proof. intros Hv Hf. read_record (limitations_reads v Hv). Qed.

Lemma optimality_step n e r (b : bool) :
  line_fits (Line_Add (Line_Begin "optimality") (if b then "proven" else "not_proven")) ->
  result_step n (strip_cr (Line_Add (Line_Begin "optimality") (if b then "proven" else "not_proven"))) (reading e r) =
  Value (reading e (rs_put_optimality b r)).
Proof. intros Hf. read_record (optimality_reads b). Qed.

Lemma statistics_step n e r s :
  statistics_ok s -> line_fits (statistics_line s) ->
  result_step n (strip_cr (statistics_line s)) (reading e r) = Value (reading e (rs_put_statistics s r)).
Proof. intros Hs Hf. read_record (statistics_reads s Hs). Qed.

Lemma digest_step n e r d :
  digest_ok d -> line_fits (Result.digest_line "digest" d) ->
  result_step n (strip_cr (Result.digest_line "digest" d)) (reading e r) =
  Value (MkResultReading true true None e (result_put_digest d r)).
Proof.
  intros Hd Hf. assert (gword "digest") as Hw by done.
  read_record (result_digest_reads "digest" "digest takes one value" d Hw Hd).
Qed.

Lemma result_header_prints : prints "OPP-RESULT 1" ["OPP-RESULT"; "1"].
Proof. exists "OPP-RESULT", ["1"]. split; [done|]. split; [repeat constructor; by vm_compute|by vm_compute]. Qed.

Lemma head_reads n r :
  result_ok r -> Forall line_fits (head_lines r) ->
  read_lines result_step n (head_lines r) start_result_reading =
  Value (reading []
    (rs_put_statistics (rs_statistics r) (rs_put_optimality (rs_optimality_proven r)
      (rs_put_limitations (rs_limitations r) (rs_put_snapshot_digest (rs_snapshot_digest r)
        (rs_put_request_digest (rs_request_digest r) (rs_put_status (rs_status r)
          (rs_put_outcome (rs_outcome r) empty_result)))))))).
Proof.
  intros [] Hf. unfold head_lines in *.
  repeat match goal with Hl : Forall line_fits (_ :: _) |- _ => apply Forall_cons in Hl as [? Hl] end.
  cbn [read_lines]. unfold result_step at 1. cbn [re_candidate start_result_reading].
  rewrite (token_step_prints _ _ _ _ _ result_header_prints) by done.
  change (read_result_line n ["OPP-RESULT"; "1"] start_result_reading) with (Value (reading [] empty_result)). cbv iota.
  rewrite outcome_step, status_step, request_digest_step, snapshot_digest_step by done.
  by rewrite limitations_step, optimality_step, statistics_step.
Qed.

Lemma read_result_lines r :
  result_ok r -> Forall line_fits (result_lines r) ->
  read_lines result_step 1 (result_lines r) start_result_reading =
  Value (MkResultReading true true None (map pl_digest (rs_candidates r)) r).
Proof.
  intros Hr Hf. pose proof Hr as []. unfold result_lines in *.
  repeat match goal with Hl : Forall line_fits (_ ++ _) |- _ => apply Forall_app in Hl as [? Hl] end.
  rewrite read_lines_app, head_reads by done.
  rewrite read_lines_app, read_witnesses by done.
  rewrite read_lines_app, read_cuts by done.
  rewrite read_lines_app, read_candidates by done.
  apply Forall_cons in Hf as [Hf _]. cbn [read_lines]. rewrite digest_step by done. cbn [app rs_candidates].
  by destruct r.
Qed.

Lemma candidate_lines_printed p : candidate_ok p -> Forall printed (candidate_lines p).
Proof.
  intros [Hp _ _ _]. unfold candidate_lines. apply Forall_app_2; [|apply Forall_app_2].
  - repeat apply Forall_cons_2; [|eexists; apply begin_line_prints|done].
    eapply printed_record. unfold Result.digest_line. print_record.
  - by apply plan_lines_printed.
  - apply Forall_singleton. exists ["candidate-plan-end"], "candidate-plan-end", [].
    split; [done|]. split; [repeat constructor; by vm_compute|done].
Qed.

Lemma result_lines_printed r : result_ok r -> Forall printed (result_lines r).
Proof.
  intros []. unfold result_lines, head_lines. repeat apply Forall_app_2.
  - repeat apply Forall_cons_2; [eexists; apply result_header_prints|..]; try apply Forall_nil_2;
      first [ by eapply printed_reads, outcome_reads | by eapply printed_reads, (status_reads _ OkStatus)
            | by eapply printed_reads, limitations_reads | by eapply printed_reads, optimality_reads
            | by eapply printed_reads, statistics_reads
            | eapply printed_record; unfold Result.digest_line; print_record ].
  - apply (printed_map _ (fun w => resource_ok (w_resource w))); [|done].
    intros w Hw. by eapply printed_reads, witness_reads.
  - apply (printed_map _ (fun c => in_width 64 (c_count c))); [|done].
    intros c Hc. by eapply printed_reads, cut_reads.
  - induction ro_candidates0; [done|]. cbn [map concat].
    apply Forall_app_2; [by apply candidate_lines_printed|done].
  - apply Forall_singleton. eapply printed_record. unfold Result.digest_line. print_record.
Qed.

Lemma result_reads r :
  result_ok r -> sealed r -> Forall line_fits (result_lines r) -> ParseResultText (ResultToText r) = Value r.
Proof.
  intros Hr Hs Hf. unfold ParseResultText, read_text_lines. rewrite ResultToText_lines.
  rewrite text_lines_text by (by apply result_lines_printed). rewrite read_result_lines by done.
  unfold finish_result. cbn [re_header_seen re_digest_seen re_candidate re_result negb]. cbv zeta.
  rewrite <- Hs. unfold digest_eqb. by rewrite bool_decide_eq_true_2.
Qed.
End loop.

(** ** Theorems *)

(** C35: results read back.  The canonical text of a sealed result, whose
    candidates read back as plans and whose lines are within the bounds of the
    reader, is read back to the same result: outcome, status, digests, witnesses,
    cuts, statistics and every candidate. *)
Theorem result_roundtrip `{Platform, !CharconvLaws, Hasher} (r : PlanningResult) :
  result_ok r -> sealed r -> Forall line_fits (result_lines r) -> ParseResultText (ResultToText r) = Value r.
Proof. apply result_reads. Qed.

(** *** What was read is sealed *)

Definition reading_sealed `{Platform, Hasher} (s : ResultReading) : Prop := Forall well_read (rs_candidates (re_result s)).

Lemma read_result_record_sealed `{Platform, Hasher} n values s s' :
  read_result_record n values s = Value s' -> reading_sealed s -> reading_sealed s'.
Proof.
  unfold read_result_record, reading_sealed. cbv zeta. intros Hr Hs. open_reads; try done. by destruct (String.eqb _ "request-digest").
Qed.

Lemma result_step_sealed `{Platform, Hasher} n line s s' :
  result_step n line s = Value s' -> reading_sealed s -> reading_sealed s'.
Proof.
  unfold result_step. destruct (re_candidate s) as [buffer|].
  - destruct (String.eqb line "candidate-plan-end").
    + unfold close_candidate. destruct (ParsePlanArtifact buffer) as [p|st] eqn:E; [|done].
      destruct (match last (re_expected s) with Some _ => _ | None => _ end); [done|]. intros [= <-] Hs.
      unfold reading_sealed. cbn. apply Forall_app_2; [done|]. apply Forall_singleton. by eapply parsed_plan_well_read.
    + cbv zeta. destruct (_ <? _); [done|]. by intros [= <-].
  - unfold token_step. case_bool_decide; [by intros [= <-]|]. destruct (line_tokens n line) as [values|]; [|done].
    unfold read_result_line, read_result_header, malformed. destruct (re_header_seen s); cbn [negb].
    + destruct (re_digest_seen s); [done|]. apply read_result_record_sealed.
    + destruct (_ || _); [done|]. by intros [= <-].
Qed.

(** Whatever the reader accepts is sealed: the digest of the result covers
    its content, and so does the digest of each of its candidates, which are of
    the supported revisions, with their steps and segments numbered densely. *)
Theorem parsed_result_sealed `{Platform, Hasher} (t : string) (r : PlanningResult) :
  ParseResultText t = Value r -> sealed r /\ Forall well_read (rs_candidates r).
Proof.
  unfold ParseResultText. intros (s & Hr & Hfin)%let_value.
  apply (read_lines_invariant reading_sealed) in Hr; [|apply result_step_sealed|by apply Forall_nil_2].
  unfold finish_result, malformed in Hfin. destruct (re_header_seen s), (re_digest_seen s); try done. cbn [negb] in Hfin.
  destruct (re_candidate s); [done|]. cbv zeta in Hfin. unfold digest_eqb in Hfin.
  case_bool_decide as Hd; [|done]. injection Hfin as <-. split; [|done]. unfold sealed, Result_Seal in *.
  change (rs_digest (result_put_digest ?d _)) with d in Hd. rewrite Hd. by destruct (re_result s).
Qed.

(** ** A result with one candidate *)

Module SampleResult.
#[local] Existing Instance SamplePlan.size_hasher.

Definition draft : PlanningResult :=
  MkResult PlanOutcome.Feasible OkStatus zero_digest zero_digest [SamplePlan.plan "A"]
    [MkWitness CutReason.UnknownSpectrum (ForSpan (MkId "s9")) "no slots published"] 512
    [MkCutCount CutReason.Dominated 3] (MkStatistics 9 8 1 4 12 7 false) false zero_digest.

Definition sample : PlanningResult := Result_Seal draft.

Lemma sample_result_ok : result_ok sample.
Proof.
  split; [split; [done|repeat constructor; by vm_compute]..| | | | | |].
  - apply Forall_singleton. split; [apply SamplePlan.plan_A_ok|apply SamplePlan.plan_A_fits|by vm_compute..].
  - apply Forall_singleton. discriminate.
  - by vm_compute.
  - apply Forall_singleton. by vm_compute.
  - split; by vm_compute.
  - split; [by vm_compute|].
    assert (Forall (fun b => 0 <= b < 256) (digest_bytes (rs_digest sample))) as Hb; [|exact Hb].
    apply (bool_decide_unpack _). by vm_compute.
Qed.

Lemma sample_result_fits : Forall line_fits (result_lines sample).
Proof. apply (bool_decide_unpack _). by vm_compute. Qed.
End SampleResult.

Section witnesses.
Existing Instance SamplePlan.size_hasher.

Lemma result_roundtrip_witness :
  result_ok SampleResult.sample /\ ParseResultText (ResultToText SampleResult.sample) = Value SampleResult.sample.
Proof.
  split; [exact SampleResult.sample_result_ok|].
  exact (result_roundtrip SampleResult.sample SampleResult.sample_result_ok eq_refl SampleResult.sample_result_fits).
Defined.

Lemma parsed_result_sealed_witness :
  ParseResultText (ResultToText SampleResult.sample) = Value SampleResult.sample /\ sealed SampleResult.sample.
Proof.
  assert (ParseResultText (ResultToText SampleResult.sample) = Value SampleResult.sample) as E by (by vm_compute).
  split; [exact E|]. exact (proj1 (parsed_result_sealed _ _ E)).
Defined.
End witnesses.
