(* ===== verification/Rebuild.v ===== *)
(** * Rebuild: a sealed snapshot submitted again

    What [SnapshotBuilder] makes of the records of a snapshot it sealed, which
    is what a reader of the snapshot's text submits: the same snapshot, but for
    what its records do not hold, the conflicts and the source descriptions. *)

From S2P Require Import Prelude Status Ids Doubles Spectrum Canonical Topology SnapshotText Builder.

(** A source without its description, which the canonical text leaves out. *)
Definition plain_source (s : SourceRecord) : SourceRecord :=
  MkSource (src_id s) (src_generation s) (src_coverage s) "".

(** A builder that holds the records of a snapshot. *)
Definition builder_of (t : TopologySnapshot) : SnapshotBuilder :=
  MkBuilder (t_id t) (t_generation t) (t_spectrum t) default_build_options (map plain_source (t_sources t)) (t_nodes t)
    (t_ports t) (t_spans t) (t_cross_connects t) (t_profiles t) false.

(** The snapshot without its conflicts. *)
Definition without_conflicts (t : TopologySnapshot) : TopologySnapshot :=
  MkSnapshot (t_id t) (t_generation t) (t_spectrum t) (t_digest t) (map plain_source (t_sources t)) (t_nodes t) (t_ports t)
    (t_spans t) (t_cross_connects t) (t_profiles t) [] (t_unresolved t)
    (coverage_of (t_sources t) (t_nodes t) (t_unresolved t) [])
    EvidenceFreshness.Fresh zero_incarnation 0 (t_span_arcs t) (t_out_cross_connects t) (t_unresolved_at_port t).

(** ** Lemmas: sorting what is sorted *)

Section again.
Context {R K S : Type} `{Ordered K, EqDecision K, Ordered S, EqDecision S}.
Context (key : R -> K) (sort_key : R -> S) (eqb : R -> R -> bool) (res : R -> ResourceKey).

(** Neighbours have distinct keys. *)
Fixpoint spaced (l : list R) : Prop :=
  match l with
  | x :: (y :: _) as rest => key x <> key y /\ spaced rest
  | _ => True
  end.

Lemma unique_from_spaced last l : spaced (last :: unique_from (fun x y => bool_decide (key x = key y)) last l).
Proof.
  revert last; induction l as [|x l IH]; intros last; [done|]. cbn [unique_from]. case_bool_decide as E; [apply IH|].
  split; [done|apply IH].
Qed.

Lemma dedup_spaced last l : spaced (last :: l) -> dedup_from key eqb res last l = (l, []).
Proof.
  revert last; induction l as [|x l IH]; intros last Hs; [done|]. destruct Hs as [Hne Hs].
  cbn [dedup_from]. rewrite bool_decide_eq_false_2 by done. by rewrite (IH x Hs).
Qed.

Lemma insert_last x l : Forall (fun y => key_le sort_key y x) l -> insert_by (by_key sort_key) x l = l ++ [x].
Proof.
  induction 1 as [|y l Hy Hl IH]; [done|]. cbn [insert_by app]. unfold by_key at 1. unfold key_le in Hy. rewrite Hy. by rewrite IH.
Qed.

Lemma sort_sorted_id l : StronglySorted (key_le sort_key) l -> sort_by (by_key sort_key) l = l.
Proof.
  intros Hl. unfold sort_by.
  assert (forall done todo, StronglySorted (key_le sort_key) (done ++ todo) ->
    fold_left (fun acc x => insert_by (by_key sort_key) x acc) todo done = done ++ todo) as Hfold; [|by apply (Hfold [] l)].
  intros done todo; revert done; induction todo as [|x todo IH]; intros done Hs; cbn [fold_left]; [by rewrite app_nil_r|].
  rewrite insert_last.
  - rewrite IH; rewrite <- app_assoc; [done|exact Hs].
  - clear IH. induction done as [|y done IH]; [constructor|]. cbn [app] in Hs. inversion_clear Hs as [|? ? Hs' Hy].
    constructor; [|by apply IH]. rewrite List.Forall_forall in Hy. apply Hy, in_or_app. by right; left.
Qed.

Lemma unique_from_sub P last l :
  StronglySorted P (last :: l) -> StronglySorted P (last :: unique_from (fun x y => bool_decide (key x = key y)) last l).
Proof.
  revert last; induction l as [|x l IH]; intros last Hs; [done|]. cbn [unique_from].
  inversion_clear Hs as [|? ? Hl Hlast]. case_bool_decide.
  - apply IH. constructor; [by inversion_clear Hl|by inversion_clear Hlast].
  - constructor; [by apply IH|]. apply List.Forall_forall. intros y Hy. rewrite List.Forall_forall in Hlast.
    apply Hlast. destruct Hy as [<-|Hy]; [by left|]. right. by eapply unique_from_in.
Qed.

(** Sorting and de-duplicating a second time changes nothing and finds no
    conflict. *)
Lemma SortAndDeduplicate_again l :
  let kept := fst (SortAndDeduplicate key eqb res (by_key sort_key) l) in
  SortAndDeduplicate key eqb res (by_key sort_key) kept = (kept, []).
Proof.
  cbv zeta. rewrite SortAndDeduplicate_kept. pose proof (sort_by_sorted sort_key l) as Hs.
  destruct (sort_by (by_key sort_key) l) as [|x rest]; [done|]. cbn [unique_by].
  unfold SortAndDeduplicate. rewrite sort_sorted_id by (by apply unique_from_sub).
  rewrite dedup_spaced; [done|apply unique_from_spaced].
Qed.
End again.

Lemma sort_unique_id {A} `{Ordered A, EqDecision A} (l : list A) :
  StronglySorted (key_lt (fun x => x)) l -> sort_unique l = l.
Proof.
  intros Hs. unfold sort_unique, sort. change (@ltb A _) with (by_key (fun x : A => x)).
  assert (StronglySorted (key_le (fun x : A => x)) l) as Hle.
  { induction Hs as [|x l Hl IH Hx]; constructor; [done|]. eapply Forall_impl; [exact Hx|].
    intros y Hy. by apply ltb_asym. }
  rewrite sort_sorted_id by done. destruct Hs as [|x l Hl Hx]; [done|]. cbn [unique_by]. f_equal. clear Hle.
  revert x Hx; induction Hl as [|y l Hl IH Hy]; intros x Hx; [done|]. cbn [unique_from].
  apply Forall_cons in Hx as [Hxy Hx]. rewrite bool_decide_eq_false_2; [by rewrite IH|].
  intros ->. unfold key_lt in Hxy. by rewrite ltb_irrefl in Hxy.
Qed.

(** ** Lemmas: validating what was validated *)

Definition normalised {R} (get : R -> list FailureDomainId) (r : R) : Prop :=
  increasing (get r) /\ size (get r) <= kMaxDomainsPerResource.

Lemma normalise_record_normalised {R} (get : R -> list FailureDomainId) put what r r' :
  (forall d r, get (put d r) = d) -> normalise_record get put what r = Value r' -> normalised get r'.
Proof.
  unfold normalise_record. cbv zeta. destruct (Z.ltb_spec kMaxDomainsPerResource (size (sort_unique (get r)))); [done|].
  intros Hg [= <-]. unfold normalised. rewrite Hg. split; [apply sort_unique_sorted|done].
Qed.

Lemma NormaliseDomains_again {R} (get : R -> list FailureDomainId) put what l :
  (forall r, put (get r) r = r) -> Forall (normalised get) l -> NormaliseDomains get put what l = Value l.
Proof.
  intros Hput. unfold NormaliseDomains. induction 1 as [|r l [Hi Hs] Hl IH]; [done|]. cbn [map_expected].
  rewrite IH. unfold normalise_record. cbv zeta. rewrite sort_unique_id by done.
  by rewrite (proj2 (Z.ltb_ge _ _)), Hput by done.
Qed.

Lemma for_each_all {A} (check : A -> Status) l : Forall (fun x => failed (check x) = false) l -> for_each check l = OkStatus.
Proof. induction 1 as [|x l Hx Hl IH]; [done|]. cbn [for_each]. by rewrite Hx. Qed.

Lemma for_each_forall {A} (check : A -> Status) l :
  failed (for_each check l) = false -> Forall (fun x => failed (check x) = false) l.
Proof. intros Hl. apply List.Forall_forall. by apply for_each_ok. Qed.

Lemma distinct_sources_strict l : StronglySorted (key_lt src_id) l -> distinct_sources l = OkStatus.
Proof.
  induction 1 as [|x l Hl IH Hx]; [done|]. destruct l as [|y l]; [done|]. cbn [distinct_sources].
  apply Forall_inv in Hx. rewrite bool_decide_eq_false_2; [done|]. intros E. unfold key_lt in Hx.
  by rewrite E, ltb_irrefl in Hx.
Qed.

(** What validation has checked of the records it lets through. *)
Record validated (model : SpectrumModel) sources nodes ports spans xs profiles : Prop := {
  va_model : failed (Spectrum_Validate model) = false;
  va_sources : StronglySorted (key_lt src_id) sources;
  va_nodes : Forall (fun n => normalised n_failure_domains n /\ failed (validate_cost_owner n) = false) nodes;
  va_ports : Forall (fun p => normalised p_failure_domains p /\
    failed (ValidateMaskWithinModel (p_blocked_slots p) model "port.blocked_slots") = false) ports;
  va_spans : Forall (fun s => normalised s_failure_domains s /\ failed (validate_span model s) = false) spans;
  va_xs : Forall (fun x => normalised x_failure_domains x /\
    failed (ValidateMaskWithinModel (x_blocked_slots x) model "crossconnect.blocked_slots") = false) xs;
  va_profiles : Forall (fun r => failed (validate_profile r) = false) profiles
}.

Lemma validate_records_validated b sources nodes ports spans xs :
  validate_records b = Value (sources, nodes, ports, spans, xs) ->
  validated (b_spectrum b) sources nodes ports spans xs (b_profiles b).
Proof.
  intros Hv. pose proof (validate_records_sources _ _ _ _ _ _ Hv) as Hs. revert Hv. unfold validate_records. cbv zeta beta.
  destruct (failed (Spectrum_Validate _)) eqn:Em; [done|]. destruct (failed (distinct_sources _)); [done|].
  destruct (NormaliseDomains n_failure_domains _ _ (b_nodes b)) as [ns|] eqn:En; [|done].
  destruct (NormaliseDomains p_failure_domains _ _ (b_ports b)) as [ps|] eqn:Ep; [|done].
  destruct (NormaliseDomains s_failure_domains _ _ (b_spans b)) as [ss|] eqn:Es; [|done].
  destruct (NormaliseDomains x_failure_domains _ _ (b_cross_connects b)) as [cs|] eqn:Ex; [|done].
  destruct (failed (for_each validate_cost_owner _)) eqn:Fn; [done|].
  destruct (failed (for_each (validate_span _) _)) eqn:Fs; [done|].
  destruct (failed (for_each (fun p => ValidateMaskWithinModel (p_blocked_slots p) _ _) _)) eqn:Fp; [done|].
  destruct (failed (for_each (fun x => ValidateMaskWithinModel (x_blocked_slots x) _ _) _)) eqn:Fx; [done|].
  destruct (failed (for_each validate_profile _)) eqn:Fr; [done|]. intros [= <- <- <- <- <-].
  apply for_each_forall in Fn, Fs, Fp, Fx, Fr.
  apply (map_expected_forall _ (normalised n_failure_domains)) in En; [|intros ??; by apply normalise_record_normalised].
  apply (map_expected_forall _ (normalised p_failure_domains)) in Ep; [|intros ??; by apply normalise_record_normalised].
  apply (map_expected_forall _ (normalised s_failure_domains)) in Es; [|intros ??; by apply normalise_record_normalised].
  apply (map_expected_forall _ (normalised x_failure_domains)) in Ex; [|intros ??; by apply normalise_record_normalised].
  split; [done|done|by apply Forall_and..|done].
Qed.

Lemma validate_records_again b :
  validated (b_spectrum b) (b_sources b) (b_nodes b) (b_ports b) (b_spans b) (b_cross_connects b) (b_profiles b) ->
  validate_records b = Value (b_sources b, b_nodes b, b_ports b, b_spans b, b_cross_connects b).
Proof.
  intros [Hm Hs [Hn Hn']%Forall_and [Hp Hp']%Forall_and [Hsp Hsp']%Forall_and [Hx Hx']%Forall_and Hr].
  unfold validate_records. cbv zeta beta. rewrite Hm.
  rewrite sort_sorted_id.
  - rewrite distinct_sources_strict by done. 
    rewrite !NormaliseDomains_again by (done || by intros []).
    by rewrite !for_each_all by done.
  - clear -Hs. induction Hs as [|x l Hl IH Hx]; constructor; [done|]. eapply Forall_impl; [exact Hx|].
    intros y Hy. by apply ltb_asym.
Qed.

Lemma Forall_in {A} (P : A -> Prop) l l' : (forall x, In x l' -> In x l) -> Forall P l -> Forall P l'.
Proof. rewrite !List.Forall_forall. auto. Qed.

Lemma validated_sorted model sources nodes ports spans xs profiles :
  let r := sort_records sources nodes ports spans xs profiles in
  validated model sources nodes ports spans xs profiles ->
  validated model (so_sources r) (so_nodes r) (so_ports r) (so_spans r) (so_cross_connects r) (so_profiles r).
Proof.
  unfold sort_records.
  pose proof (SortAndDeduplicate_in n_id NodeRecord_eqb (fun n => ForNode (n_id n)) (by_key n_id) nodes) as Hn.
  pose proof (SortAndDeduplicate_in p_key PortRecord_eqb (fun p => ForPort (p_key p)) (by_key p_key) ports) as Hp.
  pose proof (SortAndDeduplicate_in s_id SpanRecord_eqb (fun s => ForSpan (s_id s))
    (by_key (arc_key s_from s_to s_id)) spans) as Hs.
  pose proof (SortAndDeduplicate_in x_id CrossConnectRecord_eqb (fun x => ForCrossConnect (x_id x))
    (by_key (arc_key x_from x_to x_id)) xs) as Hx.
  pose proof (SortAndDeduplicate_in r_id ReachProfile_eqb (fun r => ForReachProfile (r_id r)) (by_key r_id) profiles) as Hr.
  destruct (SortAndDeduplicate n_id _ _ _ nodes), (SortAndDeduplicate p_key _ _ _ ports),
    (SortAndDeduplicate s_id _ _ _ spans), (SortAndDeduplicate x_id _ _ _ xs),
    (SortAndDeduplicate r_id _ _ _ profiles). cbn in *. intros []. split; [done|done|..]; by eapply Forall_in.
Qed.

(** Sorting the records of a snapshot again. *)
Lemma sort_records_again sources nodes ports spans xs profiles sources' :
  let r := sort_records sources nodes ports spans xs profiles in
  sort_records sources' (so_nodes r) (so_ports r) (so_spans r) (so_cross_connects r) (so_profiles r) =
  MkSorted sources' (so_nodes r) (so_ports r) (so_spans r) (so_cross_connects r) (so_profiles r) [].
Proof.
  unfold sort_records.
  pose proof (SortAndDeduplicate_again n_id n_id NodeRecord_eqb (fun n => ForNode (n_id n)) nodes) as Hn.
  pose proof (SortAndDeduplicate_again p_key p_key PortRecord_eqb (fun p => ForPort (p_key p)) ports) as Hp.
  pose proof (SortAndDeduplicate_again s_id (arc_key s_from s_to s_id) SpanRecord_eqb (fun s => ForSpan (s_id s)) spans) as Hs.
  pose proof (SortAndDeduplicate_again x_id (arc_key x_from x_to x_id) CrossConnectRecord_eqb
    (fun x => ForCrossConnect (x_id x)) xs) as Hx.
  pose proof (SortAndDeduplicate_again r_id r_id ReachProfile_eqb (fun r => ForReachProfile (r_id r)) profiles) as Hr.
  destruct (SortAndDeduplicate n_id _ _ _ nodes), (SortAndDeduplicate p_key _ _ _ ports),
    (SortAndDeduplicate s_id _ _ _ spans), (SortAndDeduplicate x_id _ _ _ xs),
    (SortAndDeduplicate r_id _ _ _ profiles). cbn in *. by rewrite Hn, Hp, Hs, Hx, Hr.
Qed.

Lemma link_same options r r' :
  so_nodes r' = so_nodes r -> so_ports r' = so_ports r -> so_spans r' = so_spans r ->
  so_cross_connects r' = so_cross_connects r -> link options r' = link options r.
Proof. unfold link. by intros -> -> -> ->. Qed.

(** ** Lemmas: sealing again *)

Lemma coverage_plain sources nodes unresolved conflicted :
  coverage_of (map plain_source sources) nodes unresolved conflicted = coverage_of sources nodes unresolved conflicted.
Proof.
  unfold coverage_of. assert (forallb (fun s => bool_decide (src_coverage s = Coverage.Complete)) (map plain_source sources) =
    forallb (fun s => bool_decide (src_coverage s = Coverage.Complete)) sources) as ->; [|done].
  induction sources as [|s l IH]; [done|]. cbn [map forallb]. by rewrite IH.
Qed.

Section rebuild.
Context `{Platform, Hasher}.

Lemma SnapshotToText_plain t t' :
  t_id t' = t_id t -> t_generation t' = t_generation t -> t_spectrum t' = t_spectrum t ->
  t_sources t' = map plain_source (t_sources t) -> t_nodes t' = t_nodes t -> t_ports t' = t_ports t ->
  t_spans t' = t_spans t -> t_cross_connects t' = t_cross_connects t -> t_profiles t' = t_profiles t ->
  SnapshotToText t' = SnapshotToText t.
Proof.
  intros E1 E2 E3 E4 E5 E6 E7 E8 E9. unfold SnapshotToText, snapshot_lines. rewrite E1, E2, E3, E4, E5, E6, E7, E8, E9.
  by rewrite map_map.
Qed.

Lemma rebuilt b t :
  build_snapshot b = Value t -> b_options b = default_build_options ->
  build_snapshot (builder_of t) = Value (without_conflicts t).
Proof.
  intros (sources & nodes & ports & spans & xs & a & d & Hv & Hl & Et & Ed)%build_snapshot_inv Ho.
  apply validate_records_validated, validated_sorted in Hv. rewrite Ho in Hl.
  pose proof (sort_records_again sources nodes ports spans xs (b_profiles b) (map plain_source sources)) as Hsort.
  pose proof (proj1 (sort_records_sorted sources nodes ports spans xs (b_profiles b))) as Es.
  cbv zeta in *. set (r := sort_records sources nodes ports spans xs (b_profiles b)) in *.
  assert (t = assemble b r a d) as Et' by done. rewrite Et' in *. clear Et Et'.
  unfold build_snapshot. rewrite validate_records_again.
  2:{ destruct Hv. split; cbn; try done. rewrite Es in *. clear -va_sources0.
      induction va_sources0 as [|s l Hl IH Hs]; cbn [map]; constructor; [done|]. rewrite Forall_map. done. }
  cbn [builder_of b_sources b_nodes b_ports b_spans b_cross_connects b_profiles b_options assemble t_sources t_nodes
       t_ports t_spans t_cross_connects t_profiles] in *.
  rewrite Es, Hsort. rewrite (link_same _ r) by done. rewrite Hl. f_equal.
  assert (forall d', ComputeSnapshotDigest (assemble (builder_of (assemble b r a d))
    (MkSorted (map plain_source sources) (so_nodes r) (so_ports r) (so_spans r) (so_cross_connects r) (so_profiles r) []) a d') = d) as Hd.
  { intros d'. rewrite Ed at 2. unfold ComputeSnapshotDigest. do 4 f_equal.
    apply SnapshotToText_plain; try done. cbn. by rewrite Es. }
  rewrite Hd. unfold without_conflicts, assemble. cbn. rewrite Es. f_equal. apply coverage_plain.
Qed.
End rebuild.
