(* ===== verification/SnapshotRead.v ===== *)
(** * SnapshotRead: reading snapshots

    The reading half of [src/snapshot_io.cpp].  A first loop over the lines
    takes the four header records and keeps the tokens of the others; a second
    one reads each record and submits it to a [SnapshotBuilder]. *)

From S2P Require Import Prelude Status Ids Doubles Spectrum Canonical Topology SnapshotText Builder Rebuild Lines.

Definition kMaxSnapshotTextBytes : Z := 64 * 1024 * 1024.

(** ** Values *)

(** The loop of [ParseDomains]; [count] is [domains.size()]. *)
Fixpoint read_domain_pieces (count : Z) (pieces : list string) : Expected (list FailureDomainId) :=
  match pieces with
  | [] => Value []
  | piece :: rest =>
      match id_Parse piece with
      | Error _ => malformed "failure domain list contains an invalid identifier"
      | Value id =>
          if kMaxDomainsPerResource <? count + 1 then
            Error (Failure StatusCode.LimitExceeded "failure domain list exceeds the supported length")
          else let! ids := read_domain_pieces (count + 1) rest in Value (id :: ids)
      end
  end.

Definition ParseDomains (t : string) : Expected (list FailureDomainId) :=
  if bool_decide (t = "") then Value [] else read_domain_pieces 0 (comma_pieces [] (chars t)).

(** [ParseEvidenceU64], [ParseEvidenceU32], [ParseEvidenceDouble] and
    [ParseEvidenceMask] differ in the reader of a known value. *)
Definition parse_evidence {A} (parse : string -> Expected A) (t : string) : Expected (Evidence A) :=
  if String.eqb t kUnknown then Value Unknown
  else if String.eqb t kConflicting then Value Conflicting
  else let! v := parse t in Value (Known v).

Definition ParseEvidenceU64 : string -> Expected (Evidence Z) := parse_evidence ParseU64.
Definition ParseEvidenceU32 : string -> Expected (Evidence Z) := parse_evidence ParseU32.
Definition ParseEvidenceMask : string -> Expected (Evidence SlotMask) := parse_evidence mask_FromHex.

Definition read_admin_state (t : string) : Expected AdminState.t :=
  match ParseAdminState t with
  | Some s => Value s
  | None => malformed ("administrative state token '" +:+ t +:+ "' is not recognised")
  end.

Definition ParseEvidenceAdmin : string -> Expected (Evidence AdminState.t) := parse_evidence read_admin_state.

Definition read_coverage (what t : string) : Expected Coverage.t :=
  if String.eqb t "partial" then Value Coverage.Partial
  else if String.eqb t "complete" then Value Coverage.Complete
  else malformed (what +:+ " coverage must be complete or partial").

Definition read_node_kind (t : string) : Expected NodeKind.t :=
  match ParseNodeKind t with
  | Some k => Value k
  | None => Error (Failure StatusCode.Unsupported ("node kind '" +:+ t +:+ "' is not modelled"))
  end.

Definition read_port_role (t : string) : Expected PortRole.t :=
  match ParsePortRole t with
  | Some r => Value r
  | None => malformed ("port role '" +:+ t +:+ "' is not recognised")
  end.

Definition read_operation (t : string) : Expected CrossConnectOp.t :=
  match ParseCrossConnectOp t with
  | Some op => Value op
  | None => Error (Failure StatusCode.Unsupported ("cross-connect operation '" +:+ t +:+ "' is not modelled"))
  end.

Definition read_direction (t : string) : Expected bool :=
  if String.eqb t "bidir" then Value true
  else if String.eqb t "single" then Value false
  else malformed "span direction must be bidir or single".

Section reading.
Context `{Platform}.

Definition ParseEvidenceDouble : string -> Expected (Evidence double) := parse_evidence ParseDouble.

(** ** Records *)

Definition read_source (values : list string) : Expected SourceRecord :=
  if negb (length values =? 4)%nat then malformed "source takes id, generation, coverage"
  else
    let! id := id_Parse (token values 1) in
    let! generation := ParseU64 (token values 2) in
    let! coverage := read_coverage "source" (token values 3) in
    Value (MkSource id generation coverage "").

Definition read_profile (values : list string) : Expected ReachProfile :=
  if (length values <? 2)%nat then malformed "profile takes an identifier"
  else
    let! id := id_Parse (token values 1) in
    let! distance := raw_field ParseEvidenceU64 values 2 "dist" in
    let! spans := raw_field ParseEvidenceU32 values 2 "spans" in
    let! loss := raw_field ParseEvidenceDouble values 2 "loss" in
    let! osnr := raw_field ParseEvidenceDouble values 2 "osnr" in
    let! source := raw_field id_Parse values 2 "src" in
    let! generation := raw_field ParseU64 values 2 "gen" in
    Value (MkProfile id distance spans loss osnr source generation).

(** The four fields every other record ends with. *)
Definition read_trailer (values : list string) (first : nat) :
  Expected (Z * SourceId * Generation * list FailureDomainId) :=
  let! cost := raw_field ParseU64 values first "cost" in
  let! source := raw_field id_Parse values first "src" in
  let! generation := raw_field ParseU64 values first "gen" in
  let! domains := read_domains ParseDomains values first in
  Value (cost, source, generation, domains).

Definition read_node (values : list string) : Expected NodeRecord :=
  if (length values <? 5)%nat then malformed "node takes id, kind, coverage, admin"
  else
    let! id := id_Parse (token values 1) in
    let! kind := read_node_kind (token values 2) in
    let! coverage := read_coverage "node" (token values 3) in
    let! admin := raw_field ParseEvidenceAdmin values 4 "admin" in
    let! (cost, source, generation, domains) := read_trailer values 5 in
    Value (MkNode id kind domains cost coverage admin source generation).

Definition read_port (values : list string) : Expected PortRecord :=
  if (length values <? 4)%nat then malformed "port takes node, port, role"
  else
    let! node := id_Parse (token values 1) in
    let! port := id_Parse (token values 2) in
    let! role := read_port_role (token values 3) in
    let! admin := raw_field ParseEvidenceAdmin values 4 "admin" in
    let! tx := raw_field ParseEvidenceProfile values 4 "tx" in
    let! slots := raw_field ParseEvidenceMask values 4 "slots" in
    let! (cost, source, generation, domains) := read_trailer values 4 in
    Value (MkPort (MkPortKey node port) role tx slots domains cost admin source generation).

(** The identity and the two ends of a span or cross-connect. *)
Definition read_ends {tag} (values : list string) : Expected (StrongId tag * PortKey * PortKey) :=
  let! id := id_Parse (token values 1) in
  let! from_node := id_Parse (token values 2) in
  let! from_port := id_Parse (token values 3) in
  let! to_node := id_Parse (token values 4) in
  let! to_port := id_Parse (token values 5) in
  Value (id, MkPortKey from_node from_port, MkPortKey to_node to_port).

Definition read_span (values : list string) : Expected SpanRecord :=
  if (length values <? 7)%nat then malformed "span takes id, two endpoints and a direction"
  else
    let! (id, from, to) := read_ends values in
    let! bidirectional := read_direction (token values 6) in
    let! len := raw_field ParseEvidenceU64 values 7 "len" in
    let! loss := raw_field ParseEvidenceDouble values 7 "loss" in
    let! osnr := raw_field ParseEvidenceDouble values 7 "osnr" in
    let! slots := raw_field ParseEvidenceMask values 7 "slots" in
    let! admin := raw_field ParseEvidenceAdmin values 7 "admin" in
    let! (cost, source, generation, domains) := read_trailer values 7 in
    Value (MkSpan id from to bidirectional len loss osnr slots domains cost admin source generation).

Definition read_cross_connect (values : list string) : Expected CrossConnectRecord :=
  if (length values <? 7)%nat then malformed "xc takes id, two endpoints and an operation"
  else
    let! (id, from, to) := read_ends values in
    let! op := read_operation (token values 6) in
    let! slots := raw_field ParseEvidenceMask values 7 "slots" in
    let! admin := raw_field ParseEvidenceAdmin values 7 "admin" in
    let! (cost, source, generation, domains) := read_trailer values 7 in
    Value (MkCrossConnect id from to op slots domains cost admin source generation).

(** ** The first loop: the header and the tokens of the records *)

Record SnapshotReading := MkSnapshotReading {
  ss_header_seen : bool;
  ss_id : option SnapshotId;
  ss_generation : option Generation;
  ss_grid : option GridKind.t;
  ss_slots : option Z;
  ss_records : list (list string)
}.

Definition start_snapshot_reading : SnapshotReading := MkSnapshotReading false None None None None [].

Definition record_keywords : list string := ["source"; "profile"; "node"; "port"; "span"; "xc"].

Definition kMaxSnapshotRecords : Z :=
  kMaxNodes + kMaxPorts + kMaxSpans + kMaxCrossConnects + kMaxReachProfiles + kMaxSources.

Definition read_snapshot_header (values : list string) (s : SnapshotReading) : Expected SnapshotReading :=
  if negb (length values =? 2)%nat || negb (String.eqb (token values 0) kSnapshotMagic) then
    malformed "snapshot must start with the OPP-SNAPSHOT magic line"
  else
    let! version := ParseU32 (token values 1) in
    if negb (version =? kSnapshotFormatVersion) then
      Error (Failure StatusCode.Unsupported
        ("snapshot format revision " +:+ token values 1 +:+ " is not supported by this runtime"))
    else Value (MkSnapshotReading true (ss_id s) (ss_generation s) (ss_grid s) (ss_slots s) (ss_records s)).

(** The guards of a header record: one argument, and not seen before. *)
Definition once {A} (values : list string) (seen : option A) (arity again : string) : Status :=
  if negb (length values =? 2)%nat then Failure StatusCode.MalformedInput arity
  else if match seen with Some _ => true | None => false end then Failure StatusCode.MalformedInput again
  else OkStatus.

Definition once_then {A B} (st : Status) (read : Expected A) (k : A -> B) : Expected B :=
  if failed st then Error st else let! v := read in Value (k v).

Definition read_snapshot_line (n : Z) (values : list string) (s : SnapshotReading) : Expected SnapshotReading :=
  let keyword := token values 0 in
  if negb (ss_header_seen s) then read_snapshot_header values s
  else if String.eqb keyword "id" then
    once_then
      (once values (ss_id s) "id record takes exactly one argument" "snapshot id is declared more than once")
      (id_Parse (token values 1))
      (fun id => MkSnapshotReading true (Some id) (ss_generation s) (ss_grid s) (ss_slots s) (ss_records s))
  else if String.eqb keyword "generation" then
    once_then
      (once values (ss_generation s) "generation record takes exactly one argument"
         "generation is declared more than once")
      (ParseU64 (token values 1))
      (fun g => MkSnapshotReading true (ss_id s) (Some g) (ss_grid s) (ss_slots s) (ss_records s))
  else if String.eqb keyword "grid" then
    once_then
      (once values (ss_grid s) "grid record takes exactly one argument" "grid is declared more than once")
      (match ParseGridKind (token values 1) with
       | Some kind => Value kind
       | None =>
           Error (Failure StatusCode.Unsupported
             ("grid '" +:+ token values 1 +:+ "' is not modelled by this runtime"))
       end)
      (fun kind => MkSnapshotReading true (ss_id s) (ss_generation s) (Some kind) (ss_slots s) (ss_records s))
  else if String.eqb keyword "slots" then
    once_then
      (once values (ss_slots s) "slots record takes exactly one argument" "slot count is declared more than once")
      (ParseU16 (token values 1))
      (fun c => MkSnapshotReading true (ss_id s) (ss_generation s) (ss_grid s) (Some c) (ss_records s))
  else if existsb (String.eqb keyword) record_keywords then
    if kMaxSnapshotRecords <? size (ss_records s) + 1 then
      Error (Failure StatusCode.LimitExceeded "snapshot declares more records than the supported maximum")
    else
      Value (MkSnapshotReading true (ss_id s) (ss_generation s) (ss_grid s) (ss_slots s) (ss_records s ++ [values]))
  else malformed (line_prefix n ("unknown record '" +:+ keyword +:+ "'")).

(** ** The second loop: submitting the records *)

(** The lambda [fail] of the second loop. *)
Definition at_record {A} (n : Z) (e : Expected A) : Expected A :=
  match e with
  | Value v => Value v
  | Error s =>
      let s := NormaliseDecodeStatus s in
      Error (Failure (code s) ("record " +:+ to_string n +:+ ": " +:+ detail s))
  end.

(** A record that was read, handed to one of the [Add]s of the builder. *)
Definition submit {R} (read : Expected R) (add : SnapshotBuilder -> R -> Status * SnapshotBuilder) (b : SnapshotBuilder) :
  Expected SnapshotBuilder :=
  let! r := read in
  let '(st, b') := add b r in
  if failed st then Error st else Value b'.

Definition submit_record (values : list string) (b : SnapshotBuilder) : Expected SnapshotBuilder :=
  let keyword := token values 0 in
  if String.eqb keyword "source" then submit (read_source values) AddSource b
  else if String.eqb keyword "profile" then submit (read_profile values) AddReachProfile b
  else if String.eqb keyword "node" then submit (read_node values) AddNode b
  else if String.eqb keyword "port" then submit (read_port values) AddPort b
  else if String.eqb keyword "span" then submit (read_span values) AddSpan b
  else submit (read_cross_connect values) AddCrossConnect b.

Fixpoint submit_records (n : Z) (records : list (list string)) (b : SnapshotBuilder) : Expected SnapshotBuilder :=
  match records with
  | [] => Value b
  | values :: rest => let! b' := at_record n (submit_record values b) in submit_records (n + 1) rest b'
  end.

Context `{Hasher}.

Definition finish_snapshot (s : SnapshotReading) : Expected TopologySnapshot :=
  if negb (ss_header_seen s) then malformed "snapshot is empty"
  else
    match ss_id s, ss_grid s, ss_slots s with
    | None, _, _ => malformed "snapshot id is missing"
    | _, None, _ => malformed "spectrum grid is missing"
    | _, _, None => malformed "spectrum slot count is missing"
    | Some id, Some kind, Some slots =>
        let b := SetId (new_builder default_build_options) id in
        let b := SetGeneration b (match ss_generation s with Some g => g | None => 0 end) in
        let b := SetSpectrum b (MkSpectrum kind slots) in
        let! b := submit_records 1 (ss_records s) b in
        fst (Build b)
    end.

Definition ParseSnapshotText (t : string) : Expected TopologySnapshot :=
  if kMaxSnapshotTextBytes <? string_size t then
    Error (Failure StatusCode.LimitExceeded "snapshot text exceeds the permitted maximum size")
  else
    let! s := read_text_lines (token_step read_snapshot_line) t start_snapshot_reading in
    finish_snapshot s.
End reading.

(** ** What a snapshot must hold to read back *)

Definition evidence_ok {A} (ok : A -> Prop) (e : Evidence A) : Prop := match e with Known v => ok v | _ => True end.

(** A profile named like a state of evidence does not read back. *)
Definition profile_name_ok (p : option ProfileId) : Prop :=
  match p with Some id => id_ok id /\ str id <> kUnknown /\ str id <> kConflicting | None => True end.

Definition port_key_ok (k : PortKey) : Prop := id_ok (node k) /\ id_ok (port k).
Definition domains_ok (ids : list FailureDomainId) : Prop := Forall id_ok ids /\ size ids <= kMaxDomainsPerResource.

Record source_ok (s : SourceRecord) : Prop := {
  sr_id : id_ok (src_id s);
  sr_generation : in_width 64 (src_generation s)
}.

Record profile_ok (r : ReachProfile) : Prop := {
  pr_id : id_ok (r_id r);
  pr_distance : evidence_ok (in_width 64) (r_max_distance_m r);
  pr_spans : evidence_ok (in_width 32) (r_max_span_count r);
  pr_loss : evidence_ok plain_double (r_max_loss_db r);
  pr_osnr : evidence_ok plain_double (r_min_osnr_db r);
  pr_source : id_ok (r_source r);
  pr_generation : in_width 64 (r_generation r)
}.

Record node_ok (n : NodeRecord) : Prop := {
  no_id : id_ok (n_id n);
  no_domains : domains_ok (n_failure_domains n);
  no_cost : in_width 64 (n_transit_cost n);
  no_source : id_ok (n_source n);
  no_generation : in_width 64 (n_generation n)
}.

Record port_ok (p : PortRecord) : Prop := {
  po_key : port_key_ok (p_key p);
  po_profile : evidence_ok profile_name_ok (p_transmit_profile p);
  po_slots : evidence_ok wf_mask (p_blocked_slots p);
  po_domains : domains_ok (p_failure_domains p);
  po_cost : in_width 64 (p_transit_cost p);
  po_source : id_ok (p_source p);
  po_generation : in_width 64 (p_generation p)
}.

Record span_ok (s : SpanRecord) : Prop := {
  sp_id : id_ok (s_id s);
  sp_from : port_key_ok (s_from s);
  sp_to : port_key_ok (s_to s);
  sp_length : evidence_ok (in_width 64) (s_length_m s);
  sp_loss : evidence_ok plain_double (s_loss_db s);
  sp_osnr : evidence_ok plain_double (s_osnr_db s);
  sp_slots : evidence_ok wf_mask (s_blocked_slots s);
  sp_domains : domains_ok (s_failure_domains s);
  sp_cost : in_width 64 (s_cost s);
  sp_source : id_ok (s_source s);
  sp_generation : in_width 64 (s_generation s)
}.

Record cross_connect_ok (x : CrossConnectRecord) : Prop := {
  xo_id : id_ok (x_id x);
  xo_from : port_key_ok (x_from x);
  xo_to : port_key_ok (x_to x);
  xo_slots : evidence_ok wf_mask (x_blocked_slots x);
  xo_domains : domains_ok (x_failure_domains x);
  xo_cost : in_width 64 (x_cost x);
  xo_source : id_ok (x_source x);
  xo_generation : in_width 64 (x_generation x)
}.

(** The records are well formed and within the bounds of the builder. *)
Record snapshot_ok (t : TopologySnapshot) : Prop := {
  so_id : id_ok (t_id t);
  so_generation : in_width 64 (t_generation t);
  so_slots : in_width 16 (slot_count (t_spectrum t));
  so_source : Forall source_ok (t_sources t) /\ size (t_sources t) <= kMaxSources;
  so_profile : Forall profile_ok (t_profiles t) /\ size (t_profiles t) <= kMaxReachProfiles;
  so_node : Forall node_ok (t_nodes t) /\ size (t_nodes t) <= kMaxNodes;
  so_port : Forall port_ok (t_ports t) /\ size (t_ports t) <= kMaxPorts;
  so_span : Forall span_ok (t_spans t) /\ size (t_spans t) <= kMaxSpans;
  so_cross_connect : Forall cross_connect_ok (t_cross_connects t) /\ size (t_cross_connects t) <= kMaxCrossConnects
}.

Definition record_lines `{Platform} (t : TopologySnapshot) : list string :=
  map source_line (t_sources t) ++ map profile_line (t_profiles t) ++ map node_line (t_nodes t) ++
  map port_line (t_ports t) ++ map span_line (t_spans t) ++ map cross_connect_line (t_cross_connects t).

(** ** Lemmas: values *)

Lemma mask_hex_alnum m c : In c (chars (mask_ToHex m)) -> is_alnum c = true.
Proof.
  unfold mask_ToHex. rewrite chars_of_chars. intros (l & (i & <- & _)%in_map_iff & Hc)%in_concat.
  unfold word_hex in Hc. apply in_map_iff in Hc as (k & <- & _). apply hex_digit_alnum.
Qed.

Definition evidence_text {A} (f : A -> string) (e : Evidence A) : string :=
  match e with Known v => f v | Unknown => kUnknown | Conflicting => kConflicting end.

Lemma parse_evidence_text {A} (parse : string -> Expected A) (f : A -> string) (ok : A -> Prop) e :
  (forall v, parse kUnknown <> Value v) -> (forall v, parse kConflicting <> Value v) ->
  (forall v, ok v -> parse (f v) = Value v) -> evidence_ok ok e -> parse_evidence parse (evidence_text f e) = Value e.
Proof.
  intros Hu Hc Hf He. destruct e as [v| |]; [|done..]. cbn [evidence_text evidence_ok] in *. specialize (Hf v He).
  unfold parse_evidence. destruct (String.eqb_spec (f v) kUnknown) as [E|_]; [by rewrite E in Hf; destruct (Hu v)|].
  destruct (String.eqb_spec (f v) kConflicting) as [E|_]; [by rewrite E in Hf; destruct (Hc v)|]. by rewrite Hf.
Qed.

Lemma ParseEvidenceU64_text e : evidence_ok (in_width 64) e -> ParseEvidenceU64 (evidence_text FormatU64 e) = Value e.
Proof. by apply (parse_evidence_text _ _ (in_width 64)); [..|apply ParseU64_text]. Qed.

Lemma ParseEvidenceU32_text e : evidence_ok (in_width 32) e -> ParseEvidenceU32 (evidence_text FormatU64 e) = Value e.
Proof. by apply (parse_evidence_text _ _ (in_width 32)); [..|apply ParseU32_text]. Qed.

Lemma ParseEvidenceDouble_text `{Platform, !CharconvLaws} e :
  evidence_ok plain_double e -> ParseEvidenceDouble (evidence_text double_or_nan e) = Value e.
Proof. by apply (parse_evidence_text _ _ plain_double); [..|apply ParseDouble_text]. Qed.

Lemma ParseEvidenceMask_text e : evidence_ok wf_mask e -> ParseEvidenceMask (evidence_text mask_ToHex e) = Value e.
Proof. by apply (parse_evidence_text _ _ wf_mask); [..|apply mask_hex_roundtrip]. Qed.

Lemma ParseEvidenceAdmin_text e : ParseEvidenceAdmin (evidence_text AdminStateName e) = Value e.
Proof. by destruct e as [[]| |]. Qed.

Definition profile_text (p : option ProfileId) : string := match p with Some id => str id | None => kAbsent end.

Lemma ParseEvidenceProfile_text e :
  evidence_ok profile_name_ok e -> ParseEvidenceProfile (evidence_text profile_text e) = Value e.
Proof.
  destruct e as [[id|]| |]; [|done..]. cbn [evidence_ok profile_name_ok evidence_text profile_text].
  intros (Hid & Hu & Hc). unfold ParseEvidenceProfile.
  destruct (String.eqb_spec (str id) kUnknown); [done|]. destruct (String.eqb_spec (str id) kConflicting); [done|].
  destruct (String.eqb_spec (str id) kAbsent) as [E|]; [|by rewrite id_Parse_str].
  unfold id_ok in Hid. by rewrite E in Hid.
Qed.

Lemma ParseDomains_text ids : domains_ok ids -> ids <> [] -> ParseDomains (JoinDomains ids) = Value ids.
Proof.
  intros [Hids Hsize] Hne. unfold ParseDomains. rewrite comma_pieces_join by done.
  rewrite bool_decide_eq_false_2 by (by apply JoinDomains_nonempty).
  assert (forall count, count + size ids <= kMaxDomainsPerResource -> read_domain_pieces count (map str ids) = Value ids) as Hread.
  { clear Hne Hsize. induction Hids as [|id ids Hid Hids IH]; intros count Hc; [done|]. cbn [map read_domain_pieces].
    rewrite id_Parse_str by done. unfold size in *. cbn [length] in Hc.
    rewrite (proj2 (Z.ltb_ge _ _)) by lia. by rewrite IH by lia. }
  by apply Hread.
Qed.

(** ** Lemmas: the lines of the records *)

Lemma gtext_mask m : gtext (mask_ToHex m).
Proof. apply gtext_forall. intros c Hc. by eapply alnum_graphic, mask_hex_alnum. Qed.

Lemma gtext_admin a : gtext (AdminStateName a).
Proof. by destruct a. Qed.

Lemma gtext_profile p : profile_name_ok p -> gtext (profile_text p).
Proof. destruct p as [id|]; [|done]. intros [Hid _]. by apply gtext_id. Qed.

Lemma evidence_gtext {A} (f : A -> string) (ok : A -> Prop) e :
  (forall v, ok v -> gtext (f v)) -> evidence_ok ok e -> gtext (evidence_text f e).
Proof. destruct e; cbn; auto; done. Qed.

Section evidence_lines.
Context (line : string) (values : list string) (fields : list (string * string)) (Hl : record_line line values fields).
Context (key : string) (Hk : gtext key).

(** Adding evidence prints its text under the key. *)
Lemma record_evidence {A} (add : string -> string -> A -> string) (f : A -> string) (ok : A -> Prop) e :
  (forall v, add line key v = Line_AddKeyRaw line key (f v)) -> (forall v, ok v -> gtext (f v)) -> evidence_ok ok e ->
  record_line (add_evidence add line key e) values (fields ++ [(key, evidence_text f e)]).
Proof.
  intros Ha Hf He. pose proof (evidence_gtext f ok e Hf He) as Hg.
  destruct e as [v| |]; cbn [add_evidence evidence_text] in *; [rewrite Ha|..]; by apply record_AddKeyRaw.
Qed.

Lemma record_AddU64Evidence w e :
  evidence_ok (in_width w) e -> record_line (AddU64Evidence line key e) values (fields ++ [(key, evidence_text FormatU64 e)]).
Proof. apply record_evidence; [done|]. intros v Hv. apply gtext_number. unfold in_width in Hv. lia. Qed.

Lemma record_AddU32Evidence w e :
  evidence_ok (in_width w) e -> record_line (AddU32Evidence line key e) values (fields ++ [(key, evidence_text FormatU64 e)]).
Proof. apply record_AddU64Evidence. Qed.

Lemma record_AddMask e : record_line (AddMask line key e) values (fields ++ [(key, evidence_text mask_ToHex e)]).
Proof. apply (record_evidence _ _ (fun _ => True)); [done|intros; apply gtext_mask|by destruct e]. Qed.

Lemma record_AddAdmin e : record_line (AddAdmin line key e) values (fields ++ [(key, evidence_text AdminStateName e)]).
Proof. apply (record_evidence _ _ (fun _ => True)); [done|intros; apply gtext_admin|by destruct e]. Qed.

Lemma record_AddProfileEvidence e :
  evidence_ok profile_name_ok e ->
  record_line (AddProfileEvidence line key e) values (fields ++ [(key, evidence_text profile_text e)]).
Proof. apply record_evidence; [done|apply gtext_profile]. Qed.

Lemma record_AddDoubleEvidence `{Platform, !CharconvLaws} e :
  evidence_ok plain_double e ->
  record_line (AddDoubleEvidence line key e) values (fields ++ [(key, evidence_text double_or_nan e)]).
Proof. apply record_evidence; [done|]. intros v [Hv _]. by apply gtext_double. Qed.
End evidence_lines.

(** Prints a record of a snapshot to the end. *)
Ltac print_snapshot_record :=
  repeat first
    [ apply record_AddDomains; [|done]
    | apply record_AddU64Evidence with (w := 64); [|reflexivity|done]
    | apply record_AddU32Evidence with (w := 32); [|reflexivity|done]
    | apply record_AddDoubleEvidence; [|reflexivity|apply _|done]
    | apply record_AddMask; [|reflexivity]
    | apply record_AddAdmin; [|reflexivity]
    | apply record_AddProfileEvidence; [|reflexivity|done]
    | apply record_AddKeyU64; [|reflexivity|unfold in_width in *; lia]
    | apply record_AddKeyRaw; [|reflexivity|by apply gtext_id]
    | apply record_AddU64; [|unfold in_width in *; lia]
    | apply record_Add
    | apply record_begin; split; [discriminate|reflexivity] ].

Section records.
Context `{Platform, !CharconvLaws}.

Lemma coverage_text c what : read_coverage what (EncodeToken (CoverageName c)) = Value c.
Proof. by destruct c. Qed.

Lemma node_kind_text k : read_node_kind (EncodeToken (NodeKindName k)) = Value k.
Proof. by destruct k. Qed.

Lemma port_role_text r : read_port_role (EncodeToken (PortRoleName r)) = Value r.
Proof. by destruct r. Qed.

Lemma operation_text op : read_operation (EncodeToken (CrossConnectOpName op)) = Value op.
Proof. by destruct op. Qed.

Lemma direction_text (b : bool) : read_direction (EncodeToken (if b then "bidir" else "single")) = Value b.
Proof. by destruct b. Qed.

Lemma source_record_reads s : source_ok s -> reads_as (source_line s) "source" read_source (plain_source s).
Proof.
  intros []. eapply reads_as_intro; [unfold source_line; print_snapshot_record|simpl_record; reflexivity|].
  simpl_record. intros _. unfold read_source. rewrite !EncodeToken_id by done. read_values.
  by rewrite coverage_text.
Qed.

Lemma profile_reads r : profile_ok r -> reads_as (profile_line r) "profile" read_profile r.
Proof.
  intros []. eapply reads_as_intro; [unfold profile_line; print_snapshot_record|simpl_record; reflexivity|].
  simpl_record. intros Hsize. unfold read_profile. rewrite !EncodeToken_id by done. read_fields Hsize. read_values.
  rewrite ParseEvidenceU64_text, ParseEvidenceU32_text, !ParseEvidenceDouble_text by done. by destruct r.
Qed.

(** The fields every other record ends with. *)
Definition trailer (cost : Z) (source : SourceId) (generation : Z) : list (string * string) :=
  [("cost", FormatU64 cost); ("src", str source); ("gen", FormatU64 generation)].

(** Fields of other keys than those of the trailer. *)
Definition no_trailer (fields : list (string * string)) : Prop :=
  forallb (fun e => plain_key (fst e)) fields = true /\
  forallb (fun e => negb (existsb (fun k => String.eqb k (fst e)) ["cost"; "src"; "gen"; "domains"])) fields = true.

Lemma no_trailer_filter fields key :
  no_trailer fields -> In key ["cost"; "src"; "gen"; "domains"] -> List.filter (fun e => String.eqb key (fst e)) fields = [].
Proof.
  intros [_ Hn] Hin. induction fields as [|e fields IH]; [done|]. cbn [forallb] in Hn.
  apply andb_true_iff in Hn as [He Hn]. cbn [List.filter]. destruct (String.eqb key (fst e)) eqn:E; [|by apply IH].
  apply negb_true_iff in He. assert (existsb (fun k => String.eqb k (fst e)) ["cost"; "src"; "gen"; "domains"] = true) as Hx.
  { apply existsb_exists. by exists key. }
  congruence.
Qed.

Lemma read_trailer_at values fields first cost source generation ids :
  first = length values -> no_trailer fields -> in_width 64 cost -> id_ok source -> in_width 64 generation -> domains_ok ids ->
  read_trailer (values ++ map kv ((fields ++ trailer cost source generation) ++ domain_fields ids)) first =
  Value (cost, source, generation, ids).
Proof.
  intros Hfirst Hn Hc Hs Hg Hd. unfold read_trailer. pose proof (proj1 Hn) as Hplain.
  assert (forallb (fun e => plain_key (fst e)) (fields ++ trailer cost source generation) = true) as Hp
    by (by rewrite forallb_app, Hplain).
  assert (forallb (fun e => plain_key (fst e)) ((fields ++ trailer cost source generation) ++ domain_fields ids) = true) as Hp'.
  { rewrite forallb_app, Hp. unfold domain_fields. by destruct ids. }
  assert (forall key v, In key ["cost"; "src"; "gen"] -> kv_get key (trailer cost source generation) = Some v ->
    kv_get key ((fields ++ trailer cost source generation) ++ domain_fields ids) = Some v) as Hget.
  { intros key v Hin. unfold kv_get. rewrite !List.filter_app, (no_trailer_filter fields); [|done|cbn in *; tauto].
    assert (List.filter (fun e => String.eqb key (fst e)) (domain_fields ids) = []) as ->; [|by rewrite app_nil_r].
    unfold domain_fields. destruct ids; [done|]. by destruct Hin as [<-|[<-|[<-|[]]]]. }
  rewrite (raw_field_at (key := "cost") Hfirst eq_refl Hp' ParseU64 (Hget "cost" (FormatU64 cost) ltac:(cbn; auto) eq_refl)), ParseU64_text by done.
  rewrite (raw_field_at (key := "src") Hfirst eq_refl Hp' id_Parse (Hget "src" (str source) ltac:(cbn; auto) eq_refl)), id_Parse_str by done.
  rewrite (raw_field_at (key := "gen") Hfirst eq_refl Hp' ParseU64 (Hget "gen" (FormatU64 generation) ltac:(cbn; auto) eq_refl)), ParseU64_text by done.
  rewrite read_domains_at; [done|done|done| |by intros; apply ParseDomains_text].
  rewrite List.filter_app, (no_trailer_filter fields); [done|done|cbn; tauto].
Qed.

(** The list of domains is no field, or one. *)
Lemma domain_fields_cases ids : domain_fields ids = [] \/ exists v, domain_fields ids = [("domains", v)].
Proof. destruct ids; [by left|right; by eexists]. Qed.

(** Reads the trailer after these values and fields. *)
Ltac read_end values fields Hc Hs Hg Hd :=
  match goal with
  | |- context [read_trailer ?l ?first] =>
      let E := fresh "E" in
      pose proof (read_trailer_at values fields first _ _ _ _ eq_refl (conj eq_refl eq_refl) Hc Hs Hg Hd) as E;
      match type of E with _ = ?r => change (read_trailer l first = r) in E end;
      rewrite E; clear E
  end.

(** Reads the fields before the trailer, whatever the domains are. *)
Ltac read_head ids Hsize :=
  let E := fresh "E" in
  destruct (domain_fields_cases ids) as [E|[? E]]; rewrite E in *; simpl_record; read_fields Hsize; read_values.

Lemma node_reads n : node_ok n -> reads_as (node_line n) "node" read_node n.
Proof.
  intros [Hi Hd Hc Hs Hg]. pose proof (proj1 Hd).
  eapply reads_as_intro; [unfold node_line; print_snapshot_record|cbn [app]; reflexivity|].
  intros Hsize. unfold read_node. rewrite !EncodeToken_id by done.
  read_end ["node"; str (n_id n); EncodeToken (NodeKindName (n_kind n)); EncodeToken (CoverageName (n_coverage n));
            kv ("admin", evidence_text AdminStateName (n_admin n))] (@nil (string * string)) Hc Hs Hg Hd.
  read_head (n_failure_domains n) Hsize; rewrite node_kind_text, coverage_text, ParseEvidenceAdmin_text; by destruct n.
Qed.

Lemma port_reads p : port_ok p -> reads_as (port_line p) "port" read_port p.
Proof.
  intros [[Hn Hp] Ht Hm Hd Hc Hs Hg]. pose proof (proj1 Hd).
  eapply reads_as_intro; [unfold port_line; print_snapshot_record|cbn [app]; reflexivity|].
  intros Hsize. unfold read_port. rewrite !EncodeToken_id by done.
  read_end ["port"; str (node (p_key p)); str (port (p_key p)); EncodeToken (PortRoleName (p_role p))]
    [("admin", evidence_text AdminStateName (p_admin p)); ("tx", evidence_text profile_text (p_transmit_profile p));
     ("slots", evidence_text mask_ToHex (p_blocked_slots p))] Hc Hs Hg Hd.
  read_head (p_failure_domains p) Hsize;
    rewrite port_role_text, ParseEvidenceAdmin_text, ParseEvidenceProfile_text, ParseEvidenceMask_text by done;
    by destruct p as [[]].
Qed.

Lemma span_reads s : span_ok s -> reads_as (span_line s) "span" read_span s.
Proof.
  intros [Hi [Hfn Hfp] [Htn Htp] Hlen Hloss Hosnr Hm Hd Hc Hs Hg]. pose proof (proj1 Hd).
  eapply reads_as_intro; [unfold span_line; print_snapshot_record|cbn [app]; reflexivity|].
  intros Hsize. unfold read_span, read_ends. rewrite !EncodeToken_id by done.
  read_end ["span"; str (s_id s); str (node (s_from s)); str (port (s_from s)); str (node (s_to s)); str (port (s_to s));
            EncodeToken (if s_bidirectional s then "bidir" else "single")]
    [("len", evidence_text FormatU64 (s_length_m s)); ("loss", evidence_text double_or_nan (s_loss_db s));
     ("osnr", evidence_text double_or_nan (s_osnr_db s)); ("slots", evidence_text mask_ToHex (s_blocked_slots s));
     ("admin", evidence_text AdminStateName (s_admin s))] Hc Hs Hg Hd.
  read_head (s_failure_domains s) Hsize;
    rewrite direction_text, ParseEvidenceU64_text, !ParseEvidenceDouble_text, ParseEvidenceMask_text,
      ParseEvidenceAdmin_text by done; by destruct s as [? [] []].
Qed.

Lemma cross_connect_reads x : cross_connect_ok x -> reads_as (cross_connect_line x) "xc" read_cross_connect x.
Proof.
  intros [Hi [Hfn Hfp] [Htn Htp] Hm Hd Hc Hs Hg]. pose proof (proj1 Hd).
  eapply reads_as_intro; [unfold cross_connect_line; print_snapshot_record|cbn [app]; reflexivity|].
  intros Hsize. unfold read_cross_connect, read_ends. rewrite !EncodeToken_id by done.
  read_end ["xc"; str (x_id x); str (node (x_from x)); str (port (x_from x)); str (node (x_to x)); str (port (x_to x));
            EncodeToken (CrossConnectOpName (x_op x))]
    [("slots", evidence_text mask_ToHex (x_blocked_slots x)); ("admin", evidence_text AdminStateName (x_admin x))]
    Hc Hs Hg Hd.
  read_head (x_failure_domains x) Hsize;
    rewrite operation_text, ParseEvidenceMask_text, ParseEvidenceAdmin_text by done; by destruct x as [? [] []].
Qed.


(** ** The two loops *)

(** A line of a record, and the tokens the first loop keeps of it. *)
Definition keeps (line : string) (values : list string) : Prop :=
  prints line values /\ existsb (String.eqb (token values 0)) record_keywords = true.

Lemma keyword_rest values :
  existsb (String.eqb (token values 0)) record_keywords = true ->
  String.eqb (token values 0) "id" = false /\ String.eqb (token values 0) "generation" = false /\
  String.eqb (token values 0) "grid" = false /\ String.eqb (token values 0) "slots" = false.
Proof. by intros (k & Hk & <-%String.eqb_eq)%existsb_exists; repeat destruct Hk as [<-|Hk]. Qed.

Lemma read_kept n id g kind slots lines records kept :
  Forall2 keeps lines records -> Forall line_fits lines -> size kept + size records <= kMaxSnapshotRecords ->
  read_lines (token_step read_snapshot_line) n lines (MkSnapshotReading true id g kind slots kept) =
  Value (MkSnapshotReading true id g kind slots (kept ++ records)).
Proof.
  intros Hk. revert n kept. induction Hk as [|line values lines records [Hp Hw] Hk IH]; intros n kept Hf Hs;
    cbn [read_lines]; [by rewrite app_nil_r|].
  apply Forall_cons in Hf as [Hfl Hf]. rewrite (token_step_prints _ _ _ _ _ Hp) by done. unfold size in *. cbn [length] in Hs.
  unfold read_snapshot_line. cbv zeta. destruct (keyword_rest values Hw) as (-> & -> & -> & ->). rewrite Hw.
  cbn [ss_header_seen ss_id ss_generation ss_grid ss_slots ss_records negb]. unfold size.
  rewrite (proj2 (Z.ltb_ge _ _)) by lia. rewrite IH; [by rewrite <- app_assoc|done|unfold size; rewrite length_app; cbn [length]; lia].
Qed.

Lemma id_ok_named {tag} (id : StrongId tag) : id_ok id -> id_empty id = false.
Proof. unfold id_ok, id_empty. by destruct (str id). Qed.

(** The records of one kind: [state] is the builder by the records of the kind
    it holds. *)
Lemma submit_kind {R} (keyword : string) (print : R -> string) (read : list string -> Expected R)
    (add : SnapshotBuilder -> R -> Status * SnapshotBuilder) (ok : R -> Prop) (norm : R -> R) (maximum : Z)
    (state : list R -> SnapshotBuilder) xs :
  existsb (String.eqb keyword) record_keywords = true ->
  (forall values b, token values 0 = keyword -> submit_record values b = submit (read values) add b) ->
  (forall x, ok x -> reads_as (print x) keyword read (norm x)) ->
  (forall held x, ok x -> size held < maximum -> add (state held) (norm x) = (OkStatus, state (held ++ [norm x]))) ->
  Forall ok xs -> Forall line_fits (map print xs) -> size xs <= maximum ->
  exists records, Forall2 keeps (map print xs) records /\
    forall n rest, submit_records n (records ++ rest) (state []) = submit_records (n + size xs) rest (state (map norm xs)).
Proof.
  intros Hw Hsub Hreads Hadd Hok Hf Hsize.
  assert (exists records, Forall2 keeps (map print xs) records /\ forall n rest held, size held + size xs <= maximum ->
    submit_records n (records ++ rest) (state held) = submit_records (n + size xs) rest (state (held ++ map norm xs)))
    as (records & Hk & Hr).
  { clear Hsize. induction Hok as [|x xs Hx Hxs IH]; cbn [map] in *.
    - exists []. split; [constructor|]. intros n rest held _. rewrite app_nil_r. f_equal. unfold size. cbn. lia.
    - apply Forall_cons in Hf as [Hfx Hf]. destruct (IH Hf) as (records & Hk & Hr).
      destruct (Hreads x Hx) as (values & fields & Hl & Hkey & Hread).
      exists ((values ++ map kv fields) :: records). split.
      + constructor; [|done]. split; [exact Hl|by rewrite Hkey].
      + intros n rest held Hs. unfold size in Hs. cbn [length app submit_records] in *.
        rewrite (Hsub _ _ Hkey), Hread by done. unfold submit. rewrite Hadd by (done || unfold size; lia). cbn [failed OkStatus at_record].
        change (failed OkStatus) with false. cbv iota. cbn [at_record].
        rewrite Hr by (unfold size; rewrite length_app; cbn [length]; lia). rewrite <- app_assoc. cbn [app].
        f_equal. unfold size. cbn [length]. lia. }
  exists records. split; [exact Hk|]. intros n rest. by apply (Hr n rest []).
Qed.

(** Discharges the guards of an [Add]. *)
Ltac adds :=
  let Hx := fresh in let Hs := fresh in
  intros ? ? Hx Hs; destruct Hx;
  unfold AddSource, AddReachProfile, AddNode, AddPort, AddSpan, AddCrossConnect, guarded, add_guards;
  cbn -[kMaxSources kMaxNodes kMaxPorts kMaxSpans kMaxCrossConnects kMaxReachProfiles size];
  rewrite ?id_ok_named by (done || by match goal with Hk : port_key_ok _ |- _ => destruct Hk end);
  rewrite (proj2 (Z.leb_gt _ _)) by done; reflexivity.

(** What is kept of the lines of a snapshot submits its records. *)
Lemma kept_records t :
  snapshot_ok t -> Forall line_fits (record_lines t) ->
  exists records, Forall2 keeps (record_lines t) records /\
    submit_records 1 records (MkBuilder (t_id t) (t_generation t) (t_spectrum t) default_build_options [] [] [] [] [] [] false) =
    Value (builder_of t).
Proof.
  intros [_ _ _ [Hs Ns] [Hr Nr] [Hn Nn] [Hp Np] [Ha Na] [Hx Nx]] Hf. unfold record_lines in *.
  repeat match goal with Hl : Forall line_fits (_ ++ _) |- _ => apply Forall_app in Hl as [? Hl] end.
  set (b := MkBuilder (t_id t) (t_generation t) (t_spectrum t) default_build_options).
  destruct (submit_kind "source" source_line read_source AddSource source_ok plain_source kMaxSources
    (fun l => b l [] [] [] [] [] false) (t_sources t)) as (rs & Ks & Es);
    [done|by unfold submit_record; intros ?? ->|apply source_record_reads|adds|done..|].
  set (sources := map plain_source (t_sources t)) in *.
  destruct (submit_kind "profile" profile_line read_profile AddReachProfile profile_ok (fun r => r) kMaxReachProfiles
    (fun l => b sources [] [] [] [] l false) (t_profiles t)) as (rr & Kr & Er);
    [done|by unfold submit_record; intros ?? ->|apply profile_reads|adds|done..|].
  destruct (submit_kind "node" node_line read_node AddNode node_ok (fun r => r) kMaxNodes
    (fun l => b sources l [] [] [] (t_profiles t) false) (t_nodes t)) as (rn & Kn & En);
    [done|by unfold submit_record; intros ?? ->|apply node_reads|adds|done..|].
  destruct (submit_kind "port" port_line read_port AddPort port_ok (fun r => r) kMaxPorts
    (fun l => b sources (t_nodes t) l [] [] (t_profiles t) false) (t_ports t)) as (rp & Kp & Ep);
    [done|by unfold submit_record; intros ?? ->|apply port_reads|adds|done..|].
  destruct (submit_kind "span" span_line read_span AddSpan span_ok (fun r => r) kMaxSpans
    (fun l => b sources (t_nodes t) (t_ports t) l [] (t_profiles t) false) (t_spans t)) as (ra & Ka & Ea);
    [done|by unfold submit_record; intros ?? ->|apply span_reads|adds|done..|].
  destruct (submit_kind "xc" cross_connect_line read_cross_connect AddCrossConnect cross_connect_ok (fun r => r)
    kMaxCrossConnects (fun l => b sources (t_nodes t) (t_ports t) (t_spans t) l (t_profiles t) false) (t_cross_connects t))
    as (rx & Kx & Ex);
    [done|by unfold submit_record; intros ?? ->|apply cross_connect_reads|adds|done..|].
  exists (rs ++ rr ++ rn ++ rp ++ ra ++ rx). split; [by repeat apply Forall2_app|].
  rewrite Es, Er, !map_id, En, !map_id, Ep, !map_id, Ea, !map_id. rewrite <- (app_nil_r rx), Ex, !map_id. done.
Qed.

Lemma Forall2_same_size {A B} (R : A -> B -> Prop) l l' : Forall2 R l l' -> size l = size l'.
Proof. induction 1 as [|x y l l' _ _ IH]; [done|]. unfold size in *. cbn [length]. lia. Qed.

Lemma record_lines_bounded t : snapshot_ok t -> size (record_lines t) <= kMaxSnapshotRecords.
Proof.
  intros []. unfold record_lines, size, kMaxSnapshotRecords in *. rewrite !length_app, !length_map. lia.
Qed.

Definition header_lines (t : TopologySnapshot) : list string :=
  [kSnapshotMagic +:+ " " +:+ FormatU32 kSnapshotFormatVersion;
   Line_Add (Line_Begin "id") (str (t_id t));
   Line_AddU64 (Line_Begin "generation") (t_generation t);
   Line_Add (Line_Begin "grid") (GridKindName (grid (t_spectrum t)));
   Line_AddU16 (Line_Begin "slots") (slot_count (t_spectrum t))].

Lemma header_lines_print t :
  snapshot_ok t ->
  Forall2 prints (header_lines t)
    [[kSnapshotMagic; "1"]; ["id"; str (t_id t)]; ["generation"; FormatU64 (t_generation t)];
     ["grid"; GridKindName (grid (t_spectrum t))]; ["slots"; FormatU64 (slot_count (t_spectrum t))]].
Proof.
  intros []. unfold header_lines, in_width in *.
  assert (forall w, gword w -> prints (Line_Begin w) [w]) as Hb by (by apply prints_begin).
  repeat apply Forall2_cons_2; try apply Forall2_nil_2.
  - exists kSnapshotMagic, ["1"]. split; [done|]. split; [repeat constructor; by vm_compute|by vm_compute].
  - pose proof (prints_Add _ ["id"] (Hb "id" ltac:(done)) (str (t_id t))) as Hp. by rewrite EncodeToken_id in Hp.
  - apply (prints_AddU64 _ ["generation"]); [by apply Hb|lia].
  - pose proof (prints_Add _ ["grid"] (Hb "grid" ltac:(done)) (GridKindName (grid (t_spectrum t)))) as Hp.
    by destruct (grid (t_spectrum t)).
  - apply (prints_AddU64 _ ["slots"]); [by apply Hb|lia].
Qed.

Lemma once_then_ok {A B} (v : A) (k : A -> B) : once_then OkStatus (Value v) k = Value (k v).
Proof. done. Qed.

Lemma header_reads t n :
  snapshot_ok t -> Forall line_fits (header_lines t) ->
  read_lines (token_step read_snapshot_line) n (header_lines t) start_snapshot_reading =
  Value (MkSnapshotReading true (Some (t_id t)) (Some (t_generation t)) (Some (grid (t_spectrum t)))
    (Some (slot_count (t_spectrum t))) []).
Proof.
  intros Ht Hf. pose proof (header_lines_print t Ht) as Hp. destruct Ht. unfold header_lines in *.
  repeat match goal with Hl : Forall line_fits (_ :: _) |- _ => apply Forall_cons in Hl as [? Hl] end.
  repeat match goal with Hl : Forall2 prints (_ :: _) _ |- _ => apply Forall2_cons in Hl as [? Hl] end.
  cbn [read_lines].
  erewrite token_step_prints by eassumption. unfold start_snapshot_reading.
  change (read_snapshot_line n [kSnapshotMagic; "1"] (MkSnapshotReading false None None None None []))
    with (Value (MkSnapshotReading true None None None None [])). cbv iota.
  erewrite token_step_prints by eassumption. unfold read_snapshot_line at 1, once, token. cbn -[id_Parse].
  rewrite id_Parse_str, once_then_ok by done.
  erewrite token_step_prints by eassumption. unfold read_snapshot_line at 1, once, token. cbn -[ParseU64 FormatU64].
  rewrite ParseU64_text, once_then_ok by done.
  erewrite token_step_prints by eassumption. unfold read_snapshot_line at 1, once, token. cbn -[ParseGridKind GridKindName].
  replace (ParseGridKind (GridKindName (grid (t_spectrum t)))) with (Some (grid (t_spectrum t))) by (by destruct (grid _)).
  rewrite once_then_ok. erewrite token_step_prints by eassumption. unfold read_snapshot_line at 1, once, token. cbn -[ParseU16 FormatU64].
  by rewrite ParseU16_text.
Qed.

Lemma snapshot_lines_printed t : snapshot_ok t -> Forall printed (snapshot_lines t).
Proof.
  intros Ht. change (snapshot_lines t) with (header_lines t ++ record_lines t). apply Forall_app_2.
  - induction (header_lines_print t Ht) as [|line values lines l Hl _ IH]; constructor; [by exists values|done].
  - destruct Ht. unfold record_lines.
    repeat apply Forall_app_2; (eapply printed_map; [|eapply proj1; eassumption]); intros r Hr;
      first [ by eapply printed_reads, source_record_reads | by eapply printed_reads, profile_reads
            | by eapply printed_reads, node_reads | by eapply printed_reads, port_reads
            | by eapply printed_reads, span_reads | by eapply printed_reads, cross_connect_reads ].
Qed.

Context `{Hasher}.

(** What the text of a snapshot reads back as. *)
Lemma snapshot_text_reads t :
  snapshot_ok t -> Forall line_fits (snapshot_lines t) -> string_size (SnapshotToText t) <= kMaxSnapshotTextBytes ->
  ParseSnapshotText (SnapshotToText t) = fst (Build (builder_of t)).
Proof.
  intros Ht Hf Hsize. unfold ParseSnapshotText. rewrite (proj2 (Z.ltb_ge _ _)) by done. unfold read_text_lines, SnapshotToText.
  rewrite text_lines_text by (by apply snapshot_lines_printed).
  change (snapshot_lines t) with (header_lines t ++ record_lines t) in *. apply Forall_app in Hf as [Hh Hr].
  destruct (kept_records t Ht Hr) as (records & Hk & Hs). rewrite read_lines_app, header_reads by done.
  pose proof (record_lines_bounded t Ht) as Hb.
  erewrite read_kept; [|exact Hk|exact Hr|by rewrite <- (Forall2_same_size _ _ _ Hk)].
  unfold finish_snapshot. cbn [ss_header_seen ss_id ss_generation ss_grid ss_slots ss_records negb app]. cbv zeta.
  unfold SetId, SetGeneration, SetSpectrum, new_builder. cbn [b_options b_sources b_nodes b_ports b_spans b_cross_connects b_profiles b_built b_id b_generation b_spectrum].
  replace (MkSpectrum (grid (t_spectrum t)) (slot_count (t_spectrum t))) with (t_spectrum t) by (by destruct (t_spectrum t)).
  by rewrite Hs.
Qed.

Lemma sealed_snapshot_reads b b' t :
  Build b = (Value t, b') -> b_options b = default_build_options ->
  snapshot_ok t -> Forall line_fits (snapshot_lines t) -> string_size (SnapshotToText t) <= kMaxSnapshotTextBytes ->
  ParseSnapshotText (SnapshotToText t) = Value (without_conflicts t).
Proof.
  intros Hb Ho Ht Hf Hs. rewrite snapshot_text_reads by done. unfold Build in *. destruct (b_built b); [done|].
  destruct (build_snapshot b) as [t'|] eqn:E; [|done]. injection Hb as -> _. cbn [builder_of b_built].
  by rewrite (rebuilt b t E Ho).
Qed.
End records.

(** ** Lemmas: what is read is a sealed snapshot *)

Section sealed.
Context `{Platform, Hasher}.

Definition named_records (b : SnapshotBuilder) : Prop :=
  Forall (fun s => str (s_id s) <> "") (b_spans b) /\ Forall (fun x => str (x_id x) <> "") (b_cross_connects b).

Lemma builder_step_named b b' : named_records b -> builder_step b b' -> named_records b'.
Proof.
  intros [Hs Hx] Hb. destruct Hb as [r|r|r|r|r|r|? ?]; unfold named_records.
  1-6: unfold AddSource, AddNode, AddPort, AddSpan, AddCrossConnect, AddReachProfile, guarded, add_guards;
       destruct (b_built b); [done|];
       match goal with |- context [if ?u then Failure _ _ else _] => destruct u eqn:E; [done|] end;
       case_match; cbn; split; try done; apply Forall_app_2; try done; apply Forall_singleton;
       by apply bool_decide_eq_false in E.
  unfold Build. destruct (b_built b); [done|]. by destruct (build_snapshot b).
Qed.

Lemma submit_step {R} (read : Expected R) (add : SnapshotBuilder -> R -> Status * SnapshotBuilder) b b' :
  (forall r, builder_step b (snd (add b r))) -> submit read add b = Value b' -> builder_step b b'.
Proof.
  unfold submit. intros Hadd (r & _ & E)%let_value. specialize (Hadd r). destruct (add b r) as [st b1]. cbn in Hadd.
  destruct (failed st); [done|]. by injection E as <-.
Qed.

Lemma submit_record_step values b b' : submit_record values b = Value b' -> builder_step b b'.
Proof.
  unfold submit_record. cbv zeta.
  repeat match goal with |- context [if ?c then _ else _] => destruct c end; apply submit_step; intros r; constructor.
Qed.

Lemma submit_records_named n records b b' : submit_records n records b = Value b' -> named_records b -> named_records b'.
Proof.
  revert n b; induction records as [|values rest IH]; intros n b; cbn [submit_records]; [by intros [= ->]|].
  intros (b1 & E & Hr)%let_value Hb. apply (IH _ _ Hr). eapply builder_step_named; [exact Hb|].
  apply (submit_record_step values). unfold at_record in E. destruct (submit_record values b); [by injection E as ->|done].
Qed.

Lemma Build_identified b b' t : named_records b -> Build b = (Value t, b') -> identified t.
Proof.
  intros [Hs Hx] [_ Hb]%Build_inv. apply build_snapshot_inv in Hb as (sources & nodes & ports & spans & xs & a & d & Hv & _ & -> & _).
  apply validate_records_keys in Hv as (_ & _ & Es & Ex).
  assert (forall s, In s spans -> str (s_id s) <> "") as Hspans.
  { intros s Hin. apply (in_map s_id) in Hin. rewrite Es in Hin. apply in_map_iff in Hin as (s0 & <- & Hin).
    rewrite List.Forall_forall in Hs. by apply Hs. }
  assert (forall x, In x xs -> str (x_id x) <> "") as Hxs.
  { intros x Hin. apply (in_map x_id) in Hin. rewrite Ex in Hin. apply in_map_iff in Hin as (x0 & <- & Hin).
    rewrite List.Forall_forall in Hx. by apply Hx. }
  unfold identified, assemble, sort_records. cbn [t_spans t_cross_connects].
  pose proof (SortAndDeduplicate_in s_id SpanRecord_eqb (fun s => ForSpan (s_id s)) (by_key (arc_key s_from s_to s_id)) spans) as Hs'.
  pose proof (SortAndDeduplicate_in x_id CrossConnectRecord_eqb (fun x => ForCrossConnect (x_id x))
    (by_key (arc_key x_from x_to x_id)) xs) as Hx'.
  destruct (SortAndDeduplicate n_id _ _ _ nodes), (SortAndDeduplicate p_key _ _ _ ports),
    (SortAndDeduplicate s_id _ _ _ spans), (SortAndDeduplicate x_id _ _ _ xs),
    (SortAndDeduplicate r_id _ _ _ (b_profiles b)). cbn in *. rewrite !List.Forall_forall. auto.
Qed.

Lemma submit_records_options n records b b' : submit_records n records b = Value b' -> b_options b' = b_options b.
Proof.
  revert n b; induction records as [|values rest IH]; intros n b; cbn [submit_records]; [by intros [= ->]|].
  intros (b1 & E & Hr)%let_value. rewrite (IH _ _ Hr).
  assert (builder_step b b1) as Hb.
  { apply (submit_record_step values). unfold at_record in E. destruct (submit_record values b); [by injection E as ->|done]. }
  destruct Hb.
  1-6: unfold AddSource, AddNode, AddPort, AddSpan, AddCrossConnect, AddReachProfile, guarded; by case_match.
  unfold Build. destruct (b_built b); [done|]. by destruct (build_snapshot b).
Qed.

(** What was read was built, by a builder with the default options. *)
Lemma read_snapshot_built text t :
  ParseSnapshotText text = Value t ->
  exists b b', Build b = (Value t, b') /\ b_options b = default_build_options.
Proof.
  unfold ParseSnapshotText. destruct (_ <? _); [done|]. intros (s & _ & E)%let_value. unfold finish_snapshot in E.
  destruct (negb _); [done|]. destruct (ss_id s), (ss_grid s), (ss_slots s); try done. cbv zeta in E.
  apply let_value in E as (b & Hb & E). destruct (Build b) as [e b'] eqn:Hbuild. cbn in E. subst e.
  exists b, b'. split; [done|]. by rewrite (submit_records_options _ _ _ _ Hb).
Qed.

Lemma read_snapshot_sealed text t : ParseSnapshotText text = Value t -> wf_snapshot t /\ identified t.
Proof.
  unfold ParseSnapshotText. destruct (_ <? _); [done|]. intros (s & _ & E)%let_value. unfold finish_snapshot in E.
  destruct (negb _); [done|]. destruct (ss_id s), (ss_grid s), (ss_slots s); try done. cbv zeta in E.
  apply let_value in E as (b & Hb & E). destruct (Build b) as [e b'] eqn:Hbuild. cbn in E. subst e.
  split; [by eapply Build_wf|]. eapply Build_identified; [|exact Hbuild]. apply (submit_records_named _ _ _ _ Hb). by split.
Qed.
End sealed.

(** ** Theorems *)

Section theorems.
Context `{Platform, !CharconvLaws, Hasher}.

(** C19: a snapshot that was read is well formed.  Whatever the text, the snapshot
    it reads as has the shape the search and the planner rely on: strictly
    sorted records, an adjacency that is exactly its arcs, and a name for every
    span and cross-connect. *)
Theorem parsed_snapshot_well_formed (text : string) (t : TopologySnapshot) :
  ParseSnapshotText text = Value t -> wf_snapshot t /\ identified t.
Proof. apply read_snapshot_sealed. Qed.

(** C37: snapshots read back.  The canonical text of a snapshot that a builder
    sealed is read back to the same snapshot: identity, spectrum, records,
    adjacency, unresolved references and digest; what the text does not hold is
    gone, the descriptions of the sources and the conflicts. *)
Theorem snapshot_roundtrip (b b' : SnapshotBuilder) (t : TopologySnapshot) :
  Build b = (Value t, b') -> b_options b = default_build_options ->
  snapshot_ok t -> Forall line_fits (snapshot_lines t) -> string_size (SnapshotToText t) <= kMaxSnapshotTextBytes ->
  ParseSnapshotText (SnapshotToText t) = Value (without_conflicts t).
Proof. apply sealed_snapshot_reads. Qed.

(** A conflict does not survive the text.  A snapshot whose records
    disagreed has incomplete coverage, but when nothing else is missing the
    snapshot read back from its canonical text has no conflict and complete
    coverage, under the same digest. *)
Theorem conflicts_lost_in_text (b b' : SnapshotBuilder) (t : TopologySnapshot) :
  Build b = (Value t, b') -> b_options b = default_build_options ->
  snapshot_ok t -> Forall line_fits (snapshot_lines t) -> string_size (SnapshotToText t) <= kMaxSnapshotTextBytes ->
  t_conflicted t <> [] -> coverage_of (t_sources t) (t_nodes t) (t_unresolved t) [] = true ->
  t_coverage_complete t = false /\
  exists t', ParseSnapshotText (SnapshotToText t) = Value t' /\
    t_conflicted t' = [] /\ t_coverage_complete t' = true /\ t_digest t' = t_digest t.
Proof.
  intros Hb Ho Ht Hf Hs Hc Hcov. split.
  - apply Build_inv in Hb as [_ Hb]. apply build_snapshot_inv in Hb as (? & ? & ? & ? & ? & a & d & _ & _ & -> & _).
    cbn in *. unfold coverage_of. rewrite (bool_decide_eq_false_2 (so_conflicted _ = [])) by done. by rewrite andb_false_r.
  - exists (without_conflicts t). split; [by eapply sealed_snapshot_reads|done].
Qed.
End theorems.

(** ** A snapshot with two accounts of a node *)

Module SampleSnapshot.
#[local] Existing Instance Sample.toy_hasher.

Definition disputed : SnapshotBuilder :=
  Sample.builder [Sample.node_named "B"; Sample.node_named "A";
      MkNode (MkId "A") NodeKind.Terminal [] 9 Coverage.Complete Sample.up Sample.src 3]
    [Sample.port_of "B" "1"; Sample.port_of "A" "1"] [Sample.span_between "s" "A" "1" "B" "1" 5] [].

Definition sample : TopologySnapshot := Sample.snapshot_of disputed.

Lemma sample_built : Build disputed = (Value sample, snd (Build disputed)).
Proof. by vm_compute. Qed.

Lemma sample_snapshot_ok : snapshot_ok sample.
Proof.
  split; [by vm_compute..| | | | | |]; (split; [|by vm_compute]); cbn; repeat constructor; try by vm_compute.
Qed.

Lemma sample_snapshot_fits : Forall line_fits (snapshot_lines sample).
Proof. apply (bool_decide_unpack _). by vm_compute. Qed.
End SampleSnapshot.

Section witnesses.
Existing Instance Sample.toy_hasher.

Lemma snapshot_roundtrip_witness :
  ParseSnapshotText (SnapshotToText SampleSnapshot.sample) = Value (without_conflicts SampleSnapshot.sample) /\
  map n_id (t_nodes SampleSnapshot.sample) = [MkId "A"; MkId "B"].
Proof.
  split; [|by vm_compute].
  apply (snapshot_roundtrip _ _ _ SampleSnapshot.sample_built eq_refl SampleSnapshot.sample_snapshot_ok SampleSnapshot.sample_snapshot_fits).
  by vm_compute.
Defined.

Lemma parsed_snapshot_well_formed_witness :
  expected_ok (ParseSnapshotText (SnapshotToText SampleSnapshot.sample)) = true /\
  identified (without_conflicts SampleSnapshot.sample).
Proof.
  assert (ParseSnapshotText (SnapshotToText SampleSnapshot.sample) = Value (without_conflicts SampleSnapshot.sample)) as E
    by (by vm_compute).
  split; [by rewrite E|]. exact (proj2 (parsed_snapshot_well_formed _ _ E)).
Defined.

Lemma conflicts_lost_in_text_witness :
  t_conflicted SampleSnapshot.sample = [ForNode (MkId "A")] /\ t_coverage_complete SampleSnapshot.sample = false.
Proof.
  split; [by vm_compute|].
  apply (conflicts_lost_in_text _ _ _ SampleSnapshot.sample_built eq_refl SampleSnapshot.sample_snapshot_ok SampleSnapshot.sample_snapshot_fits);
    by vm_compute.
Defined.
End witnesses.
