(* ===== verification/SelfTest.v ===== *)
(** * SelfTest: the checks a deployment runs before it trusts the library

    [src/selftest.cpp]: digests, checked arithmetic, the token and number
    codecs, the rules of the spectrum, and the round trips of a snapshot, a plan
    and a result.  The checks are definitions over the development's own model
    of each component, and the self test is their sequence; it passes with the
    library's SHA-256 and the executable platform. *)

From Stdlib Require Import SpecFloat.
From S2P Require Import Prelude Status Ids Doubles Spectrum Sha256 Canonical Topology SnapshotText Builder Request.
From S2P Require Import Outcome Search Plan Result Planner Lines PlanText ResultText SnapshotRead Synthetic.

Definition integrity (detail : string) : Status := Failure StatusCode.IntegrityFailure detail.

(** [if (condition) return Failure(IntegrityFailure, detail);] *)
Definition reject_if (condition : bool) (detail : string) : Status := if condition then integrity detail else OkStatus.

(** ** The codecs *)

Definition CheckTokenRoundTrip (raw : string) : Status :=
  let encoded := EncodeToken raw in
  if negb (IsSafeToken encoded) then integrity "encoded token is not a safe token"
  else
    match DecodeToken encoded with
    | Error s => s
    | Value decoded =>
        check! reject_if (negb (String.eqb decoded raw)) "token round trip changed the value" ;;
        reject_if (negb (String.eqb (EncodeToken decoded) encoded)) "token encoding is not canonical"
    end.

Definition CheckDoubleRoundTrip `{Platform} (value : double) : Status :=
  match FormatDouble value with
  | Error s => s
  | Value text =>
      match ParseDouble text with
      | Error s => s
      | Value parsed => reject_if (negb (deqb parsed value)) "double round trip changed the value"
      end
  end.

(** ** The rules of the spectrum *)

Definition CheckSpectrumRules : Status :=
  let all := mask_All 16 in
  let first := FirstSlotMask (mask_Reset all 3) 2 in
  let empty := mask_None in
  check! reject_if (negb (mask_Count all =? 16)) "SlotMask::All did not set every slot" ;;
  check! reject_if (mask_Test first 2 || mask_Test first 3 || negb (mask_Test first 1) || negb (mask_Test first 4))
           "FirstSlotMask did not account for a blocked slot" ;;
  check! reject_if (negb (bool_decide (LowestSetBit first = Some 0))) "LowestSetBit did not return the first usable slot" ;;
  check! reject_if (match mask_FromHex (mask_ToHex all) with Value m => negb (bool_decide (m = all)) | Error _ => true end)
           "slot mask hex round trip failed" ;;
  check! reject_if (negb (mask_IsEmpty empty) || negb (bool_decide (LowestSetBit empty = None)))
           "an empty slot mask reported a usable slot" ;;
  reject_if (negb (mask_IsEmpty (FirstSlotMask empty 1))) "an empty slot mask produced channel starts".

(** ** Checked arithmetic *)

Definition CheckCheckedArithmetic : Status :=
  check! reject_if (negb (bool_decide (AddCheckedU64 1 2 = Some 3))) "AddCheckedU64 rejected a representable sum" ;;
  check! reject_if (negb (bool_decide (AddCheckedU64 u64_max 1 = None))) "AddCheckedU64 accepted an overflow" ;;
  check! reject_if (negb (bool_decide (MulCheckedU64 4 5 = Some 20))) "MulCheckedU64 rejected a representable product" ;;
  reject_if (negb (bool_decide (MulCheckedU64 u64_max 2 = None))) "MulCheckedU64 accepted an overflow".

(** ** The networks of the round trips: two nodes, one fibre, one cross-connect *)

Section networks.
Context (generation : Generation) (node_kind : NodeKind.t) (port_role : PortRole.t).

Definition test_source : SourceId := MkId "synthetic".
Definition test_profile : ProfileId := MkId "p1".
Definition test_key (name port_name : string) : PortKey := MkPortKey (MkId name) (MkId port_name).

Definition test_profile_record (minimum_osnr : double) : ReachProfile :=
  MkProfile test_profile (Known 100000) (Known 4) (Known (double_of 20)) (Known minimum_osnr) test_source generation.
Definition test_node (name : string) : NodeRecord :=
  MkNode (MkId name) node_kind [] 0 Coverage.Complete admin_up test_source generation.
Definition test_port (key : PortKey) : PortRecord :=
  MkPort key port_role (Known (Some test_profile)) (Known mask_None) [] 0 admin_up test_source generation.
Definition test_span (loss osnr : double) : SpanRecord :=
  MkSpan (MkId "s1") (test_key "a" "out") (test_key "b" "in") true (Known 1000) (Known loss) (Known osnr)
    (Known mask_None) [] 0 admin_up test_source generation.
Definition test_cross_connect : CrossConnectRecord :=
  MkCrossConnect (MkId "x1") (test_key "a" "in") (test_key "a" "out") CrossConnectOp.Express (Known mask_None) [] 0
    admin_up test_source generation.

(** Both checks feed a builder in the same order of kinds. *)
Definition test_builder (id : string) (snapshot_generation : Generation) (spectrum : SpectrumModel)
  (minimum_osnr loss osnr : double) (keys : list PortKey) : Expected SnapshotBuilder :=
  let b := SetSpectrum (SetGeneration (SetId (new_builder default_build_options) (MkId id)) snapshot_generation) spectrum in
  let! b := added (AddSource b (MkSource test_source generation Coverage.Complete "")) in
  let! b := added (AddReachProfile b (test_profile_record minimum_osnr)) in
  let! b := each (fun name b => added (AddNode b (test_node name))) ["a"; "b"] b in
  let! b := each (fun key b => added (AddPort b (test_port key))) keys b in
  let! b := added (AddSpan b (test_span loss osnr)) in
  added (AddCrossConnect b test_cross_connect).
End networks.

Section checks.
Context `{Platform, Hasher}.

Definition snapshot_network : Expected TopologySnapshot :=
  let! b := test_builder 3 NodeKind.ReconfigurableOadm PortRole.Line "selftest" 7 (MkSpectrum GridKind.Flex12_5GHz 8)
              (ddiv (double_of 25) (double_of 2)) (ddiv (double_of 3) (double_of 2)) (double_of 30)
              [test_key "a" "in"; test_key "a" "out"; test_key "b" "in"; test_key "b" "out"] in
  fst (Build b).

Definition CheckSnapshotRoundTrip : Status :=
  match snapshot_network with
  | Error s => s
  | Value snapshot =>
      let text := SnapshotToText snapshot in
      match ParseSnapshotText text with
      | Error s => s
      | Value reparsed =>
          check! reject_if (negb (digest_eqb (t_digest reparsed) (t_digest snapshot)))
                   "snapshot digest is not stable across a text round trip" ;;
          check! reject_if (negb (String.eqb (SnapshotToText reparsed) text)) "snapshot text encoding is not canonical" ;;
          reject_if (negb (t_coverage_complete snapshot)) "a fully published snapshot was reported as partial coverage"
      end
  end.

Definition plan_network : Expected TopologySnapshot :=
  let! b := test_builder 1 NodeKind.Terminal PortRole.Client "selftest-plan" 1 (MkSpectrum GridKind.Fixed50GHz 4)
              (double_of 10) (double_of 2) (double_of 28)
              [test_key "a" "in"; test_key "b" "in"; test_key "a" "out"; test_key "b" "out"] in
  fst (Build b).

Definition test_request : PlanningRequest := default_request (MkId "selftest") (test_key "a" "in") (test_key "b" "in").

Definition test_result (snapshot : TopologySnapshot) : PlanningResult :=
  Plan default_options snapshot test_request (fun _ _ => false).

Definition CheckPlanRoundTrip : Status :=
  match plan_network with
  | Error s => s
  | Value snapshot =>
      let result := test_result snapshot in
      if negb (bool_decide (rs_outcome result = PlanOutcome.Feasible)) then
        integrity ("self test plan did not succeed: " +:+ PlanOutcomeName (rs_outcome result))
      else
        match rs_candidates result with
        | [] => integrity "" (* [candidates.front()] of nothing: a feasible result has a candidate *)
        | plan :: _ =>
            match ParsePlanArtifact (CanonicalBytes plan) with
            | Error s => s
            | Value reparsed =>
                check! reject_if (negb (digest_eqb (pl_digest reparsed) (pl_digest plan)))
                         "plan digest is not stable across a text round trip" ;;
                match ParseResultText (ResultToText result) with
                | Error s => s
                | Value result_reparsed =>
                    reject_if (negb (digest_eqb (rs_digest result_reparsed) (rs_digest result)))
                      "result digest is not stable across a text round trip"
                end
            end
        end
  end.

(** ** The self test *)

Definition test_tokens : list string :=
  ["plain"; "with space"; of_chars (chars "with" ++ [char_of 9] ++ chars "tab"); "";
   of_chars (chars "unicode-" ++ [char_of 195; char_of 169]); "percent%20"].

Definition test_doubles : list double :=
  [d0; S754_zero true; ddiv (double_of 3) (double_of 2); dopp (ddiv (double_of 49) (double_of 4)); epsilon9;
   double_of 1000000000000; ddiv (double_of 1) (double_of 10);
   ddiv (double_of 314159265358979) (double_of 100000000000000)].

Definition SelfTest : Status :=
  if negb (fst Sha256SelfTest) then integrity (snd Sha256SelfTest)
  else
    check! CheckCheckedArithmetic ;;
    check! for_each CheckTokenRoundTrip test_tokens ;;
    check! for_each CheckDoubleRoundTrip test_doubles ;;
    check! CheckSpectrumRules ;;
    check! CheckSnapshotRoundTrip ;;
    check! CheckPlanRoundTrip ;;
    MkStatus StatusCode.Ok
      "digests, canonical codecs, spectrum rules, snapshot round trip and plan round trip all reproduce".
End checks.

(** ** Theorems *)

Lemma network_checks_pass :
  CheckSnapshotRoundTrip (H := reference_platform) (H0 := SamplePlan.size_hasher) = OkStatus /\
  CheckPlanRoundTrip (H := reference_platform) (H0 := SamplePlan.size_hasher) = OkStatus.
Proof. split; vm_compute; reflexivity. Qed.

(** ** Lemmas: the codecs *)

Lemma upper_hex_raw d : 0 <= d < 16 -> IsRawTokenCharacter (upper_hex d) = true.
Proof.
  intros Hd. assert (forallb (fun d => IsRawTokenCharacter (upper_hex d)) (range 16) = true) as Ha by (by vm_compute).
  rewrite forallb_forall in Ha. by apply Ha, in_range.
Qed.

Lemma EncodeToken_safe raw : string_size (EncodeToken raw) <= kMaxTokenBytes -> IsSafeToken (EncodeToken raw) = true.
Proof.
  intros Hs. unfold IsSafeToken. rewrite bool_decide_eq_false_2 by apply EncodeToken_nonempty.
  rewrite (proj2 (Z.ltb_ge _ _)) by done. cbn [orb]. apply forallb_forall. intros c Hc.
  destruct (decide (raw = "")) as [->|Hne]; [by destruct Hc as [<-|[]]|].
  destruct (EncodeToken_escaped raw Hne) as [[E Hn]|E]; rewrite E in Hc.
  - unfold needs_escaping in Hn. destruct (_ || _); [done|]. apply negb_false_iff in Hn.
    rewrite forallb_forall in Hn. by rewrite Hn.
  - rewrite chars_of_chars in Hc. apply in_concat in Hc as (l & Hl & Hc). apply in_map_iff in Hl as (x & <- & _).
    unfold escape_char in Hc. destruct (IsRawTokenCharacter x) eqn:Ex.
    + destruct Hc as [<-|[]]. by rewrite Ex.
    + assert (forall v, 0 <= Z.land v 15 < 16) as Hd by (intros; apply hex_low_nibble).
      destruct Hc as [<-|[<-|[<-|[]]]]; [done|by rewrite upper_hex_raw..].
Qed.

Lemma deqb_refl v : is_nan v = false -> deqb v v = true.
Proof. intros Hv. unfold deqb, SFeqb. by rewrite SFcompare_key, ltb_irrefl by done. Qed.

(** ** Theorems *)

(** The codec checks hold of every value they could be asked about: a text
    whose encoding fits a token, and on any platform that keeps the laws of
    <charconv> any finite number but the negative zero. *)
Theorem codec_checks_hold `{Platform, !CharconvLaws} :
  (forall raw, string_size raw <= kMaxTokenBytes -> string_size (EncodeToken raw) <= kMaxTokenBytes ->
     CheckTokenRoundTrip raw = OkStatus) /\
  (forall v, plain_double v -> CheckDoubleRoundTrip v = OkStatus) /\
  CheckSpectrumRules = OkStatus /\ CheckCheckedArithmetic = OkStatus.
Proof.
  split; [|split; [|split; [by vm_compute|by vm_compute]]].
  - intros raw Hr He. unfold CheckTokenRoundTrip. rewrite EncodeToken_safe, DecodeToken_EncodeToken by done.
    by rewrite !String.eqb_refl.
  - intros v Hv. pose proof (ParseDouble_text v Hv) as E. destruct Hv as [[Hf _] _].
    unfold CheckDoubleRoundTrip, double_or_nan in *. destruct (FormatDouble v) as [text|s] eqn:Ef.
    + cbn in E. rewrite E. rewrite deqb_refl; [done|]. by destruct v.
    + unfold FormatDouble in Ef. by rewrite Hf in Ef.
Qed.

(** The self test passes.  On the executable platform every check succeeds:
    the published SHA-256 vectors, the checked arithmetic, the codecs, the rules of
    the spectrum, the round trip of a snapshot, and the plan that must exist on
    the small network together with the round trips of its artifact and of its
    result. *)
Theorem SelfTest_passes :
  SelfTest (H := reference_platform) (H0 := SamplePlan.size_hasher) =
  MkStatus StatusCode.Ok
    "digests, canonical codecs, spectrum rules, snapshot round trip and plan round trip all reproduce".
Proof.
  unfold SelfTest. rewrite self_test_passes. destruct network_checks_pass as [-> ->]. vm_compute. reflexivity.
Qed.
