(* ===== verification/Files.v ===== *)
(** * Files: bounded reads and atomic writes

    [src/fileio.cpp] over a model of the disk: the regular files by path, and
    the directories.  A function that writes answers its status and the disk
    operations it performed, in order, so that a crash can be put between any
    two of them or in the middle of a write.  What the operating system decides
    (its error texts, the process identifier, which call of a write fails) is a
    parameter; a file that exists can be read to its end. *)

From S2P Require Import Prelude Status.

(** ** The disk *)

Record Disk := MkDisk { dk_files : gmap string string; dk_dirs : gset string }.

Inductive DiskOp :=
  | Create (path : string)
  | Append (path bytes : string)
  | Remove (path : string)
  | Rename (from to : string)
  | MakeDirectories (path : string).

(** The directories above a path, the path itself last. *)
Definition slash : ascii := char_of 47.

Definition directories_of (path : string) : list string :=
  map of_chars (omap (fun i => let p := firstn i (chars path) in
    if bool_decide (nth_error (chars path) i = Some slash) && negb (bool_decide (p = [])) then Some p else None)
    (seq 0 (String.length path))) ++ [path].

Definition with_files (d : Disk) (f : gmap string string -> gmap string string) : Disk := MkDisk (f (dk_files d)) (dk_dirs d).

Definition apply_op (op : DiskOp) (d : Disk) : Disk :=
  match op with
  | Create path => with_files d <[path := ""]>
  | Append path bytes => with_files d (alter (fun old => old +:+ bytes) path)
  | Remove path => MkDisk (delete path (dk_files d)) (dk_dirs d ∖ {[path]})
  | Rename from to =>
      match dk_files d !! from with
      | Some bytes => with_files d (fun m => <[to := bytes]> (delete from m))
      | None => d
      end
  | MakeDirectories path => MkDisk (dk_files d) (list_to_set (directories_of path) ∪ dk_dirs d)
  end.

Definition apply_ops (ops : list DiskOp) (d : Disk) : Disk := fold_left (fun d op => apply_op op d) ops d.

(** The disks a crash can leave while the operations are performed: those after
    some of them, or after a part of a write. *)
Inductive crashed : list DiskOp -> Disk -> Disk -> Prop :=
  | crash_here ops d : crashed ops d d
  | crash_later op ops d d' : crashed ops (apply_op op d) d' -> crashed (op :: ops) d d'
  | crash_within path bytes n ops d :
      crashed (Append path bytes :: ops) d (apply_op (Append path (of_chars (firstn n (chars bytes)))) d).

(** What reads and changes the disk: a value and the operations performed. *)
Definition IO (A : Type) : Type := Disk -> A * list DiskOp.

Definition io_return {A} (a : A) : IO A := fun _ => (a, []).
Definition io_look {A} (f : Disk -> A) : IO A := fun d => (f d, []).
Definition io_do {A} (e : A * list DiskOp) : IO A := fun _ => e.
Definition io_bind {A B} (m : IO A) (k : A -> IO B) : IO B :=
  fun d => let '(a, ops) := m d in let '(b, ops') := k a (apply_ops ops d) in (b, ops ++ ops').

Notation "x <== m ;; k" := (io_bind m (fun x => k))
  (at level 100, m at next level, right associativity) : opp_scope.

(** ** Paths *)

(** [std::filesystem::path::is_absolute] and [operator/] on a POSIX system. *)
Definition is_absolute (path : string) : bool :=
  match chars path with c :: _ => Ascii.eqb c slash | [] => false end.

Definition ends_with_slash (path : string) : bool :=
  match last (chars path) with Some c => Ascii.eqb c slash | None => true end.

(** A directory's name with the separator. *)
Definition directory_prefix (path : string) : string :=
  if ends_with_slash path then path else path +:+ String slash "".

Definition JoinPath (base leaf : string) : string :=
  if is_absolute leaf then leaf else directory_prefix base +:+ leaf.

Definition HasSuffix (name suffix : string) : bool :=
  (String.length suffix <=? String.length name)%nat &&
  bool_decide (skipn (String.length name - String.length suffix) (chars name) = chars suffix).

(** ** The operating system *)

(** The process identifier is unsigned; [sys_message] is the text of the error of
    a call on a path. *)
Class System := { sys_pid : Z; sys_message : string -> string; sys_pid_unsigned : 0 <= sys_pid }.

(** Which calls of a write fail; [short_write] is how much of it was written. *)
Record WriteFaults := MkFaults {
  cannot_create : bool; short_write : option nat; flush_fails : bool; sync_fails : bool; close_fails : bool;
  rename_fails : bool
}.

Definition no_faults : WriteFaults := MkFaults false None false false false false.

Definition quoted (path : string) : string := "'" +:+ path +:+ "'".

(** ** Reading *)

Definition FileExists (d : Disk) (path : string) : bool := bool_decide (is_Some (dk_files d !! path)).
Definition DirectoryExists (d : Disk) (path : string) : bool := bool_decide (path ∈ dk_dirs d).

(** The name of a file directly inside a directory. *)
Definition strip_prefix (prefix s : string) : option string :=
  if bool_decide (firstn (String.length prefix) (chars s) = chars prefix)
  then Some (of_chars (skipn (String.length prefix) (chars s))) else None.

Definition name_in (directory path : string) : option string :=
  match strip_prefix (directory_prefix directory) path with
  | Some name => if mem_char slash name then None else Some name
  | None => None
  end.

(** The names of the regular files directly inside a directory, sorted. *)
Definition file_names (d : Disk) (path : string) : list string :=
  sort (omap (name_in path) (map fst (map_to_list (dk_files d)))).

Definition ListDirectoryFiles (d : Disk) (path : string) : Expected (list string) :=
  if negb (DirectoryExists d path) then Error (Failure StatusCode.NotFound (quoted path +:+ " is not a directory"))
  else Value (file_names d path).

Definition ListDirectoryBySuffix (d : Disk) (path suffix : string) : Expected (list string) :=
  let! all := ListDirectoryFiles d path in Value (List.filter (fun name => HasSuffix name suffix) all).

Section system.
Context `{System}.

Definition ReadFileBounded (d : Disk) (path : string) (max_bytes : Z) : Expected string :=
  match dk_files d !! path with
  | None => Error (Failure StatusCode.NotFound ("cannot stat " +:+ quoted path +:+ ": " +:+ sys_message path))
  | Some bytes =>
      if max_bytes <? string_size bytes then
        Error (Failure StatusCode.LimitExceeded (quoted path +:+ " is larger than the permitted maximum"))
      else Value bytes
  end.

(** ** Writing *)

Definition TempNameFor (path : string) : string := path +:+ ".tmp-" +:+ to_string sys_pid.

Definition RenameFile (fails : bool) (from to : string) : Status * list DiskOp :=
  if fails then (Failure StatusCode.IoFailure ("cannot rename temporary file into place: " +:+ sys_message to), [])
  else (OkStatus, [Rename from to]).

Definition WriteFileAtomic (faults : WriteFaults) (path bytes : string) : Status * list DiskOp :=
  let temporary := TempNameFor path in
  let failure what done := (Failure StatusCode.IoFailure (what +:+ quoted path), done ++ [Remove temporary]) in
  if cannot_create faults then
    (Failure StatusCode.IoFailure ("cannot create temporary file for " +:+ quoted path), [])
  else
    match (if bool_decide (bytes = "") then None else short_write faults) with
    | Some n =>
        failure "short write to temporary file for " [Create temporary; Append temporary (of_chars (firstn n (chars bytes)))]
    | None =>
        let written := [Create temporary; Append temporary bytes] in
        if flush_fails faults then failure "flush failed for " written
        else if sync_fails faults then failure "device flush failed for " written
        else if close_fails faults then failure "close failed for " written
        else
          let '(renamed, ops) := RenameFile (rename_fails faults) temporary path in (renamed, written ++ ops)
    end.

Definition EnsureDirectory (fails : bool) (path : string) (d : Disk) : Status * list DiskOp :=
  if bool_decide (path = "") then (Failure StatusCode.InvalidArgument "directory path must not be empty", [])
  else if FileExists d path then
    (Failure StatusCode.InvalidArgument (quoted path +:+ " exists and is not a directory"), [])
  else if DirectoryExists d path then (OkStatus, [])
  else if fails then
    (Failure StatusCode.IoFailure ("cannot create directory " +:+ quoted path +:+ ": " +:+ sys_message path), [])
  else (OkStatus, [MakeDirectories path]).

Definition RemoveFile (fails : bool) (path : string) (d : Disk) : Status * list DiskOp :=
  if negb (FileExists d path) && negb (DirectoryExists d path) then (OkStatus, [])
  else if fails then
    (Failure StatusCode.IoFailure ("cannot remove " +:+ quoted path +:+ ": " +:+ sys_message path), [])
  else (OkStatus, [Remove path]).

(** ** Lemmas: names *)

Lemma HasSuffix_spec name suffix : HasSuffix name suffix = true <-> exists stem, name = stem +:+ suffix.
Proof.
  unfold HasSuffix. rewrite andb_true_iff, Nat.leb_le, bool_decide_eq_true. split.
  - intros [_ E]. exists (of_chars (firstn (String.length name - String.length suffix) (chars name))).
    apply (inj chars). by rewrite chars_app, chars_of_chars, <- E, firstn_skipn.
  - intros [stem ->]. pose proof (string_size_app stem suffix) as Hs. unfold string_size in Hs. split; [lia|].
    replace (String.length (stem +:+ suffix) - String.length suffix)%nat with (length (chars stem)).
    + by rewrite chars_app, drop_app_length.
    + pose proof (string_size_chars stem) as Hc. unfold string_size, size in Hc. lia.
Qed.

Lemma strip_prefix_app prefix name : strip_prefix prefix (prefix +:+ name) = Some name.
Proof.
  unfold strip_prefix. assert (String.length prefix = length (chars prefix)) as ->.
  { pose proof (string_size_chars prefix) as Hc. unfold string_size, size in Hc. lia. }
  rewrite chars_app, take_app_length, bool_decide_eq_true_2 by done. by rewrite drop_app_length, of_chars_chars.
Qed.

Lemma strip_prefix_split prefix s name : strip_prefix prefix s = Some name -> s = prefix +:+ name.
Proof.
  unfold strip_prefix. case_bool_decide as E; [|done]. intros [= <-]. apply (inj chars).
  by rewrite chars_app, chars_of_chars, <- E, firstn_skipn.
Qed.

(** A plain name: what is stored directly inside a directory. *)
Definition plain_name (name : string) : Prop := mem_char slash name = false.

Lemma plain_relative name : plain_name name -> is_absolute name = false.
Proof.
  unfold plain_name, mem_char, is_absolute. destruct (chars name) as [|c l]; [done|]. cbn [existsb].
  rewrite orb_false_iff. intros [Hc _]. by rewrite Ascii.eqb_sym.
Qed.

Lemma name_in_join directory path name :
  plain_name name -> name_in directory path = Some name <-> path = JoinPath directory name.
Proof.
  intros Hn. unfold JoinPath. rewrite (plain_relative name Hn). unfold name_in. split.
  - destruct (strip_prefix _ path) as [n|] eqn:E; [|done]. destruct (mem_char slash n); [done|]. intros [= <-].
    by apply strip_prefix_split.
  - intros ->. rewrite strip_prefix_app. by rewrite Hn.
Qed.

Lemma name_in_plain directory path name : name_in directory path = Some name -> plain_name name.
Proof.
  unfold name_in. destruct (strip_prefix _ path) as [n|]; [|done]. destruct (mem_char slash n) eqn:E; [done|]. by intros [= <-].
Qed.

(** A name with no separator, below a directory. *)
Lemma JoinPath_inj directory a b : plain_name a -> plain_name b -> JoinPath directory a = JoinPath directory b -> a = b.
Proof.
  intros Ha Hb E. assert (name_in directory (JoinPath directory a) = Some a) as Ea by (by apply name_in_join).
  assert (name_in directory (JoinPath directory b) = Some b) as Eb by (by apply name_in_join). congruence.
Qed.

Lemma file_names_in d path name :
  In name (file_names d path) <-> plain_name name /\ FileExists d (JoinPath path name) = true.
Proof.
  unfold file_names, sort, FileExists.
  assert (forall l, In name (sort_by ltb l) <-> In name l) as ->.
  { intros l. split; apply Permutation_in; [|symmetry]; apply sort_by_perm. }
  rewrite <- list_elem_of_In, list_elem_of_omap, bool_decide_eq_true. split.
  - intros (full & Hin & Hn). pose proof (name_in_plain _ _ _ Hn) as Hp. split; [done|].
    apply name_in_join in Hn; [|done]. subst. apply list_elem_of_In, in_map_iff in Hin as ([q bytes] & <- & Hin).
    apply list_elem_of_In, elem_of_map_to_list in Hin. by exists bytes.
  - intros [Hp [bytes Hb]]. exists (JoinPath path name). split; [|by apply name_in_join].
    apply list_elem_of_In, in_map_iff. exists (JoinPath path name, bytes). split; [done|].
    by apply list_elem_of_In, elem_of_map_to_list.
Qed.

Lemma file_names_nodup d path : List.NoDup (file_names d path).
Proof.
  unfold file_names, sort. eapply Permutation_NoDup; [symmetry; apply sort_by_perm|]. apply NoDup_ListNoDup.
  assert (forall l : list string, NoDup l -> NoDup (omap (name_in path) l)) as Homap.
  { induction 1 as [|x l Hx Hl IH]; [constructor|]. cbn [omap list_omap]. destruct (name_in path x) as [n|] eqn:Hn; [|done].
    constructor; [|done]. rewrite list_elem_of_omap. intros (y & Hy & Hyn).
    pose proof (name_in_plain _ _ _ Hn) as Hp. apply name_in_join in Hn, Hyn; [|done..]. by subst. }
  apply Homap. apply (NoDup_fst_map_to_list (dk_files d)).
Qed.

(** ** Lemmas: operations and crashes *)

Definition touches (op : DiskOp) (path : string) : Prop :=
  match op with
  | Create p | Append p _ | Remove p => p = path
  | Rename p q => p = path \/ q = path
  | MakeDirectories _ => False
  end.

Lemma apply_op_untouched op d path : ~ touches op path -> dk_files (apply_op op d) !! path = dk_files d !! path.
Proof.
  destruct op as [p|p bytes|p|p q|p]; cbn; intros Ht; [..|done].
  - by rewrite lookup_insert_ne.
  - by rewrite lookup_alter_ne.
  - by rewrite lookup_delete_ne.
  - destruct (dk_files d !! p); [|done]. cbn. rewrite lookup_insert_ne, lookup_delete_ne by tauto. done.
Qed.

Lemma apply_ops_untouched ops d path :
  Forall (fun op => ~ touches op path) ops -> dk_files (apply_ops ops d) !! path = dk_files d !! path.
Proof.
  intros Hops. revert d. induction Hops as [|op ops Hop Hops IH]; intros d; [done|].
  unfold apply_ops in *. cbn [fold_left]. by rewrite IH, apply_op_untouched.
Qed.

Lemma crashed_untouched ops d d' path :
  crashed ops d d' -> Forall (fun op => ~ touches op path) ops -> dk_files d' !! path = dk_files d !! path.
Proof.
  induction 1 as [|op ops d d' _ IH|]; intros Hops; [done|..]; apply Forall_cons in Hops as [Hop Hops].
  - by rewrite IH, apply_op_untouched.
  - by apply apply_op_untouched.
Qed.

Lemma crashed_app a b d d' : crashed (a ++ b) d d' -> crashed a d d' \/ crashed b (apply_ops a d) d'.
Proof.
  revert d; induction a as [|op a IH]; intros d Hc; [by right|]. cbn [app] in Hc.
  inversion Hc as [|? ? ? ? Hc'|]; subst; [left; apply crash_here| |left; apply crash_within].
  destruct (IH _ Hc') as [?|?]; [left; by apply crash_later|by right].
Qed.

Lemma apply_ops_app a b d : apply_ops (a ++ b) d = apply_ops b (apply_ops a d).
Proof. unfold apply_ops. by rewrite fold_left_app. Qed.

(** The operations of a sequence. *)
Lemma io_bind_value {A B} (m : IO A) (k : A -> IO B) d b ops :
  (x <== m ;; k x) d = (b, ops) ->
  exists a ops1 ops2, m d = (a, ops1) /\ k a (apply_ops ops1 d) = (b, ops2) /\ ops = ops1 ++ ops2.
Proof.
  unfold io_bind. destruct (m d) as [a ops1]. destruct (k a (apply_ops ops1 d)) as [b' ops2] eqn:E. intros [= <- <-].
  by exists a, ops1, ops2.
Qed.

(** Making directories leaves the files alone. *)
Lemma made_files ops d d' : Forall (fun op => exists p, op = MakeDirectories p) ops -> crashed ops d d' -> dk_files d' = dk_files d.
Proof.
  intros Hops Hc. induction Hc as [|op ops d d' _ IH|]; [done|..]; apply Forall_cons in Hops as [[p E] Hops].
  - rewrite IH by done. by rewrite E.
  - done.
Qed.

Lemma crashed_end ops d : crashed ops d (apply_ops ops d).
Proof. revert d; induction ops as [|op ops IH]; intros d; [apply crash_here|]. apply crash_later, IH. Qed.

Lemma TempNameFor_other path : TempNameFor path <> path.
Proof. intros E%(f_equal string_size). unfold TempNameFor in E. rewrite !string_size_app in E. change (string_size ".tmp-") with 5 in E. unfold string_size in E. lia. Qed.

(** A temporary name ends with a digit. *)
Lemma TempNameFor_suffix path suffix c :
  last (chars suffix) = Some c -> is_digit c = false -> HasSuffix (TempNameFor path) suffix = false.
Proof.
  intros Hlast Hc. destruct (HasSuffix (TempNameFor path) suffix) eqn:E; [|done].
  apply HasSuffix_spec in E as [stem E]. apply (f_equal (fun s => last (chars s))) in E.
  unfold TempNameFor in E. rewrite !chars_app, !last_app, Hlast in E.
  destruct (last (chars (to_string sys_pid))) as [x|] eqn:Hx.
  - injection E as ->. apply last_Some_elem_of, list_elem_of_In in Hx.
    apply to_string_digits in Hx; [congruence|apply sys_pid_unsigned].
  - apply last_None in Hx. destruct (to_string_nonempty sys_pid). by destruct (to_string sys_pid).
Qed.

(** The operations of a write: some on the temporary file only, then the
    renaming of the finished file when the write succeeds. *)
Lemma WriteFileAtomic_ops faults path bytes st ops :
  WriteFileAtomic faults path bytes = (st, ops) ->
  (failed st = true /\ Forall (fun op => forall q, touches op q -> q = TempNameFor path) ops) \/
  (st = OkStatus /\ ops = [Create (TempNameFor path); Append (TempNameFor path) bytes; Rename (TempNameFor path) path]).
Proof.
  unfold WriteFileAtomic, RenameFile. cbv zeta. intros E.
  destruct (rename_fails faults);
    repeat match type of E with context [match ?e with _ => _ end] => destruct e end; injection E as <- <-;
    first [ by right | left; split; [done|]; cbn [app]; repeat apply Forall_cons_2; try apply Forall_nil_2; cbn; naive_solver ].
Qed.

Lemma renamed_content d temporary path bytes :
  temporary <> path ->
  dk_files (apply_ops [Create temporary; Append temporary bytes; Rename temporary path] d) !! path = Some bytes.
Proof.
  intros Hne. unfold apply_ops. cbn [fold_left apply_op with_files dk_files].
  rewrite lookup_alter_eq, lookup_insert_eq. cbn [fmap option_fmap option_map]. cbn. by rewrite lookup_insert_eq.
Qed.

(** A write that answers OK has written the file; one that fails has left it
    as it was.  A crash at any moment leaves the old content or the new one, and
    touches nothing else but the temporary file. *)
Lemma WriteFileAtomic_crash faults path bytes st ops d d' :
  WriteFileAtomic faults path bytes = (st, ops) -> crashed ops d d' ->
  (dk_files d' !! path = dk_files d !! path \/ (st = OkStatus /\ dk_files d' !! path = Some bytes)) /\
  (forall q, q <> path -> q <> TempNameFor path -> dk_files d' !! q = dk_files d !! q).
Proof.
  intros E%WriteFileAtomic_ops Hc. destruct E as [[Hst Hops]|[-> ->]].
  - assert (forall q, q <> TempNameFor path -> dk_files d' !! q = dk_files d !! q) as Hq.
    { intros q Hq. apply (crashed_untouched _ _ _ _ Hc). eapply Forall_impl; [exact Hops|]. cbn. intros op Hop Ht. by apply Hq, Hop. }
    split; [left; apply Hq, not_eq_sym, TempNameFor_other|by auto].
  - split.
    + apply (crashed_app [_; _] [_]) in Hc as [Hc|Hc].
      * left. apply (crashed_untouched _ _ _ _ Hc). repeat constructor; cbn; apply TempNameFor_other.
      * inversion Hc as [|? ? ? ? Hc'|]; subst.
        -- left. apply apply_ops_untouched. repeat constructor; cbn; apply TempNameFor_other.
        -- right. split; [done|]. inversion Hc'; subst.
           exact (renamed_content d (TempNameFor path) path bytes (TempNameFor_other path)).
    + intros q Hp Ht. apply (crashed_untouched _ _ _ _ Hc). repeat constructor; cbn; naive_solver.
Qed.

Lemma WriteFileAtomic_done faults path bytes st ops d :
  WriteFileAtomic faults path bytes = (st, ops) ->
  dk_files (apply_ops ops d) !! path = (if failed st then dk_files d !! path else Some bytes).
Proof.
  intros E%WriteFileAtomic_ops. destruct E as [[-> Hops]|[-> ->]].
  - apply apply_ops_untouched. eapply Forall_impl; [exact Hops|]. cbn. intros op Hop Ht.
    by apply Hop, eq_sym, TempNameFor_other in Ht.
  - apply renamed_content, TempNameFor_other.
Qed.

Lemma EnsureDirectory_ops fails path d st ops :
  EnsureDirectory fails path d = (st, ops) -> ops = [] \/ ops = [MakeDirectories path].
Proof.
  unfold EnsureDirectory. case_bool_decide; [intros [= <- <-]; by left|].
  destruct (FileExists d path); [intros [= <- <-]; by left|].
  destruct (DirectoryExists d path); [intros [= <- <-]; by left|].
  destruct fails; intros [= <- <-]; [by left|by right].
Qed.

Lemma EnsureDirectory_files fails path d st ops : EnsureDirectory fails path d = (st, ops) -> dk_files (apply_ops ops d) = dk_files d.
Proof. by intros [-> | ->]%EnsureDirectory_ops. Qed.
End system.

(** A machine for the examples. *)
Module SampleSystem.
#[export] Program Instance linux : System := {| sys_pid := 42; sys_message _ := "No such file or directory" |}.
Next Obligation. done. Qed.
End SampleSystem.
