(* ===== verification/Store.v ===== *)
(** * Store: plans kept in files

    [src/store.cpp].  A store file is a header, the canonical bytes of a plan
    and a checksum over both; its name is the digest of the plan.  The state of
    a [PlanStore] is its options, the plans are on the disk of [Files]; every
    operation runs under the store's lock, so the operations are one after the
    other. *)

From S2P Require Import Prelude Status Ids Doubles Spectrum Canonical Plan PlanText Lines Proto Files.

Definition kStoreDirectoryName : string := "plans".
Definition kStoreFileSuffix : string := ".oppplan".
Definition kStoreTempSuffix : string := ".opptmp".
Definition kStoreFileMagic : string := "OPPFILE1".
Definition kStoreFormatVersion : Z := 1.
Definition kMaxStoreFileBytes : Z := 16 * 1024 * 1024.
Definition kHeaderBytes : Z := 8 + 4 + 4 + 8.

Definition FileNameFor (digest : Digest256) : string := Digest_ToHex digest +:+ kStoreFileSuffix.

Record StoreOptions := MkStoreOptions { st_root : string; st_max_plans : Z; st_verify_existing : bool }.

Record StoreEntry := MkStoreEntry { se_digest : Digest256; se_bytes : Z; se_request_id : RequestId; se_file_name : string }.

(** [operator<] of digests: their bytes one after the other. *)
Fixpoint bytes_ltb (a b : list Z) : bool :=
  match a, b with
  | _, [] => false
  | [], _ :: _ => true
  | x :: a', y :: b' => if x <? y then true else if y <? x then false else bytes_ltb a' b'
  end.

Definition entry_less (a b : StoreEntry) : bool := bytes_ltb (digest_bytes (se_digest a)) (digest_bytes (se_digest b)).

(** ** Store files *)

Section files.
Context `{Platform, Hasher}.

(** The header of a file with a payload of that many bytes. *)
Definition store_header (payload_size : Z) : string :=
  let header := Writer_U32 [] kStoreFormatVersion in
  let header := Writer_U32 header 0 in
  let header := Writer_U64 header payload_size in
  kStoreFileMagic +:+ bytes_text header.

Definition EncodeStoreFile (plan : PlanArtifact) : Expected string :=
  let seal := VerifySeal plan in
  if failed seal then Error seal
  else
    let payload := CanonicalBytes plan in
    if kMaxStoreFileBytes <? string_size payload then
      Error (Failure StatusCode.LimitExceeded "plan artifact exceeds the store file bound")
    else
      let bytes := store_header (string_size payload) +:+ payload in
      Value (bytes +:+ bytes_text (digest_bytes (hash_pieces [bytes]))).

(** The length the header declares. *)
Definition read_store_header : Reader Z :=
  version <-- Reader_U32 ;;
  if negb (version =? kStoreFormatVersion)
  then rfail (Failure StatusCode.Unsupported "store file revision is not supported by this runtime")
  else
    reserved <-- Reader_U32 ;;
    if negb (reserved =? 0)
    then rfail (Failure StatusCode.MalformedInput "store file reserved field must be zero")
    else
      length <-- Reader_U64 ;;
      if kMaxStoreFileBytes <? length
      then rfail (Failure StatusCode.LimitExceeded "store file declares a payload larger than the bound")
      else rreturn length.

Definition DecodeStoreFile (bytes : string) : Expected PlanArtifact :=
  if string_size bytes <? kHeaderBytes + 32 then
    Error (Failure StatusCode.Truncated "store file is shorter than its header and checksum")
  else if negb (String.eqb (substr bytes 0 8) kStoreFileMagic) then
    malformed "store file magic is not recognised"
  else
    let! length := read_text read_store_header (substr bytes 8 (kHeaderBytes - 8)) in
    if negb (string_size bytes =? kHeaderBytes + length + 32) then
      Error (Failure StatusCode.Truncated "store file length does not match its declared payload size")
    else
      let payload := substr bytes kHeaderBytes length in
      let trailer := substr bytes (kHeaderBytes + length) 32 in
      let checksum := hash_pieces [substr bytes 0 (kHeaderBytes + length)] in
      if negb (String.eqb (bytes_text (digest_bytes checksum)) trailer) then
        Error (Failure StatusCode.IntegrityFailure "store file checksum does not match its content")
      else ParsePlanArtifact payload.
End files.

(** ** The store *)

Section store.
Context `{Platform, Hasher, System}.

Definition PlansDirectory (o : StoreOptions) : string := JoinPath (st_root o) kStoreDirectoryName.

Definition PathFor (o : StoreOptions) (digest : Digest256) : string := JoinPath (PlansDirectory o) (FileNameFor digest).

(** [fails] tells which removals fail; what they answer is not looked at. *)
Definition CleanTemporaries (fails : string -> bool) (o : StoreOptions) (d : Disk) : list DiskOp :=
  match ListDirectoryFiles d (PlansDirectory o) with
  | Error _ => []
  | Value names =>
      concat (map (fun name =>
        if negb (HasSuffix name ".tmp") && negb (HasSuffix name kStoreTempSuffix) then []
        else snd (RemoveFile (fails name) (JoinPath (PlansDirectory o) name) d)) names)
  end.

(** [mkdir_fails] tells which directories cannot be made. *)
Definition Open (mkdir_fails remove_fails : string -> bool) (o : StoreOptions) : IO Status :=
  if bool_decide (st_root o = "") then io_return (Failure StatusCode.InvalidArgument "store root must not be empty")
  else if (st_max_plans o =? 0) || (kMaxStoredPlans <? st_max_plans o) then
    io_return (Failure StatusCode.InvalidArgument "store max_plans is outside the supported range")
  else
    st <== EnsureDirectory (mkdir_fails (st_root o)) (st_root o) ;;
    if failed st then io_return st
    else
      st <== EnsureDirectory (mkdir_fails (PlansDirectory o)) (PlansDirectory o) ;;
      if failed st then io_return st
      else fun d => (OkStatus, CleanTemporaries remove_fails o d).

Definition Scan (o : StoreOptions) (d : Disk) : Expected (list string) :=
  ListDirectoryBySuffix d (PlansDirectory o) kStoreFileSuffix.

Definition Load (d : Disk) (path : string) : Expected PlanArtifact :=
  let! bytes := ReadFileBounded d path kMaxStoreFileBytes in DecodeStoreFile bytes.

Definition Put (faults : WriteFaults) (o : StoreOptions) (plan : PlanArtifact) (d : Disk) : Status * list DiskOp :=
  match EncodeStoreFile plan with
  | Error s => (s, [])
  | Value encoded =>
      let path := PathFor o (pl_digest plan) in
      if FileExists d path then
        if negb (st_verify_existing o) then
          (Failure StatusCode.Refused "an artifact with this digest already exists in the store", [])
        else
          match ReadFileBounded d path kMaxStoreFileBytes with
          | Error s => (s, [])
          | Value existing =>
              if negb (String.eqb existing encoded) then
                (Failure StatusCode.IntegrityFailure
                   "an artifact with this digest exists in the store but its content differs", [])
              else (OkStatus, [])
          end
      else
        match Scan o d with
        | Error s => (s, [])
        | Value names =>
            if st_max_plans o <=? size names then
              (Failure StatusCode.Exhausted "the plan store has reached its configured capacity", [])
            else WriteFileAtomic faults path encoded
        end
  end.

Definition not_stored (digest : Digest256) : Status :=
  Failure StatusCode.NotFound ("no stored artifact has digest " +:+ Digest_ToHex digest).

Definition Get (o : StoreOptions) (d : Disk) (digest : Digest256) : Expected PlanArtifact :=
  let path := PathFor o digest in
  if negb (FileExists d path) then Error (not_stored digest)
  else
    let! plan := Load d path in
    if negb (digest_eqb (pl_digest plan) digest) then
      Error (Failure StatusCode.IntegrityFailure "stored artifact content does not match the digest in its file name")
    else Value plan.

Definition GetByHex (o : StoreOptions) (d : Disk) (hex : string) : Expected PlanArtifact :=
  let! digest := Digest_FromHex hex in Get o d digest.

Definition Contains (o : StoreOptions) (d : Disk) (digest : Digest256) : bool := FileExists d (PathFor o digest).

(** One turn of the loop of [List]: an entry, or a rejected name. *)
Definition list_file (o : StoreOptions) (d : Disk) (name : string) : StoreEntry + string :=
  let path := JoinPath (PlansDirectory o) name in
  match Load d path with
  | Error _ => inr name
  | Value plan =>
      if negb (String.eqb name (FileNameFor (pl_digest plan))) then inr name
      else
        let bytes := match ReadFileBounded d path kMaxStoreFileBytes with Value b => string_size b | Error _ => 0 end in
        inl (MkStoreEntry (pl_digest plan) bytes (pl_request_id plan) name)
  end.

Definition List (o : StoreOptions) (d : Disk) : Expected (list StoreEntry * list string) :=
  let! names := Scan o d in
  let files := map (list_file o d) names in
  Value (sort_by entry_less (omap (fun f => match f with inl e => Some e | inr _ => None end) files),
         omap (fun f => match f with inl _ => None | inr n => Some n end) files).

Definition Store_Remove (fails : bool) (o : StoreOptions) (digest : Digest256) (d : Disk) : Status * list DiskOp :=
  let path := PathFor o digest in
  if negb (FileExists d path) then (not_stored digest, []) else RemoveFile fails path d.

Definition Count (o : StoreOptions) (d : Disk) : Z :=
  match Scan o d with Error _ => 0 | Value names => wrap32 (size names) end.
End store.

(** ** Lemmas: store files *)

Section file_lemmas.
Context `{Platform, Hasher, !WideHasher}.

Definition store_fields (n : Z) : list Z := le_bytes 4 kStoreFormatVersion ++ le_bytes 4 0 ++ le_bytes 8 n.

(** The file that holds a payload. *)
Definition store_file (payload : string) : string :=
  let body := store_header (string_size payload) +:+ payload in body +:+ trailer_of body.

Lemma store_header_fields n : store_header n = kStoreFileMagic +:+ bytes_text (store_fields n).
Proof. unfold store_header, Writer_U32, Writer_U64, store_fields. cbv zeta. by rewrite <- !app_assoc. Qed.

Lemma store_fields_width n : Forall (in_width 8) (store_fields n).
Proof. unfold store_fields. rewrite !Forall_app. repeat split; apply le_bytes_width. Qed.

Lemma store_fields_size n : string_size (bytes_text (store_fields n)) = 16.
Proof.
  rewrite <- string_bytes_size, string_bytes_text by apply store_fields_width. unfold store_fields, size.
  by rewrite !length_app, !le_bytes_length.
Qed.

Lemma store_header_size n : string_size (store_header n) = kHeaderBytes.
Proof. rewrite store_header_fields, string_size_app, store_fields_size. done. Qed.

Lemma read_store_header_exact h n :
  string_size h = 16 ->
  read_text read_store_header h = Value n <-> h = bytes_text (store_fields n) /\ 0 <= n <= kMaxStoreFileBytes.
Proof.
  intros Hh. rewrite read_text_at. split.
  - intros E. destruct (read_store_header _) as [e r] eqn:Hr; cbn [fst] in E; subst e. rewrite app_nil_r in Hr.
    unfold read_store_header in Hr.
    apply codec_bind_exact in Hr as (v & l1 & Hv & E & Hl1 & Hr); [|apply string_bytes_width].
    destruct (Z.eqb_spec v kStoreFormatVersion) as [->|]; [|done]. cbn [negb] in Hr.
    apply codec_bind_exact in Hr as (z & l2 & Hz & -> & Hl2 & Hr); [|done].
    destruct (Z.eqb_spec z 0) as [->|]; [|done]. cbn [negb] in Hr.
    apply codec_bind_exact in Hr as (m & l3 & Hm & -> & Hl3 & Hr); [|done].
    destruct (Z.ltb_spec kMaxStoreFileBytes m); [done|]. injection Hr as -> _.
    rewrite <- string_bytes_size, E in Hh. unfold size in Hh. rewrite !length_app, !le_bytes_length in Hh.
    assert (l3 = []) as -> by (destruct l3; [done|cbn in Hh; lia]). rewrite app_nil_r in E.
    split; [|unfold in_width in Hm; lia]. by rewrite <- (bytes_text_string h), E.
  - intros [-> Hn]. rewrite string_bytes_text by apply store_fields_width. unfold store_fields. rewrite <- !app_assoc.
    unfold read_store_header. rewrite codec_bind_reads by done. rewrite Z.eqb_refl. cbn [negb].
    rewrite codec_bind_reads by done. cbn [Z.eqb negb].
    rewrite codec_bind_reads by (unfold in_width, kMaxStoreFileBytes in *; lia).
    by rewrite (proj2 (Z.ltb_ge _ _)) by lia.
Qed.

(** What [DecodeStoreFile] makes of a magic number, a header and a body. *)
Lemma DecodeStoreFile_parts fields rest :
  string_size fields = 16 -> 32 <= string_size rest ->
  DecodeStoreFile (kStoreFileMagic +:+ (fields +:+ rest)) =
  (let! length := read_text read_store_header fields in
   if negb (string_size rest =? length + 32) then
     Error (Failure StatusCode.Truncated "store file length does not match its declared payload size")
   else
     let head := kStoreFileMagic +:+ fields in
     let payload := substr (head +:+ rest) kHeaderBytes length in
     let checksum := hash_pieces [substr (head +:+ rest) 0 (kHeaderBytes + length)] in
     if negb (String.eqb (bytes_text (digest_bytes checksum)) (substr (head +:+ rest) (kHeaderBytes + length) 32)) then
       Error (Failure StatusCode.IntegrityFailure "store file checksum does not match its content")
     else ParsePlanArtifact payload).
Proof.
  intros Hf Hr. unfold DecodeStoreFile.
  assert (string_size (kStoreFileMagic +:+ (fields +:+ rest)) = kHeaderBytes + string_size rest) as Hs.
  { rewrite !string_size_app, Hf. unfold kHeaderBytes. change (string_size kStoreFileMagic) with 8. lia. }
  rewrite Hs. rewrite (proj2 (Z.ltb_ge _ _)) by lia.
  change 8 with (string_size kStoreFileMagic) at 1. rewrite substr_front, String.eqb_refl. cbn [negb].
  replace (substr (kStoreFileMagic +:+ (fields +:+ rest)) 8 (kHeaderBytes - 8)) with fields.
  2:{ change 8 with (string_size kStoreFileMagic) at 1. replace (kHeaderBytes - 8) with (string_size fields) by done.
      by rewrite substr_middle. }
  destruct (read_text read_store_header fields) as [n|]; [|done]. rewrite string_app_assoc.
  replace (kHeaderBytes + string_size rest =? kHeaderBytes + n + 32) with (string_size rest =? n + 32); [done|].
  destruct (Z.eqb_spec (string_size rest) (n + 32)), (Z.eqb_spec (kHeaderBytes + string_size rest) (kHeaderBytes + n + 32));
    done || lia.
Qed.

Lemma DecodeStoreFile_file payload :
  string_size payload <= kMaxStoreFileBytes -> DecodeStoreFile (store_file payload) = ParsePlanArtifact payload.
Proof.
  intros Hp. assert (0 <= string_size payload) as Hpos by (unfold string_size; lia).
  unfold store_file. cbv zeta. set (body := store_header (string_size payload) +:+ payload).
  assert (body +:+ trailer_of body =
    kStoreFileMagic +:+ (bytes_text (store_fields (string_size payload)) +:+ (payload +:+ trailer_of body))) as ->.
  { unfold body at 1. by rewrite store_header_fields, <- !string_app_assoc. }
  pose proof (trailer_size body) as Ht.
  rewrite DecodeStoreFile_parts; [|apply store_fields_size|rewrite string_size_app, Ht; lia].
  rewrite (proj2 (read_store_header_exact _ (string_size payload) (store_fields_size _))) by done.
  rewrite string_size_app, Ht, Z.eqb_refl. cbn [negb]. cbv zeta.
  rewrite <- store_header_fields.
  assert (string_size body = kHeaderBytes + string_size payload) as Hb.
  { unfold body. by rewrite string_size_app, store_header_size. }
  rewrite (string_app_assoc (store_header _)). fold body. rewrite <- Hb, substr_front.
  rewrite <- (string_app_nil (body +:+ trailer_of body)), <- string_app_assoc, <- Ht, substr_middle.
  fold (trailer_of body). rewrite String.eqb_refl. cbn [negb].
  unfold body. rewrite <- (store_header_size (string_size payload)), <- string_app_assoc. by rewrite substr_middle.
Qed.

(** A file is decoded only when it is the file of its payload. *)
Lemma DecodeStoreFile_exact bytes p :
  DecodeStoreFile bytes = Value p ->
  exists payload, string_size payload <= kMaxStoreFileBytes /\ bytes = store_file payload /\ ParsePlanArtifact payload = Value p.
Proof.
  intros Hd. destruct (Z.ltb_spec (string_size bytes) (kHeaderBytes + 32)) as [Hs|Hs].
  { unfold DecodeStoreFile in Hd. by rewrite (proj2 (Z.ltb_lt _ _)) in Hd. }
  unfold kHeaderBytes in Hs. destruct (string_cut bytes 8) as (magic & t & -> & Hm); [lia|]. rewrite string_size_app in Hs.
  destruct (string_cut t 16) as (fields & rest & -> & Hf); [lia|]. rewrite string_size_app in Hs.
  assert (magic = kStoreFileMagic) as ->.
  { unfold DecodeStoreFile in Hd. rewrite (proj2 (Z.ltb_ge _ _)) in Hd by (rewrite !string_size_app; unfold kHeaderBytes; lia).
    rewrite <- Hm, substr_front in Hd. by destruct (String.eqb_spec magic kStoreFileMagic). }
  rewrite DecodeStoreFile_parts in Hd by (done || lia).
  destruct (read_text read_store_header fields) as [n|] eqn:Hn; [|done].
  apply read_store_header_exact in Hn as [-> Hn]; [|done].
  destruct (Z.eqb_spec (string_size rest) (n + 32)) as [Hr|]; [|done]. cbn [negb] in Hd. cbv zeta in Hd.
  destruct (string_cut rest n) as (payload & trailer & -> & <-); [lia|]. rewrite string_size_app in Hr.
  assert (string_size trailer = 32) as Ht by lia. rewrite <- store_header_fields in Hd.
  assert (string_size (store_header (string_size payload) +:+ payload) = kHeaderBytes + string_size payload) as Hb
    by (by rewrite string_size_app, store_header_size).
  set (body := store_header (string_size payload) +:+ payload) in *.
  rewrite (string_app_assoc (store_header _)) in Hd. fold body in Hd. rewrite <- Hb, substr_front in Hd.
  rewrite <- (string_app_nil (body +:+ trailer)), <- string_app_assoc, <- Ht, substr_middle in Hd.
  fold (trailer_of body) in Hd. destruct (String.eqb_spec (trailer_of body) trailer) as [<-|]; [|done]. cbn [negb] in Hd.
  unfold body in Hd. rewrite <- (store_header_size (string_size payload)), <- string_app_assoc, substr_middle in Hd.
  exists payload. split; [lia|]. split; [|done]. rewrite string_app_assoc, <- store_header_fields.
  by rewrite string_app_assoc.
Qed.

Lemma EncodeStoreFile_file p :
  failed (VerifySeal p) = false -> string_size (CanonicalBytes p) <= kMaxStoreFileBytes ->
  EncodeStoreFile p = Value (store_file (CanonicalBytes p)).
Proof.
  intros Hs Hb. unfold EncodeStoreFile. rewrite Hs. cbv zeta. by rewrite (proj2 (Z.ltb_ge _ _)).
Qed.

Lemma EncodeStoreFile_value p bytes :
  EncodeStoreFile p = Value bytes ->
  failed (VerifySeal p) = false /\ string_size (CanonicalBytes p) <= kMaxStoreFileBytes /\ bytes = store_file (CanonicalBytes p).
Proof.
  unfold EncodeStoreFile. destruct (failed (VerifySeal p)); [done|]. cbv zeta.
  destruct (Z.ltb_spec kMaxStoreFileBytes (string_size (CanonicalBytes p))); [done|]. by intros [= <-].
Qed.
End file_lemmas.

(** ** Lemmas: names and paths *)

Lemma FileNameFor_plain d : plain_name (FileNameFor d).
Proof.
  unfold plain_name, mem_char, FileNameFor. rewrite chars_app, existsb_app. apply orb_false_iff. split; [|done].
  destruct (existsb _ _) eqn:E; [|done]. apply existsb_exists in E as (c & Hc & Hs). apply hex_alnum in Hc.
  apply Ascii.eqb_eq in Hs. by subst.
Qed.

Lemma FileNameFor_inj a b : digest_ok a -> digest_ok b -> FileNameFor a = FileNameFor b -> a = b.
Proof.
  unfold FileNameFor. intros Ha Hb E%(f_equal chars). rewrite !chars_app in E. apply app_inv_tail, (inj chars) in E.
  apply FromHexImpl_ToHexImpl in Ha, Hb. unfold Digest_ToHex in E. rewrite E in Ha. rewrite Ha in Hb.
  destruct a, b; cbn in *. congruence.
Qed.

Lemma FileNameFor_suffix d : HasSuffix (FileNameFor d) kStoreFileSuffix = true.
Proof. apply HasSuffix_spec. by eexists. Qed.

Section store_lemmas.
Context `{Platform, !CharconvLaws, Hasher, !WideHasher, System}.

Lemma PathFor_inj o a b : digest_ok a -> digest_ok b -> PathFor o a = PathFor o b -> a = b.
Proof. intros Ha Hb E. apply FileNameFor_inj; [done..|]. eapply JoinPath_inj; [apply FileNameFor_plain..|exact E]. Qed.

Lemma JoinPath_suffix base leaf suffix :
  plain_name leaf -> HasSuffix leaf suffix = true -> HasSuffix (JoinPath base leaf) suffix = true.
Proof.
  intros Hp [stem ->]%HasSuffix_spec. unfold JoinPath. rewrite plain_relative by done. apply HasSuffix_spec.
  exists (directory_prefix base +:+ stem). by rewrite string_app_assoc.
Qed.

(** No file of the store is a temporary file of a write. *)
Lemma PathFor_temp o d path : PathFor o d <> TempNameFor path.
Proof.
  intros E. assert (HasSuffix (TempNameFor path) kStoreFileSuffix = true) as Hs.
  { rewrite <- E. apply JoinPath_suffix; [apply FileNameFor_plain|apply FileNameFor_suffix]. }
  by rewrite (TempNameFor_suffix path kStoreFileSuffix "n"%char) in Hs.
Qed.

(** ** Lemmas: the operations *)

(** What [Get] looks at. *)
Lemma Get_frame o d d' g : dk_files d' !! PathFor o g = dk_files d !! PathFor o g -> Get o d' g = Get o d g.
Proof. intros E. unfold Get, FileExists, Load, ReadFileBounded. by rewrite E. Qed.

Lemma Get_stored o d p :
  candidate_ok p -> string_size (store_file (CanonicalBytes p)) <= kMaxStoreFileBytes ->
  dk_files d !! PathFor o (pl_digest p) = Some (store_file (CanonicalBytes p)) -> Get o d (pl_digest p) = Value p.
Proof.
  intros Hp Hs Hf. unfold Get, FileExists, Load, ReadFileBounded. rewrite Hf, bool_decide_eq_true_2 by done. cbn [negb].
  rewrite (proj2 (Z.ltb_ge _ _)) by done. rewrite DecodeStoreFile_file, candidate_reads; [|done|].
  - unfold digest_eqb. by rewrite bool_decide_eq_true_2.
  - destruct Hp. unfold kMaxPlanArtifactBytes, kMaxStoreFileBytes in *. lia.
Qed.

Lemma store_file_size payload : string_size (store_file payload) = kHeaderBytes + string_size payload + 32.
Proof. unfold store_file. cbv zeta. by rewrite !string_size_app, store_header_size, trailer_size. Qed.

Lemma candidate_file_fits p : candidate_ok p -> string_size (store_file (CanonicalBytes p)) <= kMaxStoreFileBytes.
Proof.
  intros []. rewrite store_file_size. unfold kMaxPlanArtifactBytes, kMaxStoreFileBytes, kHeaderBytes in *. lia.
Qed.

Lemma candidate_encodes p : candidate_ok p -> EncodeStoreFile p = Value (store_file (CanonicalBytes p)).
Proof.
  intros []. apply EncodeStoreFile_file; [done|]. unfold kMaxPlanArtifactBytes, kMaxStoreFileBytes in *. lia.
Qed.

(** A [Put] either performs no operation, or is the write of the encoded plan
    to a path that holds no file. *)
Lemma Put_cases faults o p d st ops :
  Put faults o p d = (st, ops) ->
  (ops = [] /\ (failed st = false -> exists bytes, EncodeStoreFile p = Value bytes /\ dk_files d !! PathFor o (pl_digest p) = Some bytes)) \/
  (exists bytes names, EncodeStoreFile p = Value bytes /\ dk_files d !! PathFor o (pl_digest p) = None /\
     Scan o d = Value names /\ size names < st_max_plans o /\ WriteFileAtomic faults (PathFor o (pl_digest p)) bytes = (st, ops)).
Proof.
  unfold Put, FileExists, ReadFileBounded. destruct (EncodeStoreFile p) as [bytes|s] eqn:He.
  2:{ intros [= <- <-]. left. split; [done|]. intros Hf. unfold EncodeStoreFile in He. exfalso.
      destruct (failed (VerifySeal p)) eqn:Hv; [injection He as <-; by rewrite Hf in Hv|].
      cbv zeta in He. destruct (_ <? _); [|done]. by injection He as <-. }
  cbv zeta. destruct (dk_files d !! PathFor o (pl_digest p)) as [old|] eqn:Hf.
  - rewrite bool_decide_eq_true_2 by done. intros Hput. left.
    destruct (negb (st_verify_existing o)); [by injection Hput as <- <-|].
    destruct (_ <? _); [by injection Hput as <- <-|].
    destruct (String.eqb_spec old bytes) as [->|]; cbn [negb] in *; [|by injection Hput as <- <-].
    injection Hput as <- <-. split; [done|]. by exists bytes.
  - rewrite bool_decide_eq_false_2 by (intros [? ?]; done). destruct (Scan o d) as [names|s] eqn:Hs.
    + destruct (Z.leb_spec (st_max_plans o) (size names)); [intros [= <- <-]; by left|]. intros Hw. right. by exists bytes, names.
    + intros [= <- <-]. left. split; [done|]. intros Hok. exfalso. revert Hs. unfold Scan, ListDirectoryBySuffix, ListDirectoryFiles.
      destruct (negb _); [|done]. by intros [= <-].
Qed.
(** What the disk holds for a stored plan after a [Put], or after a crash in it. *)
Lemma Put_crashed faults o p d st ops d' :
  candidate_ok p -> Put faults o p d = (st, ops) -> crashed ops d d' ->
  (forall q, q <> PathFor o (pl_digest p) -> q <> TempNameFor (PathFor o (pl_digest p)) -> dk_files d' !! q = dk_files d !! q) /\
  (dk_files d' !! PathFor o (pl_digest p) = dk_files d !! PathFor o (pl_digest p) \/
   (failed st = false /\ dk_files d' !! PathFor o (pl_digest p) = Some (store_file (CanonicalBytes p)))).
Proof.
  intros Hp Hput Hc. apply Put_cases in Hput as [[-> _]|(bytes & names & He & _ & _ & _ & Hw)].
  - inversion Hc; subst. split; [done|by left].
  - rewrite candidate_encodes in He by done. injection He as <-.
    destruct (WriteFileAtomic_crash _ _ _ _ _ _ _ Hw Hc) as [[?|[-> ?]] Hq]; (split; [exact Hq|]); [by left|by right].
Qed.

Lemma Get_crashed faults o p d st ops d' g :
  candidate_ok p -> digest_ok g -> Put faults o p d = (st, ops) -> crashed ops d d' ->
  Get o d' g = Get o d g \/ (failed st = false /\ g = pl_digest p /\ Get o d' g = Value p).
Proof.
  intros Hp Hg Hput Hc. destruct (Put_crashed _ _ _ _ _ _ _ Hp Hput Hc) as [Hq Hpath].
  destruct (decide (g = pl_digest p)) as [->|Hne].
  - destruct Hpath as [E|[Hst E]]; [left; by apply Get_frame|]. right. split_and!; [done..|].
    by apply Get_stored; [|apply candidate_file_fits|].
  - left. apply Get_frame, Hq; [|apply PathFor_temp]. intros E. apply Hne. eapply PathFor_inj; [done|exact (ok_digest _ (ca_plan _ Hp))|exact E].
Qed.

Lemma Get_put faults o p d st ops :
  candidate_ok p -> Put faults o p d = (st, ops) -> failed st = false -> Get o (apply_ops ops d) (pl_digest p) = Value p.
Proof.
  intros Hp Hput Hst. apply Get_stored; [done|by apply candidate_file_fits|].
  apply Put_cases in Hput as [[-> Hold]|(bytes & names & He & _ & _ & _ & Hw)].
  - destruct (Hold Hst) as (bytes & He & Hf). rewrite candidate_encodes in He by done. by injection He as <-.
  - rewrite candidate_encodes in He by done. injection He as <-.
    apply WriteFileAtomic_done with (d := d) in Hw. by rewrite Hst in Hw.
Qed.
End store_lemmas.

(** ** Lemmas: the order of digests *)

#[export] Program Instance bytes_ordered : Ordered (list Z) := {| ltb := bytes_ltb |}.
Next Obligation. induction a as [|x a IH]; [done|]. cbn. by rewrite Z.ltb_irrefl. Qed.
Next Obligation.
  induction a as [|x a IH]; intros [|y b] [|z c]; cbn; try done.
  destruct (Z.ltb_spec x y), (Z.ltb_spec y x), (Z.ltb_spec y z), (Z.ltb_spec z y), (Z.ltb_spec x z), (Z.ltb_spec z x);
    try lia; try done. apply IH.
Qed.
Next Obligation.
  induction a as [|x a IH]; intros [|y b]; cbn; try done.
  destruct (Z.ltb_spec x y), (Z.ltb_spec y x); try done. intros Ha Hb. f_equal; [lia|by apply IH].
Qed.

(** ** Lemmas: listing *)

Section listing.
Context `{Platform, !CharconvLaws, Hasher, !WideHasher, System}.

Definition store_names (o : StoreOptions) (d : Disk) : list string :=
  List.filter (fun name => HasSuffix name kStoreFileSuffix) (file_names d (PlansDirectory o)).

Lemma Scan_names o d names : Scan o d = Value names -> names = store_names o d.
Proof.
  unfold Scan, ListDirectoryBySuffix, ListDirectoryFiles. destruct (negb _); [done|]. by intros [= <-].
Qed.

Lemma store_names_in o d name :
  In name (store_names o d) <->
  plain_name name /\ HasSuffix name kStoreFileSuffix = true /\ FileExists d (JoinPath (PlansDirectory o) name) = true.
Proof. unfold store_names. rewrite filter_In, file_names_in. tauto. Qed.

Lemma stored_name o d g : In (FileNameFor g) (store_names o d) <-> Contains o d g = true.
Proof.
  rewrite store_names_in. unfold Contains, PathFor. pose proof (FileNameFor_plain g). pose proof (FileNameFor_suffix g). tauto.
Qed.

(** A plan that was read carries a digest of 32 bytes. *)
Lemma Load_digest d path p : Load d path = Value p -> digest_ok (pl_digest p).
Proof.
  unfold Load. intros (bytes & _ & Hd)%let_value. apply DecodeStoreFile_exact in Hd as (payload & _ & _ & Hp).
  apply parsed_plan_well_read in Hp as [-> _]. apply hash_wide.
Qed.

Lemma list_file_entry o d name e :
  list_file o d name = inl e ->
  name = FileNameFor (se_digest e) /\ digest_ok (se_digest e) /\ Contains o d (se_digest e) = true /\
  exists p, Get o d (se_digest e) = Value p.
Proof.
  unfold list_file. cbv zeta. destruct (Load d _) as [p|] eqn:Hl; [|done].
  destruct (String.eqb_spec name (FileNameFor (pl_digest p))) as [->|]; cbn [negb]; [|done]. intros [= <-]. cbn [se_digest].
  pose proof (Load_digest _ _ _ Hl) as Hd. split; [done|]. split; [done|].
  assert (FileExists d (PathFor o (pl_digest p)) = true) as Hf.
  { unfold Load, ReadFileBounded, PathFor in *. destruct (dk_files d !! _) eqn:E; [|done]. unfold FileExists. by rewrite E. }
  split; [done|]. exists p. unfold Get. rewrite Hf. cbn [negb]. change (PathFor o (pl_digest p)) with
    (JoinPath (PlansDirectory o) (FileNameFor (pl_digest p))). rewrite Hl. unfold digest_eqb. by rewrite bool_decide_eq_true_2.
Qed.

Lemma list_file_rejected o d name m : list_file o d name = inr m -> m = name.
Proof. unfold list_file. cbv zeta. destruct (Load _ _); [destruct (negb _)|]; congruence. Qed.

Lemma list_file_stored o d g p :
  Get o d g = Value p -> exists e, list_file o d (FileNameFor g) = inl e /\ se_digest e = g.
Proof.
  unfold Get. destruct (FileExists d (PathFor o g)); [|done]. cbn [negb].
  intros (q & Hl & Hg)%let_value. unfold digest_eqb in Hg. case_bool_decide as E; [|done]. cbn [negb] in Hg. injection Hg as ->.
  unfold list_file. cbv zeta. unfold PathFor in Hl. rewrite Hl, E, String.eqb_refl. cbn [negb]. by eexists.
Qed.

Lemma Get_contains o d g p : Get o d g = Value p -> Contains o d g = true.
Proof. unfold Get, Contains. by destruct (FileExists _ _). Qed.

(** ** Lemmas: steps of a store *)

Lemma RemoveFile_crashed fails d path st ops d' :
  RemoveFile fails path d = (st, ops) -> crashed ops d d' ->
  dk_files d' = dk_files d \/ (st = OkStatus /\ dk_files d' = delete path (dk_files d)).
Proof.
  unfold RemoveFile. intros E Hc. destruct (_ && _); [|destruct fails]; injection E as <- <-; inversion Hc as [|? ? ? ? Hc'|]; subst;
    try by left. inversion Hc'; subst. by right.
Qed.

(** Removing files, whichever and how often. *)
Lemma removals_subset (ops : list DiskOp) d d' path :
  Forall (fun op => exists q, op = Remove q) ops -> crashed ops d d' ->
  dk_files d' !! path = dk_files d !! path \/ dk_files d' !! path = None.
Proof.
  intros Hops Hc. induction Hc as [| op ops d d' Hc IH |]; [by left| |].
  - apply Forall_cons in Hops as [[q ->] Hops]. destruct (IH Hops) as [->|E]; [|by right]. cbn [apply_op dk_files].
    destruct (decide (q = path)) as [->|]; [right; by rewrite lookup_delete_eq|left; by rewrite lookup_delete_ne].
  - apply Forall_cons in Hops as [[q ?] _]. done.
Qed.

Lemma CleanTemporaries_ops fails o d :
  Forall (fun op => exists name, op = Remove (JoinPath (PlansDirectory o) name) /\ plain_name name /\
    (HasSuffix name ".tmp" = true \/ HasSuffix name kStoreTempSuffix = true)) (CleanTemporaries fails o d).
Proof.
  unfold CleanTemporaries, ListDirectoryFiles. destruct (negb _); [constructor|]. apply List.Forall_forall. intros op Hin.
  apply in_concat in Hin as (l & (name & <- & Hname)%in_map_iff & Hop). apply file_names_in in Hname as [Hp _].
  destruct (HasSuffix name ".tmp") eqn:E1, (HasSuffix name kStoreTempSuffix) eqn:E2; cbn [negb andb] in Hop; try done;
    unfold RemoveFile in Hop; repeat (destruct (_ : bool) in Hop; try done); cbn in Hop; destruct Hop as [<-|[]]; naive_solver.
Qed.

(** The ways the disk of a store changes: a [Put] or a [Remove], completed or
    cut short by a crash, and an [Open]. *)
Inductive store_step (o : StoreOptions) (d d' : Disk) : Prop :=
  | step_put faults p st ops : Put faults o p d = (st, ops) -> crashed ops d d' -> store_step o d d'
  | step_remove fails g st ops : Store_Remove fails o g d = (st, ops) -> crashed ops d d' -> store_step o d d'
  | step_open mkdir_fails remove_fails st ops : Open mkdir_fails remove_fails o d = (st, ops) -> crashed ops d d' -> store_step o d d'.

Lemma store_names_nodup o d : List.NoDup (store_names o d).
Proof. apply List.NoDup_filter, file_names_nodup. Qed.

Lemma incl_size {A} (l l' : list A) : List.NoDup l -> incl l l' -> size l <= size l'.
Proof. intros Hl Hi. unfold size. pose proof (NoDup_incl_length Hl Hi). lia. Qed.

(** A file of the store on another disk. *)
Lemma store_names_frame o d d' name :
  dk_files d' !! JoinPath (PlansDirectory o) name = dk_files d !! JoinPath (PlansDirectory o) name \/
  dk_files d' !! JoinPath (PlansDirectory o) name = None ->
  In name (store_names o d') -> In name (store_names o d).
Proof.
  rewrite !store_names_in. unfold FileExists. rewrite !bool_decide_eq_true. intros [-> | ->] (Hp & Hs & Hf); [done|by destruct Hf].
Qed.

Lemma removals_shrink o ops d d' :
  Forall (fun op => exists q, op = Remove q) ops -> crashed ops d d' -> size (store_names o d') <= size (store_names o d).
Proof.
  intros Hops Hc. apply incl_size; [apply store_names_nodup|]. intros name. apply store_names_frame.
  by apply (removals_subset ops).
Qed.

(** Opening makes directories, then removes files. *)
Lemma Open_ops mkdir_fails remove_fails o d st ops :
  Open mkdir_fails remove_fails o d = (st, ops) ->
  exists made removed, ops = made ++ removed /\ Forall (fun op => exists p, op = MakeDirectories p) made /\
    (removed = [] \/ removed = CleanTemporaries remove_fails o (apply_ops made d)).
Proof.
  assert (forall fails path d st ops, EnsureDirectory fails path d = (st, ops) -> Forall (fun op => exists p, op = MakeDirectories p) ops)
    as Hmake.
  { intros ????? [-> | ->]%EnsureDirectory_ops; [constructor|]. apply Forall_singleton. by eexists. }
  unfold Open. case_bool_decide; [intros [= <- <-]; exists [], []; split_and!; try done; by left|].
  destruct (_ || _); [intros [= <- <-]; exists [], []; split_and!; try done; by left|].
  intros (st1 & ops1 & ops2 & E1%Hmake & E2 & ->)%io_bind_value.
  destruct (failed st1); [injection E2 as <- <-; exists ops1, []; split_and!; try done; by left|].
  apply io_bind_value in E2 as (st2 & ops3 & ops4 & E3%Hmake & E4 & ->).
  destruct (failed st2); injection E4 as <- <-.
  - exists (ops1 ++ ops3), []. rewrite !app_nil_r. split_and!; [done|by apply Forall_app_2|by left].
  - exists (ops1 ++ ops3), (CleanTemporaries remove_fails o (apply_ops ops3 (apply_ops ops1 d))).
    rewrite <- app_assoc, apply_ops_app. split_and!; [done|by apply Forall_app_2|by right].
Qed.

Lemma CleanTemporaries_removals fails o d : Forall (fun op => exists q, op = Remove q) (CleanTemporaries fails o d).
Proof. eapply Forall_impl; [apply CleanTemporaries_ops|]. cbn. intros op (name & -> & _). by eexists. Qed.

Lemma store_names_files o d d' : dk_files d' = dk_files d -> store_names o d' = store_names o d.
Proof. unfold store_names, file_names. by intros ->. Qed.

Lemma store_step_size o d d' :
  store_step o d d' -> size (store_names o d') <= Z.max (size (store_names o d)) (st_max_plans o).
Proof.
  destruct 1 as [faults p st ops Hput Hc|fails g st ops Hr Hc|mk rm st ops Ho Hc].
  - apply Put_cases in Hput as [[-> _]|(bytes & names & _ & _ & Hs & Hmax & Hw)]; [inversion Hc; subst; lia|].
    apply Scan_names in Hs. subst names. destruct (WriteFileAtomic_crash _ _ _ _ _ _ _ Hw Hc) as [_ Hq].
    assert (size (store_names o d') <= size (FileNameFor (pl_digest p) :: store_names o d)) as Hsize.
    { apply incl_size; [apply store_names_nodup|]. intros name Hin. pose proof Hin as (Hp & Hs & _)%store_names_in.
      destruct (decide (name = FileNameFor (pl_digest p))) as [->|Hne]; [by left|right].
      eapply store_names_frame; [|exact Hin]. left. apply Hq.
      - intros E. apply Hne. eapply JoinPath_inj; [done|apply FileNameFor_plain|exact E].
      - intros E. pose proof (JoinPath_suffix (PlansDirectory o) name _ Hp Hs) as Hx. rewrite E in Hx.
        by rewrite (TempNameFor_suffix _ kStoreFileSuffix "n"%char) in Hx. }
    unfold size in *. cbn [length] in Hsize. lia.
  - enough (size (store_names o d') <= size (store_names o d)) by lia. apply (removals_shrink o ops); [|done].
    unfold Store_Remove, RemoveFile in Hr. cbv zeta in Hr.
    destruct (negb (FileExists d (PathFor o g))); [injection Hr as <- <-; constructor|]. cbn [andb] in Hr.
    destruct fails; injection Hr as <- <-; [constructor|]. apply Forall_singleton. by eexists.
  - enough (size (store_names o d') <= size (store_names o d)) by lia.
    apply Open_ops in Ho as (made & removed & -> & Hm & Hr). apply crashed_app in Hc as [Hc|Hc].
    + rewrite (store_names_files o d d'); [lia|by eapply made_files].
    + rewrite <- (store_names_files o d (apply_ops made d)) by (eapply made_files; [exact Hm|apply crashed_end]).
      apply (removals_shrink o removed); [|done]. destruct Hr as [-> | ->]; [constructor|apply CleanTemporaries_removals].
Qed.

(** Opening keeps the temporary file of an interrupted write. *)
Lemma Open_temporary mkdir_fails remove_fails o d st ops path :
  Open mkdir_fails remove_fails o d = (st, ops) ->
  dk_files (apply_ops ops d) !! TempNameFor path = dk_files d !! TempNameFor path.
Proof.
  intros (made & removed & -> & Hm & Hr)%Open_ops. rewrite apply_ops_app.
  rewrite <- (made_files made d (apply_ops made d) Hm (crashed_end _ _)). apply apply_ops_untouched.
  destruct Hr as [-> | ->]; [constructor|].
  eapply Forall_impl; [apply CleanTemporaries_ops|]. cbn. intros op (name & -> & Hp & Hs) Ht.
  destruct Hs as [Hs|Hs]; apply (JoinPath_suffix (PlansDirectory o)) in Hs; [|done| |done];
    change (JoinPath (PlansDirectory o) name = TempNameFor path) in Ht; rewrite Ht in Hs.
  - by rewrite (TempNameFor_suffix path ".tmp" "p"%char) in Hs.
  - by rewrite (TempNameFor_suffix path kStoreTempSuffix "p"%char) in Hs.
Qed.
End listing.

(** ** Theorems *)

Section theorems.
Context `{Platform, !CharconvLaws, Hasher, !WideHasher, System}.

(** A store file is decoded only when it is authentic: exactly the files
    made of the header of their payload's length, a payload and the checksum of
    both are decoded, to what the payload reads as. *)
Theorem store_file_decoding (bytes : string) (p : PlanArtifact) :
  DecodeStoreFile bytes = Value p <->
  exists payload, string_size payload <= kMaxStoreFileBytes /\ bytes = store_file payload /\ ParsePlanArtifact payload = Value p.
Proof.
  split; [apply DecodeStoreFile_exact|]. intros (payload & Hs & -> & Hp). by rewrite DecodeStoreFile_file.
Qed.

(** C18: the store is a map from digests to plans.  After a [Put] that
    answers OK the plan is got under its digest; nothing else changes, and
    nothing at all when the [Put] fails. *)
Theorem put_get (faults : WriteFaults) (o : StoreOptions) (p : PlanArtifact) (d : Disk) (st : Status)
    (ops : list DiskOp) (g : Digest256) :
  candidate_ok p -> digest_ok g -> Put faults o p d = (st, ops) ->
  Get o (apply_ops ops d) g =
  (if failed st then Get o d g else if bool_decide (g = pl_digest p) then Value p else Get o d g).
Proof.
  intros Hp Hg Hput. destruct (Get_crashed _ _ _ _ _ _ _ g Hp Hg Hput (crashed_end ops d)) as [E|(-> & -> & E)].
  - rewrite E. destruct (failed st) eqn:Hst; [done|]. case_bool_decide as Eg; [subst|done].
    rewrite <- E. by eapply Get_put.
  - by rewrite bool_decide_eq_true_2.
Qed.

(** C11: a crash does not corrupt the store.  Wherever a [Put] is cut short,
    even in the middle of a write, every digest gets what it got before, or the
    plan, whole, when it is the plan's own. *)
Theorem put_crash_safe (faults : WriteFaults) (o : StoreOptions) (p : PlanArtifact) (d d' : Disk) (st : Status)
    (ops : list DiskOp) (g : Digest256) :
  candidate_ok p -> digest_ok g -> Put faults o p d = (st, ops) -> crashed ops d d' ->
  Get o d' g = Get o d g \/ (g = pl_digest p /\ Get o d' g = Value p).
Proof. intros Hp Hg Hput Hc. destruct (Get_crashed _ _ _ _ _ _ _ g Hp Hg Hput Hc) as [?|(_ & ? & ?)]; tauto. Qed.

(** The listing is complete.  The digests listed are those that can be got,
    in increasing order, and every other file of the store is reported as
    rejected. *)
Theorem list_complete (o : StoreOptions) (d : Disk) (entries : list StoreEntry) (rejected : list string) :
  List o d = Value (entries, rejected) ->
  (forall g, In g (map se_digest entries) <-> exists p, Get o d g = Value p) /\
  StronglySorted (key_le (fun e => digest_bytes (se_digest e))) entries /\
  (forall name, In name rejected <-> In name (store_names o d) /\ ~ In name (map (fun e => FileNameFor (se_digest e)) entries)).
Proof.
  unfold List. intros (names & Hs & E)%let_value. apply Scan_names in Hs. subst names. cbv zeta in E. injection E as <- <-.
  assert (forall e, In e (sort_by entry_less (omap (fun f => match f with inl e => Some e | inr _ => None end)
    (map (list_file o d) (store_names o d)))) <-> exists name, In name (store_names o d) /\ list_file o d name = inl e) as Hin.
  { intros e. transitivity (In e (omap (fun f => match f with inl e => Some e | inr _ => None end) (map (list_file o d) (store_names o d)))).
    - split; apply Permutation_in; [|symmetry]; apply sort_by_perm.
    - rewrite <- list_elem_of_In, list_elem_of_omap. split.
      + intros (f & Hf & E). apply list_elem_of_In, in_map_iff in Hf as (name & <- & Hn). exists name. split; [done|].
        destruct (list_file o d name); [by injection E as ->|done].
      + intros (name & Hn & E). exists (inl e). split; [|done]. apply list_elem_of_In, in_map_iff. by exists name. }
  split; [|split].
  - intros g. rewrite in_map_iff. split.
    + intros (e & <- & (name & _ & Hf)%Hin). by apply list_file_entry in Hf as (_ & _ & _ & ?).
    + intros (p & Hp). destruct (list_file_stored _ _ _ _ Hp) as (e & Hf & <-). exists e. split; [done|]. apply Hin.
      exists (FileNameFor (se_digest e)). split; [|done]. apply stored_name. by eapply Get_contains.
  - change entry_less with (by_key (fun e => digest_bytes (se_digest e))). apply sort_by_sorted.
  - intros name. rewrite <- list_elem_of_In, list_elem_of_omap. rewrite in_map_iff. split.
    + intros (f & Hf & E). apply list_elem_of_In, in_map_iff in Hf as (n & <- & Hn).
      destruct (list_file o d n) as [|m] eqn:Hf; [done|]. injection E as ->.
      rewrite (list_file_rejected _ _ _ _ Hf) in *. split; [done|]. intros (e & <- & (n1 & _ & He)%Hin). pose proof (list_file_entry _ _ _ _ He) as (-> & _). congruence.
    + intros [Hn Hno]. exists (inr name). split; [|done]. apply list_elem_of_In, in_map_iff. exists name. split; [|done].
      destruct (list_file o d name) as [e|m] eqn:Hf.
      * destruct Hno. pose proof (list_file_entry _ _ _ _ Hf) as (-> & _). exists e. split; [done|]. apply Hin. by eexists.
      * by rewrite (list_file_rejected _ _ _ _ Hf).
Qed.

(** C38: the store stays bounded.  Whatever is put, removed or reopened, and
    wherever it crashes, a store that holds at most [max_plans] files never holds
    more. *)
Theorem store_bounded (o : StoreOptions) (d d' : Disk) :
  rtc (store_step o) d d' -> size (store_names o d) <= st_max_plans o -> size (store_names o d') <= st_max_plans o.
Proof.
  induction 1 as [|d d1 d' Hs _ IH]; [done|]. intros Hd. apply IH. apply store_step_size in Hs. lia.
Qed.

(** An interrupted write leaves its temporary file for good.  A [Put]
    that writes can crash with the temporary file on the disk, and no later
    [Open] of the store removes it: it ends in the process identifier, not in one
    of the suffixes that are cleaned. *)
Theorem temporaries_survive (faults : WriteFaults) (o : StoreOptions) (p : PlanArtifact) (d : Disk) (ops : list DiskOp) :
  Put faults o p d = (OkStatus, ops) -> ops <> [] ->
  exists d1, crashed ops d d1 /\ is_Some (dk_files d1 !! TempNameFor (PathFor o (pl_digest p))) /\
    forall mkdir_fails remove_fails st ops', Open mkdir_fails remove_fails o d1 = (st, ops') ->
      dk_files (apply_ops ops' d1) !! TempNameFor (PathFor o (pl_digest p)) =
      dk_files d1 !! TempNameFor (PathFor o (pl_digest p)).
Proof.
  intros Hput Hne. apply Put_cases in Hput as [[-> _]|(bytes & names & _ & _ & _ & _ & Hw)]; [done|].
  apply WriteFileAtomic_ops in Hw as [[Hst _]|[_ ->]]; [done|].
  eexists. split; [apply crash_later, crash_here|]. split; [|intros mk rm st ops'; apply Open_temporary].
  cbn. rewrite lookup_insert_eq. by eexists.
Qed.
End theorems.

(** ** A store with one plan *)

Module SampleStore.
#[local] Existing Instance SamplePlan.size_hasher.

#[export] Instance size_wide : WideHasher (H := SamplePlan.size_hasher).
Proof.
  intros p. split; [done|]. apply Forall_forall. intros x ->%list_elem_of_In%repeat_spec. by apply wrap_range.
Qed.

#[local] Existing Instance SampleSystem.linux.

Definition options : StoreOptions := MkStoreOptions "/s" 2 true.
Definition empty_disk : Disk := MkDisk ∅ {["/s"; "/s/plans"]}.
Definition sample : PlanArtifact := SamplePlan.plan "A".

Lemma sample_plan_ok : candidate_ok sample.
Proof. split; [apply SamplePlan.plan_A_ok|apply SamplePlan.plan_A_fits|by vm_compute..]. Qed.

Definition write : Status * list DiskOp := Put no_faults options sample empty_disk.
Definition full_disk : Disk := apply_ops (snd write) empty_disk.

Definition listing : Expected (list StoreEntry * list string) := List options full_disk.
Definition entries : list StoreEntry := match listing with Value (entries, _) => entries | Error _ => [] end.
Definition rejected : list string := match listing with Value (_, rejected) => rejected | Error _ => [] end.

Lemma listed : List options full_disk = Value (entries, rejected).
Proof. by vm_compute. Qed.

Lemma written : Put no_faults options sample empty_disk = (OkStatus, snd write).
Proof. by vm_compute. Qed.
End SampleStore.

Section witnesses.
Existing Instance SamplePlan.size_hasher.
Existing Instance SampleStore.size_wide.
Existing Instance SampleSystem.linux.

Lemma store_file_decoding_witness :
  DecodeStoreFile (store_file (CanonicalBytes SampleStore.sample)) = Value SampleStore.sample.
Proof.
  apply (proj2 (store_file_decoding _ _)). exists (CanonicalBytes SampleStore.sample).
  split; [by vm_compute|]. split; [done|]. apply (candidate_reads _ SampleStore.sample_plan_ok).
Defined.

Lemma put_get_witness :
  Get SampleStore.options SampleStore.full_disk (pl_digest SampleStore.sample) = Value SampleStore.sample.
Proof.
  unfold SampleStore.full_disk.
  rewrite (put_get no_faults _ _ _ _ _ (pl_digest SampleStore.sample) SampleStore.sample_plan_ok (ok_digest _ SamplePlan.plan_A_ok) SampleStore.written).
  change (failed OkStatus) with false. cbv iota. rewrite bool_decide_eq_true_2 by reflexivity. reflexivity.
Defined.

Lemma put_crash_safe_witness :
  let d' := apply_op (Create (TempNameFor (PathFor SampleStore.options (pl_digest SampleStore.sample)))) SampleStore.empty_disk in
  Get SampleStore.options d' zero_digest = Get SampleStore.options SampleStore.empty_disk zero_digest \/
  (zero_digest = pl_digest SampleStore.sample /\ Get SampleStore.options d' zero_digest = Value SampleStore.sample).
Proof.
  cbv zeta. eapply (put_crash_safe no_faults); [apply SampleStore.sample_plan_ok| |apply SampleStore.written|].
  - split; [done|repeat constructor; by vm_compute].
  - assert (exists rest, snd SampleStore.write =
      Create (TempNameFor (PathFor SampleStore.options (pl_digest SampleStore.sample))) :: rest) as [rest ->]
      by (eexists; vm_compute; reflexivity).
    apply crash_later, crash_here.
Defined.

Lemma list_complete_witness :
  In (pl_digest SampleStore.sample) (map se_digest SampleStore.entries) <->
  exists p, Get SampleStore.options SampleStore.full_disk (pl_digest SampleStore.sample) = Value p.
Proof. exact (proj1 (list_complete _ _ _ _ SampleStore.listed) (pl_digest SampleStore.sample)). Defined.

Lemma store_bounded_witness :
  size (store_names SampleStore.options SampleStore.full_disk) <= 2.
Proof.
  apply (store_bounded SampleStore.options SampleStore.empty_disk); [|by vm_compute].
  apply rtc_once. eapply step_put; [apply SampleStore.written|apply crashed_end].
Defined.

Lemma temporaries_survive_witness :
  exists d1, is_Some (dk_files d1 !! TempNameFor (PathFor SampleStore.options (pl_digest SampleStore.sample))).
Proof.
  destruct (temporaries_survive _ _ _ _ _ SampleStore.written) as (d1 & _ & Hd & _); [by vm_compute|]. by exists d1.
Defined.
End witnesses.
