(* ===== verification/Incarnation.v ===== *)
(** * Incarnation: the epoch of a service

    [AdvanceIncarnation] of [src/service.cpp]: every start of a service reads
    the record of the one before it, and writes its own with the next epoch.
    What the machine supplies (entropy, the clock, which calls fail) is in a
    record. *)

From S2P Require Import Prelude Status Ids Canonical SnapshotText Lines Files.

Definition kIncarnationFileName : string := "incarnation.oppf".
Definition kMaxEpoch : Z := 2 ^ 64 - 1.

Record IncarnationState := MkIncarnationState {
  is_incarnation : IncarnationId; is_epoch : Epoch; is_epoch_continuity : bool; is_started_unix_ms : Z; is_process_id : Z
}.

(** What the machine does during one start. *)
Record Machine := MkMachine {
  mc_entropy : IncarnationId;
  mc_unix_millis : Z;
  mc_writes : string -> WriteFaults;
  mc_mkdir_fails : string -> bool;
  mc_rename_fails : string -> bool;
  mc_remove_fails : string -> bool
}.

(** The loop over the lines of the record: the epoch, when it is found. *)
Fixpoint read_epoch (header_seen : bool) (lines : list string) : option Epoch :=
  match lines with
  | [] => None
  | raw :: rest =>
      let line := strip_cr raw in
      if bool_decide (line = "") then read_epoch header_seen rest
      else
        match SplitTokens line with
        | Error _ => None
        | Value values =>
            if negb header_seen then
              if negb (length values =? 2)%nat || negb (String.eqb (token values 0) "OPP-INCARNATION") then None
              else read_epoch true rest
            else if String.eqb (token values 0) "epoch" then
              if negb (length values =? 2)%nat then None
              else match ParseU64 (token values 1) with Value epoch => Some epoch | Error _ => None end
            else read_epoch header_seen rest
        end
  end.

Section incarnation.
Context `{System}.

Definition incarnation_lines (s : IncarnationState) : list string :=
  ["OPP-INCARNATION 1";
   "incarnation " +:+ Incarnation_ToHex (is_incarnation s);
   "epoch " +:+ FormatU64 (is_epoch s);
   "pid " +:+ FormatU64 (is_process_id s);
   "started_unix_ms " +:+ FormatU64 (is_started_unix_ms s)].

Definition incarnation_path (state_dir : string) : string := JoinPath state_dir kIncarnationFileName.

(** The epoch of the record on the disk, if there is one that can be read. *)
Definition recorded_epoch (state_dir : string) (d : Disk) : option Epoch :=
  match ReadFileBounded d (incarnation_path state_dir) 4096 with
  | Error _ => None
  | Value text => read_epoch false (text_lines [] (chars text))
  end.

(** The epoch before this start, and whether it is known: a record that cannot
    be read is moved out of the way. *)
Definition previous_epoch (m : Machine) (state_dir : string) : IO (Expected (Epoch * bool)) :=
  fun d =>
    let path := incarnation_path state_dir in
    if negb (FileExists d path) then (Value (0, true), [])
    else
      match recorded_epoch state_dir d with
      | Some epoch => (Value (epoch, true), [])
      | None =>
          let '(quarantined, ops) := RenameFile (mc_rename_fails m path) path (path +:+ ".unreadable") in
          if failed quarantined then
            (Error (Failure StatusCode.IoFailure "cannot quarantine an unreadable incarnation record"), ops)
          else (Value (0, false), ops)
      end.

Definition AdvanceIncarnation (m : Machine) (state_dir : string) : IO (Expected IncarnationState) :=
  directory <== EnsureDirectory (mc_mkdir_fails m state_dir) state_dir ;;
  if failed directory then io_return (Error directory)
  else
    previous <== previous_epoch m state_dir ;;
    match previous with
    | Error s => io_return (Error s)
    | Value (epoch, continuity) =>
        if kMaxEpoch - 1 <=? epoch then
          io_return (Error (Failure StatusCode.Exhausted "the service epoch counter is exhausted"))
        else
          let state := MkIncarnationState (mc_entropy m) (epoch + 1) continuity (mc_unix_millis m) sys_pid in
          let path := incarnation_path state_dir in
          written <== io_do (WriteFileAtomic (mc_writes m path) path (text_of_lines (incarnation_lines state))) ;;
          if failed written then io_return (Error written) else io_return (Value state)
    end.
End incarnation.

(** ** Lemmas *)

Section facts.
Context `{System}.

(** Numbers of the record are unsigned; the identifier has 16 bytes. *)
Definition machine_ok (m : Machine) : Prop := wf_bytes 16 (incarnation_bytes (mc_entropy m)) /\ 0 <= mc_unix_millis m.

Definition state_ok (s : IncarnationState) : Prop :=
  wf_bytes 16 (incarnation_bytes (is_incarnation s)) /\ in_width 64 (is_epoch s) /\ 0 <= is_process_id s /\
  0 <= is_started_unix_ms s.

Lemma number_size n : string_size (FormatU64 n) <= 20.
Proof. unfold FormatU64, to_string, string_size. pose proof (decimal_from_size 20 n ""). cbn [String.length] in *. lia. Qed.

Lemma incarnation_hex_size i : wf_bytes 16 (incarnation_bytes i) -> string_size (Incarnation_ToHex i) = 32.
Proof.
  intros [Hs _]. unfold Incarnation_ToHex, ToHexImpl. rewrite string_size_chars, chars_of_chars, size_concat_pairs. lia.
Qed.

Lemma pair_prints w v : gword w -> gword v -> prints (w +:+ " " +:+ v) [w; v].
Proof. intros Hw Hv. exists w, [v]. split; [done|]. split; [by repeat apply Forall_cons_2|]. unfold join_words. cbn [fold_left].
  unfold spaced. rewrite bool_decide_eq_false_2 by apply Hw. by rewrite string_app_assoc.
Qed.

Lemma incarnation_prints s :
  state_ok s ->
  Forall2 prints (incarnation_lines s)
    [["OPP-INCARNATION"; "1"]; ["incarnation"; Incarnation_ToHex (is_incarnation s)]; ["epoch"; FormatU64 (is_epoch s)];
     ["pid"; FormatU64 (is_process_id s)]; ["started_unix_ms"; FormatU64 (is_started_unix_ms s)]].
Proof.
  intros (Hi & He & Hp & Ht). unfold in_width in He. unfold incarnation_lines.
  assert (gword (Incarnation_ToHex (is_incarnation s))) as Hw.
  { split; [|apply gtext_hex]. intros E. apply incarnation_hex_size in Hi. by rewrite E in Hi. }
  repeat apply Forall2_cons_2; try apply Forall2_nil_2.
  - by apply (pair_prints "OPP-INCARNATION" "1").
  - by apply (pair_prints "incarnation").
  - apply (pair_prints "epoch"); [done|apply gword_number; lia].
  - apply (pair_prints "pid"); [done|apply gword_number; lia].
  - apply (pair_prints "started_unix_ms"); [done|apply gword_number; lia].
Qed.

Lemma incarnation_fits s : state_ok s -> Forall (fun l => string_size l <= 128) (incarnation_lines s).
Proof.
  intros (Hi & _). unfold incarnation_lines.
  pose proof (number_size (is_epoch s)). pose proof (number_size (is_process_id s)). pose proof (number_size (is_started_unix_ms s)).
  apply incarnation_hex_size in Hi.
  repeat apply Forall_cons_2; try apply Forall_nil_2; rewrite ?string_size_app, ?Hi; cbn [String.length];
    change (string_size "incarnation ") with 12; change (string_size "epoch ") with 6; change (string_size "pid ") with 4;
    change (string_size "started_unix_ms ") with 16; try lia. done.
Qed.
Lemma prints_fits line tokens :
  prints line tokens -> string_size line <= kMaxTextLineBytes -> Forall (fun t => string_size t <= kMaxTokenBytes) tokens ->
  line_fits line.
Proof.
  intros (w & ws & -> & Hg & ->) Hs Hf. split; [done|]. pose proof Hg as [Hw _]%Forall_cons.
  rewrite split_words_join; [done|by apply gword_word|].
  apply Forall_cons in Hg as [_ Hg]. eapply Forall_impl; [exact Hg|apply gword_word].
Qed.

Lemma read_epoch_line seen line tokens rest :
  prints line tokens -> string_size line <= 128 -> Forall (fun t => string_size t <= kMaxTokenBytes) tokens ->
  read_epoch seen (line :: rest) =
  if negb seen then
    if negb (length tokens =? 2)%nat || negb (String.eqb (token tokens 0) "OPP-INCARNATION") then None else read_epoch true rest
  else if String.eqb (token tokens 0) "epoch" then
    if negb (length tokens =? 2)%nat then None
    else match ParseU64 (token tokens 1) with Value epoch => Some epoch | Error _ => None end
  else read_epoch seen rest.
Proof.
  intros Hl Hs Ht. cbn [read_epoch]. rewrite (strip_cr_prints _ _ Hl). rewrite bool_decide_eq_false_2 by (by eapply prints_nonempty).
  rewrite (prints_tokens line tokens Hl); [done|]. apply (prints_fits _ tokens); [done|unfold kMaxTextLineBytes; lia|done].
Qed.

(** The record of a state reads back to its epoch. *)
Lemma incarnation_reads s :
  state_ok s ->
  let text := text_of_lines (incarnation_lines s) in
  string_size text <= 4096 /\ read_epoch false (text_lines [] (chars text)) = Some (is_epoch s).
Proof.
  intros Hs. cbv zeta. pose proof (incarnation_prints s Hs) as Hp. pose proof (incarnation_fits s Hs) as Hf.
  assert (string_size (text_of_lines (incarnation_lines s)) <= 4096) as Hsize.
  { unfold text_of_lines, incarnation_lines in *. cbn [fold_right].
    repeat match goal with Hl : Forall _ (_ :: _) |- _ => apply Forall_cons in Hl as [? Hl] end.
    rewrite !string_size_app. change (string_size newline) with 1. rewrite !string_size_app in *. change (string_size "") with 0. lia. }
  split; [done|].
  rewrite text_lines_text.
  2:{ clear -Hp. induction Hp as [|line tokens lines l Hl _ IH]; constructor; [by exists tokens|done]. }
  destruct Hs as (Hi & He & _ & _). apply incarnation_hex_size in Hi.
  pose proof (number_size (is_epoch s)). unfold incarnation_lines in *.
  repeat match goal with Hl : Forall _ (_ :: _) |- _ => apply Forall_cons in Hl as [? Hl] end.
  apply Forall2_cons in Hp as [Hp1 Hp]. apply Forall2_cons in Hp as [Hp2 Hp]. apply Forall2_cons in Hp as [Hp3 _].
  rewrite (read_epoch_line false _ _ _ Hp1); [|done|by repeat constructor].
  change (negb (length ["OPP-INCARNATION"; "1"] =? 2)%nat || negb (String.eqb (token ["OPP-INCARNATION"; "1"] 0) "OPP-INCARNATION"))
    with false. cbv iota. cbn [negb].
  rewrite (read_epoch_line true _ _ _ Hp2); [|done|].
  2:{ repeat apply Forall_cons_2; try apply Forall_nil_2; [done|rewrite Hi; done]. }
  cbn [negb]. change (token ["incarnation"; Incarnation_ToHex (is_incarnation s)] 0) with "incarnation".
  change (String.eqb "incarnation" "epoch") with false. cbv iota.
  rewrite (read_epoch_line true _ _ _ Hp3); [|done|].
  2:{ repeat apply Forall_cons_2; try apply Forall_nil_2; [done|unfold kMaxTokenBytes; lia]. }
  cbn [negb]. change (token ["epoch"; FormatU64 (is_epoch s)] 0) with "epoch".
  change (token ["epoch"; FormatU64 (is_epoch s)] 1) with (FormatU64 (is_epoch s)).
  change (String.eqb "epoch" "epoch") with true. change (length ["epoch"; FormatU64 (is_epoch s)] =? 2)%nat with true.
  cbv iota. cbn [negb]. by rewrite ParseU64_text.
Qed.
Lemma ParseU64_width t v : ParseU64 t = Value v -> in_width 64 v.
Proof.
  unfold ParseU64, ParseUnsigned. case_bool_decide; [done|]. destruct (negb _) eqn:Hd; [done|]. cbv zeta.
  destruct (Z.ltb_spec u64_max (decimal_value t)); [done|]. intros [= <-].
  apply negb_false_iff in Hd. rewrite forallb_forall in Hd. unfold in_width, u64_max in *. split; [|lia].
  unfold decimal_value. assert (forall l n, 0 <= n -> (forall c, In c l -> is_digit c = true) -> 0 <= fold_left decimal_step l n) as Hfold.
  { clear. induction l as [|c l IH]; intros n Hn Hl; [done|]. cbn [fold_left]. apply IH; [|auto using in_cons].
    specialize (Hl c (or_introl eq_refl)). unfold is_digit in Hl. unfold decimal_step. lia. }
  by apply Hfold.
Qed.

Lemma read_epoch_width seen lines epoch : read_epoch seen lines = Some epoch -> in_width 64 epoch.
Proof.
  revert seen; induction lines as [|raw rest IH]; intros seen; cbn [read_epoch]; [done|].
  case_bool_decide; [apply IH|]. destruct (SplitTokens _) as [values|]; [|done].
  destruct (negb seen); [destruct (_ || _); [done|apply IH]|]. destruct (String.eqb _ "epoch"); [|apply IH].
  destruct (negb _); [done|]. destruct (ParseU64 (token values 1)) as [v|] eqn:E; [|done]. intros [= <-].
  by eapply ParseU64_width.
Qed.

(** The record on the disk can be read, or there is none. *)
Definition readable (state_dir : string) (d : Disk) : Prop :=
  FileExists d (incarnation_path state_dir) = true -> recorded_epoch state_dir d <> None.

Definition last_epoch (state_dir : string) (d : Disk) : Epoch := default 0 (recorded_epoch state_dir d).

Lemma last_epoch_width state_dir d : in_width 64 (last_epoch state_dir d).
Proof.
  unfold last_epoch, recorded_epoch. destruct (ReadFileBounded _ _ _); [|by vm_compute].
  destruct (read_epoch _ _) eqn:E; [by eapply read_epoch_width|by vm_compute].
Qed.

Lemma recorded_frame state_dir d d' :
  dk_files d' !! incarnation_path state_dir = dk_files d !! incarnation_path state_dir ->
  recorded_epoch state_dir d' = recorded_epoch state_dir d /\ (readable state_dir d -> readable state_dir d').
Proof.
  intros E. assert (recorded_epoch state_dir d' = recorded_epoch state_dir d) as Er.
  { unfold recorded_epoch, ReadFileBounded. by rewrite E. }
  split; [done|]. unfold readable, FileExists. by rewrite E, Er.
Qed.

Lemma recorded_written state_dir d s :
  state_ok s -> dk_files d !! incarnation_path state_dir = Some (text_of_lines (incarnation_lines s)) ->
  recorded_epoch state_dir d = Some (is_epoch s).
Proof.
  intros Hs E. destruct (incarnation_reads s Hs) as [Hsize Hread]. unfold recorded_epoch, ReadFileBounded. rewrite E.
  by rewrite (proj2 (Z.ltb_ge _ _)).
Qed.

(** A start makes the directory, and writes the record of the next epoch. *)
Lemma Advance_ops m state_dir d e ops :
  readable state_dir d -> machine_ok m -> AdvanceIncarnation m state_dir d = (e, ops) ->
  exists made written, ops = made ++ written /\ dk_files (apply_ops made d) = dk_files d /\
    Forall (fun op => exists p, op = MakeDirectories p) made /\
    ((written = [] /\ exists st, e = Error st) \/
     exists s st, WriteFileAtomic (mc_writes m (incarnation_path state_dir)) (incarnation_path state_dir)
         (text_of_lines (incarnation_lines s)) = (st, written) /\
       e = (if failed st then Error st else Value s) /\ state_ok s /\ is_epoch s = last_epoch state_dir d + 1 /\
       is_epoch_continuity s = true).
Proof.
  intros Hr [Hi Hm]. unfold AdvanceIncarnation. intros (st & made & ops2 & Hmake & E & ->)%io_bind_value.
  pose proof (EnsureDirectory_files _ _ _ _ _ Hmake) as Hfiles.
  assert (Forall (fun op => exists p, op = MakeDirectories p) made) as Hmade.
  { apply EnsureDirectory_ops in Hmake as [-> | ->]; [constructor|]. apply Forall_singleton. by eexists. }
  exists made. destruct (failed st).
  { injection E as <- <-. exists []. split_and!; [done..|]. left. split; [done|by eexists]. }
  apply io_bind_value in E as (prev & ops3 & ops4 & Hprev & E & ->).
  assert (ops3 = [] /\ prev = Value (last_epoch state_dir d, true)) as [-> ->].
  { unfold previous_epoch in Hprev. cbv zeta in Hprev. unfold FileExists, recorded_epoch, ReadFileBounded in Hprev. rewrite Hfiles in Hprev.
    fold (ReadFileBounded d (incarnation_path state_dir) 4096) in Hprev. fold (recorded_epoch state_dir d) in Hprev.
    fold (FileExists d (incarnation_path state_dir)) in Hprev. unfold last_epoch.
    destruct (FileExists d (incarnation_path state_dir)) eqn:Hf; cbn [negb] in Hprev.
    - specialize (Hr Hf). destruct (recorded_epoch state_dir d); [by injection Hprev as <- <-|done].
    - injection Hprev as <- <-. split; [done|]. unfold FileExists in Hf. apply bool_decide_eq_false in Hf.
      unfold recorded_epoch, ReadFileBounded. destruct (dk_files d !! incarnation_path state_dir); [destruct Hf; by eexists|done]. }
  cbn [app] in E |- *. pose proof (last_epoch_width state_dir d) as Hw. unfold kMaxEpoch in E.
  destruct (Z.leb_spec (2 ^ 64 - 1 - 1) (last_epoch state_dir d)).
  { injection E as <- <-. exists []. split_and!; [done..|]. left. split; [done|by eexists]. }
  cbv zeta in E. apply io_bind_value in E as (wst & ops5 & ops6 & Hwrite & E & ->). unfold io_do in Hwrite.
  set (s := MkIncarnationState (mc_entropy m) (last_epoch state_dir d + 1) true (mc_unix_millis m) sys_pid) in *.
  exists ops5. assert (ops6 = [] /\ e = (if failed wst then Error wst else Value s)) as [-> ->] by (by destruct (failed wst); injection E as <- <-).
  rewrite app_nil_r. split_and!; [done..|]. right. exists s, wst. split_and!; [done..| |done|done].
  unfold state_ok. cbn. split_and!; [done|unfold in_width in *; lia|apply sys_pid_unsigned|done].
Qed.

Lemma Advance_crashed m state_dir d e ops d' :
  readable state_dir d -> machine_ok m -> AdvanceIncarnation m state_dir d = (e, ops) -> crashed ops d d' ->
  readable state_dir d' /\ last_epoch state_dir d <= last_epoch state_dir d' <= last_epoch state_dir d + 1.
Proof.
  intros Hr Hm He Hc. destruct (Advance_ops _ _ _ _ _ Hr Hm He) as (made & written & -> & Hfiles & Hmade & Hcases).
  assert (dk_files d' = dk_files d \/ crashed written (apply_ops made d) d') as [E|Hw].
  { apply crashed_app in Hc as [Hc|Hc]; [left; by eapply made_files|by right]. }
  - destruct (recorded_frame state_dir d d') as [Er Hrr]; [by rewrite E|]. split; [by apply Hrr|]. unfold last_epoch. rewrite Er. lia.
  - destruct Hcases as [[-> _]|(s & st & Hwrite & _ & Hs & Hepoch & _)].
    + inversion Hw; subst. destruct (recorded_frame state_dir d (apply_ops made d)) as [Er Hrr]; [by rewrite Hfiles|].
      split; [by apply Hrr|]. unfold last_epoch. rewrite Er. lia.
    + destruct (WriteFileAtomic_crash _ _ _ _ _ _ _ Hwrite Hw) as [[E|[_ E]] _].
      * rewrite Hfiles in E. destruct (recorded_frame state_dir d d' E) as [Er Hrr]. split; [by apply Hrr|]. unfold last_epoch. rewrite Er. lia.
      * apply recorded_written in E; [|done]. unfold readable, last_epoch in *. rewrite E. cbn. split; [done|lia].
Qed.

Lemma Advance_value m state_dir d s ops :
  readable state_dir d -> machine_ok m -> AdvanceIncarnation m state_dir d = (Value s, ops) ->
  is_epoch s = last_epoch state_dir d + 1 /\ is_epoch_continuity s = true /\
  recorded_epoch state_dir (apply_ops ops d) = Some (is_epoch s).
Proof.
  intros Hr Hm He. destruct (Advance_ops _ _ _ _ _ Hr Hm He) as (made & written & -> & Hfiles & Hmade & Hcases).
  destruct Hcases as [[_ [? ?]]|(s' & st & Hwrite & E & Hs & Hepoch & Hc)]; [done|].
  destruct (failed st) eqn:Hst; [done|]. injection E as ->. split_and!; [done..|].
  rewrite apply_ops_app. apply WriteFileAtomic_done with (d := apply_ops made d) in Hwrite. rewrite Hst in Hwrite.
  by apply recorded_written.
Qed.
End facts.

(** ** Theorems *)

(** The life of a state directory: starts that succeed, whose epochs are listed,
    and starts that are cut short by a crash or fail. *)
Inductive lives `{System} (state_dir : string) : Disk -> list Epoch -> Disk -> Prop :=
  | lives_no_more d : lives state_dir d [] d
  | lives_started m s ops d epochs d' :
      machine_ok m -> AdvanceIncarnation m state_dir d = (Value s, ops) ->
      lives state_dir (apply_ops ops d) epochs d' -> lives state_dir d (is_epoch s :: epochs) d'
  | lives_crashed m e ops d d1 epochs d' :
      machine_ok m -> AdvanceIncarnation m state_dir d = (e, ops) -> crashed ops d d1 ->
      lives state_dir d1 epochs d' -> lives state_dir d epochs d'.

(** Every start has a higher epoch.  From a directory whose record can be
    read, or that has none, the epochs of the incarnations that start are strictly
    increasing, whichever starts fail or crash in between. *)
Theorem epochs_increase `{System} (state_dir : string) (d d' : Disk) (epochs : list Epoch) :
  lives state_dir d epochs d' -> readable state_dir d ->
  StronglySorted Z.lt epochs /\ Forall (fun e => last_epoch state_dir d < e) epochs.
Proof.
  induction 1 as [d|m s ops d epochs d' Hm He _ IH|m e ops d d1 epochs d' Hm He Hc _ IH]; intros Hr; [by split; constructor|..].
  - destruct (Advance_value _ _ _ _ _ Hr Hm He) as (Hs & _ & Hrec).
    destruct (Advance_crashed _ _ _ _ _ _ Hr Hm He (crashed_end ops d)) as [Hr' _]. destruct (IH Hr') as [Hsort Hall].
    unfold last_epoch in Hall at 1. rewrite Hrec in Hall. cbn in Hall. split; [by constructor|].
    constructor; [lia|]. eapply Forall_impl; [exact Hall|]. cbn. lia.
  - destruct (Advance_crashed _ _ _ _ _ _ Hr Hm He Hc) as [Hr' Hle]. destruct (IH Hr') as [Hsort Hall]. split; [done|].
    eapply Forall_impl; [exact Hall|]. cbn. lia.
Qed.

(** A record that cannot be read is moved aside, and the count starts again
    without the claim of continuity. *)
Theorem unreadable_record_restarts `{System} (m : Machine) (state_dir : string) (d : Disk) (s : IncarnationState)
    (ops : list DiskOp) :
  FileExists d (incarnation_path state_dir) = true -> recorded_epoch state_dir d = None ->
  AdvanceIncarnation m state_dir d = (Value s, ops) -> is_epoch s = 1 /\ is_epoch_continuity s = false.
Proof.
  intros Hf Hr. unfold AdvanceIncarnation. intros (st & made & ops2 & Hmake & E & ->)%io_bind_value.
  pose proof (EnsureDirectory_files _ _ _ _ _ Hmake) as Hfiles. destruct (failed st); [done|].
  apply io_bind_value in E as (prev & ops3 & ops4 & Hprev & E & ->).
  unfold previous_epoch in Hprev. cbv zeta in Hprev. unfold FileExists, recorded_epoch, ReadFileBounded in Hprev. rewrite Hfiles in Hprev.
  fold (ReadFileBounded d (incarnation_path state_dir) 4096) in Hprev. fold (recorded_epoch state_dir d) in Hprev.
  fold (FileExists d (incarnation_path state_dir)) in Hprev. rewrite Hf, Hr in Hprev. cbn [negb] in Hprev.
  destruct (RenameFile _ _ _) as [q opsq]. destruct (failed q); injection Hprev as <- <-; [done|].
  change (kMaxEpoch - 1 <=? 0) with false in E. cbv zeta iota beta in E.
  apply io_bind_value in E as (wst & ops5 & ops6 & _ & E & _). destruct (failed wst); [done|]. by injection E as <- <-.
Qed.

Module SampleIncarnation.
#[local] Existing Instance SampleSystem.linux.

Definition machine : Machine :=
  MkMachine (MkIncarnation (repeat 7 16)) 1700000000000 (fun _ => no_faults) (fun _ => false) (fun _ => false) (fun _ => false).

Lemma machine_fits : machine_ok machine.
Proof. split; [split; [done|repeat constructor; by vm_compute]|by vm_compute]. Qed.

Definition start (d : Disk) : Expected IncarnationState * list DiskOp := AdvanceIncarnation machine "/v" d.
Definition empty_disk : Disk := MkDisk ∅ ∅.
Definition first_disk : Disk := apply_ops (snd (start empty_disk)) empty_disk.
Definition second_disk : Disk := apply_ops (snd (start first_disk)) first_disk.
Definition torn_disk : Disk := MkDisk {["/v/incarnation.oppf" := "OPP-INC"]} ∅.
End SampleIncarnation.

Section witnesses.
Existing Instance SampleSystem.linux.

Lemma epochs_increase_witness :
  lives "/v" SampleIncarnation.empty_disk [1; 2] SampleIncarnation.second_disk /\ StronglySorted Z.lt [1; 2].
Proof.
  assert (lives "/v" SampleIncarnation.empty_disk [1; 2] SampleIncarnation.second_disk) as Hl.
  { eapply (lives_started "/v" SampleIncarnation.machine
      (MkIncarnationState (mc_entropy SampleIncarnation.machine) 1 true 1700000000000 42));
      [apply SampleIncarnation.machine_fits|by vm_compute|].
    eapply (lives_started "/v" SampleIncarnation.machine
      (MkIncarnationState (mc_entropy SampleIncarnation.machine) 2 true 1700000000000 42));
      [apply SampleIncarnation.machine_fits|by vm_compute|]. apply lives_no_more. }
  split; [exact Hl|]. refine (proj1 (epochs_increase "/v" _ _ _ Hl _)). by vm_compute.
Defined.

Lemma unreadable_record_restarts_witness :
  exists s ops, AdvanceIncarnation SampleIncarnation.machine "/v" SampleIncarnation.torn_disk = (Value s, ops) /\ is_epoch s = 1.
Proof.
  exists (MkIncarnationState (mc_entropy SampleIncarnation.machine) 1 false 1700000000000 42),
    (snd (AdvanceIncarnation SampleIncarnation.machine "/v" SampleIncarnation.torn_disk)).
  assert (AdvanceIncarnation SampleIncarnation.machine "/v" SampleIncarnation.torn_disk =
    (Value (MkIncarnationState (mc_entropy SampleIncarnation.machine) 1 false 1700000000000 42),
     snd (AdvanceIncarnation SampleIncarnation.machine "/v" SampleIncarnation.torn_disk))) as E by (by vm_compute).
  split; [exact E|]. refine (proj1 (unreadable_record_restarts _ _ _ _ _ _ _ E)); by vm_compute.
Defined.
End witnesses.
