(* ===== verification/Service.v ===== *)
(** * Service: the state and the handlers of the inspection service

    [src/service.cpp].  The state of a [Service] is a record, its disk that of
    [Files]; a handler is an [IO] that answers the response and the next state.
    What a handler does under the lock is one update of the state; [Plan]
    releases the lock while it plans, so it is made of a first and a last update
    ([begin_plan], [end_plan]) with the planning between them.  A connection is
    the bytes the peer sends until it closes. *)

From S2P Require Import Prelude Status Ids Doubles Spectrum Canonical Topology SnapshotText Request Outcome Search Plan.
From S2P Require Import Result Planner Validate Proto Messages PlanText RequestText SnapshotRead Files Store Incarnation.

Definition kSnapshotFileName : string := "snapshot.oppsnap".
Definition kLockFileName : string := "service.lock".
Definition VersionString : string := "1.0.0".

Record ServiceOptions := MkServiceOptions {
  sp_state_dir : string; sp_store_root : string; sp_max_connections : Z; sp_max_frame_bytes : Z;
  sp_max_stored_plans : Z; sp_expansion_ceiling : Z; sp_persist_snapshots : bool
}.

Record ServiceStats := MkStats {
  connections_accepted : Z; frames_handled : Z; frames_rejected : Z; snapshots_ingested : Z; plans_computed : Z;
  plans_rejected : Z; plans_cancelled : Z; active_requests : Z; fenced_frames : Z
}.

Definition no_stats : ServiceStats := MkStats 0 0 0 0 0 0 0 0 0.

(** A connection is a number; [sv_workers] is [workers_.size()]. *)
Record Service := MkService {
  sv_options : ServiceOptions;
  sv_incarnation : IncarnationState;
  sv_stopping : bool;
  sv_snapshot : option TopologySnapshot;
  sv_snapshot_fresh : bool;
  sv_store : StoreOptions;
  sv_workers : Z;
  sv_active_connections : list Z;
  sv_cancellations : list (Z * bool);
  sv_stats : ServiceStats
}.

Definition sv_epoch (s : Service) : Epoch := is_epoch (sv_incarnation s).

(** ** Updates of the state *)

Definition put_stats (f : ServiceStats -> ServiceStats) (s : Service) : Service :=
  MkService (sv_options s) (sv_incarnation s) (sv_stopping s) (sv_snapshot s) (sv_snapshot_fresh s) (sv_store s)
    (sv_workers s) (sv_active_connections s) (sv_cancellations s) (f (sv_stats s)).

Definition put_snapshot (t : TopologySnapshot) (s : Service) : Service :=
  MkService (sv_options s) (sv_incarnation s) (sv_stopping s) (Some t) true (sv_store s)
    (sv_workers s) (sv_active_connections s) (sv_cancellations s) (sv_stats s).

Definition put_cancellations (c : list (Z * bool)) (s : Service) : Service :=
  MkService (sv_options s) (sv_incarnation s) (sv_stopping s) (sv_snapshot s) (sv_snapshot_fresh s) (sv_store s)
    (sv_workers s) (sv_active_connections s) c (sv_stats s).

Definition put_connections (workers : Z) (active : list Z) (s : Service) : Service :=
  MkService (sv_options s) (sv_incarnation s) (sv_stopping s) (sv_snapshot s) (sv_snapshot_fresh s) (sv_store s)
    workers active (sv_cancellations s) (sv_stats s).

(** [StopConnections], and so [Shutdown]. *)
Definition StopConnections (s : Service) : Service :=
  MkService (sv_options s) (sv_incarnation s) true (sv_snapshot s) (sv_snapshot_fresh s) (sv_store s)
    (sv_workers s) (sv_active_connections s) (sv_cancellations s) (sv_stats s).

(** [counter += by], on 64 bits. *)
Definition add_accepted (c : ServiceStats) : ServiceStats :=
  MkStats (wrap64 (connections_accepted c + 1)) (frames_handled c) (frames_rejected c) (snapshots_ingested c)
    (plans_computed c) (plans_rejected c) (plans_cancelled c) (active_requests c) (fenced_frames c).
Definition add_handled (c : ServiceStats) : ServiceStats :=
  MkStats (connections_accepted c) (wrap64 (frames_handled c + 1)) (frames_rejected c) (snapshots_ingested c)
    (plans_computed c) (plans_rejected c) (plans_cancelled c) (active_requests c) (fenced_frames c).
Definition add_frame_rejected (c : ServiceStats) : ServiceStats :=
  MkStats (connections_accepted c) (frames_handled c) (wrap64 (frames_rejected c + 1)) (snapshots_ingested c)
    (plans_computed c) (plans_rejected c) (plans_cancelled c) (active_requests c) (fenced_frames c).
Definition add_ingested (c : ServiceStats) : ServiceStats :=
  MkStats (connections_accepted c) (frames_handled c) (frames_rejected c) (wrap64 (snapshots_ingested c + 1))
    (plans_computed c) (plans_rejected c) (plans_cancelled c) (active_requests c) (fenced_frames c).
Definition add_active (by_ : Z) (c : ServiceStats) : ServiceStats :=
  MkStats (connections_accepted c) (frames_handled c) (frames_rejected c) (snapshots_ingested c)
    (plans_computed c) (plans_rejected c) (plans_cancelled c) (wrap64 (active_requests c + by_)) (fenced_frames c).
Definition add_fenced (c : ServiceStats) : ServiceStats :=
  MkStats (connections_accepted c) (frames_handled c) (frames_rejected c) (snapshots_ingested c)
    (plans_computed c) (plans_rejected c) (plans_cancelled c) (active_requests c) (wrap64 (fenced_frames c + 1)).

(** The counters of a request that was planned. *)
Definition add_planned (computed rejected cancelled : Z) (c : ServiceStats) : ServiceStats :=
  MkStats (connections_accepted c) (frames_handled c) (frames_rejected c) (snapshots_ingested c)
    (wrap64 (plans_computed c + computed)) (wrap64 (plans_rejected c + rejected)) (wrap64 (plans_cancelled c + cancelled))
    (active_requests c) (fenced_frames c).

(** ** The handlers *)

Section handlers.
Context `{Platform, Hasher, System}.

(** The response frame of a service to a frame, by its kind and payload. *)
Definition respond (s : Service) (frame : Frame) (kind : MessageKind.t) (payload : string) : Frame :=
  MkFrame kind (fr_sequence frame) (sv_epoch s) payload.

Definition refuse (s : Service) (frame : Frame) (st : Status) : Frame := MakeFailureFrame (fr_sequence frame) (sv_epoch s) st.

Definition fenced (s : Service) (frame : Frame) (why : string) : Frame * Service :=
  (refuse s frame (Failure StatusCode.Fenced (why +:+ " (current epoch " +:+ FormatU64 (sv_epoch s) +:+ ")")),
   put_stats add_fenced s).

Definition handle_hello (s : Service) (frame : Frame) : Frame * Service :=
  match DecodeHello (fr_payload frame) with
  | Error st => (refuse s frame st, s)
  | Value message =>
      if negb (hm_protocol_version message =? kProtocolVersion) then
        (refuse s frame (Failure StatusCode.Unsupported "client transport revision is not supported"), s)
      else
        let ack i g d :=
          MkHelloAck kProtocolVersion VersionString (is_incarnation (sv_incarnation s)) (sv_epoch s)
            (is_epoch_continuity (sv_incarnation s)) (match sv_snapshot s with Some _ => true | None => false end)
            (sv_snapshot_fresh s) i g d in
        (respond s frame MessageKind.HelloAck (EncodeHelloAck
           (match sv_snapshot s with
            | Some t => ack (t_id t) (t_generation t) (t_digest t)
            | None => ack (MkId "") 0 zero_digest
            end)), s)
  end.

Definition snapshot_path (o : ServiceOptions) : string := JoinPath (sp_state_dir o) kSnapshotFileName.

(** [SaveSnapshotFile] *)
Definition SaveSnapshotFile (m : Machine) (path : string) (t : TopologySnapshot) : IO Status :=
  io_do (WriteFileAtomic (mc_writes m path) path (SnapshotToText t)).

Definition handle_ingest (m : Machine) (s : Service) (frame : Frame) : IO (Frame * Service) :=
  match DecodeIngest (fr_payload frame) with
  | Error st => io_return (refuse s frame st, s)
  | Value message =>
      match ParseSnapshotText (im_snapshot_text message) with
      | Error st => io_return (refuse s frame st, s)
      | Value t =>
          if negb (digest_eqb (t_digest t) (im_snapshot_digest message)) then
            io_return (refuse s frame (Failure StatusCode.IntegrityFailure
              "the declared snapshot digest does not match the snapshot content"), s)
          else
            written <== (if sp_persist_snapshots (sv_options s) then SaveSnapshotFile m (snapshot_path (sv_options s)) t
                         else io_return OkStatus) ;;
            if failed written then io_return (refuse s frame written, s)
            else
              io_return
                (respond s frame MessageKind.IngestAck (EncodeIngestAck (MkIngestAck (t_id t) (t_generation t) (t_digest t))),
                 put_stats add_ingested (put_snapshot t s))
      end
  end.

(** *** Planning *)

Definition begin_plan (s : Service) : Service := put_stats (add_active 1) s.

(** What a request is answered on a snapshot; the token is never cancelled. *)
Definition plan_on (o : ServiceOptions) (snapshot : option TopologySnapshot) (request : PlanningRequest) : PlanningResult :=
  match snapshot with
  | None =>
      Result_Seal (MkResult PlanOutcome.Indeterminate
        (Failure StatusCode.NotFound "no topology snapshot has been ingested by this incarnation")
        (ComputeRequestDigest request) zero_digest [] [] kLimitationStaleEvidence [] no_statistics false zero_digest)
  | Some t => Plan (MkOptions (sp_expansion_ceiling o) kMaxSearchLabelsCeiling true) t request (fun _ _ => false)
  end.

(** Puts the candidates of a feasible result; whether all were stored. *)
Fixpoint store_plans (m : Machine) (o : StoreOptions) (plans : list PlanArtifact) : IO bool :=
  match plans with
  | [] => io_return true
  | p :: rest =>
      put <== Put (mc_writes m (PathFor o (pl_digest p))) o p ;;
      stored <== store_plans m o rest ;;
      io_return (negb (failed put) && stored)
  end.

Definition store_result (m : Machine) (o : StoreOptions) (result : PlanningResult) : IO bool :=
  if bool_decide (rs_outcome result = PlanOutcome.Feasible) then store_plans m o (rs_candidates result) else io_return true.

Definition end_plan (outcome : PlanOutcome.t) (stored : bool) (s : Service) : Service :=
  let count := match outcome with
               | PlanOutcome.Cancelled => add_planned 0 0 1
               | PlanOutcome.Feasible => add_planned 1 (if stored then 0 else 1) 0
               | _ => add_planned 0 1 0
               end in
  put_stats (fun c => count (add_active (-1) c)) s.

(** The request of a [Plan] frame. *)
Definition plan_request (frame : Frame) : Expected PlanningRequest :=
  let! message := DecodePlan (fr_payload frame) in ParseRequestText (pm_request_text message).

Definition plan_response (s : Service) (frame : Frame) (result : PlanningResult) : Frame :=
  respond s frame MessageKind.PlanAck (EncodePlanAck (MkPlanAck (ResultToText result))).

Definition handle_plan (m : Machine) (s : Service) (frame : Frame) : IO (Frame * Service) :=
  match plan_request frame with
  | Error st => io_return (refuse s frame st, s)
  | Value request =>
      let s := begin_plan s in
      let result := plan_on (sv_options s) (sv_snapshot s) request in
      stored <== store_result m (sv_store s) result ;;
      io_return (plan_response s frame result, end_plan (rs_outcome result) stored s)
  end.

(** *** The other requests *)

Definition handle_validate (s : Service) (frame : Frame) : Frame * Service :=
  match DecodeValidate (fr_payload frame) with
  | Error st => (refuse s frame st, s)
  | Value message =>
      match ParsePlanArtifact (vm_plan_text message) with
      | Error st => (refuse s frame st, s)
      | Value plan =>
          let ack :=
            match sv_snapshot s with
            | None => MkValidateAck PlanValidity.MissingEvidence "no topology snapshot has been ingested by this incarnation"
            | Some t =>
                let report := ValidatePlanBindings plan t (vm_policy message) in
                MkValidateAck (vr_validity report) (Report_ExplainText report)
            end in
          (respond s frame MessageKind.ValidateAck (EncodeValidateAck ack), s)
      end
  end.

Definition handle_get_plan (s : Service) (frame : Frame) (d : Disk) : Frame * Service :=
  match DecodeGetPlan (fr_payload frame) with
  | Error st => (refuse s frame st, s)
  | Value message =>
      match Get (sv_store s) d (gm_digest message) with
      | Error st => (refuse s frame st, s)
      | Value plan =>
          (respond s frame MessageKind.GetPlanAck (EncodeGetPlanAck (MkGetPlanAck (pl_digest plan) (CanonicalBytes plan))), s)
      end
  end.

Definition handle_store_list (s : Service) (frame : Frame) (d : Disk) : Frame * Service :=
  match List (sv_store s) d with
  | Error st => (refuse s frame st, s)
  | Value (entries, rejected) =>
      (respond s frame MessageKind.StoreListAck (EncodeStoreListAck (MkStoreListAck (map se_digest entries) rejected)), s)
  end.

Definition handle_cancel (s : Service) (frame : Frame) : Frame * Service :=
  match DecodeCancel (fr_payload frame) with
  | Error st => (refuse s frame st, s)
  | Value message =>
      let asked := cm_cancel_token message in
      let cancel (e : Z * bool) : Z * bool := if (asked =? 0) || (fst e =? asked) then (fst e, true) else e in
      let found :=
        if asked =? 0 then negb (bool_decide (sv_cancellations s = []))
        else existsb (fun e => fst e =? asked) (sv_cancellations s) in
      (respond s frame MessageKind.CancelAck (EncodeCancelAck (MkCancelAck found)),
       put_cancellations (map cancel (sv_cancellations s)) s)
  end.

Definition handle_stats (s : Service) (frame : Frame) (d : Disk) : Frame * Service :=
  let c := sv_stats s in
  (respond s frame MessageKind.StatsAck (EncodeStatsAck
     (MkStatsAck (is_incarnation (sv_incarnation s)) (sv_epoch s) (connections_accepted c) (frames_handled c)
        (frames_rejected c) (snapshots_ingested c) (plans_computed c) (plans_rejected c) (plans_cancelled c)
        (active_requests c) (Count (sv_store s) d) (fenced_frames c))), s).

Definition HandleFrameFor (m : Machine) (s : Service) (frame : Frame) : IO (Frame * Service) :=
  if negb (fr_epoch_pin frame =? 0) && negb (fr_epoch_pin frame =? sv_epoch s) then
    io_return (fenced s frame "the frame is pinned to an epoch this incarnation does not own")
  else
    match fr_kind frame with
    | MessageKind.Hello => io_return (handle_hello s frame)
    | MessageKind.Ingest => handle_ingest m s frame
    | MessageKind.Plan => handle_plan m s frame
    | MessageKind.Validate => io_return (handle_validate s frame)
    | MessageKind.GetPlan => io_look (handle_get_plan s frame)
    | MessageKind.StoreList => io_look (handle_store_list s frame)
    | MessageKind.Cancel => io_return (handle_cancel s frame)
    | MessageKind.Stats => io_look (handle_stats s frame)
    | MessageKind.Shutdown => io_return (respond s frame MessageKind.ShutdownAck "", StopConnections s)
    | _ =>
        io_return (refuse s frame
          (Failure StatusCode.InvalidArgument "the frame is not a request this service handles"), s)
    end.
End handlers.
