(* ===== verification/Server.v ===== *)
(** * Server: connections, start and the client

    The rest of [src/service.cpp]: [ReadFrame] and [ServeConnection] over the
    bytes a peer sends, the accept loop of [Run], [Service::Start], and the
    exchanges of [ServiceClient].  Sockets, timeouts and threads are left out: a
    peer sends some bytes and closes, and it takes whatever is sent to it. *)

From S2P Require Import Prelude Status Ids Doubles Spectrum Canonical Topology SnapshotText Request Outcome Search Plan.
From S2P Require Import Result Planner Validate Proto Messages PlanText RequestText ResultText SnapshotRead.
From S2P Require Import Files Store Incarnation Service.

Section server.
Context `{Platform, Hasher, System}.

(** ** Frames of a stream *)

Definition closed (what : string) : Status := Failure StatusCode.IoFailure ("connection closed while reading a frame " +:+ what).

(** The length a frame's header declares. *)
Definition read_frame_header (max_frame_bytes : Z) : Reader Z :=
  magic <-- Reader_U32 ;;
  if negb (magic =? kFrameMagic) then rfail (Failure StatusCode.MalformedInput "frame magic is not recognised")
  else
    version <-- Reader_U32 ;;
    if negb (version =? kProtocolVersion)
    then rfail (Failure StatusCode.Unsupported "transport revision is not supported by this runtime")
    else
      kind <-- Reader_U32 ;; sequence <-- Reader_U64 ;; epoch <-- Reader_U64 ;; length <-- Reader_U32 ;;
      if max_frame_bytes <? length
      then rfail (Failure StatusCode.LimitExceeded "frame payload exceeds the permitted maximum size")
      else rreturn length.

(** The next frame of the bytes a peer sends, and the bytes after it. *)
Definition ReadFrame (max_frame_bytes : Z) (stream : string) : Expected (Frame * string) :=
  if string_size stream <? kFrameHeaderBytes then Error (closed "header")
  else
    let! length := read_text (read_frame_header max_frame_bytes) (substr stream 0 kFrameHeaderBytes) in
    let total := kFrameHeaderBytes + length + 32 in
    if string_size stream <? total then Error (closed "body")
    else
      let! (frame, _) := DecodeFrame (substr stream 0 total) in
      Value (frame, substr stream total (string_size stream - total)).

(** ** A connection *)

(** The loop of [ServeConnection]: the bytes sent to the peer, and the state.
    Every turn takes a frame off the stream. *)
Fixpoint serve (fuel : nat) (m : Machine) (s : Service) (stream : string) : IO (string * Service) :=
  match fuel with
  | O => io_return ("", s)
  | S fuel =>
      if sv_stopping s then io_return ("", s)
      else
        match ReadFrame (sp_max_frame_bytes (sv_options s)) stream with
        | Error st =>
            if bool_decide (code st = StatusCode.IoFailure) then io_return ("", s)
            else io_return (EncodeFrame (MakeFailureFrame 0 (sv_epoch s) st), put_stats add_frame_rejected s)
        | Value (frame, rest) =>
            if bool_decide (fr_kind frame = MessageKind.Shutdown) then
              io_return (EncodeFrame (respond s frame MessageKind.ShutdownAck ""), StopConnections (put_stats add_handled s))
            else
              answer <== HandleFrameFor m s frame ;;
              let '(response, s) := answer in
              let s := put_stats (if bool_decide (fr_kind response = MessageKind.Failure) then add_frame_rejected else add_handled) s in
              more <== serve fuel m s rest ;;
              let '(sent, s) := more in
              io_return (EncodeFrame response +:+ sent, s)
        end
  end.

(** [std::find] and [erase] of one element. *)
Fixpoint erase_first (x : Z) (l : list Z) : list Z :=
  match l with
  | [] => []
  | y :: rest => if x =? y then rest else y :: erase_first x rest
  end.

Definition CloseConnection (connection : Z) (s : Service) : Service :=
  put_connections (sv_workers s) (erase_first connection (sv_active_connections s)) s.

Definition ServeConnection (m : Machine) (connection : Z) (stream : string) (s : Service) : IO (string * Service) :=
  served <== serve (S (String.length stream)) m s stream ;;
  let '(sent, s) := served in
  io_return (sent, CloseConnection connection s).

(** The part of the accept loop that runs under the lock: a refusal, or one more
    worker. *)
Definition Accept (connection : Z) (s : Service) : option Frame * Service :=
  if sp_max_connections (sv_options s) <=? sv_workers s then
    (Some (MkFrame MessageKind.Failure 0 0 (EncodeFailure
       (MkFailureMessage (StatusCode_number StatusCode.Exhausted) "the service has reached its connection bound"))),
     put_stats add_frame_rejected s)
  else
    (None, put_stats add_accepted (put_connections (sv_workers s + 1) (sv_active_connections s ++ [connection]) s)).

(** ** Starting *)

(** What the operating system answers to the lock and the listening socket. *)
Record Boot := MkBoot { bo_lock : option Status; bo_socket : Status }.

Definition lock_path (o : ServiceOptions) : string := JoinPath (sp_state_dir o) kLockFileName.

(** [StateDirectoryLock::Acquire]: the file is made when it is missing. *)
Definition Acquire (boot : Boot) (path : string) : IO Status :=
  fun d => match bo_lock boot with
           | Some st => (st, [])
           | None => (OkStatus, if FileExists d path then [] else [Create path])
           end.

(** The snapshot an earlier incarnation persisted, marked as restored. *)
Definition restore (o : ServiceOptions) (i : IncarnationState) (d : Disk) : option TopologySnapshot :=
  if negb (sp_persist_snapshots o) || negb (FileExists d (snapshot_path o)) then None
  else
    match (let! text := ReadFileBounded d (snapshot_path o) kMaxSnapshotTextBytes in ParseSnapshotText text) with
    | Error _ => None
    | Value t => Some (MarkRestored t (is_incarnation i) (is_epoch i))
    end.

Definition store_options (o : ServiceOptions) : StoreOptions :=
  MkStoreOptions (if bool_decide (sp_store_root o = "") then sp_state_dir o else sp_store_root o) (sp_max_stored_plans o) true.

Definition fail_start (st : Status) : IO (Expected Service) := io_return (Error st).

Definition Start (boot : Boot) (m : Machine) (o : ServiceOptions) : IO (Expected Service) :=
  if bool_decide (sp_state_dir o = "") then
    fail_start (Failure StatusCode.InvalidArgument "the service requires a state directory")
  else if mc_mkdir_fails m (sp_state_dir o) then
    fail_start (Failure StatusCode.IoFailure ("cannot create the state directory: " +:+ sys_message (sp_state_dir o)))
  else
    made <== io_do (tt, [MakeDirectories (sp_state_dir o)]) ;;
    locked <== Acquire boot (lock_path o) ;;
    if failed locked then fail_start locked
    else
      incarnation <== AdvanceIncarnation m (sp_state_dir o) ;;
      match incarnation with
      | Error st => fail_start st
      | Value i =>
          opened <== Open (mc_mkdir_fails m) (mc_remove_fails m) (store_options o) ;;
          if failed opened then fail_start opened
          else
            restored <== io_look (restore o i) ;;
            if failed (bo_socket boot) then fail_start (bo_socket boot)
            else io_return (Value (MkService o i false restored false (store_options o) 0 [] [] no_stats))
      end.

(** ** The client *)

Record ServiceClient := MkClient { cl_max_frame_bytes : Z; cl_sequence : Z; cl_epoch_pin : Epoch }.

Definition SetEpochPin (c : ServiceClient) (epoch : Epoch) : ServiceClient :=
  MkClient (cl_max_frame_bytes c) (cl_sequence c) epoch.

(** The code of a number; a number that names no code is outside the type, and
    is taken as INTERNAL. *)
Definition status_code_of (n : Z) : StatusCode.t :=
  default StatusCode.Internal (List.find (fun k => StatusCode_number k =? n) kStatusCodes).

(** [peer] is what the other side answers to the bytes sent to it. *)
Definition Exchange (peer : string -> string) (kind : MessageKind.t) (payload : string) (c : ServiceClient) :
  Expected Frame * ServiceClient :=
  let c := MkClient (cl_max_frame_bytes c) (wrap64 (cl_sequence c + 1)) (cl_epoch_pin c) in
  let answer :=
    let! (response, _) := ReadFrame (cl_max_frame_bytes c) (peer (EncodeFrame (MkFrame kind (cl_sequence c) (cl_epoch_pin c) payload))) in
    if bool_decide (fr_kind response = MessageKind.Failure) then
      let! message := DecodeFailure (fr_payload response) in
      Error (Failure (status_code_of (fm_code message)) (fm_detail message))
    else Value response in
  (answer, c).

Definition expect (kind : MessageKind.t) (what : string) (e : Expected Frame) : Expected string :=
  let! response := e in
  if negb (bool_decide (fr_kind response = kind)) then
    Error (Failure StatusCode.Internal ("the service answered " +:+ what +:+ " with an unexpected message"))
  else Value (fr_payload response).

(** A request whose answer is of one kind, and the reader of its payload. *)
Definition call {A} (peer : string -> string) (kind ack : MessageKind.t) (what payload : string) (read : string -> Expected A)
    (c : ServiceClient) : Expected A * ServiceClient :=
  let '(response, c) := Exchange peer kind payload c in
  (let! payload := expect ack what response in read payload, c).

Definition Client_Hello peer (client_name : string) : ServiceClient -> Expected HelloAckMessage * ServiceClient :=
  call peer MessageKind.Hello MessageKind.HelloAck "a hello" (EncodeHello (MkHello kProtocolVersion client_name)) DecodeHelloAck.

Definition Client_Ingest peer (t : TopologySnapshot) : ServiceClient -> Expected IngestAckMessage * ServiceClient :=
  call peer MessageKind.Ingest MessageKind.IngestAck "an ingest" (EncodeIngest (MkIngest (t_digest t) (SnapshotToText t)))
    DecodeIngestAck.

Definition Client_Plan peer (request : PlanningRequest) (cancel_token : Z) :
  ServiceClient -> Expected PlanningResult * ServiceClient :=
  call peer MessageKind.Plan MessageKind.PlanAck "a plan request" (EncodePlan (MkPlanMessage cancel_token (RequestToText request)))
    (fun payload => let! ack := DecodePlanAck payload in ParseResultText (pa_result_text ack)).

(** The report the client makes of a verdict and its text. *)
Definition client_report (ack : ValidateAckMessage) : ValidationReport :=
  MkReport (va_validity ack)
    (if bool_decide (va_validity ack = PlanValidity.Valid) then OkStatus else Failure StatusCode.Stale (va_report_text ack))
    [] zero_digest zero_digest false [].

Definition Client_Validate peer (plan : PlanArtifact) (policy : ValidationPolicy) :
  ServiceClient -> Expected ValidationReport * ServiceClient :=
  call peer MessageKind.Validate MessageKind.ValidateAck "a validation" (EncodeValidate (MkValidate policy (CanonicalBytes plan)))
    (fun payload => let! ack := DecodeValidateAck payload in Value (client_report ack)).

Definition Client_GetPlan peer (digest : Digest256) : ServiceClient -> Expected PlanArtifact * ServiceClient :=
  call peer MessageKind.GetPlan MessageKind.GetPlanAck "a fetch" (EncodeGetPlan (MkGetPlan digest))
    (fun payload => let! ack := DecodeGetPlanAck payload in ParsePlanArtifact (ga_plan_text ack)).

Definition Client_StoreList peer : ServiceClient -> Expected StoreListAckMessage * ServiceClient :=
  call peer MessageKind.StoreList MessageKind.StoreListAck "a listing" EncodeStoreList DecodeStoreListAck.

Definition Client_Cancel peer (cancel_token : Z) : ServiceClient -> Expected CancelAckMessage * ServiceClient :=
  call peer MessageKind.Cancel MessageKind.CancelAck "a cancellation" (EncodeCancel (MkCancel cancel_token)) DecodeCancelAck.

Definition Client_Stats peer : ServiceClient -> Expected StatsAckMessage * ServiceClient :=
  call peer MessageKind.Stats MessageKind.StatsAck "a statistics request" EncodeStats DecodeStatsAck.

Definition Client_Shutdown peer : ServiceClient -> Expected unit * ServiceClient :=
  call peer MessageKind.Shutdown MessageKind.ShutdownAck "a shutdown" "" (fun _ => Value tt).

(** A peer that is a connection to a service. *)
Definition connection_of (m : Machine) (s : Service) (d : Disk) (stream : string) : string :=
  fst (fst (ServeConnection m 0 stream s d)).
End server.
