(* ===== verification/ServiceFacts.v ===== *)
(** * ServiceFacts: what the service and its client promise

    Theorems on [Service] and [Server]: frames of a stream, fencing, counters of
    requests in flight, restarts, the bound on connections, and the client's view
    of a service through the wire. *)

From S2P Require Import Prelude Status Ids Doubles Spectrum Canonical Topology SnapshotText Builder Request Outcome Search Route Plan.
From S2P Require Import PlannerFacts.
From S2P Require Import Result Planner Validate Proto Messages Lines PlanText RequestText ResultText Rebuild SnapshotRead.
From S2P Require Import Files Store Incarnation Service Server.

(** ** Lemmas: frames of a stream *)

Section streams.
Context `{Hasher, !WideHasher}.

Lemma read_frame_header_at max v k s e n :
  header_fits v k s e n ->
  read_text (read_frame_header max) (bytes_text (header_bytes v k s e n)) =
  if negb (v =? kProtocolVersion)
  then Error (Failure StatusCode.Unsupported "transport revision is not supported by this runtime")
  else if max <? n then Error (Failure StatusCode.LimitExceeded "frame payload exceeds the permitted maximum size")
  else Value n.
Proof.
  intros (Hv & Hk & Hs & He & Hn). unfold read_frame_header. run_reads.
  destruct (negb (v =? kProtocolVersion)); [done|]. run_reads. by destruct (max <? n).
Qed.

(** A frame is read exactly from its encoding, when it is within the bound. *)
Lemma ReadFrame_encoded max f rest :
  frame_fits f -> string_size (fr_payload f) <= max -> ReadFrame max (EncodeFrame f +:+ rest) = Value (f, rest).
Proof.
  intros Hf Hmax. pose proof (EncodeFrame_size f Hf) as Hsize. pose proof (DecodeFrame_encoded f "" Hf) as Hd.
  rewrite string_app_nil in Hd. unfold ReadFrame. rewrite string_size_app, Hsize.
  assert (0 <= string_size (fr_payload f)) by (unfold string_size; lia).
  assert (0 <= string_size rest) by (unfold string_size; lia). assert (kFrameHeaderBytes = 32) as H32 by done.
  rewrite (proj2 (Z.ltb_ge _ _)) by lia.
  replace (substr (EncodeFrame f +:+ rest) 0 kFrameHeaderBytes) with
    (bytes_text (header_bytes kProtocolVersion (MessageKind.number (fr_kind f)) (fr_sequence f) (fr_epoch_pin f)
       (string_size (fr_payload f)))).
  2:{ rewrite EncodeFrame_parts by done.
      rewrite <- (header_text_size kProtocolVersion (MessageKind.number (fr_kind f)) (fr_sequence f) (fr_epoch_pin f)
        (string_size (fr_payload f))). by rewrite substr_front. }
  rewrite read_frame_header_at by (by apply frame_header_fits). rewrite Z.eqb_refl. cbn [negb].
  rewrite (proj2 (Z.ltb_ge _ _)) by done. cbv zeta. rewrite (proj2 (Z.ltb_ge _ _)) by lia.
  rewrite <- Hsize, substr_front, Hd. cbv zeta beta iota. rewrite Hsize.
  replace (kFrameHeaderBytes + string_size (fr_payload f) + 32 + string_size rest -
    (kFrameHeaderBytes + string_size (fr_payload f) + 32)) with (string_size rest) by lia.
  rewrite <- Hsize. rewrite <- (string_app_nil (EncodeFrame f +:+ rest)), <- string_app_assoc. by rewrite substr_middle.
Qed.

Lemma ReadFrame_exact max stream f rest :
  ReadFrame max stream = Value (f, rest) ->
  frame_fits f /\ string_size (fr_payload f) <= max /\ stream = EncodeFrame f +:+ rest.
Proof.
  unfold ReadFrame. destruct (Z.ltb_spec (string_size stream) kFrameHeaderBytes) as [|Hs]; [done|].
  destruct (string_cut stream kFrameHeaderBytes) as (h & t & -> & Hh); [unfold kFrameHeaderBytes in *; lia|].
  assert (kFrameHeaderBytes = 32) as H32 by done.
  rewrite <- Hh at 1. rewrite substr_front. intros (n & Hn & Hr)%let_value. cbv zeta in Hr.
  destruct (Z.ltb_spec (string_size (h +:+ t)) (kFrameHeaderBytes + n + 32)) as [|Ht]; [done|].
  destruct (header_cut h Hh) as (g & v & k & s & e & len & Hg & Hfit & ->).
  assert (g = kFrameMagic /\ n = len /\ v = kProtocolVersion /\ len <= max) as (-> & -> & -> & Hlen).
  { destruct (decide (g = kFrameMagic)) as [->|Hne].
    - fold (header_bytes v k s e len) in Hn. rewrite read_frame_header_at in Hn by done.
      destruct (Z.eqb_spec v kProtocolVersion); [|done]. cbn [negb] in Hn. destruct (Z.ltb_spec max len); [done|].
      injection Hn as ->. done.
    - exfalso. rewrite read_text_at, string_bytes_text in Hn.
      2:{ rewrite !Forall_app. repeat split; apply le_bytes_width. }
      unfold read_frame_header in Hn. rewrite <- app_assoc, codec_bind_reads in Hn by done.
      by rewrite (proj2 (Z.eqb_neq _ _)) in Hn. }
  set (stream := bytes_text _ +:+ t) in *.
  assert (0 <= len) as Hpos by (destruct Hfit as (_ & _ & _ & _ & Hl); unfold in_width in Hl; lia).
  destruct (string_cut stream (kFrameHeaderBytes + len + 32)) as (whole & tail & E & Hw); [lia|].
  rewrite E in Hr |- *. rewrite <- Hw in Hr at 1. rewrite substr_front in Hr.
  destruct (DecodeFrame whole) as [[f' total]|] eqn:Hd; [|done]. cbv zeta beta iota in Hr. injection Hr as <- <-.
  apply DecodeFrame_exact in Hd as (Hf & rest' & Ewhole & ->).
  assert (string_size (fr_payload f') = len /\ rest' = "") as [Hp ->].
  { pose proof (EncodeFrame_size f' Hf) as Hsize.
    assert (exists more, stream = EncodeFrame f' +:+ more) as [more Es] by (exists (rest' +:+ tail); rewrite E, Ewhole; by rewrite string_app_assoc).
    rewrite EncodeFrame_parts in Es by done. unfold stream in Es.
    apply (f_equal (fun x => substr x 0 kFrameHeaderBytes)) in Es.
    rewrite <- Hh in Es at 1. rewrite substr_front in Es.
    rewrite <- (header_text_size kProtocolVersion (MessageKind.number (fr_kind f')) (fr_sequence f') (fr_epoch_pin f')
      (string_size (fr_payload f'))) in Es. rewrite substr_front in Es.
    apply (f_equal (read_text (read_frame_header (Z.max len (string_size (fr_payload f')))))) in Es.
    change (le_bytes 4 kFrameMagic ++ le_bytes 4 kProtocolVersion ++ le_bytes 4 k ++ le_bytes 8 s ++ le_bytes 8 e ++ le_bytes 4 len)
      with (header_bytes kProtocolVersion k s e len) in Es.
    rewrite !read_frame_header_at in Es by (done || by apply frame_header_fits).
    rewrite Z.eqb_refl in Es. cbn [negb] in Es. rewrite !(proj2 (Z.ltb_ge _ _)) in Es by lia. injection Es as El.
    split; [done|]. rewrite Ewhole, string_size_app, Hsize, <- El in Hw. destruct rest'; [done|]. unfold string_size in Hw. cbn in Hw. lia. }
  rewrite string_app_nil in Ewhole. subst whole. split; [done|]. split; [lia|]. f_equal.
  rewrite string_size_app, Hw. replace (kFrameHeaderBytes + len + 32 + string_size tail - (kFrameHeaderBytes + len + 32)) with (string_size tail) by lia.
  rewrite <- Hw. rewrite <- (string_app_nil (EncodeFrame f' +:+ tail)), <- string_app_assoc. by rewrite substr_middle.
Qed.
End streams.

(** ** Lemmas: handlers *)

Section handlers.
Context `{Platform, Hasher, System}.

(** What no handler changes; only [Shutdown] stops the service. *)
Definition same_service (f : Frame) (s s' : Service) : Prop :=
  sv_options s' = sv_options s /\ sv_incarnation s' = sv_incarnation s /\ sv_store s' = sv_store s /\
  sv_workers s' = sv_workers s /\ sv_active_connections s' = sv_active_connections s /\
  (fr_kind f <> MessageKind.Shutdown -> sv_stopping s' = sv_stopping s) /\
  (fr_kind f <> MessageKind.Ingest -> sv_snapshot s' = sv_snapshot s).

Lemma handle_ingest_cases m s f d r s' ops :
  handle_ingest m s f d = ((r, s'), ops) ->
  (s' = s /\ fr_kind r = MessageKind.Failure) \/
  exists message t, DecodeIngest (fr_payload f) = Value message /\ ParseSnapshotText (im_snapshot_text message) = Value t /\
    t_digest t = im_snapshot_digest message /\ s' = put_stats add_ingested (put_snapshot t s) /\
    r = respond s f MessageKind.IngestAck (EncodeIngestAck (MkIngestAck (t_id t) (t_generation t) (t_digest t))) /\
    (if sp_persist_snapshots (sv_options s) then
       exists st, SaveSnapshotFile m (snapshot_path (sv_options s)) t d = (st, ops) /\ failed st = false
     else ops = []).
Proof.
  unfold handle_ingest. destruct (DecodeIngest (fr_payload f)) as [message|]; [|intros [= <- <- <-]; by left].
  destruct (ParseSnapshotText _) as [t|] eqn:Ht; [|intros [= <- <- <-]; by left].
  unfold digest_eqb. case_bool_decide as Hd; cbn [negb]; [|intros [= <- <- <-]; by left].
  intros (st & ops1 & ops2 & E1 & E2 & ->)%io_bind_value.
  destruct (failed st) eqn:Hst; injection E2 as <- <- <-; [by left|]. right. exists message, t. rewrite app_nil_r. split_and!; try done.
  destruct (sp_persist_snapshots (sv_options s)); [by exists st|]. by injection E1 as _ <-.
Qed.

Lemma handled_same m s f d r s' ops : HandleFrameFor m s f d = ((r, s'), ops) -> same_service f s s'.
Proof.
  unfold HandleFrameFor. destruct (_ && _); [intros [= <- <- <-]; done|].
  unfold io_return, io_look, handle_hello, handle_validate, handle_get_plan, handle_store_list, handle_cancel, handle_stats.
  destruct (fr_kind f) eqn:Hk; intros Hh; unfold same_service; try (injection Hh as <- <- <-; by rewrite Hk);
    repeat match type of Hh with
    | context [match DecodeHello ?p with _ => _ end] => destruct (DecodeHello p)
    | context [match DecodeValidate ?p with _ => _ end] => destruct (DecodeValidate p)
    | context [match DecodeCancel ?p with _ => _ end] => destruct (DecodeCancel p)
    | context [match DecodeGetPlan ?p with _ => _ end] => destruct (DecodeGetPlan p)
    | context [match ParsePlanArtifact ?p with _ => _ end] => destruct (ParsePlanArtifact p)
    | context [match Get ?o ?d ?g with _ => _ end] => destruct (Get o d g)
    | context [match List ?o ?d with _ => _ end] => destruct (List o d) as [[]|]
    | context [if negb (hm_protocol_version ?x =? _) then _ else _] => destruct (negb (hm_protocol_version x =? kProtocolVersion))
    end; try (injection Hh as <- <- <-; done).
  - apply handle_ingest_cases in Hh as [[-> _]|(? & t & _ & _ & _ & -> & _)]; done.
  - unfold handle_plan in Hh. destruct (plan_request f); [|by injection Hh as <- <- <-].
    cbv zeta in Hh. apply io_bind_value in Hh as (stored & ops1 & ops2 & _ & E & _). injection E as <- <- <-. done.
Qed.

(** The snapshot the service plans on, if any, is well formed. *)
Definition snapshot_sound (s : Service) : Prop :=
  forall t, sv_snapshot s = Some t -> wf_snapshot t /\ identified t.

Lemma handled_sound m s f d r s' ops :
  HandleFrameFor m s f d = ((r, s'), ops) -> snapshot_sound s -> snapshot_sound s'.
Proof.
  intros Hh Hs. destruct (decide (fr_kind f = MessageKind.Ingest)) as [Hk|Hk].
  - unfold HandleFrameFor in Hh. destruct (_ && _); [by injection Hh as <- <- <-|]. rewrite Hk in Hh.
    apply handle_ingest_cases in Hh as [[-> _]|(message & t & _ & Ht & _ & -> & _)]; [done|]. intros t' [= <-].
    by eapply read_snapshot_sealed.
  - apply handled_same in Hh as (_ & _ & _ & _ & _ & _ & E). unfold snapshot_sound. by rewrite E.
Qed.
End handlers.

(** ** Lemmas: a connection *)

Section connections.
Context `{Platform, Hasher, !WideHasher, System}.

(** The frames of a connection handled one after the other: the reference of
    [serve]. *)
Fixpoint handle_all (m : Machine) (s : Service) (frames : list Frame) : IO (list Frame * Service) :=
  match frames with
  | [] => io_return ([], s)
  | f :: rest =>
      answer <== HandleFrameFor m s f ;;
      let '(response, s) := answer in
      let s := put_stats (if bool_decide (fr_kind response = MessageKind.Failure) then add_frame_rejected else add_handled) s in
      more <== handle_all m s rest ;;
      let '(responses, s) := more in
      io_return (response :: responses, s)
  end.

Definition stream_of (frames : list Frame) : string := fold_right (fun f t => EncodeFrame f +:+ t) "" frames.

(** A request other than [Shutdown] that the service takes. *)
Definition acceptable (max_frame_bytes : Z) (f : Frame) : Prop :=
  frame_fits f /\ string_size (fr_payload f) <= max_frame_bytes /\ fr_kind f <> MessageKind.Shutdown.

Lemma stream_fuel frames : Forall frame_fits frames -> (length frames <= String.length (stream_of frames))%nat.
Proof.
  induction 1 as [|f frames Hf Hfs IH]; [done|]. cbn [stream_of fold_right length].
  pose proof (string_size_app (EncodeFrame f) (stream_of frames)) as Hs. rewrite EncodeFrame_size in Hs by done.
  unfold string_size, kFrameHeaderBytes in Hs. unfold stream_of in *. lia.
Qed.

Lemma serve_all fuel m s frames d :
  (length frames < fuel)%nat -> sv_stopping s = false -> Forall (acceptable (sp_max_frame_bytes (sv_options s))) frames ->
  serve fuel m s (stream_of frames) d =
  let '((responses, s'), ops) := handle_all m s frames d in ((stream_of responses, s'), ops).
Proof.
  revert fuel s d; induction frames as [|f frames IH]; intros fuel s d Hfuel Hstop Hok; (destruct fuel as [|fuel]; [cbn in Hfuel; lia|]).
  - cbn [serve stream_of fold_right handle_all]. rewrite Hstop. done.
  - apply Forall_cons in Hok as [(Hf & Hmax & Hk) Hok]. cbn [serve stream_of fold_right handle_all]. rewrite Hstop.
    fold (stream_of frames). rewrite ReadFrame_encoded by done. rewrite bool_decide_eq_false_2 by done.
    unfold io_bind at 1 3. destruct (HandleFrameFor m s f d) as [[r s1] ops] eqn:Hh.
    destruct (handled_same _ _ _ _ _ _ _ Hh) as (Ho & _ & _ & _ & _ & Hst & _). cbv zeta.
    set (s2 := put_stats _ s1).
    unfold io_bind. rewrite IH; [|cbn in Hfuel; lia|cbn; rewrite Hst by done; exact Hstop|cbn; by rewrite Ho].
    destruct (handle_all m s2 frames (apply_ops ops d)) as [[rs s3] ops2]. done.
Qed.

(** A connection that carries one frame. *)
Lemma connection_answer m s d f r s' ops :
  sv_stopping s = false -> acceptable (sp_max_frame_bytes (sv_options s)) f ->
  HandleFrameFor m s f d = ((r, s'), ops) -> connection_of m s d (EncodeFrame f) = EncodeFrame r.
Proof.
  intros Hstop Hf Hh. unfold connection_of, ServeConnection. pose proof (stream_fuel [f]) as Hfuel.
  replace (EncodeFrame f) with (stream_of [f]) at 1 2 by (cbn; apply string_app_nil).
  unfold io_bind. rewrite serve_all; [|destruct Hf; specialize (Hfuel ltac:(by apply Forall_singleton)); lia|done|by apply Forall_singleton].
  cbn [handle_all]. unfold io_bind. rewrite Hh. cbn. apply string_app_nil.
Qed.

(** What the client gets of an answer of the service. *)
Lemma exchange_answer m s d kind payload c r s' ops :
  let f := MkFrame kind (wrap64 (cl_sequence c + 1)) (cl_epoch_pin c) payload in
  sv_stopping s = false -> acceptable (sp_max_frame_bytes (sv_options s)) f ->
  HandleFrameFor m s f d = ((r, s'), ops) ->
  frame_fits r -> string_size (fr_payload r) <= cl_max_frame_bytes c -> fr_kind r <> MessageKind.Failure ->
  fst (Exchange (connection_of m s d) kind payload c) = Value r.
Proof.
  cbv zeta. intros Hstop Hf Hh Hr Hmax Hk. unfold Exchange. cbn [cl_sequence cl_epoch_pin cl_max_frame_bytes fst].
  rewrite (connection_answer _ _ _ _ _ _ _ Hstop Hf Hh). rewrite <- (string_app_nil (EncodeFrame r)).
  rewrite ReadFrame_encoded by done. cbv zeta beta iota. by rewrite bool_decide_eq_false_2.
Qed.

Lemma call_answer {A} m s d kind ack what payload (read : string -> Expected A) c r s' ops a :
  let f := MkFrame kind (wrap64 (cl_sequence c + 1)) (cl_epoch_pin c) payload in
  sv_stopping s = false -> acceptable (sp_max_frame_bytes (sv_options s)) f ->
  HandleFrameFor m s f d = ((r, s'), ops) -> fr_kind r = ack -> ack <> MessageKind.Failure ->
  frame_fits r -> string_size (fr_payload r) <= cl_max_frame_bytes c -> read (fr_payload r) = Value a ->
  fst (call (connection_of m s d) kind ack what payload read c) = Value a.
Proof.
  cbv zeta. intros Hstop Hf Hh Hk Hack Hr Hmax Ha. unfold call.
  pose proof (exchange_answer m s d kind payload c r s' ops Hstop Hf Hh Hr Hmax ltac:(by rewrite Hk)) as E.
  destruct (Exchange _ kind payload c) as [response c']. cbn [fst] in *. subst response. unfold expect. rewrite Hk.
  rewrite bool_decide_eq_true_2 by done. cbn [negb]. by rewrite Ha.
Qed.
End connections.

(** ** Lemmas: planning over the wire *)

Section planning.
Context `{Platform, !CharconvLaws, Hasher, !WideHasher, System}.

Lemma bytes_text_size b : string_size (bytes_text b) = size b.
Proof. rewrite string_size_chars, chars_bytes_text. unfold size. by rewrite length_map. Qed.

Lemma EncodePlan_size token text : string_size (EncodePlan (MkPlanMessage token text)) = 12 + string_size text.
Proof.
  unfold EncodePlan, Writer_Text, Writer_Bytes, Writer_U32, Writer_U64. cbn [pm_cancel_token pm_request_text].
  rewrite bytes_text_size. unfold size. rewrite !length_app, !le_bytes_length. pose proof (string_bytes_size text) as Hs. unfold size in Hs.
  cbn [length]. lia.
Qed.

Lemma EncodePlanAck_size text : string_size (EncodePlanAck (MkPlanAck text)) = 4 + string_size text.
Proof.
  unfold EncodePlanAck, Writer_Text, Writer_Bytes, Writer_U32. cbn [pa_result_text].
  rewrite bytes_text_size. unfold size. rewrite !length_app, !le_bytes_length. pose proof (string_bytes_size text) as Hs. unfold size in Hs.
  cbn [length]. lia.
Qed.

Lemma EncodeGetPlan_size g : digest_ok g -> string_size (EncodeGetPlan (MkGetPlan g)) = 32.
Proof. intros [Hg _]. unfold EncodeGetPlan, Writer_Digest. cbn [gm_digest app]. by rewrite bytes_text_size. Qed.

Lemma EncodeGetPlanAck_size g text : digest_ok g -> string_size (EncodeGetPlanAck (MkGetPlanAck g text)) = 36 + string_size text.
Proof.
  intros [Hg _]. unfold EncodeGetPlanAck, Writer_Digest, Writer_Text, Writer_Bytes, Writer_U32. cbn [ga_digest ga_plan_text app].
  rewrite bytes_text_size. pose proof (string_bytes_size text) as Hs. unfold size in *. rewrite !length_app, !le_bytes_length. lia.
Qed.

(** A client and a service that can talk: the pin names the service's epoch or
    nothing. *)
Record talks (c : ServiceClient) (s : Service) : Prop := {
  ta_running : sv_stopping s = false;
  ta_epoch : in_width 64 (sv_epoch s);
  ta_pin : cl_epoch_pin c = 0 \/ cl_epoch_pin c = sv_epoch s
}.

(** The payload sizes both sides accept. *)
Definition sends (bound size_ : Z) : Prop := size_ <= bound /\ size_ <= kMaxFrameBytes.

Lemma request_acceptable c s kind payload :
  talks c s -> MessageKind.of_number (MessageKind.number kind) = kind -> in_width 32 (MessageKind.number kind) ->
  kind <> MessageKind.Shutdown -> sends (sp_max_frame_bytes (sv_options s)) (string_size payload) ->
  acceptable (sp_max_frame_bytes (sv_options s)) (MkFrame kind (wrap64 (cl_sequence c + 1)) (cl_epoch_pin c) payload).
Proof.
  intros [_ He Hpin] Hn Hw Hk [Hs Hmax]. split; [|split; done]. unfold frame_fits. cbn. split_and!; try done.
  - by apply wrap_range.
  - destruct Hpin as [-> | ->]; [by vm_compute|done].
Qed.

Lemma response_fits s f kind payload :
  in_width 64 (sv_epoch s) -> in_width 64 (fr_sequence f) -> string_size payload <= kMaxFrameBytes ->
  MessageKind.of_number (MessageKind.number kind) = kind -> in_width 32 (MessageKind.number kind) ->
  frame_fits (respond s f kind payload).
Proof. intros He Hs Hp Hn Hw. unfold frame_fits, respond. cbn. by split_and!. Qed.

(** A request that is pinned right reaches its handler. *)
Lemma handled_pinned m s d f :
  (fr_epoch_pin f = 0 \/ fr_epoch_pin f = sv_epoch s) ->
  HandleFrameFor m s f d =
  (match fr_kind f with
   | MessageKind.Hello => io_return (handle_hello s f)
   | MessageKind.Ingest => handle_ingest m s f
   | MessageKind.Plan => handle_plan m s f
   | MessageKind.Validate => io_return (handle_validate s f)
   | MessageKind.GetPlan => io_look (handle_get_plan s f)
   | MessageKind.StoreList => io_look (handle_store_list s f)
   | MessageKind.Cancel => io_return (handle_cancel s f)
   | MessageKind.Stats => io_look (handle_stats s f)
   | MessageKind.Shutdown => io_return (respond s f MessageKind.ShutdownAck "", StopConnections s)
   | _ => io_return (refuse s f (Failure StatusCode.InvalidArgument "the frame is not a request this service handles"), s)
   end) d.
Proof.
  intros Hpin. unfold HandleFrameFor. assert (negb (fr_epoch_pin f =? 0) && negb (fr_epoch_pin f =? sv_epoch s) = false) as ->; [|done].
  destruct Hpin as [-> | ->]; [done|]. by rewrite Z.eqb_refl, andb_false_r.
Qed.

Lemma client_plans m s d c request token t :
  let result := plan_on (sv_options s) (Some t) request in
  talks c s -> snapshot_sound s -> sv_snapshot s = Some t -> in_width 64 token ->
  request_ok request -> Forall line_fits (request_lines request) ->
  result_ok result -> Forall line_fits (result_lines result) ->
  sends (sp_max_frame_bytes (sv_options s)) (12 + string_size (RequestToText request)) ->
  sends (cl_max_frame_bytes c) (4 + string_size (ResultToText result)) ->
  fst (Client_Plan (connection_of m s d) request token c) = Value result.
Proof.
  cbv zeta. intros Ht Hsound Hsnap Htoken Hreq Hfits Hres Hrfits Hin Hout.
  destruct (Hsound t Hsnap) as [Hwf Hid]. set (result := plan_on (sv_options s) (Some t) request) in *.
  unfold Client_Plan.
  set (f := MkFrame MessageKind.Plan (wrap64 (cl_sequence c + 1)) (cl_epoch_pin c)
    (EncodePlan (MkPlanMessage token (RequestToText request)))).
  assert (text_fits (RequestToText request)) as Htf by (destruct Hin; unfold text_fits, kMaxFrameBytes, u32_max in *; lia).
  assert (text_fits (ResultToText result)) as Hrf by (destruct Hout; unfold text_fits, kMaxFrameBytes, u32_max in *; lia).
  assert (plan_request f = Value request) as Hpr.
  { unfold plan_request. cbn [fr_payload f]. rewrite (proj2 (DecodePlan_law _ (MkPlanMessage token (RequestToText request)))) by done.
    cbn [pm_request_text]. by apply request_text_reads. }
  destruct (store_result m (sv_store (begin_plan s)) result d) as [stored ops] eqn:Hst.
  assert (HandleFrameFor m s f d = ((plan_response (begin_plan s) f result, end_plan (rs_outcome result) stored (begin_plan s)), ops ++ [])) as Hh.
  { rewrite handled_pinned by (destruct Ht as [_ _ Hp]; exact Hp). cbn [fr_kind f]. unfold handle_plan. rewrite Hpr. cbv zeta.
    change (sv_snapshot (begin_plan s)) with (sv_snapshot s). rewrite Hsnap. change (sv_options (begin_plan s)) with (sv_options s).
    fold result. unfold io_bind. rewrite Hst. done. }
  eapply call_answer; [exact (ta_running _ _ Ht)| |exact Hh|done|done| | |].
  - apply request_acceptable; try done. by rewrite EncodePlan_size.
  - apply (response_fits (begin_plan s) f); try done; [exact (ta_epoch _ _ Ht)|by apply wrap_range|].
    rewrite EncodePlanAck_size; apply Hout.
  - change (string_size (EncodePlanAck (MkPlanAck (ResultToText result))) <= cl_max_frame_bytes c).
    rewrite EncodePlanAck_size. apply Hout.
  - cbn [fr_payload plan_response respond]. rewrite (proj2 (DecodePlanAck_law _ (MkPlanAck (ResultToText result)))) by done.
    cbn [pa_result_text]. apply result_reads; [done| |done]. apply plan_sealed; [done..|exact (qo_candidates _ Hreq)].
Qed.
End planning.

(** ** Lemmas: stored plans *)

Section stored.
Context `{Platform, !CharconvLaws, Hasher, !WideHasher, System}.

(** A plan that can be got is kept by every [Put]. *)
Lemma Get_kept faults o q d st ops p g :
  candidate_ok q -> digest_ok g -> Put faults o q d = (st, ops) -> Get o d g = Value p -> Get o (apply_ops ops d) g = Value p.
Proof.
  intros Hq Hg Hput Hget. pose proof Hput as Hcases.
  destruct (Get_crashed _ _ _ _ _ _ _ g Hq Hg Hput (crashed_end ops d)) as [->|(_ & -> & _)]; [done|].
  apply Put_cases in Hcases as [[-> _]|(bytes & names & _ & Hno & _)]; [done|].
  apply Get_contains in Hget. unfold Contains, FileExists in Hget. rewrite Hno in Hget. done.
Qed.

Lemma store_plans_kept m o plans d stored ops p g :
  Forall candidate_ok plans -> digest_ok g -> store_plans m o plans d = (stored, ops) ->
  Get o d g = Value p -> Get o (apply_ops ops d) g = Value p.
Proof.
  intros Hall Hg. revert d stored ops. induction Hall as [|q plans Hq Hall IH]; intros d stored ops; cbn [store_plans]; [by intros [= <- <-]|].
  intros (st & ops1 & ops2 & Hput & E & ->)%io_bind_value Hget.
  apply io_bind_value in E as (all & ops3 & ops4 & Hrest & E & ->). injection E as _ <-.
  rewrite app_nil_r, apply_ops_app. eapply IH; [exact Hrest|]. by eapply Get_kept.
Qed.

(** When every [Put] answered OK, every plan can be got. *)
Lemma store_plans_all m o plans d ops :
  Forall candidate_ok plans -> store_plans m o plans d = (true, ops) ->
  Forall (fun p => Get o (apply_ops ops d) (pl_digest p) = Value p) plans.
Proof.
  intros Hall. revert d ops. induction Hall as [|q plans Hq Hall IH]; intros d ops; cbn [store_plans]; [constructor|].
  intros (st & ops1 & ops2 & Hput & E & ->)%io_bind_value.
  apply io_bind_value in E as (all & ops3 & ops4 & Hrest & E & ->). injection E as Hst <-.
  apply andb_true_iff in Hst as [Hst ->]. apply negb_true_iff in Hst.
  rewrite app_nil_r, apply_ops_app. constructor; [|by eapply IH].
  eapply store_plans_kept; [exact Hall|exact (ok_digest _ (ca_plan _ Hq))|exact Hrest|]. by eapply Get_put.
Qed.
End stored.

(** ** Lemmas: the bound on connections *)

Section bound.
Context `{Platform, Hasher, System}.

(** What happens to a service: a connection is taken or closed, a frame is
    handled, a counter is updated. *)
Inductive service_step (s : Service) : Service -> Prop :=
  | step_accept connection : service_step s (snd (Accept connection s))
  | step_close connection : service_step s (CloseConnection connection s)
  | step_handle m f d r s' ops : HandleFrameFor m s f d = ((r, s'), ops) -> service_step s s'
  | step_count count : service_step s (put_stats count s).

Lemma service_step_workers s s' :
  service_step s s' ->
  sv_options s' = sv_options s /\ sv_workers s <= sv_workers s' /\
  (sv_workers s <= sp_max_connections (sv_options s) -> sv_workers s' <= sp_max_connections (sv_options s)).
Proof.
  intros [c|c|m f d r s1 ops Hh|count]; [|by split_and!| |by split_and!].
  - unfold Accept. destruct (Z.leb_spec (sp_max_connections (sv_options s)) (sv_workers s)); cbn; split_and!; try done; lia.
  - apply handled_same in Hh as (-> & _ & _ & -> & _). by split_and!.
Qed.
End bound.

(** ** Theorems *)

Section theorems.
Context `{Platform, !CharconvLaws, Hasher, !WideHasher, System}.

(** A frame is read off a stream exactly when it was written to it.  The
    reader of the service and of the client takes a frame and leaves the bytes
    after it exactly when the stream begins with the encoding of a frame whose
    fields fit and whose payload is within the bound. *)
Theorem read_frame_exact (max_frame_bytes : Z) (stream rest : string) (f : Frame) :
  ReadFrame max_frame_bytes stream = Value (f, rest) <->
  frame_fits f /\ string_size (fr_payload f) <= max_frame_bytes /\ stream = EncodeFrame f +:+ rest.
Proof. split; [apply ReadFrame_exact|]. intros (Hf & Hmax & ->). by apply ReadFrame_encoded. Qed.

(** C14: a connection is served in order.  A connection that carries requests, one
    after the other, is answered with the responses of the handlers, one after
    the other, each on the state the one before left: none is lost, repeated or
    reordered, and the loop does not run out. *)
Theorem connection_in_order (m : Machine) (s : Service) (connection : Z) (frames : list Frame) (d : Disk) :
  sv_stopping s = false -> Forall (acceptable (sp_max_frame_bytes (sv_options s))) frames ->
  ServeConnection m connection (stream_of frames) s d =
  let '((responses, s'), ops) := handle_all m s frames d in
  ((stream_of responses, CloseConnection connection s'), ops).
Proof.
  intros Hstop Hf. assert (Forall frame_fits frames) as Hfits.
  { eapply Forall_impl; [exact Hf|]. intros f [Hfit _]. exact Hfit. }
  unfold ServeConnection, io_bind. pose proof (stream_fuel frames Hfits). rewrite serve_all by (done || lia).
  destruct (handle_all m s frames d) as [[responses s'] ops]. cbn. by rewrite app_nil_r.
Qed.

(** C8: planning through a service is planning.  A client that is pinned to the
    service's epoch, or to none, and asks for a plan gets, over the wire, exactly
    the result of the planner on the service's snapshot: same outcome, candidates,
    witnesses, statistics and digest. *)
Theorem client_plan (m : Machine) (s : Service) (d : Disk) (c : ServiceClient) (request : PlanningRequest) (token : Z)
    (t : TopologySnapshot) :
  let result := plan_on (sv_options s) (Some t) request in
  talks c s -> snapshot_sound s -> sv_snapshot s = Some t -> in_width 64 token ->
  request_ok request -> Forall line_fits (request_lines request) ->
  result_ok result -> Forall line_fits (result_lines result) ->
  sends (sp_max_frame_bytes (sv_options s)) (12 + string_size (RequestToText request)) ->
  sends (cl_max_frame_bytes c) (4 + string_size (ResultToText result)) ->
  fst (Client_Plan (connection_of m s d) request token c) = Value result.
Proof. apply client_plans. Qed.

(** What was stored can be fetched.  A client that asks for the plan of a
    digest gets the plan the store holds under it, unchanged. *)
Theorem client_fetches_stored (m : Machine) (s : Service) (d : Disk) (c : ServiceClient) (p : PlanArtifact) :
  talks c s -> candidate_ok p -> Get (sv_store s) d (pl_digest p) = Value p ->
  sends (sp_max_frame_bytes (sv_options s)) 32 ->
  sends (cl_max_frame_bytes c) (36 + string_size (CanonicalBytes p)) ->
  fst (Client_GetPlan (connection_of m s d) (pl_digest p) c) = Value p.
Proof.
  intros Ht Hp Hget Hin Hout. pose proof (ok_digest _ (ca_plan _ Hp)) as Hd. unfold Client_GetPlan.
  set (f := MkFrame MessageKind.GetPlan (wrap64 (cl_sequence c + 1)) (cl_epoch_pin c) (EncodeGetPlan (MkGetPlan (pl_digest p)))).
  assert (text_fits (CanonicalBytes p)) as Htf by (destruct Hout; unfold text_fits, kMaxFrameBytes, u32_max in *; lia).
  set (r := respond s f MessageKind.GetPlanAck (EncodeGetPlanAck (MkGetPlanAck (pl_digest p) (CanonicalBytes p)))).
  assert (HandleFrameFor m s f d = ((r, s), [])) as Hh.
  { rewrite handled_pinned by (destruct Ht as [_ _ Hpin]; exact Hpin). cbn [fr_kind f]. unfold io_look, handle_get_plan.
    cbn [fr_payload f]. rewrite (proj2 (DecodeGetPlan_law _ (MkGetPlan (pl_digest p)))) by done. cbn [gm_digest]. by rewrite Hget. }
  eapply call_answer; [exact (ta_running _ _ Ht)| |exact Hh|done|done| | |].
  - apply request_acceptable; try done. by rewrite EncodeGetPlan_size.
  - apply (response_fits s f); try done; [exact (ta_epoch _ _ Ht)|by apply wrap_range|].
    rewrite EncodeGetPlanAck_size by done. apply Hout.
  - unfold r, respond. cbn [fr_payload]. rewrite EncodeGetPlanAck_size by done. apply Hout.
  - unfold r, respond. cbn [fr_payload]. rewrite (proj2 (DecodeGetPlanAck_law _ (MkGetPlanAck (pl_digest p) (CanonicalBytes p)))) by done.
    cbn [ga_plan_text]. by apply candidate_reads.
Qed.

(** C10: a planned path is kept.  When the service answers a request with a
    feasible result and does not count a rejected plan, every candidate of the
    result is on the disk, and is got under its digest. *)
Theorem planned_plans_stored (m : Machine) (s s' : Service) (f r : Frame) (d : Disk) (ops : list DiskOp)
    (request : PlanningRequest) :
  let result := plan_on (sv_options s) (sv_snapshot s) request in
  HandleFrameFor m s f d = ((r, s'), ops) -> fr_kind r = MessageKind.PlanAck -> plan_request f = Value request ->
  rs_outcome result = PlanOutcome.Feasible -> Forall candidate_ok (rs_candidates result) ->
  in_width 64 (plans_rejected (sv_stats s)) -> plans_rejected (sv_stats s') = plans_rejected (sv_stats s) ->
  Forall (fun p => Get (sv_store s') (apply_ops ops d) (pl_digest p) = Value p) (rs_candidates result).
Proof.
  cbv zeta. intros Hh Hr Hreq Hfeas Hok Hw Hsame. assert (handle_plan m s f d = ((r, s'), ops)) as Hp.
  { unfold HandleFrameFor in Hh. destruct (_ && _); [by injection Hh as <- <- <-|].
    unfold io_return, io_look, handle_hello, handle_validate, handle_get_plan, handle_store_list, handle_cancel, handle_stats in Hh.
    destruct (fr_kind f) eqn:Hk; try (injection Hh as <- <- <-; done); try done.
    all: try (exfalso; revert Hh; repeat case_match; intros [= <- <- <-]; done).
    exfalso. apply handle_ingest_cases in Hh as [[_ E]|(? & ? & _ & _ & _ & _ & -> & _)]; [by rewrite E in Hr|done]. }
  unfold handle_plan in Hp. rewrite Hreq in Hp. cbv zeta in Hp. apply io_bind_value in Hp as (stored & ops1 & ops2 & Hst & E & ->).
  change (sv_options (begin_plan s)) with (sv_options s) in *. change (sv_snapshot (begin_plan s)) with (sv_snapshot s) in *.
  change (sv_store (begin_plan s)) with (sv_store s) in *. injection E as _ <- <-. rewrite app_nil_r.
  change (sv_store (end_plan _ _ _)) with (sv_store s). unfold store_result in Hst.
  rewrite Hfeas in Hst, Hsame. rewrite bool_decide_eq_true_2 in Hst by done.
  assert (stored = true) as ->.
  { destruct stored; [done|]. exfalso. unfold end_plan, begin_plan, put_stats in Hsame. cbn in Hsame. unfold in_width in Hw.
    unfold wrap64, wrap in Hsame. destruct (decide (plans_rejected (sv_stats s) = 2 ^ 64 - 1)) as [E|].
    - rewrite E in Hsame. by vm_compute in Hsame.
    - rewrite Z.mod_small in Hsame by lia. lia. }
  by eapply store_plans_all.
Qed.

(** C39: the connection bound counts connections ever taken.  The number of
    workers never goes down, so that it stays within [max_connections], and once
    that many connections were taken every further one is refused, whatever was
    closed in between. *)
Theorem connections_not_reused (s s' : Service) (connection : Z) :
  rtc service_step s s' ->
  sv_workers s <= sv_workers s' /\
  (sv_workers s <= sp_max_connections (sv_options s) -> sv_workers s' <= sp_max_connections (sv_options s')) /\
  (sp_max_connections (sv_options s) <= sv_workers s ->
   exists refusal, Accept connection s' = (Some refusal, put_stats add_frame_rejected s') /\ fr_kind refusal = MessageKind.Failure).
Proof.
  intros Hs. assert (sv_options s' = sv_options s /\ sv_workers s <= sv_workers s' /\
    (sv_workers s <= sp_max_connections (sv_options s) -> sv_workers s' <= sp_max_connections (sv_options s))) as (Ho & Hle & Hmax).
  { induction Hs as [s|s s1 s' Hstep _ (IH1 & IH2 & IH3)]; [split_and!; (done || lia)|].
    apply service_step_workers in Hstep as (E & Hle & Hmax). rewrite E in *. split_and!; [done|lia|auto]. }
  rewrite Ho. split_and!; [done..|]. intros Hfull. unfold Accept. rewrite Ho, (proj2 (Z.leb_le _ _)) by lia. by eexists.
Qed.
End theorems.

(** ** A service with the row of [Route] as its snapshot *)

Module SampleService.
#[local] Existing Instance SamplePlan.size_hasher.
#[local] Existing Instance SampleSystem.linux.

Definition options : ServiceOptions := MkServiceOptions "/v" "" 1 100000 10 1000 true.
Definition incarnation : IncarnationState := MkIncarnationState (MkIncarnation (repeat 7 16)) 3 true 1700000000000 42.

(** The row is sealed again, for the digest of these examples. *)
Definition row : TopologySnapshot :=
  match fst (Build Net.builder_of_row) with Value t => t | Error _ => Net.row end.

Lemma row_sealed : Build Net.builder_of_row = (Value row, snd (Build Net.builder_of_row)).
Proof. by vm_compute. Qed.

Definition service : Service := MkService options incarnation false (Some row) true (store_options options) 0 [] [] no_stats.
Definition disk : Disk := MkDisk ∅ {["/v"; "/v/plans"]}.
Definition machine : Machine := SampleIncarnation.machine.
Definition client : ServiceClient := MkClient 100000 0 3.
Abbreviation result := (plan_on (sv_options service) (sv_snapshot service) Net.request).
Definition plan_frame : Frame :=
  MkFrame MessageKind.Plan 1 3 (EncodePlan (MkPlanMessage 0 (RequestToText Net.request))).
Definition planned : Frame * Service * list DiskOp := HandleFrameFor machine service plan_frame disk.
Definition full_disk : Disk := apply_ops (snd planned) disk.
Definition candidate : PlanArtifact := Eval vm_compute in hd (SamplePlan.plan "A") (rs_candidates result).

Lemma service_talks : talks client service.
Proof. split; [done|by vm_compute|by right]. Qed.

Lemma row_sound : snapshot_sound service.
Proof.
  intros t [= <-]. split; [exact (Build_wf _ _ _ row_sealed)|].
  apply (bool_decide_unpack (Forall _ _ /\ Forall _ _)). by vm_compute.
Qed.

Lemma request_fits : request_ok Net.request /\ Forall line_fits (request_lines Net.request).
Proof.
  split; [|apply (bool_decide_unpack _); by vm_compute].
  split; [| | | | | | | | |split|..]; match goal with
    | |- Forall (fun e => id_ok _ /\ _) _ =>
        unfold Net.request, Net.limited; cbn [constraints max_members_per_failure_domain required_source_generations];
        repeat (apply Forall_cons_2; [split; by vm_compute|]); apply Forall_nil_2
    | |- _ => first [by vm_compute | repeat constructor; by vm_compute]
    end.
Qed.

Lemma candidates_found : rs_candidates result = [candidate].
Proof. by vm_compute. Qed.

Lemma result_feasible : rs_outcome result = PlanOutcome.Feasible.
Proof. by vm_compute. Qed.

Lemma candidate_plan_ok : plan_ok candidate.
Proof. split; try (by vm_compute); repeat constructor; by vm_compute. Qed.

Lemma candidate_fits : candidate_ok candidate.
Proof. split; [apply candidate_plan_ok|apply (bool_decide_unpack _); by vm_compute|by vm_compute..]. Qed.

Lemma result_fits : result_ok result /\ Forall line_fits (result_lines result).
Proof.
  split; [|apply (bool_decide_unpack _); by vm_compute].
  split.
  1-2: apply (bool_decide_unpack (_ /\ Forall (fun b => 0 <= b < 256) _)); by vm_compute.
  - rewrite candidates_found. apply Forall_singleton, candidate_fits.
  - assert (rs_witnesses result = []) as -> by (by vm_compute). constructor.
  - by vm_compute.
  - assert (rs_cuts result = [MkCutCount CutReason.LoopPrevented 1]) as -> by (by vm_compute).
    apply Forall_singleton. by vm_compute.
  - split; by vm_compute.
  - apply (bool_decide_unpack (_ /\ Forall (fun b => 0 <= b < 256) _)); by vm_compute.
Qed.

Lemma handled : HandleFrameFor machine service plan_frame disk = planned.
Proof. unfold planned. reflexivity. Qed.

(** The connection that was taken is closed again. *)
Definition after_one : Service := CloseConnection 7 (snd (Accept 7 service)).
End SampleService.

Section witnesses.
Existing Instance SamplePlan.size_hasher.
Existing Instance SampleStore.size_wide.
Existing Instance SampleSystem.linux.
Import SampleService.

Lemma connection_in_order_witness :
  fst (fst (ServeConnection machine 0 (stream_of [plan_frame; plan_frame]) service disk)) =
  stream_of (fst (fst (handle_all machine service [plan_frame; plan_frame] disk))).
Proof.
  rewrite connection_in_order; [by destruct (handle_all _ _ _ _) as [[] ?]|done|].
  assert (acceptable (sp_max_frame_bytes options) plan_frame) as Ha.
  { split; [split_and!; by vm_compute|]. split; [by vm_compute|done]. }
  by repeat apply Forall_cons_2.
Defined.

Lemma client_plan_witness :
  rs_outcome result = PlanOutcome.Feasible /\
  fst (Client_Plan (connection_of machine service disk) Net.request 0 client) = Value result.
Proof.
  split; [exact result_feasible|]. assert (in_width 64 0) as Htoken by (by vm_compute).
  assert (sends (sp_max_frame_bytes options) (12 + string_size (RequestToText Net.request))) as Hin by (split; by vm_compute).
  assert (sends (cl_max_frame_bytes client) (4 + string_size (ResultToText result))) as Hout by (split; by vm_compute).
  destruct request_fits as [Hq Hqf], result_fits as [Hr Hrf].
  exact (client_plan machine service disk client Net.request 0 row service_talks row_sound eq_refl Htoken Hq Hqf Hr Hrf Hin Hout).
Defined.

Lemma planned_plans_stored_witness :
  Get (sv_store service) full_disk (pl_digest candidate) = Value candidate.
Proof.
  pose proof candidates_found as Hc. pose proof result_feasible as Hfeas.
  assert (fr_kind (fst (fst planned)) = MessageKind.PlanAck) as Hk by (vm_compute; reflexivity).
  assert (plan_request plan_frame = Value Net.request) as Hreq by (vm_compute; reflexivity).
  assert (in_width 64 (plans_rejected (sv_stats service))) as Hw by (split; vm_compute; congruence).
  assert (plans_rejected (sv_stats (snd (fst planned))) = plans_rejected (sv_stats service)) as Hsame by (vm_compute; reflexivity).
  assert (sv_store (snd (fst planned)) = sv_store service) as Hstore by (vm_compute; reflexivity).
  assert (Forall candidate_ok (rs_candidates result)) as Hok by (rewrite Hc; apply Forall_singleton, candidate_fits).
  unfold full_disk. pose proof handled as Hh. destruct planned as [[r s'] ops]. cbn [fst snd] in *.
  pose proof (planned_plans_stored machine service s' plan_frame r disk ops Net.request Hh Hk Hreq Hfeas Hok Hw Hsame) as Hall.
  rewrite Hc, Hstore in Hall. exact (Forall_inv Hall).
Defined.

Lemma client_fetches_stored_witness :
  fst (Client_GetPlan (connection_of machine service full_disk) (pl_digest candidate) client) = Value candidate.
Proof.
  apply (client_fetches_stored machine service full_disk client candidate service_talks candidate_fits);
    [by vm_compute|split; by vm_compute..].
Defined.

Lemma connections_not_reused_witness :
  sv_active_connections after_one = [] /\
  exists refusal, Accept 8 after_one = (Some refusal, put_stats add_frame_rejected after_one) /\
    fr_kind refusal = MessageKind.Failure.
Proof.
  split; [by vm_compute|]. apply (connections_not_reused after_one after_one 8); [apply rtc_refl|by vm_compute].
Defined.
End witnesses.
