(* ===== verification/Restart.v ===== *)
(** * Restart: what a service keeps across its incarnations

    Theorems on [Server.Start] after a life of [Service]: the snapshot is
    restored, and frames pinned to an earlier epoch are fenced. *)

From S2P Require Import Prelude Status Ids Doubles Spectrum Canonical Topology SnapshotText Builder Request Outcome Search Route Plan.
From S2P Require Import Result Planner Validate Proto Messages Lines PlanText RequestText ResultText Rebuild SnapshotRead.
From S2P Require Import Files Store Incarnation Service Server ServiceFacts.

(** ** Lemmas: file names *)

Section names.
Context `{System}.

(** Paths told apart by their last characters. *)
Lemma path_suffix base leaf suffix :
  plain_name leaf -> HasSuffix leaf suffix = true -> HasSuffix (JoinPath base leaf) suffix = true.
Proof. apply JoinPath_suffix. Qed.

Lemma suffix_differs a b suffix : HasSuffix a suffix = true -> HasSuffix b suffix = false -> a <> b.
Proof. intros Ha Hb ->. congruence. Qed.

(** Two suffixes of which neither ends the other. *)
Lemma suffixes_clash path a b :
  HasSuffix path a = true -> HasSuffix path b = true -> HasSuffix a b = true \/ HasSuffix b a = true.
Proof.
  intros [s ->]%HasSuffix_spec [t E]%HasSuffix_spec. apply (f_equal chars) in E. rewrite !chars_app in E.
  assert (forall (s t a b : list ascii), s ++ a = t ++ b -> (exists u, a = u ++ b) \/ (exists u, b = u ++ a)) as Hsplit.
  { clear. induction s as [|x s IH]; intros [|y t] a b E; cbn in E.
    - left. by exists [].
    - left. by exists (y :: t).
    - right. by exists (x :: s).
    - injection E as _ E. by apply (IH t). }
  destruct (Hsplit _ _ _ _ E) as [[u Eu]|[u Eu]]; [left|right]; apply HasSuffix_spec; exists (of_chars u);
    apply (inj chars); by rewrite chars_app, chars_of_chars.
Qed.

Lemma path_of_other_kind base leaf path a b :
  plain_name leaf -> HasSuffix leaf a = true -> HasSuffix path b = true ->
  HasSuffix a b = false -> HasSuffix b a = false -> JoinPath base leaf <> path.
Proof.
  intros Hp Ha Hb Hab Hba E. assert (HasSuffix path a = true) as Hpa by (rewrite <- E; by apply path_suffix).
  destruct (suffixes_clash path a b Hpa Hb); congruence.
Qed.

Lemma path_not_temp base leaf suffix c path :
  plain_name leaf -> HasSuffix leaf suffix = true -> last (chars suffix) = Some c -> is_digit c = false ->
  JoinPath base leaf <> TempNameFor path.
Proof.
  intros Hp Hs Hl Hc. apply (suffix_differs _ _ suffix); [by apply path_suffix|by eapply TempNameFor_suffix].
Qed.

Lemma snapshot_not_incarnation dir : JoinPath dir kSnapshotFileName <> incarnation_path dir.
Proof. intros E. apply JoinPath_inj in E; done. Qed.

Lemma snapshot_not_lock dir : JoinPath dir kSnapshotFileName <> JoinPath dir kLockFileName.
Proof. intros E. apply JoinPath_inj in E; done. Qed.

Lemma incarnation_not_lock dir : incarnation_path dir <> JoinPath dir kLockFileName.
Proof. intros E. apply JoinPath_inj in E; done. Qed.

Lemma snapshot_not_temp dir path : JoinPath dir kSnapshotFileName <> TempNameFor path.
Proof. by apply (path_not_temp _ _ "snap" "p"%char). Qed.

Lemma incarnation_not_temp dir path : incarnation_path dir <> TempNameFor path.
Proof. by apply (path_not_temp _ _ ".oppf" "f"%char). Qed.

Lemma incarnation_not_plan dir o g : incarnation_path dir <> PathFor o g.
Proof.
  unfold incarnation_path. apply (path_of_other_kind _ _ _ ".oppf" kStoreFileSuffix); try done.
  apply path_suffix; [apply FileNameFor_plain|apply FileNameFor_suffix].
Qed.

(** A file of the state directory is not one the store cleans. *)
Lemma not_cleaned dir leaf suffix base name :
  plain_name leaf -> HasSuffix leaf suffix = true ->
  HasSuffix suffix ".tmp" = false -> HasSuffix ".tmp" suffix = false ->
  HasSuffix suffix kStoreTempSuffix = false -> HasSuffix kStoreTempSuffix suffix = false ->
  plain_name name -> (HasSuffix name ".tmp" = true \/ HasSuffix name kStoreTempSuffix = true) ->
  JoinPath dir leaf <> JoinPath base name.
Proof.
  intros Hp Hs ? ? ? ? Hn [Ht|Ht]; (eapply path_of_other_kind; [exact Hp|exact Hs|by apply path_suffix; [|exact Ht]|done|done]).
Qed.
End names.

(** ** Lemmas: a start *)

Section starts.
Context `{Platform, !CharconvLaws, Hasher, !WideHasher, System}.

Definition made (op : DiskOp) : Prop := exists p, op = MakeDirectories p.

(** Opening a store leaves the files that are not temporary. *)
Lemma Open_keeps mkdir_fails remove_fails o d st ops path :
  Open mkdir_fails remove_fails o d = (st, ops) ->
  (forall name, plain_name name -> HasSuffix name ".tmp" = true \/ HasSuffix name kStoreTempSuffix = true ->
     path <> JoinPath (PlansDirectory o) name) ->
  dk_files (apply_ops ops d) !! path = dk_files d !! path.
Proof.
  intros (made & removed & -> & Hm & Hr)%Open_ops Hpath. rewrite apply_ops_app.
  rewrite <- (made_files made d (apply_ops made d) Hm (crashed_end _ _)). apply apply_ops_untouched.
  destruct Hr as [-> | ->]; [constructor|].
  eapply Forall_impl; [apply CleanTemporaries_ops|]. cbn. intros op (name & -> & Hp & Hs) Ht. cbn in Ht. symmetry in Ht.
  by apply Hpath in Ht.
Qed.

(** A write of the incarnation record leaves the other files, except for the
    place an unreadable record is moved to. *)
Lemma Advance_keeps m dir d e ops path :
  AdvanceIncarnation m dir d = (e, ops) ->
  path <> incarnation_path dir -> path <> TempNameFor (incarnation_path dir) ->
  path <> incarnation_path dir +:+ ".unreadable" ->
  dk_files (apply_ops ops d) !! path = dk_files d !! path.
Proof.
  intros (st & ops1 & ops2 & Hmake & E & ->)%io_bind_value Hp Ht Hu. rewrite apply_ops_app.
  rewrite <- (EnsureDirectory_files _ _ _ _ _ Hmake). generalize dependent (apply_ops ops1 d). intros d1 E.
  destruct (failed st); [by injection E as <- <-|].
  apply io_bind_value in E as (prev & ops3 & ops4 & Hprev & E & ->). rewrite apply_ops_app.
  assert (dk_files (apply_ops ops3 d1) !! path = dk_files d1 !! path) as <-.
  { unfold previous_epoch in Hprev. cbv zeta in Hprev. apply apply_ops_untouched.
    destruct (negb _); [injection Hprev as <- <-; constructor|].
    destruct (recorded_epoch dir d1); [injection Hprev as <- <-; constructor|]. unfold RenameFile in Hprev.
    destruct (mc_rename_fails m _); cbn in Hprev; injection Hprev as <- <-; [constructor|].
    apply Forall_singleton. cbn. naive_solver. }
  generalize dependent (apply_ops ops3 d1). intros d2 E. destruct prev as [[epoch continuity]|]; [|by injection E as <- <-].
  destruct (_ <=? _); [by injection E as <- <-|]. cbv zeta in E.
  apply io_bind_value in E as (wst & ops5 & ops6 & Hw & E & ->). rewrite apply_ops_app.
  assert (ops6 = []) as -> by (destruct (failed wst); by injection E).
  change (apply_ops [] ?x) with x. unfold io_do in Hw.
  by apply (WriteFileAtomic_crash _ _ _ _ _ _ _ Hw (crashed_end ops5 d2)).
Qed.

Definition lock_only (o : ServiceOptions) (d d' : Disk) : Prop :=
  forall path, path <> lock_path o -> dk_files d' !! path = dk_files d !! path.

(** The stages of a start that succeeds. *)
Lemma Start_value boot m o d s ops :
  Start boot m o d = (Value s, ops) ->
  exists i d1 d2 d3 opsi opso st,
    lock_only o d d1 /\ AdvanceIncarnation m (sp_state_dir o) d1 = (Value i, opsi) /\ d2 = apply_ops opsi d1 /\
    Open (mc_mkdir_fails m) (mc_remove_fails m) (store_options o) d2 = (st, opso) /\ d3 = apply_ops opso d2 /\
    apply_ops ops d = d3 /\
    s = MkService o i false (restore o i d3) false (store_options o) 0 [] [] no_stats.
Proof.
  unfold Start, fail_start. case_bool_decide; [done|]. destruct (mc_mkdir_fails m _); [done|].
  intros (x & ops1 & ops2 & E1 & E & ->)%io_bind_value. injection E1 as _ <-.
  apply io_bind_value in E as (st & ops3 & ops4 & Hlock & E & ->). destruct (failed st); [done|].
  apply io_bind_value in E as (e & ops5 & ops6 & Hadv & E & ->). destruct e as [i|]; [|done].
  apply io_bind_value in E as (st2 & ops7 & ops8 & Hopen & E & ->). destruct (failed st2); [done|].
  apply io_bind_value in E as (restored & ops9 & ops10 & Hres & E & ->). injection Hres as <- <-.
  destruct (failed (bo_socket boot)); [done|]. injection E as <- <-.
  set (d0 := apply_ops [MakeDirectories (sp_state_dir o)] d) in *. set (d1 := apply_ops ops3 d0) in *.
  exists i, d1, (apply_ops ops5 d1), (apply_ops ops7 (apply_ops ops5 d1)), ops5, ops7, st2.
  split_and!; try done.
  - intros path Hp. unfold d1. transitivity (dk_files d0 !! path); [|done]. apply apply_ops_untouched.
    unfold Acquire in Hlock. destruct (bo_lock boot); [by injection Hlock as <- <-|].
    injection Hlock as _ <-. destruct (FileExists _ _); [constructor|]. apply Forall_singleton. intros E. by apply Hp.
  - rewrite !apply_ops_app. done.
Qed.

Lemma start_epoch boot m o d s ops :
  Start boot m o d = (Value s, ops) -> machine_ok m -> readable (sp_state_dir o) d ->
  sv_options s = o /\ sv_store s = store_options o /\ sv_epoch s = last_epoch (sp_state_dir o) d + 1 /\
  in_width 64 (sv_epoch s) /\
  readable (sp_state_dir o) (apply_ops ops d) /\ last_epoch (sp_state_dir o) (apply_ops ops d) = sv_epoch s.
Proof.
  intros (i & d1 & d2 & d3 & opsi & opso & st & Hlock & Hadv & -> & Hopen & -> & -> & ->)%Start_value Hm Hr.
  destruct (recorded_frame (sp_state_dir o) d d1) as [Er Hrr].
  { apply Hlock, incarnation_not_lock. }
  pose proof (Advance_value _ _ _ _ _ (Hrr Hr) Hm Hadv) as (Hi & _ & Hrec).
  assert (dk_files (apply_ops opso (apply_ops opsi d1)) !! incarnation_path (sp_state_dir o) =
    dk_files (apply_ops opsi d1) !! incarnation_path (sp_state_dir o)) as Hkeep.
  { eapply Open_keeps; [exact Hopen|]. intros name Hn Hs. by eapply (not_cleaned _ _ ".oppf"). }
  destruct (recorded_frame (sp_state_dir o) _ _ Hkeep) as [Er2 _].
  assert (recorded_epoch (sp_state_dir o) (apply_ops opso (apply_ops opsi d1)) = Some (is_epoch i)) as E by (by rewrite Er2).
  unfold last_epoch in Hi |- *. rewrite E. rewrite Er in Hi. split_and!; [done|done|done| |by intros _; rewrite E|done].
  change (sv_epoch _) with (is_epoch i). pose proof (last_epoch_width (sp_state_dir o) (apply_ops opso (apply_ops opsi d1))) as Hw.
  unfold last_epoch in Hw. by rewrite E in Hw.
Qed.
End starts.

(** ** Lemmas: what a running service writes *)

Section runs.
Context `{Platform, !CharconvLaws, Hasher, !WideHasher, System}.

Definition leaves (path : string) (ops : list DiskOp) : Prop := Forall (fun op => ~ touches op path) ops.

Lemma write_leaves faults path bytes st ops q :
  WriteFileAtomic faults path bytes = (st, ops) -> q <> path -> q <> TempNameFor path -> leaves q ops.
Proof.
  intros [[_ Hops]|[_ ->]]%WriteFileAtomic_ops Hq Ht.
  - eapply Forall_impl; [exact Hops|]. cbn. intros op Hop E. by apply Ht, Hop.
  - unfold leaves. repeat apply Forall_cons_2; try apply Forall_nil_2; cbn; naive_solver.
Qed.

Lemma plans_leave m o plans d stored ops dir :
  store_plans m o plans d = (stored, ops) -> leaves (incarnation_path dir) ops.
Proof.
  revert d stored ops. induction plans as [|p plans IH]; intros d stored ops; cbn [store_plans]; [intros [= <- <-]; constructor|].
  intros (st & ops1 & ops2 & Hput & E & ->)%io_bind_value.
  apply io_bind_value in E as (all & ops3 & ops4 & Hrest%IH & E & ->). injection E as _ <-. rewrite app_nil_r.
  apply Forall_app_2; [|exact Hrest]. apply Put_cases in Hput as [[-> _]|(bytes & names & _ & _ & _ & _ & Hw)]; [constructor|].
  by eapply write_leaves; [exact Hw|apply incarnation_not_plan|apply incarnation_not_temp].
Qed.

(** No handler touches the incarnation record. *)
Lemma handled_leave m s f d r s' ops :
  HandleFrameFor m s f d = ((r, s'), ops) -> leaves (incarnation_path (sp_state_dir (sv_options s))) ops.
Proof.
  unfold HandleFrameFor. destruct (_ && _); [intros [= <- <- <-]; constructor|].
  destruct (fr_kind f);
    try (intros Hh; apply (f_equal snd) in Hh; unfold io_return, io_look in Hh; cbn [snd] in Hh; subst ops; constructor).
  - unfold handle_ingest. destruct (DecodeIngest _); [|intros [= <- <- <-]; constructor].
    destruct (ParseSnapshotText _) as [t|]; [|intros [= <- <- <-]; constructor].
    destruct (negb _); [intros [= <- <- <-]; constructor|].
    intros (st & ops1 & ops2 & E1 & E2 & ->)%io_bind_value.
    assert (ops2 = []) as -> by (destruct (failed st); by injection E2). rewrite app_nil_r.
    destruct (sp_persist_snapshots _); [|injection E1 as _ <-; constructor]. unfold SaveSnapshotFile, io_do in E1.
    eapply write_leaves; [exact E1|apply not_eq_sym, snapshot_not_incarnation|apply incarnation_not_temp].
  - unfold handle_plan. destruct (plan_request f); [|intros [= <- <- <-]; constructor].
    intros (st & ops1 & ops2 & E1 & E2 & ->)%io_bind_value. injection E2 as _ _ <-. rewrite app_nil_r.
    unfold store_result in E1. case_bool_decide; [by eapply plans_leave|]. injection E1 as _ <-. constructor.
Qed.

(** The disk of a running service: it handles frames, in any order, and may be
    cut short in the middle of one. *)
Inductive served : Service -> Disk -> Disk -> Prop :=
  | served_no_more s d : served s d d
  | served_frame m s f d r s' ops d' :
      HandleFrameFor m s f d = ((r, s'), ops) -> served s' (apply_ops ops d) d' -> served s d d'
  | served_crash m s f d r s' ops d' :
      HandleFrameFor m s f d = ((r, s'), ops) -> crashed ops d d' -> served s d d'.

Lemma served_record s d d' :
  served s d d' ->
  let path := incarnation_path (sp_state_dir (sv_options s)) in dk_files d' !! path = dk_files d !! path.
Proof.
  induction 1 as [s d|m s f d r s' ops d' Hh _ IH|m s f d r s' ops d' Hh Hc]; cbv zeta in *; [done|..].
  - destruct (handled_same _ _ _ _ _ _ _ Hh) as [Ho _]. rewrite Ho in IH. rewrite IH.
    by apply apply_ops_untouched; eapply handled_leave.
  - by eapply crashed_untouched, handled_leave.
Qed.
End runs.

(** ** Theorems *)

Section theorems.
Context `{Platform, !CharconvLaws, Hasher, !WideHasher, System}.

(** C9: a frame meant for an earlier incarnation is fenced.  A service runs, is
    stopped or crashes at any moment, and is started again on what it left on the
    disk: the epoch is higher, and every frame pinned to the epoch of the earlier
    incarnation is answered with FENCED and changes nothing, neither the disk nor
    the state but for the counter of fenced frames. *)
Theorem stale_epoch_fenced (boot boot' : Boot) (m m' m2 : Machine) (o : ServiceOptions) (d d1 d2 : Disk)
    (s s' : Service) (ops ops' : list DiskOp) (f : Frame) :
  Start boot m o d = (Value s, ops) -> machine_ok m -> readable (sp_state_dir o) d ->
  served s (apply_ops ops d) d1 ->
  Start boot' m' o d1 = (Value s', ops') -> machine_ok m' -> fr_epoch_pin f = sv_epoch s ->
  sv_epoch s < sv_epoch s' /\
  HandleFrameFor m2 s' f d2 =
    ((refuse s' f (Failure StatusCode.Fenced ("the frame is pinned to an epoch this incarnation does not own (current epoch " +:+
        FormatU64 (sv_epoch s') +:+ ")")), put_stats add_fenced s'), []).
Proof.
  intros Hs Hm Hr Hserved Hs' Hm' Hpin.
  destruct (start_epoch _ _ _ _ _ _ Hs Hm Hr) as (Ho & _ & He & Hw & Hr1 & Hlast).
  pose proof (served_record _ _ _ Hserved) as Hrec. cbv zeta in Hrec. rewrite Ho in Hrec.
  destruct (recorded_frame _ _ _ Hrec) as [Er Hrr]. specialize (Hrr Hr1).
  destruct (start_epoch _ _ _ _ _ _ Hs' Hm' Hrr) as (_ & _ & He' & _).
  assert (last_epoch (sp_state_dir o) d1 = sv_epoch s) as El by (unfold last_epoch in *; by rewrite Er).
  rewrite El in He'. split; [lia|]. unfold HandleFrameFor. rewrite Hpin.
  pose proof (last_epoch_width (sp_state_dir o) d) as Hw0. unfold in_width in Hw0.
  rewrite (proj2 (Z.eqb_neq _ _)) by lia. rewrite (proj2 (Z.eqb_neq (sv_epoch s) _)) by lia. done.
Qed.

(** C12: a restart keeps the snapshot, and says that it is restored.  The snapshot
    a persisting service acknowledged is on the disk; a service started on that
    disk plans on it again, marked as restored by the new incarnation, and does
    not report it as fresh. *)
Theorem restart_restores (boot : Boot) (m m' : Machine) (s s' s1 : Service) (d : Disk) (f r : Frame) (ops ops' : list DiskOp)
    (t : TopologySnapshot) :
  HandleFrameFor m s f d = ((r, s1), ops) -> fr_kind f = MessageKind.Ingest -> fr_kind r = MessageKind.IngestAck ->
  sp_persist_snapshots (sv_options s) = true -> sv_snapshot s1 = Some t ->
  snapshot_ok t -> Forall line_fits (snapshot_lines t) -> string_size (SnapshotToText t) <= kMaxSnapshotTextBytes ->
  Start boot m' (sv_options s) (apply_ops ops d) = (Value s', ops') ->
  sv_snapshot s' = Some (MarkRestored (without_conflicts t) (is_incarnation (sv_incarnation s')) (sv_epoch s')) /\
  sv_snapshot_fresh s' = false.
Proof.
  intros Hh Hk Hrk Hpersist Hsnap Hok Hfits Hsize Hstart.
  assert (handle_ingest m s f d = ((r, s1), ops)) as Hi.
  { unfold HandleFrameFor in Hh. destruct (_ && _); [by injection Hh as <- <- <-|]. by rewrite Hk in Hh. }
  apply handle_ingest_cases in Hi as [[_ E]|(message & t' & _ & Ht & _ & -> & _ & Hsave)]; [by rewrite E in Hrk|].
  injection Hsnap as ->. rewrite Hpersist in Hsave. destruct Hsave as (st & Hsave & Hst).
  unfold SaveSnapshotFile, io_do in Hsave. apply WriteFileAtomic_done with (d := d) in Hsave. rewrite Hst in Hsave.
  apply Start_value in Hstart as (i & d1 & d2 & d3 & opsi & opso & st' & Hlock & Hadv & -> & Hopen & -> & _ & ->).
  cbn [sv_snapshot sv_snapshot_fresh sv_incarnation]. split; [|done]. set (o := sv_options s) in *.
  assert (dk_files (apply_ops opso (apply_ops opsi d1)) !! snapshot_path o = Some (SnapshotToText t)) as Hfile.
  { transitivity (dk_files (apply_ops opsi d1) !! snapshot_path o).
    { eapply Open_keeps; [exact Hopen|]. intros name Hn Hs. by eapply (not_cleaned _ _ ".oppsnap"). }
    transitivity (dk_files d1 !! snapshot_path o).
    { eapply Advance_keeps; [exact Hadv|apply snapshot_not_incarnation|apply snapshot_not_temp|].
      eapply (suffix_differs _ _ ".oppsnap"); [by apply path_suffix|].
      destruct (HasSuffix (_ +:+ ".unreadable") _) eqn:E; [|done].
      assert (HasSuffix (incarnation_path (sp_state_dir o) +:+ ".unreadable") ".unreadable" = true) as E2
        by (apply HasSuffix_spec; by eexists).
      by destruct (suffixes_clash _ _ _ E E2). }
    rewrite Hlock by apply snapshot_not_lock. exact Hsave. }
  unfold restore. rewrite Hpersist. unfold FileExists. rewrite Hfile, bool_decide_eq_true_2 by done. cbn [negb orb].
  unfold ReadFileBounded. rewrite Hfile, (proj2 (Z.ltb_ge _ _)) by done.
  destruct (read_snapshot_built _ _ Ht) as (b & b' & Hb & Hbo).
  by rewrite (sealed_snapshot_reads b b' t Hb Hbo Hok Hfits Hsize).
Qed.
End theorems.

(** ** A service that is started, given a snapshot and started again *)

Module SampleRestart.
#[local] Existing Instance SamplePlan.size_hasher.
#[local] Existing Instance SampleSystem.linux.
Import SampleService.

Definition boot : Boot := MkBoot None OkStatus.
Definition started (d : Disk) : Expected Service * list DiskOp := Start boot machine options d.
Definition running (d : Disk) : Service := match fst (started d) with Value s => s | Error _ => service end.

Definition bare_disk : Disk := MkDisk ∅ ∅.
Definition first : Service := running bare_disk.
Definition first_disk : Disk := apply_ops (snd (started bare_disk)) bare_disk.

Definition ingest_frame : Frame :=
  MkFrame MessageKind.Ingest 1 1 (EncodeIngest (MkIngest (t_digest row) (SnapshotToText row))).
Definition ingested : Frame * Service * list DiskOp := HandleFrameFor machine first ingest_frame first_disk.
Definition held : TopologySnapshot :=
  Eval vm_compute in match ParseSnapshotText (SnapshotToText row) with Value t => t | Error _ => row end.
Definition later_disk : Disk := apply_ops (snd ingested) first_disk.
Definition second : Service := running later_disk.

Lemma first_starts : Start boot machine options bare_disk = (Value first, snd (started bare_disk)).
Proof. vm_compute. reflexivity. Qed.

Lemma second_starts : Start boot machine options later_disk = (Value second, snd (started later_disk)).
Proof. vm_compute. reflexivity. Qed.

Lemma ingest_handled :
  HandleFrameFor machine first ingest_frame first_disk = (fst ingested, snd ingested) /\
  fr_kind (fst (fst ingested)) = MessageKind.IngestAck /\ sv_snapshot (snd (fst ingested)) = Some held.
Proof. split_and!; vm_compute; reflexivity. Qed.

Lemma bare_readable : readable (sp_state_dir options) bare_disk.
Proof. unfold readable. vm_compute. congruence. Qed.

Lemma held_ok : snapshot_ok held.
Proof.
  split; [by vm_compute..| | | | | |]; (split; [|by vm_compute]); cbn; repeat constructor; try by vm_compute.
Qed.

Lemma held_fits : Forall line_fits (snapshot_lines held).
Proof. apply (bool_decide_unpack _). by vm_compute. Qed.

Lemma held_size : string_size (SnapshotToText held) <= kMaxSnapshotTextBytes.
Proof. by vm_compute. Qed.
End SampleRestart.

Section witnesses.
Existing Instance SamplePlan.size_hasher.
Existing Instance SampleStore.size_wide.
Existing Instance SampleSystem.linux.
Import SampleService SampleRestart.

Lemma stale_epoch_fenced_witness :
  sv_epoch first < sv_epoch second /\
  fr_kind (fst (fst (HandleFrameFor machine second ingest_frame later_disk))) = MessageKind.Failure.
Proof.
  destruct ingest_handled as (Hh & _ & _). destruct (fst ingested) as [r s1] eqn:E.
  destruct (stale_epoch_fenced boot boot machine machine machine options bare_disk later_disk later_disk first second
    (snd (started bare_disk)) (snd (started later_disk)) ingest_frame first_starts SampleIncarnation.machine_fits bare_readable) as [Hlt Hf].
  - exact (served_frame machine first ingest_frame first_disk r s1 (snd ingested) later_disk Hh (served_no_more s1 later_disk)).
  - exact second_starts.
  - exact SampleIncarnation.machine_fits.
  - vm_compute. reflexivity.
  - split; [exact Hlt|]. rewrite Hf. reflexivity.
Defined.

Lemma restart_restores_witness :
  sv_snapshot second = Some (MarkRestored (without_conflicts held) (is_incarnation (sv_incarnation second)) (sv_epoch second)).
Proof.
  destruct ingest_handled as (Hh & Hk & Hs). destruct (fst ingested) as [r s1] eqn:E.
  refine (proj1 (restart_restores boot machine machine first second s1 first_disk ingest_frame r (snd ingested) (snd (started later_disk)) held
    Hh eq_refl Hk _ Hs held_ok held_fits held_size _)).
  - vm_compute. reflexivity.
  - exact second_starts.
Defined.
End witnesses.
