(* ===== verification/Interleaving.v ===== *)
(** * Interleaving: connections that share a service

    Every connection of [src/service.cpp] has its own thread.  [Service] gives a
    frame's handler as one function; here the handlers of [Plan] and [Ingest],
    which give up the lock in between, are cut into the steps other threads can
    come between: taking the snapshot, planning, every [Put] (the store has its
    own lock), the last update; and writing the snapshot file, which is done
    without a lock, before publishing the snapshot. *)

From S2P Require Import Prelude Status Ids Doubles Spectrum Canonical Topology SnapshotText Builder Request Outcome Search Route Plan.
From S2P Require Import Result Planner Validate Proto Messages Lines PlanText RequestText ResultText Rebuild SnapshotRead.
From S2P Require Import Files Store Incarnation Service Server ServiceFacts Restart.

(** ** Threads *)

(** A thread in the middle of a [Plan]: it has its snapshot and request, or it
    has the outcome and the plans that are still to be stored. *)
Inductive Work :=
  | Planning (snapshot : option TopologySnapshot) (request : PlanningRequest)
  | Storing (outcome : PlanOutcome.t) (plans : list PlanArtifact) (stored : bool).

(** The service, its disk, the threads in a [Plan], and the snapshots that are
    written but not published. *)
Record Shared := MkShared {
  sh_service : Service; sh_disk : Disk; sh_works : list Work; sh_saved : list TopologySnapshot
}.

Section steps.
Context `{Platform, Hasher, System}.

(** The plans of a result that are stored. *)
Definition to_store (result : PlanningResult) : list PlanArtifact :=
  if bool_decide (rs_outcome result = PlanOutcome.Feasible) then rs_candidates result else [].

(** What writing the snapshot file does. *)
Definition save (m : Machine) (o : ServiceOptions) (t : TopologySnapshot) : IO Status :=
  if sp_persist_snapshots o then SaveSnapshotFile m (snapshot_path o) t else io_return OkStatus.

(** A frame whose handler is cut into steps. *)
Definition in_pieces (s : Service) (f : Frame) : bool :=
  ((fr_epoch_pin f =? 0) || (fr_epoch_pin f =? sv_epoch s)) &&
  (bool_decide (fr_kind f = MessageKind.Plan) || bool_decide (fr_kind f = MessageKind.Ingest)).

Inductive step : Shared -> Shared -> Prop :=
  | plan_begins s d a b saved request :
      step (MkShared s d (a ++ b) saved) (MkShared (begin_plan s) d (a ++ Planning (sv_snapshot s) request :: b) saved)
  | plan_computes s d a b saved snapshot request :
      let result := plan_on (sv_options s) snapshot request in
      step (MkShared s d (a ++ Planning snapshot request :: b) saved)
           (MkShared s d (a ++ Storing (rs_outcome result) (to_store result) true :: b) saved)
  | plan_puts m s d a b saved outcome p plans stored st ops :
      Put (mc_writes m (PathFor (sv_store s) (pl_digest p))) (sv_store s) p d = (st, ops) ->
      step (MkShared s d (a ++ Storing outcome (p :: plans) stored :: b) saved)
           (MkShared s (apply_ops ops d) (a ++ Storing outcome plans (stored && negb (failed st)) :: b) saved)
  | plan_ends s d a b saved outcome stored :
      step (MkShared s d (a ++ Storing outcome [] stored :: b) saved) (MkShared (end_plan outcome stored s) d (a ++ b) saved)
  | ingest_saves m s d works a b t st ops :
      save m (sv_options s) t d = (st, ops) ->
      step (MkShared s d works (a ++ b))
           (MkShared s (apply_ops ops d) works (if failed st then a ++ b else a ++ t :: b))
  | ingest_publishes s d works a b t :
      step (MkShared s d works (a ++ t :: b)) (MkShared (put_stats add_ingested (put_snapshot t s)) d works (a ++ b))
  | frame_handled m s d works saved f r s' ops :
      in_pieces s f = false -> HandleFrameFor m s f d = ((r, s'), ops) ->
      step (MkShared s d works saved) (MkShared s' (apply_ops ops d) works saved)
  | frame_counted s d works saved failure :
      step (MkShared s d works saved)
           (MkShared (put_stats (if failure : bool then add_frame_rejected else add_handled) s) d works saved)
  | connection_taken s d works saved connection :
      step (MkShared s d works saved) (MkShared (snd (Accept connection s)) d works saved)
  | connection_closed s d works saved connection :
      step (MkShared s d works saved) (MkShared (CloseConnection connection s) d works saved).

(** ** Lemmas: a handler alone *)

Lemma puts_steps m outcome plans s d works saved stored stored' ops :
  store_plans m (sv_store s) plans d = (stored', ops) ->
  rtc step (MkShared s d (Storing outcome plans stored :: works) saved)
           (MkShared s (apply_ops ops d) (Storing outcome [] (stored && stored') :: works) saved).
Proof.
  revert d stored stored' ops. induction plans as [|p plans IH]; intros d stored stored' ops; cbn [store_plans].
  - intros [= <- <-]. rewrite andb_true_r. apply rtc_refl.
  - intros (st & ops1 & ops2 & Hput & E & ->)%io_bind_value.
    apply io_bind_value in E as (all & ops3 & ops4 & Hrest & E & ->). injection E as <- <-. rewrite app_nil_r, apply_ops_app.
    eapply rtc_l; [exact (plan_puts m s d [] works saved outcome p plans stored st ops1 Hput)|].
    rewrite andb_assoc. apply IH. exact Hrest.
Qed.

Lemma handle_plan_steps m s f d r s' ops works saved :
  handle_plan m s f d = ((r, s'), ops) -> rtc step (MkShared s d works saved) (MkShared s' (apply_ops ops d) works saved).
Proof.
  unfold handle_plan. destruct (plan_request f) as [request|]; [|intros [= _ <- <-]; apply rtc_refl]. cbv zeta.
  intros (stored & ops1 & ops2 & Hst & E & ->)%io_bind_value. injection E as _ <- <-. rewrite app_nil_r.
  change (sv_options (begin_plan s)) with (sv_options s) in *. change (sv_snapshot (begin_plan s)) with (sv_snapshot s) in *.
  set (result := plan_on (sv_options s) (sv_snapshot s) request) in *.
  eapply rtc_l; [exact (plan_begins s d [] works saved request)|].
  eapply rtc_l; [exact (plan_computes (begin_plan s) d [] works saved (sv_snapshot s) request)|].
  eapply rtc_r; [|exact (plan_ends (begin_plan s) _ [] works saved (rs_outcome result) stored)].
  apply (puts_steps m (rs_outcome result) (to_store result) (begin_plan s) d works saved true stored ops1).
  unfold store_result in Hst. unfold to_store. destruct (bool_decide _); [exact Hst|]. exact Hst.
Qed.

Lemma handle_ingest_steps m s f d r s' ops works saved :
  handle_ingest m s f d = ((r, s'), ops) -> rtc step (MkShared s d works saved) (MkShared s' (apply_ops ops d) works saved).
Proof.
  unfold handle_ingest. destruct (DecodeIngest _) as [message|]; [|intros [= _ <- <-]; apply rtc_refl].
  destruct (ParseSnapshotText _) as [t|]; [|intros [= _ <- <-]; apply rtc_refl].
  destruct (negb _); [intros [= _ <- <-]; apply rtc_refl|].
  intros (st & ops1 & ops2 & E1 & E2 & ->)%io_bind_value.
  assert (ops2 = []) as -> by (destruct (failed st); by injection E2). rewrite app_nil_r.
  eapply rtc_l; [exact (ingest_saves m s d works [] saved t st ops1 E1)|].
  destruct (failed st); injection E2 as _ <-; [apply rtc_refl|].
  apply rtc_once. exact (ingest_publishes s (apply_ops ops1 d) works [] saved t).
Qed.

Lemma handled_steps m s f d r s' ops works saved :
  HandleFrameFor m s f d = ((r, s'), ops) -> rtc step (MkShared s d works saved) (MkShared s' (apply_ops ops d) works saved).
Proof.
  intros Hh. destruct (in_pieces s f) eqn:Hp; [|by apply rtc_once; eapply frame_handled].
  unfold in_pieces in Hp. apply andb_true_iff in Hp as [Hpin Hk].
  rewrite handled_pinned in Hh by (apply orb_true_iff in Hpin as [?%Z.eqb_eq|?%Z.eqb_eq]; tauto).
  apply orb_true_iff in Hk as [Hk%bool_decide_eq_true|Hk%bool_decide_eq_true]; rewrite Hk in Hh.
  - by eapply handle_plan_steps.
  - by eapply handle_ingest_steps.
Qed.

(** ** Lemmas: what the steps keep *)

(** A frame handled in one piece writes nothing and keeps the snapshot and the
    requests in flight. *)
Record quiet (s s' : Service) : Prop := {
  qu_options : sv_options s' = sv_options s;
  qu_store : sv_store s' = sv_store s;
  qu_snapshot : sv_snapshot s' = sv_snapshot s;
  qu_fresh : sv_snapshot_fresh s' = sv_snapshot_fresh s;
  qu_active : active_requests (sv_stats s') = active_requests (sv_stats s)
}.

Lemma quiet_refl s : quiet s s.
Proof. done. Qed.

Lemma handled_quiet m s f d r s' ops :
  in_pieces s f = false -> HandleFrameFor m s f d = ((r, s'), ops) -> ops = [] /\ quiet s s'.
Proof.
  unfold in_pieces, HandleFrameFor. intros Hp.
  assert (negb (fr_epoch_pin f =? 0) && negb (fr_epoch_pin f =? sv_epoch s) = negb ((fr_epoch_pin f =? 0) || (fr_epoch_pin f =? sv_epoch s)))
    as -> by (by rewrite negb_orb).
  destruct (_ || _); cbn [negb andb] in *; [|intros [= <- <- <-]; done].
  apply orb_false_iff in Hp as [Hplan%bool_decide_eq_false Hing%bool_decide_eq_false].
  unfold io_return, io_look, handle_hello, handle_validate, handle_get_plan, handle_store_list, handle_cancel, handle_stats.
  destruct (fr_kind f); try done; repeat case_match; intros [= <- <- <-]; done.
Qed.

(** The counter of requests is the number of threads in a [Plan]. *)
Definition balanced (x : Shared) : Prop := active_requests (sv_stats (sh_service x)) = wrap64 (size (sh_works x)).

Lemma size_middle {A} (a b : list A) x : size (a ++ x :: b) = size (a ++ b) + 1.
Proof. unfold size. rewrite !length_app. cbn [length]. lia. Qed.

Lemma wrap64_step n k : wrap64 (wrap64 n + k) = wrap64 (n + k).
Proof. unfold wrap64, wrap. by rewrite Zplus_mod_idemp_l. Qed.

Lemma step_balanced x y : step x y -> balanced x -> balanced y.
Proof.
  unfold balanced.
  destruct 1 as [s d a b saved request|s d a b saved snapshot request result|m s d a b saved outcome p plans stored st ops Hput
    |s d a b saved outcome stored|m s d works a b t st ops Hsave|s d works a b t|m s d works saved f r s' ops Hp Hh
    |s d works saved failure|s d works saved connection|s d works saved connection]; cbn [sh_service sh_works].
  - intros E. rewrite size_middle. unfold begin_plan, put_stats. cbn [sv_stats]. unfold add_active. cbn [active_requests].
    by rewrite E, wrap64_step.
  - by rewrite !size_middle.
  - by rewrite !size_middle.
  - rewrite size_middle. intros E. unfold end_plan, put_stats. cbn [sv_stats].
    assert (forall c, active_requests (match outcome with
      | PlanOutcome.Cancelled => add_planned 0 0 1
      | PlanOutcome.Feasible => add_planned 1 (if stored then 0 else 1) 0
      | _ => add_planned 0 1 0 end c) = active_requests c) as -> by (by destruct outcome).
    unfold add_active. cbn [active_requests]. rewrite E, wrap64_step. f_equal. lia.
  - done.
  - done.
  - intros E. destruct (handled_quiet _ _ _ _ _ _ _ Hp Hh) as [_ Hq]. by rewrite (qu_active _ _ Hq).
  - by destruct failure.
  - unfold Accept. by destruct (_ <=? _).
  - done.
Qed.
End steps.

Section durability.
Context `{Platform, !CharconvLaws, Hasher, !WideHasher, System}.

Definition on_disk (x : Shared) (t : TopologySnapshot) : Prop :=
  dk_files (sh_disk x) !! snapshot_path (sv_options (sh_service x)) = Some (SnapshotToText t).

(** The snapshot file holds the snapshot that is about to be published, or
    else the one that was. *)
Definition durable (x : Shared) : Prop :=
  match sh_saved x with
  | [] => forall t, sv_snapshot_fresh (sh_service x) = true -> sv_snapshot (sh_service x) = Some t -> on_disk x t
  | [t] => on_disk x t
  | _ => False
  end.

(** A step after which at most one ingest is between its write and its
    publication. *)
Definition serial_step (x y : Shared) : Prop := step x y /\ size (sh_saved y) <= 1.

Lemma durable_same x y :
  sh_saved y = sh_saved x -> sv_options (sh_service y) = sv_options (sh_service x) ->
  sv_snapshot (sh_service y) = sv_snapshot (sh_service x) ->
  sv_snapshot_fresh (sh_service y) = sv_snapshot_fresh (sh_service x) ->
  dk_files (sh_disk y) !! snapshot_path (sv_options (sh_service x)) = dk_files (sh_disk x) !! snapshot_path (sv_options (sh_service x)) ->
  durable x -> durable y.
Proof. unfold durable, on_disk. intros -> -> -> -> ->. done. Qed.

Lemma put_leaves_snapshot faults o p d st ops dir :
  Put faults o p d = (st, ops) ->
  dk_files (apply_ops ops d) !! JoinPath dir kSnapshotFileName = dk_files d !! JoinPath dir kSnapshotFileName.
Proof.
  intros Hput. apply apply_ops_untouched. apply Put_cases in Hput as [[-> _]|(bytes & names & _ & _ & _ & _ & Hw)]; [constructor|].
  eapply write_leaves; [exact Hw| |apply snapshot_not_temp].
  apply (path_of_other_kind _ _ _ ".oppsnap" kStoreFileSuffix); try done.
  apply path_suffix; [apply FileNameFor_plain|apply FileNameFor_suffix].
Qed.

Lemma serial_step_durable x y :
  sp_persist_snapshots (sv_options (sh_service x)) = true -> serial_step x y -> durable x ->
  durable y /\ sv_options (sh_service y) = sv_options (sh_service x).
Proof.
  intros Hp [Hstep Hone] Hx. revert Hp Hone Hx.
  destruct Hstep as [s d a b saved request|s d a b saved snapshot request result|m s d a b saved outcome p plans stored st ops Hput
    |s d a b saved outcome stored|m s d works a b t st ops Hsave|s d works a b t|m s d works saved f r s' ops Hq Hh
    |s d works saved failure|s d works saved connection|s d works saved connection];
    cbn [sh_service sh_saved]; intros Hp Hone Hx; (split; [|try done]);
    try (eapply durable_same; [..|exact Hx]; done).
  - eapply durable_same; [..|exact Hx]; try done. cbn [sh_disk sh_service]. by eapply put_leaves_snapshot.
  - unfold save in Hsave. rewrite Hp in Hsave. unfold SaveSnapshotFile, io_do in Hsave.
    apply WriteFileAtomic_done with (d := d) in Hsave. destruct (failed st).
    + eapply durable_same; [..|exact Hx]; done.
    + assert (a = [] /\ b = []) as [-> ->].
      { rewrite size_middle in Hone. unfold size in Hone. rewrite length_app in Hone. destruct a, b; cbn in Hone; (done || lia). }
      exact Hsave.
  - assert (a = [] /\ b = []) as [-> ->].
    { unfold durable in Hx. cbn [sh_saved] in Hx. destruct a as [|? [|]], b; cbn in Hx; done. }
    unfold durable, on_disk in *. cbn in *. by intros t' _ [= <-].
  - destruct (handled_quiet _ _ _ _ _ _ _ Hq Hh) as [-> Hqs].
    eapply durable_same; [..|exact Hx]; [done|exact (qu_options _ _ Hqs)|exact (qu_snapshot _ _ Hqs)|exact (qu_fresh _ _ Hqs)|done].
  - destruct (handled_quiet _ _ _ _ _ _ _ Hq Hh) as [-> Hqs]. exact (qu_options _ _ Hqs).
  - unfold Accept. destruct (_ <=? _); (eapply durable_same; [..|exact Hx]; done).
  - unfold Accept. by destruct (_ <=? _).
Qed.
End durability.

(** ** Theorems *)

Section theorems.
Context `{Platform, !CharconvLaws, Hasher, !WideHasher, System}.

(** C40: a handler is one of its interleavings.  Whatever a frame's handler does
    to the service and the disk, the steps do as well, with nothing between them
    and the other threads left as they are. *)
Theorem handler_refines_steps (m : Machine) (s s' : Service) (f r : Frame) (d : Disk) (ops : list DiskOp)
    (works : list Work) (saved : list TopologySnapshot) :
  HandleFrameFor m s f d = ((r, s'), ops) -> rtc step (MkShared s d works saved) (MkShared s' (apply_ops ops d) works saved).
Proof. apply handled_steps. Qed.

(** C13: the requests in flight are counted.  However the connections interleave,
    [active_requests] is the number of threads in a [Plan], so it is 0 whenever
    none is: no outcome, failure or order loses or doubles a request. *)
Theorem requests_balanced (x y : Shared) :
  rtc step x y -> balanced x -> balanced y /\ (sh_works y = [] -> active_requests (sv_stats (sh_service y)) = 0).
Proof.
  intros Hs Hx. assert (balanced y) as Hy by (induction Hs; eauto using step_balanced). split; [exact Hy|].
  intros E. unfold balanced in Hy. rewrite Hy, E. reflexivity.
Qed.

(** C15: ingests that do not overlap are durable.  As long as no ingest writes its
    file while another one has written and not yet published, the file of a
    persisting service holds the very snapshot the service plans on. *)
Theorem serial_ingest_durable (x y : Shared) (t : TopologySnapshot) :
  rtc serial_step x y -> sp_persist_snapshots (sv_options (sh_service x)) = true -> durable x ->
  sh_saved y = [] -> sv_snapshot_fresh (sh_service y) = true -> sv_snapshot (sh_service y) = Some t -> on_disk y t.
Proof.
  intros Hs Hp Hx. assert (durable y) as Hy.
  { induction Hs as [x|x x1 y Hstep _ IH]; [exact Hx|]. destruct (serial_step_durable _ _ Hp Hstep Hx) as [Hx1 Ho].
    apply IH; [by rewrite Ho|exact Hx1]. }
  unfold durable in Hy. intros E. rewrite E in Hy. apply Hy.
Qed.

(** Ingests that overlap can leave another snapshot on the disk.  Two
    acknowledged ingests, whose writes succeed, can be ordered so that the service
    plans on the one and its snapshot file holds the other: a restart does not
    restore the snapshot the service had. *)
Theorem overlapping_ingests_diverge (m : Machine) (s : Service) (d : Disk) (works : list Work) (t1 t2 : TopologySnapshot) :
  sp_persist_snapshots (sv_options s) = true -> mc_writes m (snapshot_path (sv_options s)) = no_faults ->
  exists y, rtc step (MkShared s d works []) y /\ sh_saved y = [] /\
    sv_snapshot (sh_service y) = Some t1 /\ sv_snapshot_fresh (sh_service y) = true /\ on_disk y t2.
Proof.
  intros Hp Hm. set (o := sv_options s).
  assert (forall t d, exists ops, save m o t d = (OkStatus, ops) /\ dk_files (apply_ops ops d) !! snapshot_path o = Some (SnapshotToText t))
    as Hsave.
  { intros t d0. unfold save, SaveSnapshotFile, io_do. unfold o. rewrite Hp, Hm.
    destruct (WriteFileAtomic no_faults (snapshot_path (sv_options s)) (SnapshotToText t)) as [st ops] eqn:Hw.
    pose proof (WriteFileAtomic_done _ _ _ _ _ d0 Hw) as Hd.
    assert (st = OkStatus) as -> by (unfold WriteFileAtomic, RenameFile in Hw; cbn in Hw; by destruct (bool_decide _); injection Hw as <- _).
    by exists ops. }
  destruct (Hsave t1 d) as (ops1 & E1 & _). destruct (Hsave t2 (apply_ops ops1 d)) as (ops2 & E2 & Hfile).
  eexists. split; [|split; [|split; [|split]]].
  - eapply rtc_l; [exact (ingest_saves m s d works [] [] t1 OkStatus ops1 E1)|].
    eapply rtc_l; [exact (ingest_saves m s _ works [t1] [] t2 OkStatus ops2 E2)|].
    eapply rtc_l; [exact (ingest_publishes s _ works [t1] [] t2)|].
    apply rtc_once. exact (ingest_publishes _ _ works [] [] t1).
  - done.
  - done.
  - done.
  - exact Hfile.
Qed.
End theorems.

Section witnesses.
Existing Instance SamplePlan.size_hasher.
Existing Instance SampleStore.size_wide.
Existing Instance SampleSystem.linux.
Import SampleService SampleRestart.

Definition alone (s : Service) (d : Disk) : Shared := MkShared s d [] [].

Lemma handler_refines_steps_witness :
  rtc step (alone service disk) (alone (snd (fst planned)) full_disk).
Proof.
  pose proof handled as Hh. destruct planned as [[r s'] ops] eqn:E.
  unfold full_disk. rewrite E. exact (handler_refines_steps machine service s' plan_frame r disk ops [] [] Hh).
Defined.

Lemma requests_balanced_witness :
  balanced (MkShared (begin_plan (begin_plan service)) disk [Planning (Some row) Net.request; Planning (Some row) Net.request] []).
Proof.
  refine (proj1 (requests_balanced (alone service disk) _ _ _)); [|reflexivity].
  eapply rtc_l; [exact (plan_begins service disk [] [] [] Net.request)|].
  apply rtc_once. exact (plan_begins (begin_plan service) disk [] [Planning (Some row) Net.request] [] Net.request).
Defined.

(** What the disk holds after the snapshot is saved. *)
Definition saved_on (t : TopologySnapshot) (d : Disk) : Disk := apply_ops (snd (save machine options t d)) d.

Lemma save_succeeds t d : save machine options t d = (OkStatus, snd (save machine options t d)).
Proof. unfold save, SaveSnapshotFile, io_do. cbn. unfold WriteFileAtomic. cbn. by destruct (bool_decide _). Qed.

Lemma serial_ingest_durable_witness :
  on_disk (alone (put_stats add_ingested (put_snapshot held first)) (saved_on held first_disk)) held.
Proof.
  apply (serial_ingest_durable (alone first first_disk)); [|vm_compute; reflexivity| |reflexivity..].
  - eapply rtc_l; [split; [exact (ingest_saves machine first first_disk [] [] [] held OkStatus _ (save_succeeds held first_disk))|vm_compute; discriminate]|].
    apply rtc_once. split; [exact (ingest_publishes first _ [] [] [] held)|vm_compute; discriminate].
  - intros t Hf. vm_compute in Hf. discriminate Hf.
Defined.

Lemma overlapping_ingests_diverge_witness :
  SnapshotToText SampleSnapshot.sample <> SnapshotToText held /\
  exists y, rtc step (alone first first_disk) y /\ sv_snapshot (sh_service y) = Some held /\ on_disk y SampleSnapshot.sample.
Proof.
  split; [vm_compute; discriminate|].
  destruct (overlapping_ingests_diverge machine first first_disk [] held SampleSnapshot.sample) as (y & Hs & _ & Hsnap & _ & Hd);
    [reflexivity..|]. by exists y.
Defined.
End witnesses.
