(* ===== verification/Json.v ===== *)
(** * Json: the JSON text the command line prints, and a reader for it

    [JsonEscape], [JsonString] and the braces, brackets and commas of
    [src/apps/opp_cli.cpp].  The reader is not in the code: it is the independent
    definition of what a printed text says, strict where RFC 8259 is (control
    characters, escapes, hexadecimal digits, leading zeros), and the printed text
    of a value reads back to the value. *)

From S2P Require Import Prelude Status Ids Canonical.

Definition quote : ascii := char_of 34.
Definition backslash : ascii := char_of 92.

(** ** Printing *)

(** One character of the text; a control character is written [\u%04x]. *)
Definition escape_json (c : ascii) : list ascii :=
  if Ascii.eqb c quote then [backslash; quote]
  else if Ascii.eqb c backslash then [backslash; backslash]
  else if Ascii.eqb c (char_of 10) then [backslash; "n"%char]
  else if Ascii.eqb c (char_of 13) then [backslash; "r"%char]
  else if Ascii.eqb c (char_of 9) then [backslash; "t"%char]
  else if byte_of c <? 32 then
    [backslash; "u"%char; "0"%char; "0"%char; hex_digit (Z.land (Z.shiftr (byte_of c) 4) 15);
     hex_digit (Z.land (byte_of c) 15)]
  else [c].

Definition JsonEscape (text : string) : string := of_chars (concat (map escape_json (chars text))).

Definition JsonString (text : string) : string := String quote (JsonEscape text +:+ String quote "").

(** [if (i != 0) out += ","] between the items. *)
Definition commas (items : list string) : string := String.concat "," items.

Definition json_bool (b : bool) : string := if b then "true" else "false".
Definition json_array (items : list string) : string := "[" +:+ commas items +:+ "]".

(** A key and the printed value after it; the keys written as literals in the
    code hold nothing to escape. *)
Definition json_field (key value : string) : string := JsonString key +:+ ":" +:+ value.
Definition json_object (fields : list string) : string := "{" +:+ commas fields +:+ "}".

Definition JsonKeyValue (key value : string) : string := json_object [json_field key value].

(** ** Values *)

Inductive Json :=
  | JNumber (n : Z)
  | JBool (b : bool)
  | JText (t : string)
  | JArray (items : list Json)
  | JObject (fields : list (string * Json)).

Fixpoint render (j : Json) : string :=
  match j with
  | JNumber n => to_string n
  | JBool b => json_bool b
  | JText t => JsonString t
  | JArray items => json_array (map render items)
  | JObject fields => json_object (map (fun f => json_field f.1 (render f.2)) fields)
  end.

(** Induction over the items as well. *)
Lemma Json_induction (P : Json -> Prop) :
  (forall n, P (JNumber n)) -> (forall b, P (JBool b)) -> (forall t, P (JText t)) ->
  (forall items, Forall P items -> P (JArray items)) ->
  (forall fields, Forall (fun f => P f.2) fields -> P (JObject fields)) -> forall j, P j.
Proof.
  intros Hn Hb Ht Ha Ho. fix IH 1. intros [n|b|t|items|fields]; [done..| |].
  - apply Ha. induction items as [|j items IHi]; constructor; [apply IH|done].
  - apply Ho. induction fields as [|[k j] fields IHf]; constructor; [apply IH|done].
Defined.

(** ** A reader *)

(** RFC 8259 on bytes: a string holds no raw control character, quote or
    backslash; a backslash is followed by one of eight letters, or by [u] and
    four hexadecimal digits.  The reader takes the code points that are one byte
    in UTF-8, those below 128; it copies a byte from 128 up as it is, as the
    printer does, and does not ask whether the bytes are UTF-8. *)
Definition unescape (c : ascii) : option ascii :=
  if Ascii.eqb c quote then Some quote
  else if Ascii.eqb c backslash then Some backslash
  else if Ascii.eqb c "/" then Some "/"%char
  else if Ascii.eqb c "b" then Some (char_of 8)
  else if Ascii.eqb c "f" then Some (char_of 12)
  else if Ascii.eqb c "n" then Some (char_of 10)
  else if Ascii.eqb c "r" then Some (char_of 13)
  else if Ascii.eqb c "t" then Some (char_of 9)
  else None.

(** The character of four hexadecimal digits. *)
Definition code_point (a b c d : ascii) : option ascii :=
  let value := 4096 * HexValue a + 256 * HexValue b + 16 * HexValue c + HexValue d in
  if forallb IsHexDigit [a; b; c; d] && (value <? 128) then Some (char_of value) else None.

(** The characters up to the closing quote, and what follows it. *)
Fixpoint read_json_text (l : list ascii) : option (list ascii * list ascii) :=
  match l with
  | [] => None
  | c :: r =>
      if Ascii.eqb c quote then Some ([], r)
      else
        let next c' r' := match read_json_text r' with Some (t, rest) => Some (c' :: t, rest) | None => None end in
        if Ascii.eqb c backslash then
          match r with
          | u :: r1 =>
              if Ascii.eqb u "u" then
                match r1 with
                | a :: b :: h :: l :: r2 => match code_point a b h l with Some c' => next c' r2 | None => None end
                | _ => None
                end
              else match unescape u with Some c' => next c' r1 | None => None end
          | [] => None
          end
        else if byte_of c <? 32 then None
        else next c r
  end.

(** The digits at the front. *)
Fixpoint read_digits (l : list ascii) : list ascii * list ascii :=
  match l with
  | c :: r => if is_digit c then let '(ds, rest) := read_digits r in (c :: ds, rest) else ([], l)
  | [] => ([], [])
  end.

(** A number has no zero before its first digit. *)
Definition no_leading_zero (ds : list ascii) : bool :=
  match ds with c :: _ :: _ => negb (Ascii.eqb c "0") | _ => true end.

Definition expect (t : string) (l : list ascii) : option (list ascii) :=
  if bool_decide (firstn (String.length t) l = chars t) then Some (skipn (String.length t) l) else None.

(** Items up to the closing bracket, each read by [item] and followed by a comma
    or the bracket. *)
Fixpoint read_items {A} (item : list ascii -> option (A * list ascii)) (close : ascii) (fuel : nat) (l : list ascii) :
  option (list A * list ascii) :=
  match fuel with
  | O => None
  | S f =>
      match item l with
      | Some (x, c :: r) =>
          if Ascii.eqb c close then Some ([x], r)
          else if Ascii.eqb c "," then
            match read_items item close f r with Some (xs, rest) => Some (x :: xs, rest) | None => None end
          else None
      | _ => None
      end
  end.

Definition read_list {A} (item : list ascii -> option (A * list ascii)) (close : ascii) (fuel : nat) (l : list ascii) :
  option (list A * list ascii) :=
  match l with
  | c :: r => if Ascii.eqb c close then Some ([], r) else read_items item close fuel l
  | [] => None
  end.

Fixpoint read_json (fuel : nat) (l : list ascii) : option (Json * list ascii) :=
  match fuel with
  | O => None
  | S f =>
      let field l :=
        match l with
        | c :: r =>
            if Ascii.eqb c quote then
              match read_json_text r with
              | Some (k, c' :: r') =>
                  if Ascii.eqb c' ":" then
                    match read_json f r' with Some (v, rest) => Some ((of_chars k, v), rest) | None => None end
                  else None
              | _ => None
              end
            else None
        | [] => None
        end in
      match l with
      | [] => None
      | c :: r =>
          if Ascii.eqb c quote then
            match read_json_text r with Some (t, rest) => Some (JText (of_chars t), rest) | None => None end
          else if Ascii.eqb c "[" then
            match read_list (read_json f) "]"%char f r with Some (xs, rest) => Some (JArray xs, rest) | None => None end
          else if Ascii.eqb c "{" then
            match read_list field "}"%char f r with Some (fs, rest) => Some (JObject fs, rest) | None => None end
          else if Ascii.eqb c "t" then match expect "true" l with Some rest => Some (JBool true, rest) | None => None end
          else if Ascii.eqb c "f" then match expect "false" l with Some rest => Some (JBool false, rest) | None => None end
          else if is_digit c then
            let '(ds, rest) := read_digits l in
            if no_leading_zero ds then Some (JNumber (decimal_value (of_chars ds)), rest) else None
          else None
      end
  end.

(** Enough fuel: a list needs one for each item and what its items need. *)
Fixpoint weight (j : Json) : nat :=
  match j with
  | JArray items => S (Nat.max (length items) (list_max (map weight items)))
  | JObject fields => S (Nat.max (length fields) (list_max (map (fun f => weight f.2) fields)))
  | _ => 1
  end.

Definition ReadJson (t : string) : option Json :=
  match read_json (S (String.length t)) (chars t) with Some (j, []) => Some j | _ => None end.

(** The numbers of a value are unsigned 64-bit ones. *)
Fixpoint json_ok (j : Json) : Prop :=
  match j with
  | JNumber n => in_width 64 n
  | JArray items => fold_right (fun i P => json_ok i /\ P) True items
  | JObject fields => fold_right (fun f P => json_ok f.2 /\ P) True fields
  | _ => True
  end.

(** ** Lemmas: texts *)

Lemma read_escaped c l :
  read_json_text (escape_json c ++ l) =
  match read_json_text l with Some (t, rest) => Some (c :: t, rest) | None => None end.
Proof. destruct c as [[] [] [] [] [] [] [] []]; reflexivity. Qed.

Lemma read_json_text_escape t rest :
  read_json_text (chars (JsonEscape t) ++ quote :: rest) = Some (chars t, rest).
Proof.
  unfold JsonEscape. rewrite chars_of_chars. generalize (chars t) as l.
  induction l as [|c l IH]; [reflexivity|]. cbn [map concat]. rewrite <- app_assoc, read_escaped. by rewrite IH.
Qed.

(** A string literal is undone by the reader, whatever its characters. *)
Theorem JsonEscape_readable (t : string) (rest : list ascii) :
  read_json_text (chars (JsonEscape t) ++ quote :: rest) = Some (chars t, rest).
Proof. apply read_json_text_escape. Qed.

Lemma read_digits_app ds rest :
  (forall c, In c ds -> is_digit c = true) -> (match rest with c :: _ => is_digit c = false | [] => True end) ->
  read_digits (ds ++ rest) = (ds, rest).
Proof.
  intros Hd Hr. induction ds as [|c ds IH]; simpl.
  - destruct rest as [|c rest]; [done|]. simpl. by rewrite Hr.
  - rewrite (Hd c) by (by left). rewrite IH; [done|]. intros x Hx. apply Hd. by right.
Qed.

Lemma decimal_from_lead fuel n acc :
  0 < n < 10 ^ Z.of_nat fuel -> exists c t, decimal_from fuel n acc = String c t /\ Ascii.eqb c "0" = false.
Proof.
  revert n acc; induction fuel as [|f IH]; intros n acc Hn; [simpl in Hn; lia|]. cbn [decimal_from]. cbv zeta.
  destruct (Z.ltb_spec n 10) as [Hlt|Hge].
  - eexists _, _. split; [reflexivity|]. apply Ascii.eqb_neq. intros E. apply (f_equal byte_of) in E.
    rewrite digit_char, Z.mod_small in E by (try apply Z.mod_pos_bound; lia). change (byte_of "0") with 48 in E. lia.
  - rewrite Nat2Z.inj_succ, Z.pow_succ_r in Hn by lia. apply IH. split; [apply Z.div_str_pos; lia|].
    apply Z.div_lt_upper_bound; lia.
Qed.

Lemma to_string_lead n : in_width 64 n -> no_leading_zero (chars (to_string n)) = true.
Proof.
  intros [H0 H1]. destruct (Z.eq_dec n 0) as [->|Hne]; [done|].
  destruct (decimal_from_lead 20 n "") as (c & t & E & Hc); [simpl Z.of_nat; lia|].
  unfold to_string. rewrite E. cbn [chars list_ascii_of_string no_leading_zero]. rewrite Hc. by destruct (list_ascii_of_string t).
Qed.

(** What may follow a value: nothing that could continue a number. *)
Definition after_value (rest : list ascii) : Prop := match rest with c :: _ => is_digit c = false | [] => True end.

Lemma digit_dispatch c : is_digit c = true ->
  Ascii.eqb c quote = false /\ Ascii.eqb c "[" = false /\ Ascii.eqb c "{" = false /\ Ascii.eqb c "t" = false /\
  Ascii.eqb c "f" = false /\ Ascii.eqb c "]" = false /\ Ascii.eqb c "}" = false.
Proof. destruct c as [[] [] [] [] [] [] [] []]; intros Hc; try discriminate Hc; repeat split. Qed.

(** A printed value does not start with a closing bracket. *)
Lemma render_head j close :
  json_ok j -> close = "]"%char \/ close = "}"%char -> exists c t, chars (render j) = c :: t /\ Ascii.eqb c close = false.
Proof.
  intros Hj Hc. destruct j as [n|b|t|items|fields]; cbn [render].
  - destruct (chars (to_string n)) as [|c r] eqn:E.
    + exfalso. apply (to_string_nonempty n). by apply (inj chars).
    + exists c, r. split; [done|]. assert (is_digit c = true) as Hd.
      { destruct Hj. apply (to_string_digits n); [done|]. rewrite E. by left. }
      destruct (digit_dispatch c Hd) as (_ & _ & _ & _ & _ & H1 & H2). by destruct Hc as [->| ->].
  - destruct b; eexists _, _; (split; [reflexivity|]); by destruct Hc as [->| ->].
  - eexists _, _. split; [reflexivity|]. by destruct Hc as [->| ->].
  - eexists _, _. split; [reflexivity|]. by destruct Hc as [->| ->].
  - eexists _, _. split; [reflexivity|]. by destruct Hc as [->| ->].
Qed.

(** ** Lemmas: lists *)

Lemma commas_cons x y l : commas (x :: y :: l) = x +:+ "," +:+ commas (y :: l).
Proof. done. Qed.

Section lists.
Context {A B : Type} (item : list ascii -> option (B * list ascii)) (print : A -> string) (value : A -> B) (close : ascii).
Context (close_ok : is_digit close = false) (comma_ok : Ascii.eqb "," close = false).

Lemma read_items_printed fuel x l rest :
  (length l < fuel)%nat ->
  Forall (fun y => forall r, after_value r -> item (chars (print y) ++ r) = Some (value y, r)) (x :: l) ->
  read_items item close fuel (chars (commas (map print (x :: l))) ++ close :: rest) = Some (map value (x :: l), rest).
Proof.
  revert x fuel; induction l as [|y l IH]; intros x fuel Hf Hl; destruct fuel as [|f]; try (simpl in Hf; lia).
  - inversion_clear Hl as [|? ? Hx _]. cbn [read_items map commas String.concat]. rewrite Hx by done.
    by rewrite Ascii.eqb_refl.
  - inversion_clear Hl as [|? ? Hx Hl']. cbn [read_items]. cbn [map]. rewrite commas_cons.
    rewrite !chars_app, <- app_assoc, Hx by done. cbn [chars list_ascii_of_string app].
    rewrite comma_ok. change (Ascii.eqb "," ",") with true. cbv iota.
    change (print y :: map print l) with (map print (y :: l)). rewrite IH; [done|simpl in Hf; lia|done].
Qed.

Lemma read_list_printed fuel l rest :
  (length l <= fuel)%nat ->
  Forall (fun y => exists c t, chars (print y) = c :: t /\ Ascii.eqb c close = false) l ->
  Forall (fun y => forall r, after_value r -> item (chars (print y) ++ r) = Some (value y, r)) l ->
  read_list item close fuel (chars (commas (map print l)) ++ close :: rest) = Some (map value l, rest).
Proof.
  intros Hf Hh Hl. destruct l as [|x l]; [cbn; by rewrite Ascii.eqb_refl|].
  rewrite <- (read_items_printed fuel x l rest) by (done || simpl in Hf; lia).
  inversion_clear Hh as [|? ? (c & t & E & Hc) _]. unfold read_list.
  assert (exists t', chars (commas (map print (x :: l))) = c :: t') as [t' E'].
  { destruct l as [|y l]; [by exists t|]. cbn [map]. rewrite commas_cons, chars_app, E. eexists. reflexivity. }
  rewrite E'. cbn [app]. by rewrite Hc.
Qed.
End lists.

(** ** Lemmas: values *)

Lemma list_max_in {A} (w : A -> nat) l x : In x l -> (w x <= list_max (map w l))%nat.
Proof.
  intros Hx. pose proof (proj1 (list_max_le (map w l) _) (Nat.le_refl _)) as Hm.
  rewrite List.Forall_forall in Hm. apply Hm. by apply in_map.
Qed.

Lemma json_items_ok items : json_ok (JArray items) <-> Forall json_ok items.
Proof. simpl. induction items as [|j items IH]; simpl; [done|]. by rewrite Forall_cons, IH. Qed.

Lemma json_fields_ok fields : json_ok (JObject fields) <-> Forall (fun f => json_ok f.2) fields.
Proof. simpl. induction fields as [|f fields IH]; simpl; [done|]. by rewrite Forall_cons, IH. Qed.

Lemma read_render j fuel rest :
  json_ok j -> (weight j <= fuel)%nat -> after_value rest ->
  read_json fuel (chars (render j) ++ rest) = Some (j, rest).
Proof.
  revert fuel rest; induction j as [n|b|t|items IH|fields IH] using Json_induction; intros fuel rest Hj Hf Hr;
    (destruct fuel as [|f]; [simpl in Hf; lia|]).
  - destruct (render_head (JNumber n) "]"%char Hj (or_introl eq_refl)) as (c & r & E & _). cbn [render] in *.
    assert (forall x, In x (chars (to_string n)) -> is_digit x = true) as Hd by (destruct Hj; by apply to_string_digits).
    assert (is_digit c = true) as Hc by (apply Hd; rewrite E; by left).
    destruct (digit_dispatch c Hc) as (E1 & E2 & E3 & E4 & E5 & _).
    rewrite <- (app_nil_r (chars (to_string n))) in E. cbn [read_json].
    assert (chars (to_string n) ++ rest = c :: (r ++ rest)) as Ec by (rewrite app_nil_r in E; by rewrite E).
    rewrite Ec, E1, E2, E3, E4, E5, Hc. rewrite <- Ec, read_digits_app by done. cbv zeta beta iota.
    by rewrite to_string_lead, of_chars_chars, decimal_value_to_string.
  - by destruct b.
  - cbn [render]. unfold JsonString. change (chars (String quote ?s)) with (quote :: chars s).
    rewrite chars_app. cbn [app read_json]. rewrite Ascii.eqb_refl, <- app_assoc. cbn [chars list_ascii_of_string app].
    by rewrite read_json_text_escape, of_chars_chars.
  - apply json_items_ok in Hj. cbn [weight] in Hf. cbn [render]. unfold json_array.
    change ("[" +:+ ?s) with (String "["%char s). change (chars (String ?c ?s)) with (c :: chars s).
    rewrite chars_app, <- app_comm_cons, <- app_assoc. cbn [read_json].
    change (Ascii.eqb "[" quote) with false. change (Ascii.eqb "[" "[") with true. cbv iota.
    change (chars "]" ++ rest) with ("]"%char :: rest).
    rewrite (read_list_printed (read_json f) render (fun j => j) "]"%char); [by rewrite map_id|done|done|lia| |].
    + eapply Forall_impl; [exact Hj|]. intros j Hok. by apply render_head; [|left].
    + rewrite List.Forall_forall in *. intros j Hin r Hr'. apply IH; [done|auto| |done].
      pose proof (list_max_in weight items j Hin). lia.
  - apply json_fields_ok in Hj. cbn [weight] in Hf. cbn [render]. unfold json_object.
    change ("{" +:+ ?s) with (String "{"%char s). change (chars (String ?c ?s)) with (c :: chars s).
    rewrite chars_app, <- app_comm_cons, <- app_assoc. cbn [read_json].
    change (Ascii.eqb "{" quote) with false. change (Ascii.eqb "{" "[") with false.
    change (Ascii.eqb "{" "{") with true. cbv iota.
    change (chars "}" ++ rest) with ("}"%char :: rest).
    rewrite (read_list_printed _ (fun f => json_field f.1 (render f.2)) (fun f => f) "}"%char); [by rewrite map_id|done|done|lia| |].
    + apply List.Forall_forall. intros [k j] _. eexists _, _. split; reflexivity.
    + rewrite List.Forall_forall in *. intros [k j] Hin r Hr'. cbn [fst snd]. unfold json_field, JsonString.
      change (String quote ?s +:+ ?u) with (String quote (s +:+ u)).
      change (chars (String quote ?s)) with (quote :: chars s). cbn [app]. rewrite Ascii.eqb_refl.
      rewrite <- string_app_assoc, chars_app, <- app_assoc.
      change (chars (String quote "" +:+ ?u) ++ r) with (quote :: (chars u ++ r)). rewrite read_json_text_escape.
      change (chars (":" +:+ ?u) ++ r) with (":"%char :: (chars u ++ r)). cbv iota. rewrite Ascii.eqb_refl.
      pose proof (list_max_in (fun f => weight f.2) fields (k, j) Hin) as Hw. cbn [snd] in Hw.
      pose proof (IH (k, j) Hin f r (Hj (k, j) Hin)) as E. cbn [snd] in E. rewrite E by (done || lia).
      by rewrite of_chars_chars.
Qed.

(** ** Lemmas: the fuel of the reader *)

Lemma length_chars t : String.length t = length (chars t).
Proof. induction t as [|c t IH]; [done|]. simpl. by rewrite IH. Qed.

Lemma commas_length l : (length l <= S (length (chars (commas l))))%nat /\
  forall x, In x l -> (length (chars x) <= length (chars (commas l)))%nat.
Proof.
  induction l as [|x [|y l] IH].
  - split; [simpl; lia|done].
  - split; [simpl; lia|]. intros z [->|[]]. done.
  - rewrite commas_cons, !chars_app, !length_app. destruct IH as [IH1 IH2]. simpl length in *. split; [simpl in *; lia|].
    intros z [->|Hz]; [lia|]. specialize (IH2 z Hz). simpl. lia.
Qed.

Lemma weight_render j : (weight j <= length (chars (render j)))%nat.
Proof.
  assert (forall A (w : A -> nat) (p : A -> string) l, Forall (fun x => (w x <= length (chars (p x)))%nat) l ->
    (S (Nat.max (length l) (list_max (map w l))) <= 2 + length (chars (commas (map p l))))%nat) as Hlist.
  { intros A w p l Hw. destruct (commas_length (map p l)) as [H1 H2]. rewrite length_map in H1.
    assert (list_max (map w l) <= length (chars (commas (map p l))))%nat; [|lia].
    apply list_max_le, List.Forall_forall. intros k (x & <- & Hx)%in_map_iff. rewrite List.Forall_forall in Hw.
    specialize (Hw x Hx). specialize (H2 (p x) (in_map p l x Hx)). lia. }
  induction j as [n|b|t|items IH|fields IH] using Json_induction; cbn [weight render].
  - destruct (chars (to_string n)) as [|c r] eqn:E; [|simpl; lia].
    exfalso. apply (to_string_nonempty n). by apply (inj chars).
  - destruct b; simpl; lia.
  - unfold JsonString. simpl. lia.
  - unfold json_array. rewrite !chars_app, !length_app. specialize (Hlist _ weight render items IH). simpl in *. lia.
  - unfold json_object. rewrite !chars_app, !length_app.
    assert (Forall (fun f => (weight f.2 <= length (chars (json_field f.1 (render f.2))))%nat) fields) as Hf.
    { eapply Forall_impl; [exact IH|]. intros [k v] Hv. unfold json_field. rewrite !chars_app, !length_app. cbn [snd] in *. lia. }
    specialize (Hlist _ (fun f => weight f.2) (fun f => json_field f.1 (render f.2)) fields Hf). simpl in *. lia.
Qed.

(** Printed JSON reads back: the text determines the value. *)
Lemma render_reads j : json_ok j -> ReadJson (render j) = Some j.
Proof.
  intros Hj. unfold ReadJson. pose proof (weight_render j). rewrite length_chars.
  rewrite <- (app_nil_r (chars (render j))) at 2. rewrite read_render; [done|done|lia|done].
Qed.

(** The reader refuses what JSON refuses: a control character that is not
    escaped, digits of an escape that are not hexadecimal, an unknown escape, a
    code point it would have to encode, and a zero before a number. *)
Definition quoted (l : list ascii) : string := of_chars ([quote] ++ l ++ [quote]).

Theorem reader_refuses :
  ReadJson (quoted [char_of 10]) = None /\ ReadJson (quoted [char_of 31]) = None /\
  ReadJson (quoted (backslash :: chars "uzz41")) = None /\ ReadJson (quoted (backslash :: chars "u00g1")) = None /\
  ReadJson (quoted (backslash :: chars "x")) = None /\ ReadJson (quoted (backslash :: chars "u0141")) = None /\
  ReadJson "01" = None /\ ReadJson "[1,]" = None /\ ReadJson "1 1" = None /\
  ReadJson (quoted (backslash :: chars "u0041")) = Some (JText "A").
Proof. by vm_compute. Qed.
