(* ===== verification/Cli.v ===== *)
(** * Cli: the inspection command line

    [src/apps/opp_cli.cpp].  A run of the program takes its arguments and the
    disk, and answers its exit code, what it printed to the standard output and
    to the error output, and the disk operations it performed.  The compiler's
    identification, printed by [version], is a parameter. *)

From S2P Require Import Prelude Status Ids Doubles Spectrum Sha256 Canonical Topology SnapshotText Builder Synthetic Request.
From S2P Require Import Outcome Search Plan Result Planner Validate Proto Lines PlanText RequestText SnapshotRead SelfTest Files.
From S2P Require Import Store Incarnation Service Json.

Definition line_of (s : string) : string := s +:+ newline.

Definition kUsage : string := text_of_lines
  ["opp - Optical Path Planner inspection utility";
   "";
   "usage: opp <command> [options]";
   "";
   "  version";
   "      Print the library version and build identification.";
   "  selftest";
   "      Run the built-in self check (digests, codecs, spectrum rules, a plan).";
   "  hash <file>";
   "      Print the SHA-256 of a file.";
   "  gen --out <file> [--seed N] [--nodes N] [--degree N] [--slots N]";
   "      [--grid fixed50|flex12_5] [--clients N] [--no-regenerators]";
   "      [--blocking-one-in N] [--generation N] [--id ID]";
   "      Write a deterministic SYNTHETIC topology snapshot. Not real evidence.";
   "  example --out <file>";
   "      Write the small hand-shaped example topology.";
   "  snapshot describe <file> [--json]";
   "      Summarise a snapshot: counts, digest, coverage and conflicts.";
   "  snapshot validate <file>";
   "      Parse a snapshot and report whether it is well formed.";
   "  plan --snapshot <file> (--request <file> | --from node:port --to node:port)";
   "      [--candidates N] [--width N] [--max-regenerations N] [--max-hops N]";
   "      [--max-distance M] [--max-spans N] [--max-loss DB] [--min-osnr DB]";
   "      [--no-regeneration] [--no-conversion] [--disjointness none|node|span|domain]";
   "      [--exclude-node ID] [--exclude-port node:port] [--exclude-span ID]";
   "      [--exclude-crossconnect ID] [--exclude-domain ID] [--domain-limit ID:N]";
   "      [--require-source ID:GEN] [--snapshot-generation N] [--emit-plan <file>] [--json]";
   "      Compute candidates and print the sealed plan artifacts.";
   "  validate-plan --snapshot <file> --plan <file> [--accept-restored] [--revalidate]";
   "      Check a plan against the evidence generation it is bound to.";
   "  store list --root <dir> [--json]";
   "  store put --root <dir> --plan <file>";
   "  store get --root <dir> --digest <hex> [--out <file>]"].

(** ** Arguments *)

Record Arguments := MkArguments {
  ar_command : string;
  ar_positional : list string;
  ar_options : gmap string (list string);
}.

Definition Has (a : Arguments) (name : string) : bool := bool_decide (is_Some (ar_options a !! name)).

(** [Arguments::Value] and [Arguments::Values] *)
Definition Option_Value (a : Arguments) (name : string) : option string :=
  match ar_options a !! name with Some values => last values | None => None end.
Definition Option_Values (a : Arguments) (name : string) : list string :=
  match ar_options a !! name with Some values => values | None => [] end.

(** [token.size() > 2 && token[0] == '-' && token[1] == '-'], and the name. *)
Definition option_name (token : string) : option string :=
  match token with
  | String a (String b (String _ _ as name)) => if Ascii.eqb a "-" && Ascii.eqb b "-" then Some name else None
  | _ => None
  end.

(** [argv[i + 1][0] != '-' || argv[i + 1][1] == '\0'] *)
Definition is_value (next : string) : bool :=
  match next with
  | String c rest => negb (Ascii.eqb c "-") || bool_decide (rest = "")
  | EmptyString => true
  end.

Definition push_option (name value : string) (a : Arguments) : Arguments :=
  MkArguments (ar_command a) (ar_positional a) (<[name := Option_Values a name ++ [value]]> (ar_options a)).

Fixpoint parse_tokens (tokens : list string) (a : Arguments) : Arguments :=
  match tokens with
  | [] => a
  | token :: rest =>
      match option_name token with
      | Some name =>
          match rest with
          | next :: rest' =>
              if is_value next then parse_tokens rest' (push_option name next a)
              else parse_tokens rest (push_option name "" a)
          | [] => push_option name "" a
          end
      | None => parse_tokens rest (MkArguments (ar_command a) (ar_positional a ++ [token]) (ar_options a))
      end
  end.

(** The arguments after the program's name. *)
Definition ParseArguments (argv : list string) : Expected Arguments :=
  match argv with
  | [] => Error (Failure StatusCode.InvalidArgument "a command is required")
  | command :: tokens => Value (parse_tokens tokens (MkArguments command [] ∅))
  end.

Definition requires_value (name : string) : Status :=
  Failure StatusCode.InvalidArgument ("--" +:+ name +:+ " requires a value").

Definition ParseOptionU64 (a : Arguments) (name : string) (fallback : Z) : Expected Z :=
  if negb (Has a name) then Value fallback
  else match Option_Value a name with None => Error (requires_value name) | Some v => ParseU64 v end.

Definition ParseOptionDouble `{Platform} (a : Arguments) (name : string) : Expected double :=
  match Option_Value a name with None => Error (requires_value name) | Some v => ParseDouble v end.

Definition ParsePortKey (t : string) : Expected PortKey :=
  match split_at ":"%char t with
  | None => Error (Failure StatusCode.InvalidArgument ("'" +:+ t +:+ "' must be spelled node:port"))
  | Some (node_text, port_text) =>
      let! node := id_Parse node_text in
      let! port := id_Parse port_text in
      Value (MkPortKey node port)
  end.

(** [text.rfind(c)]: what is before the last [c] and after it. *)
Definition rsplit_at (c : ascii) (t : string) : option (string * string) :=
  match split_at c (of_chars (rev (chars t))) with
  | Some (after, before) => Some (of_chars (rev (chars before)), of_chars (rev (chars after)))
  | None => None
  end.

(** ** What a run answers *)

Record Run := MkRun { exit_code : Z; out : string; err : string }.

#[export] Instance Run_eq_dec : EqDecision Run.
Proof. solve_decision. Defined.

Definition Report (s : Status) (context : string) : Run :=
  MkRun 1 "" (line_of (context +:+ ": " +:+ StatusCodeName (code s) +:+ ": " +:+ detail s)).

Definition printed (text : string) : Run := MkRun 0 text "".
Definition misused (text : string) : Run := MkRun 2 "" text.

(** [if (!x.ok()) return Report(x.status(), context);] *)
Definition or_report {A} (context : string) (e : Expected A) (k : A -> IO Run) : IO Run :=
  match e with Value v => k v | Error s => io_return (Report s context) end.

(** ** Summaries *)

Definition snapshot_summary (t : TopologySnapshot) : string := text_of_lines
  (["snapshot: " +:+ str (t_id t);
    "generation: " +:+ to_string (t_generation t);
    "digest: " +:+ Digest_ToHex (t_digest t);
    "freshness: " +:+ EvidenceFreshnessName (t_freshness t);
    "grid: " +:+ GridKindName (grid (t_spectrum t)) +:+ " slots=" +:+ to_string (slot_count (t_spectrum t));
    "nodes: " +:+ to_string (size (t_nodes t));
    "ports: " +:+ to_string (size (t_ports t));
    "spans: " +:+ to_string (size (t_spans t));
    "cross-connects: " +:+ to_string (size (t_cross_connects t));
    "reach profiles: " +:+ to_string (size (t_profiles t));
    "directed arcs: " +:+ to_string (ArcCount t);
    "coverage complete: " +:+ json_bool (t_coverage_complete t)] ++
   map (fun s => "source " +:+ str (src_id s) +:+ " generation=" +:+ to_string (src_generation s) +:+ " coverage=" +:+
                 CoverageName (src_coverage s)) (t_sources t) ++
   map (fun k => "conflict " +:+ ResourceKeyToString k) (t_conflicted t) ++
   map (fun k => "unresolved " +:+ ResourceKeyToString k) (t_unresolved t)).

Definition snapshot_json (t : TopologySnapshot) : string := json_object
  [json_field "id" (JsonString (str (t_id t)));
   json_field "generation" (to_string (t_generation t));
   json_field "digest" (JsonString (Digest_ToHex (t_digest t)));
   json_field "freshness" (JsonString (EvidenceFreshnessName (t_freshness t)));
   json_field "grid" (JsonString (GridKindName (grid (t_spectrum t))));
   json_field "slots" (to_string (slot_count (t_spectrum t)));
   json_field "nodes" (to_string (size (t_nodes t)));
   json_field "ports" (to_string (size (t_ports t)));
   json_field "spans" (to_string (size (t_spans t)));
   json_field "cross_connects" (to_string (size (t_cross_connects t)));
   json_field "reach_profiles" (to_string (size (t_profiles t)));
   json_field "directed_arcs" (to_string (ArcCount t));
   json_field "coverage_complete" (json_bool (t_coverage_complete t));
   json_field "sources" (json_array (map (fun s => json_object
     [json_field "id" (JsonString (str (src_id s)));
      json_field "generation" (to_string (src_generation s));
      json_field "coverage" (JsonString (CoverageName (src_coverage s)))]) (t_sources t)));
   json_field "conflicts" (json_array (map (fun k => JsonString (ResourceKeyToString k)) (t_conflicted t)));
   json_field "unresolved" (json_array (map (fun k => JsonString (ResourceKeyToString k)) (t_unresolved t)))].

Definition PrintSnapshotSummary (t : TopologySnapshot) (json : bool) : string :=
  if json then line_of (snapshot_json t) else snapshot_summary t.

(** ** A result in JSON *)

Section result_json.
Context `{Platform}.

Definition double_text_or_zero (v : double) : string := ValueOr (FormatDouble v) "0".

Definition statistics_json (s : PlanningStatistics) : string := json_object
  [json_field "labels_created" (to_string (labels_created s));
   json_field "labels_expanded" (to_string (labels_expanded s));
   json_field "labels_dominated" (to_string (labels_dominated s));
   json_field "states_visited" (to_string (states_visited s));
   json_field "peak_frontier" (to_string (peak_frontier s));
   json_field "arcs_examined" (to_string (arcs_examined s))].

Definition cut_json (c : CutCount) : string := json_object
  [json_field "reason" (JsonString (CutReasonName (c_reason c))); json_field "count" (to_string (c_count c))].

Definition witness_json (w : Witness) : string := json_object
  [json_field "reason" (JsonString (CutReasonName (w_reason w)));
   json_field "resource" (JsonString (ResourceKeyToString (w_resource w)));
   json_field "detail" (JsonString (w_detail w))].

Definition binding_json (b : SourceBinding) : string := json_object
  [json_field "source" (JsonString (str (sb_source b))); json_field "generation" (to_string (sb_generation b))].

Definition step_json (s : PlanStep) : string := json_object
  [json_field "index" (to_string (ps_index s));
   json_field "kind" (JsonString (StepKindName (ps_kind s)));
   json_field "resource" (JsonString (ResourceKeyToString (ps_resource s)));
   json_field "segment" (to_string (ps_segment_index s));
   json_field "reasons" (JsonString (DescribeEligibility (ps_reason_bits s)))].

Definition segment_json (s : PlanSegment) : string := json_object
  [json_field "index" (to_string (sg_index s));
   json_field "profile" (JsonString (str (sg_profile s)));
   json_field "span_count" (to_string (sg_span_count s));
   json_field "channel_runs" (to_string (sg_channel_runs s));
   json_field "distance_m" (to_string (sg_distance_m s));
   json_field "osnr_db" (JsonString (double_text_or_zero (sg_osnr_db s)));
   json_field "ended_by_regeneration" (json_bool (sg_ended_by_regeneration s))].

Definition reservation_json (v : PlanReservation) : string := json_object
  [json_field "resource" (JsonString (ResourceKeyToString (rv_resource v)));
   json_field "first_slot" (to_string (first_slot (rv_channel v)));
   json_field "width_slots" (to_string (width_slots (rv_channel v)))].

Definition exposure_json (x : FailureDomainExposure) : string := json_object
  [json_field "domain" (JsonString (str (fx_id x)));
   json_field "members" (to_string (fx_member_count x));
   json_field "limit" (to_string (fx_limit x))].

Definition candidate_json (p : PlanArtifact) : string := json_object
  [json_field "digest" (JsonString (DigestHex p));
   json_field "total_cost" (to_string (pl_total_cost p));
   json_field "hops" (to_string (pl_hops p));
   json_field "regenerations" (to_string (pl_regenerations p));
   json_field "total_distance_m" (to_string (pl_total_distance_m p));
   json_field "total_loss_db" (JsonString (double_text_or_zero (pl_total_loss_db p)));
   json_field "channel_width_slots" (to_string (pl_channel_width_slots p));
   json_field "snapshot_digest" (JsonString (Digest_ToHex (pl_snapshot_digest p)));
   json_field "bound_sources" (json_array (map binding_json (pl_bound_sources p)));
   json_field "steps" (json_array (map step_json (pl_steps p)));
   json_field "segments" (json_array (map segment_json (pl_segments p)));
   json_field "reservations" (json_array (map reservation_json (pl_reservations p)));
   json_field "failure_domains" (json_array (map exposure_json (pl_exposure p)))].

Definition PrintResultJson (r : PlanningResult) : string := line_of (json_object
  [json_field "outcome" (JsonString (PlanOutcomeName (rs_outcome r)));
   json_field "status" (JsonString (StatusCodeName (code (rs_status r))));
   json_field "detail" (JsonString (detail (rs_status r)));
   json_field "request_digest" (JsonString (Digest_ToHex (rs_request_digest r)));
   json_field "snapshot_digest" (JsonString (Digest_ToHex (rs_snapshot_digest r)));
   json_field "limitations" (JsonString (DescribeLimitations (rs_limitations r)));
   json_field "optimality_proven" (json_bool (rs_optimality_proven r));
   json_field "statistics" (statistics_json (rs_statistics r));
   json_field "result_digest" (JsonString (Digest_ToHex (rs_digest r)));
   json_field "cuts" (json_array (map cut_json (rs_cuts r)));
   json_field "witnesses" (json_array (map witness_json (rs_witnesses r)));
   json_field "candidates" (json_array (map candidate_json (rs_candidates r)))]).
End result_json.

(** ** The request of the command line *)

Section request.
Context `{Platform, System} (a : Arguments).

(** [if (const auto value = arguments.Value(name); value.has_value()) ...] *)
Definition when_given {A R} (name : string) (parse : string -> Expected A) (put : A -> R -> R) (r : R) : Expected R :=
  match Option_Value a name with None => Value r | Some t => let! v := parse t in Value (put v r) end.

(** [for (const std::string& value : arguments.Values(name)) ...] *)
Definition for_values {A R} (name : string) (parse : string -> Expected A) (put : A -> R -> R) (r : R) : Expected R :=
  each (fun t r => let! v := parse t in Value (put v r)) (Option_Values a name) r.

(** [if (arguments.Has(name)) ...] with a number or a decibel value. *)
Definition when_present {A R} (name : string) (parse : Expected A) (put : A -> R -> R) (r : R) : Expected R :=
  if Has a name then let! v := parse in Value (put v r) else Value r.

Definition parse_disjointness_option (t : string) : Expected Disjointness.t :=
  match ParseDisjointness t with
  | Some d => Value d
  | None => Error (Failure StatusCode.InvalidArgument "--disjointness must be none, node, span or domain")
  end.

(** [name:number], split at the last colon. *)
Definition parse_counted {tag} (spelled : string) (parse : string -> Expected Z) (t : string) :
  Expected (StrongId tag * Z) :=
  match rsplit_at ":"%char t with
  | None => Error (Failure StatusCode.InvalidArgument spelled)
  | Some (name, count) =>
      let! id := id_Parse name in
      let! n := parse count in
      Value (id, n)
  end.

Definition base_request (d : Disk) : Expected PlanningRequest :=
  match Option_Value a "request" with
  | Some path =>
      let! bytes := ReadFileBounded d path (kMaxTextLineBytes * 4096) in
      ParseRequestText bytes
  | None =>
      match Option_Value a "from", Option_Value a "to" with
      | Some from, Some to =>
          let! source := ParsePortKey from in
          let! destination := ParsePortKey to in
          Value (default_request (MkId "cli") source destination)
      | _, _ =>
          Error (Failure StatusCode.InvalidArgument "plan requires either --request or both --from and --to")
      end
  end.

Definition append_node (id : NodeId) := on_constraints (fun c => cs_put_nodes (excluded_nodes c ++ [id]) c).
Definition append_span (id : SpanId) := on_constraints (fun c => cs_put_spans (excluded_spans c ++ [id]) c).
Definition append_cross_connect (id : CrossConnectId) :=
  on_constraints (fun c => cs_put_xcs (excluded_cross_connects c ++ [id]) c).
Definition append_domain (id : FailureDomainId) :=
  on_constraints (fun c => cs_put_domains (excluded_failure_domains c ++ [id]) c).
Definition append_port (key : PortKey) := on_constraints (fun c => cs_put_ports (excluded_ports c ++ [key]) c).
Definition put_limit (entry : FailureDomainId * Z) :=
  on_constraints (fun c => cs_put_limits (map_set entry.1 entry.2 (max_members_per_failure_domain c)) c).
Definition put_required (entry : SourceId * Z) (r : PlanningRequest) : PlanningRequest :=
  rq_put_srcgen (map_set entry.1 entry.2 (required_source_generations r)) r.

Definition BuildRequest (d : Disk) : Expected PlanningRequest :=
  let! r := base_request d in
  let! r := when_given "candidates" ParseU32 rq_put_candidates r in
  let! r := when_given "width" ParseU16 rq_put_width r in
  let! r := when_given "max-regenerations" ParseU32 rq_put_regenerations r in
  let! r := when_given "max-hops" ParseU32 rq_put_hops r in
  let r := if Has a "no-regeneration" then on_constraints (cs_put_allow_regen false) r else r in
  let r := if Has a "no-conversion" then on_constraints (cs_put_allow_conv false) r else r in
  let! r := when_given "disjointness" parse_disjointness_option rq_put_disjointness r in
  let! r := for_values "exclude-node" id_Parse append_node r in
  let! r := for_values "exclude-span" id_Parse append_span r in
  let! r := for_values "exclude-crossconnect" id_Parse append_cross_connect r in
  let! r := for_values "exclude-domain" id_Parse append_domain r in
  let! r := for_values "exclude-port" ParsePortKey append_port r in
  let! r := for_values "domain-limit" (parse_counted "--domain-limit must be spelled domain:count" ParseU32) put_limit r in
  let! r := for_values "require-source"
              (parse_counted "--require-source must be spelled source:generation" ParseU64) put_required r in
  let! r := when_present "snapshot-generation" (ParseOptionU64 a "snapshot-generation" 0)
              (fun v => rq_put_generation (Some v)) r in
  let! r := when_present "max-distance" (ParseOptionU64 a "max-distance" 0)
              (fun v => on_constraints (cs_put_distance (Some v))) r in
  let! r := when_present "max-spans" (ParseOptionU64 a "max-spans" 0)
              (fun v => on_constraints (cs_put_span_count (Some (wrap32 v)))) r in
  let! r := when_present "max-loss" (ParseOptionDouble a "max-loss") (fun v => on_constraints (cs_put_loss (Some v))) r in
  when_present "min-osnr" (ParseOptionDouble a "min-osnr") (fun v => on_constraints (cs_put_osnr (Some v))) r.
End request.

(** ** Commands *)

Section commands.
Context `{Platform, Hasher, System} (m : Machine) (build_identification : string).

Definition LoadSnapshotFile (d : Disk) (path : string) : Expected TopologySnapshot :=
  let! bytes := ReadFileBounded d path kMaxSnapshotTextBytes in ParseSnapshotText bytes.

(** [WriteFileAtomic] as the machine lets it happen. *)
Definition write_file (path bytes : string) : IO Status := io_do (WriteFileAtomic (mc_writes m path) path bytes).

Definition LibraryName : string := "OpticalPathPlanner".
Definition kSnapshotFormatVersion : Z := 1.

Definition CommandVersion : Run := printed (
  line_of (LibraryName +:+ " " +:+ VersionString +:+ " (" +:+ build_identification +:+ ")") +:+
  line_of ("snapshot format " +:+ to_string kSnapshotFormatVersion +:+ ", plan format " +:+
    to_string kPlanFormatVersion +:+ ", store format " +:+ to_string kStoreFormatVersion +:+ ", transport " +:+
    to_string kProtocolVersion +:+ ", planning rules " +:+ to_string kPlanningRuleVersion)).

Definition CommandSelfTest : Run :=
  if failed SelfTest then Report SelfTest "selftest" else printed (line_of ("selftest: " +:+ detail SelfTest)).

Definition CommandHash (a : Arguments) : IO Run :=
  match ar_positional a with
  | [] => io_return (misused (line_of "hash requires a file path"))
  | path :: _ => fun d =>
      or_report "hash" (ReadFileBounded d path (2 ^ 30)) (fun bytes =>
        io_return (printed (line_of (Digest_ToHex (Sha_Of bytes) +:+ "  " +:+ path)))) d
  end.

(** The end of [gen] and [example]. *)
Definition save_or_print (context : string) (a : Arguments) (t : TopologySnapshot) : IO Run :=
  match Option_Value a "out" with
  | None => io_return (printed (SnapshotToText t))
  | Some path =>
      status <== write_file path (SnapshotToText t) ;;
      io_return (if failed status then Report status context
                 else printed (line_of ("wrote " +:+ path +:+ " digest=" +:+ Digest_ToHex (t_digest t))))
  end.

(** The options of [gen]: every number is cast to its field's width. *)
Definition gen_numbers (a : Arguments) : Expected (GridKind.t -> string -> bool -> SyntheticOptions) :=
  let o := default_synthetic_options in
  let! seed := ParseOptionU64 a "seed" (syn_seed o) in
  let! nodes := ParseOptionU64 a "nodes" (syn_node_count o) in
  let! degree := ParseOptionU64 a "degree" (syn_degree o) in
  let! slots := ParseOptionU64 a "slots" (syn_slot_count o) in
  let! clients := ParseOptionU64 a "clients" (syn_client_ports o) in
  let! blocking := ParseOptionU64 a "blocking-one-in" (syn_slot_blocking_one_in o) in
  let! generation := ParseOptionU64 a "generation" (syn_generation o) in
  Value (fun grid id regenerators =>
    MkSynthetic seed (wrap32 nodes) (wrap32 degree) (wrap16 slots) grid (wrap32 clients) regenerators (wrap32 blocking)
      (syn_publish_osnr o) (syn_publish_length o) generation id (syn_source_id o)).

Definition CommandGen (a : Arguments) : IO Run :=
  or_report "gen" (gen_numbers a) (fun options =>
    let generate grid :=
      let o := options grid (default (syn_id default_synthetic_options) (Option_Value a "id")) (negb (Has a "no-regenerators")) in
      or_report "gen" (GenerateSyntheticTopology o) (save_or_print "gen" a) in
    match Option_Value a "grid" with
    | None => generate (syn_grid default_synthetic_options)
    | Some t =>
        match ParseGridKind t with
        | Some grid => generate grid
        | None => io_return (misused (line_of "gen: grid must be fixed50 or flex12_5"))
        end
    end).

Definition CommandExample (a : Arguments) : IO Run :=
  or_report "example" BuildExampleTopology (save_or_print "example" a).

(** The path of [snapshot]: the second positional argument, else [--file]. *)
Definition snapshot_argument (a : Arguments) : string :=
  let path := default "" (nth_error (ar_positional a) 1) in
  if bool_decide (path = "") then default "" (Option_Value a "file") else path.

Definition CommandSnapshot (a : Arguments) : IO Run :=
  match ar_positional a with
  | [] => io_return (misused (line_of "snapshot requires a subcommand"))
  | subcommand :: _ =>
      let path := snapshot_argument a in
      if bool_decide (path = "") then io_return (misused (line_of ("snapshot " +:+ subcommand +:+ " requires a file path")))
      else fun d =>
        or_report "snapshot" (LoadSnapshotFile d path) (fun t =>
          io_return
            (if String.eqb subcommand "validate" then
               printed (line_of ("ok " +:+ path +:+ " digest=" +:+ Digest_ToHex (t_digest t)))
             else if String.eqb subcommand "describe" then printed (PrintSnapshotSummary t (Has a "json"))
             else misused (line_of ("unknown snapshot subcommand '" +:+ subcommand +:+ "'")))) d
  end.

(** *** Planning *)

Definition outcome_exit (o : PlanOutcome.t) : Z :=
  match o with
  | PlanOutcome.Feasible => 0
  | PlanOutcome.Infeasible => 3
  | PlanOutcome.Indeterminate => 4
  | PlanOutcome.Unsupported => 5
  | PlanOutcome.Cancelled => 6
  | PlanOutcome.Refused => 7
  end.

Definition emit_path (base : string) (i : Z) : string := if i =? 0 then base else base +:+ "." +:+ to_string i.

(** The loop of [--emit-plan]: what was printed, and the failure that ended it. *)
Fixpoint emit_plans (base : string) (i : Z) (plans : list PlanArtifact) : IO (string * option Status) :=
  match plans with
  | [] => io_return ("", None)
  | p :: rest =>
      let path := emit_path base i in
      status <== write_file path (CanonicalBytes p) ;;
      if failed status then io_return ("", Some status)
      else
        later <== emit_plans base (i + 1) rest ;;
        io_return (line_of ("wrote " +:+ path +:+ " digest=" +:+ DigestHex p) +:+ fst later, snd later)
  end.

Definition show_result (a : Arguments) (r : PlanningResult) : string :=
  if Has a "json" then PrintResultJson r else Result_ExplainText r.

Definition CommandPlan (a : Arguments) : IO Run :=
  match Option_Value a "snapshot" with
  | None => io_return (misused (line_of "plan requires --snapshot"))
  | Some path => fun d =>
      or_report "plan" (LoadSnapshotFile d path) (fun t =>
      or_report "plan" (BuildRequest a d) (fun request =>
        let result := Planner.Plan default_options t request (fun _ _ => false) in
        emitted <== match Option_Value a "emit-plan" with
                    | Some base => emit_plans base 0 (rs_candidates result)
                    | None => io_return ("", None)
                    end ;;
        io_return
          match emitted with
          | (text, Some status) => let r := Report status "plan --emit-plan" in MkRun (exit_code r) text (err r)
          | (text, None) => MkRun (outcome_exit (rs_outcome result)) (text +:+ show_result a result) ""
          end)) d
  end.

Definition read_plan (d : Disk) (path : string) : Expected PlanArtifact :=
  let! bytes := ReadFileBounded d path kMaxPlanArtifactBytes in ParsePlanArtifact bytes.

Definition CommandValidatePlan (a : Arguments) : IO Run :=
  match Option_Value a "snapshot", Option_Value a "plan" with
  | Some snapshot_path, Some plan_path => fun d =>
      or_report "validate-plan" (LoadSnapshotFile d snapshot_path) (fun t =>
      or_report "validate-plan" (read_plan d plan_path) (fun plan =>
        let policy := MkPolicy (Has a "accept-restored") (Has a "revalidate") in
        let report := if vp_revalidate_on_mismatch policy then RevalidatePlan plan t policy
                      else ValidatePlanBindings plan t policy in
        io_return (MkRun (if report_ok report then 0 else 8) (Report_ExplainText report) ""))) d
  | _, _ => io_return (misused (line_of "validate-plan requires --snapshot and --plan"))
  end.

(** *** The store *)

Definition entry_json (e : StoreEntry) : string := json_object
  [json_field "digest" (JsonString (Digest_ToHex (se_digest e)));
   json_field "bytes" (to_string (se_bytes e));
   json_field "request" (JsonString (str (se_request_id e)))].

Definition listing_json (entries : list StoreEntry) (rejected : list string) : string := json_object
  [json_field "plans" (json_array (map entry_json entries)); json_field "rejected" (json_array (map JsonString rejected))].

Definition listing_text (entries : list StoreEntry) (rejected : list string) : string := text_of_lines
  (map (fun e => Digest_ToHex (se_digest e) +:+ " " +:+ to_string (se_bytes e) +:+ " " +:+ str (se_request_id e)) entries ++
   map (fun n => "rejected " +:+ n) rejected ++ ["total " +:+ to_string (size entries)]).

Definition store_list (a : Arguments) (o : StoreOptions) : IO Run := fun d =>
  or_report "store list" (Store.List o d) (fun '(entries, rejected) =>
    io_return (printed (if Has a "json" then line_of (listing_json entries rejected) else listing_text entries rejected))) d.

Definition store_put (a : Arguments) (o : StoreOptions) : IO Run :=
  match Option_Value a "plan" with
  | None => io_return (misused (line_of "store put requires --plan"))
  | Some path => fun d =>
      or_report "store put" (read_plan d path) (fun plan =>
        status <== Put (mc_writes m (PathFor o (pl_digest plan))) o plan ;;
        io_return (if failed status then Report status "store put" else printed (line_of ("stored " +:+ DigestHex plan)))) d
  end.

Definition store_get (a : Arguments) (o : StoreOptions) : IO Run :=
  match Option_Value a "digest" with
  | None => io_return (misused (line_of "store get requires --digest"))
  | Some hex => fun d =>
      or_report "store get" (GetByHex o d hex) (fun plan =>
        match Option_Value a "out" with
        | None => io_return (printed (CanonicalBytes plan))
        | Some path =>
            status <== write_file path (CanonicalBytes plan) ;;
            io_return (if failed status then Report status "store get" else printed (line_of ("wrote " +:+ path)))
        end) d
  end.

Definition CommandStore (a : Arguments) : IO Run :=
  match ar_positional a with
  | [] => io_return (misused (line_of "store requires a subcommand"))
  | subcommand :: _ =>
      match Option_Value a "root" with
      | None => io_return (misused (line_of ("store " +:+ subcommand +:+ " requires --root")))
      | Some root =>
          or_report "store" (ParseOptionU64 a "max-plans" 4096) (fun max_plans =>
            let o := MkStoreOptions root (wrap32 max_plans) true in
            opened <== Open (mc_mkdir_fails m) (mc_remove_fails m) o ;;
            if failed opened then io_return (Report opened "store")
            else if String.eqb subcommand "list" then store_list a o
            else if String.eqb subcommand "put" then store_put a o
            else if String.eqb subcommand "get" then store_get a o
            else io_return (misused (line_of ("unknown store subcommand '" +:+ subcommand +:+ "'"))))
      end
  end.

(** ** [main] *)

Definition main (argv : list string) : IO Run :=
  match ParseArguments argv with
  | Error _ => io_return (misused kUsage)
  | Value a =>
      let command := ar_command a in
      if String.eqb command "help" || String.eqb command "--help" || String.eqb command "-h" then io_return (printed kUsage)
      else if String.eqb command "version" then io_return CommandVersion
      else if String.eqb command "selftest" then io_return CommandSelfTest
      else if String.eqb command "hash" then CommandHash a
      else if String.eqb command "gen" then CommandGen a
      else if String.eqb command "example" then CommandExample a
      else if String.eqb command "snapshot" then CommandSnapshot a
      else if String.eqb command "plan" then CommandPlan a
      else if String.eqb command "validate-plan" then CommandValidatePlan a
      else if String.eqb command "store" then CommandStore a
      else io_return (misused (line_of ("unknown command '" +:+ command +:+ "'") +:+ newline +:+ kUsage))
  end.
End commands.
