(* ===== verification/CliFacts.v ===== *)
(** * CliFacts: theorems on the command line

    What is printed in JSON reads back; the options that were given; and plans
    written by one run are accepted by the next. *)

From S2P Require Import Prelude Status Ids Doubles Spectrum Sha256 Canonical Topology SnapshotText Builder Synthetic Request.
From S2P Require Import Outcome Search Route Plan Result PlanBuild PlanFacts Planner Validate ValidateFacts PlannerFacts Revalidate.
From S2P Require Import Proto Lines PlanText RequestText ResultText SnapshotRead SelfTest Files Store Incarnation Service Restart.
From S2P Require Import ServiceFacts Json Cli.

(** ** The values the texts spell *)

Section trees.
Context `{Platform}.

Definition statistics_tree (s : PlanningStatistics) : Json := JObject
  [("labels_created", JNumber (labels_created s)); ("labels_expanded", JNumber (labels_expanded s));
   ("labels_dominated", JNumber (labels_dominated s)); ("states_visited", JNumber (states_visited s));
   ("peak_frontier", JNumber (peak_frontier s)); ("arcs_examined", JNumber (arcs_examined s))].

Definition cut_tree (c : CutCount) : Json := JObject
  [("reason", JText (CutReasonName (c_reason c))); ("count", JNumber (c_count c))].

Definition witness_tree (w : Witness) : Json := JObject
  [("reason", JText (CutReasonName (w_reason w))); ("resource", JText (ResourceKeyToString (w_resource w)));
   ("detail", JText (w_detail w))].

Definition binding_tree (b : SourceBinding) : Json := JObject
  [("source", JText (str (sb_source b))); ("generation", JNumber (sb_generation b))].

Definition step_tree (s : PlanStep) : Json := JObject
  [("index", JNumber (ps_index s)); ("kind", JText (StepKindName (ps_kind s)));
   ("resource", JText (ResourceKeyToString (ps_resource s))); ("segment", JNumber (ps_segment_index s));
   ("reasons", JText (DescribeEligibility (ps_reason_bits s)))].

Definition segment_tree (s : PlanSegment) : Json := JObject
  [("index", JNumber (sg_index s)); ("profile", JText (str (sg_profile s))); ("span_count", JNumber (sg_span_count s));
   ("channel_runs", JNumber (sg_channel_runs s)); ("distance_m", JNumber (sg_distance_m s));
   ("osnr_db", JText (double_text_or_zero (sg_osnr_db s))); ("ended_by_regeneration", JBool (sg_ended_by_regeneration s))].

Definition reservation_tree (v : PlanReservation) : Json := JObject
  [("resource", JText (ResourceKeyToString (rv_resource v))); ("first_slot", JNumber (first_slot (rv_channel v)));
   ("width_slots", JNumber (width_slots (rv_channel v)))].

Definition exposure_tree (x : FailureDomainExposure) : Json := JObject
  [("domain", JText (str (fx_id x))); ("members", JNumber (fx_member_count x)); ("limit", JNumber (fx_limit x))].

Definition candidate_tree (p : PlanArtifact) : Json := JObject
  [("digest", JText (DigestHex p)); ("total_cost", JNumber (pl_total_cost p)); ("hops", JNumber (pl_hops p));
   ("regenerations", JNumber (pl_regenerations p)); ("total_distance_m", JNumber (pl_total_distance_m p));
   ("total_loss_db", JText (double_text_or_zero (pl_total_loss_db p)));
   ("channel_width_slots", JNumber (pl_channel_width_slots p));
   ("snapshot_digest", JText (Digest_ToHex (pl_snapshot_digest p)));
   ("bound_sources", JArray (map binding_tree (pl_bound_sources p))); ("steps", JArray (map step_tree (pl_steps p)));
   ("segments", JArray (map segment_tree (pl_segments p)));
   ("reservations", JArray (map reservation_tree (pl_reservations p)));
   ("failure_domains", JArray (map exposure_tree (pl_exposure p)))].

Definition result_tree (r : PlanningResult) : Json := JObject
  [("outcome", JText (PlanOutcomeName (rs_outcome r))); ("status", JText (StatusCodeName (code (rs_status r))));
   ("detail", JText (detail (rs_status r))); ("request_digest", JText (Digest_ToHex (rs_request_digest r)));
   ("snapshot_digest", JText (Digest_ToHex (rs_snapshot_digest r)));
   ("limitations", JText (DescribeLimitations (rs_limitations r)));
   ("optimality_proven", JBool (rs_optimality_proven r)); ("statistics", statistics_tree (rs_statistics r));
   ("result_digest", JText (Digest_ToHex (rs_digest r))); ("cuts", JArray (map cut_tree (rs_cuts r)));
   ("witnesses", JArray (map witness_tree (rs_witnesses r))); ("candidates", JArray (map candidate_tree (rs_candidates r)))].
End trees.

Definition snapshot_tree (t : TopologySnapshot) : Json := JObject
  [("id", JText (str (t_id t))); ("generation", JNumber (t_generation t)); ("digest", JText (Digest_ToHex (t_digest t)));
   ("freshness", JText (EvidenceFreshnessName (t_freshness t))); ("grid", JText (GridKindName (grid (t_spectrum t))));
   ("slots", JNumber (slot_count (t_spectrum t))); ("nodes", JNumber (size (t_nodes t)));
   ("ports", JNumber (size (t_ports t))); ("spans", JNumber (size (t_spans t)));
   ("cross_connects", JNumber (size (t_cross_connects t))); ("reach_profiles", JNumber (size (t_profiles t)));
   ("directed_arcs", JNumber (ArcCount t)); ("coverage_complete", JBool (t_coverage_complete t));
   ("sources", JArray (map (fun s => JObject
     [("id", JText (str (src_id s))); ("generation", JNumber (src_generation s));
      ("coverage", JText (CoverageName (src_coverage s)))]) (t_sources t)));
   ("conflicts", JArray (map (fun k => JText (ResourceKeyToString k)) (t_conflicted t)));
   ("unresolved", JArray (map (fun k => JText (ResourceKeyToString k)) (t_unresolved t)))].

Definition listing_tree (entries : list StoreEntry) (rejected : list string) : Json := JObject
  [("plans", JArray (map (fun e => JObject
     [("digest", JText (Digest_ToHex (se_digest e))); ("bytes", JNumber (se_bytes e));
      ("request", JText (str (se_request_id e)))]) entries));
   ("rejected", JArray (map JText rejected))].

(** ** Lemmas: texts and trees *)

Lemma render_array {A} (tree : A -> Json) (text : A -> string) l :
  (forall x, text x = render (tree x)) -> json_array (map text l) = render (JArray (map tree l)).
Proof. intros Ht. cbn [render]. rewrite map_map. f_equal. by apply map_ext. Qed.

Section renders.
Context `{Platform}.

Lemma candidate_rendered p : candidate_json p = render (candidate_tree p).
Proof.
  unfold candidate_json.
  rewrite (render_array binding_tree), (render_array step_tree), (render_array segment_tree),
    (render_array reservation_tree), (render_array exposure_tree) by done. done.
Qed.

Lemma result_rendered r : PrintResultJson r = line_of (render (result_tree r)).
Proof.
  unfold PrintResultJson.
  rewrite (render_array cut_tree), (render_array witness_tree), (render_array candidate_tree)
    by (done || apply candidate_rendered). done.
Qed.
End renders.

Lemma snapshot_rendered t : snapshot_json t = render (snapshot_tree t).
Proof.
  unfold snapshot_json.
  rewrite (render_array (fun k => JText (ResourceKeyToString k)) _ (t_conflicted t)),
    (render_array (fun k => JText (ResourceKeyToString k)) _ (t_unresolved t)) by done.
  rewrite (render_array (fun s => JObject
     [("id", JText (str (src_id s))); ("generation", JNumber (src_generation s));
      ("coverage", JText (CoverageName (src_coverage s)))])) by done. done.
Qed.

Lemma listing_rendered entries rejected : listing_json entries rejected = render (listing_tree entries rejected).
Proof.
  unfold listing_json.
  rewrite (render_array (fun e => JObject
     [("digest", JText (Digest_ToHex (se_digest e))); ("bytes", JNumber (se_bytes e));
      ("request", JText (str (se_request_id e)))])), (render_array JText) by done. done.
Qed.

(** ** Lemmas: the numbers *)

Lemma fields_ok fields : Forall (fun f => json_ok f.2) fields -> json_ok (JObject fields).
Proof. apply json_fields_ok. Qed.

Lemma items_ok {A} (tree : A -> Json) (ok : A -> Prop) l :
  (forall x, ok x -> json_ok (tree x)) -> Forall ok l -> json_ok (JArray (map tree l)).
Proof. intros Ht Hl. apply json_items_ok, Forall_map. eapply Forall_impl; [exact Hl|]. exact Ht. Qed.

Lemma texts_ok {A} (text : A -> string) l : json_ok (JArray (map (fun x => JText (text x)) l)).
Proof. apply (items_ok _ (fun _ => True)); [done|]. by apply List.Forall_forall. Qed.

Lemma narrow_number w n : 0 <= w <= 64 -> in_width w n -> json_ok (JNumber n).
Proof. intros Hw [H0 H1]. split; [done|]. pose proof (Z.pow_le_mono_r 2 w 64). lia. Qed.

Ltac widths :=
  apply fields_ok; repeat apply Forall_cons_2; try apply Forall_nil_2; cbn [snd]; try exact I;
  try match goal with
  | Hw : in_width ?w ?n |- json_ok (JNumber ?n) => by apply (narrow_number w)
  end.

Section numbers.
Context `{Platform, Hasher}.

Lemma candidate_numbers p : PlanText.candidate_ok p -> json_ok (candidate_tree p).
Proof.
  intros [[] _ _ _]. widths.
  - apply (items_ok _ binding_ok); [|done]. intros b []. widths.
  - apply (items_ok _ step_ok); [|naive_solver]. intros s []. widths.
  - apply (items_ok _ segment_ok); [|naive_solver]. intros s []. widths.
  - apply (items_ok _ reservation_ok); [|done]. intros v []. widths.
  - apply (items_ok _ exposure_ok); [|done]. intros x []. widths.
Qed.

Lemma result_numbers r : result_ok r -> json_ok (result_tree r).
Proof.
  intros []. widths.
  - destruct ro_statistics. widths.
  - apply (items_ok _ (fun c => in_width 64 (c_count c))); [|done]. intros c Hc. widths.
  - apply (items_ok _ (fun w => resource_ok (w_resource w))); [|done]. intros w _. widths.
  - apply (items_ok _ PlanText.candidate_ok); [|done]. apply candidate_numbers.
Qed.
End numbers.

Lemma count_number {A} (l : list A) bound : size l <= bound -> bound <= 2 ^ 32 -> json_ok (JNumber (size l)).
Proof. intros Hl Hb. apply (narrow_number 64); [lia|]. unfold size, in_width in *. lia. Qed.

(** ** Lemmas: arguments *)

(** What is typed after the command: a positional argument, an option with its
    value, or an option alone. *)
Inductive Word := Positional (t : string) | Given (name value : string) | Alone (name : string).

Definition spell (w : Word) : list string :=
  match w with
  | Positional t => [t]
  | Given name value => ["--" +:+ name; value]
  | Alone name => ["--" +:+ name]
  end.

Definition line_words (words : list Word) : list string := concat (map spell words).

(** A word the program reads as it is meant; an option alone must not be followed
    by something that could be its value. *)
Fixpoint words_ok (words : list Word) : Prop :=
  match words with
  | [] => True
  | w :: rest =>
      match w with
      | Positional t => option_name t = None
      | Given name value => name <> "" /\ is_value value = true
      | Alone name => name <> "" /\ match line_words rest with next :: _ => is_value next = false | [] => True end
      end /\ words_ok rest
  end.

(** What the words mean: the positional arguments, and the values of an option. *)
Definition positionals (words : list Word) : list string :=
  omap (fun w => match w with Positional t => Some t | _ => None end) words.
Definition values_of (name : string) (words : list Word) : list string :=
  omap (fun w => match w with
                 | Given n v => if bool_decide (n = name) then Some v else None
                 | Alone n => if bool_decide (n = name) then Some "" else None
                 | Positional _ => None
                 end) words.

Lemma option_name_spelled name : name <> "" -> option_name ("--" +:+ name) = Some name.
Proof. by destruct name. Qed.

Lemma pushed name value a n :
  Option_Values (push_option name value a) n = Option_Values a n ++ (if bool_decide (name = n) then [value] else []).
Proof.
  unfold Option_Values, push_option. cbn [ar_options]. case_bool_decide as E.
  - subst. by rewrite lookup_insert_eq.
  - rewrite lookup_insert_ne by done. by rewrite app_nil_r.
Qed.

Lemma parse_words words a : words_ok words ->
  ar_command (parse_tokens (line_words words) a) = ar_command a /\
  ar_positional (parse_tokens (line_words words) a) = ar_positional a ++ positionals words /\
  forall n, Option_Values (parse_tokens (line_words words) a) n = Option_Values a n ++ values_of n words.
Proof.
  revert a; induction words as [|w words IH]; intros a; cbn [words_ok].
  - intros _. cbn. split; [done|]. split; [|intros n]; by rewrite app_nil_r.
  - intros [Hw Hws]. unfold line_words. cbn [map concat]. fold (line_words words).
    destruct w as [t|name value|name]; cbn [spell app parse_tokens].
    + rewrite Hw. destruct (IH (MkArguments (ar_command a) (ar_positional a ++ [t]) (ar_options a)) Hws) as (-> & -> & Hv).
      cbn [ar_command ar_positional]. split; [done|]. rewrite <- app_assoc. split; [done|]. intros n. by rewrite Hv.
    + destruct Hw as [Hn Hv]. rewrite option_name_spelled, Hv by done.
      destruct (IH (push_option name value a) Hws) as (-> & -> & Hvs). split; [done|]. split; [done|].
      intros n. rewrite Hvs, pushed, <- app_assoc. cbn. by case_bool_decide.
    + destruct Hw as [Hn Hnext]. rewrite option_name_spelled by done.
      destruct (IH (push_option name "" a) Hws) as (Hc & Hp & Hvs).
      assert (match line_words words with
              | next :: rest' => if is_value next then parse_tokens rest' (push_option name next a)
                                 else parse_tokens (line_words words) (push_option name "" a)
              | [] => push_option name "" a
              end = parse_tokens (line_words words) (push_option name "" a)) as ->.
      { destruct (line_words words) as [|next rest]; [done|]. by rewrite Hnext. }
      split; [done|]. split; [done|]. intros n. rewrite Hvs, pushed, <- app_assoc. cbn. by case_bool_decide.
Qed.

(** Every option that was read has a value. *)
Definition all_valued (a : Arguments) : Prop := forall name values, ar_options a !! name = Some values -> values <> [].

Lemma push_valued name value a : all_valued a -> all_valued (push_option name value a).
Proof.
  intros Ha n values. cbn. destruct (decide (name = n)) as [->|Hn].
  - rewrite lookup_insert_eq. intros [= <-]. by destruct (Option_Values a n).
  - rewrite lookup_insert_ne by done. apply Ha.
Qed.

Lemma parse_valued tokens a : all_valued a -> all_valued (parse_tokens tokens a).
Proof.
  revert a; induction tokens as [tokens IH] using (induction_ltof1 _ (@length string)); unfold ltof in IH.
  intros a Ha. destruct tokens as [|token rest]; [done|]. cbn [parse_tokens]. destruct (option_name token) as [name|].
  - destruct rest as [|next rest]; [by apply push_valued|]. destruct (is_value next).
    + apply IH; [simpl; lia|]. by apply push_valued.
    + apply IH; [simpl; lia|]. by apply push_valued.
  - apply IH; [simpl; lia|]. exact Ha.
Qed.

(** ** Lemmas: the request of a run *)

Definition candidates_fit (r : PlanningRequest) : Prop := in_width 32 (max_candidates r).

Lemma ParseU32_width t v : ParseU32 t = Value v -> in_width 32 v.
Proof.
  intros E. assert (ParseU64 t = Value v) as Hu.
  { revert E. unfold ParseU32, ParseU64, ParseUnsigned. case_bool_decide; [done|]. destruct (negb _); [done|]. cbv zeta.
    destruct (u64_max <? _); [done|]. by destruct (u32_max <? _). }
  apply ParseU64_width in Hu as [Hv _]. split; [done|]. revert E. unfold ParseU32, ParseUnsigned.
  case_bool_decide; [done|]. destruct (negb _); [done|]. cbv zeta. destruct (u64_max <? _); [done|].
  destruct (Z.ltb_spec u32_max (decimal_value t)); [done|]. intros [= <-]. unfold u32_max in *. lia.
Qed.

Section requests.
Context `{Platform, System}.

Lemma read_number_fits keyword values r r' :
  read_number keyword values r = Value r' -> candidates_fit r -> candidates_fit r'.
Proof.
  unfold read_number, candidates_fit. intros Hr Hf. open_reads; try exact Hf. by eapply ParseU32_width.
Qed.

Lemma read_request_line_fits n values s s' :
  read_request_line n values s = Value s' -> candidates_fit (rr_request s) -> candidates_fit (rr_request s').
Proof.
  unfold read_request_line. destruct (negb _).
  - unfold read_request_header. intros Hr Hf. open_reads. exact Hf.
  - unfold read_request_record. cbv zeta. intros Hr Hf. open_reads; try exact Hf.
    all: match goal with
         | Hn : read_number _ _ _ = Value _ |- _ => by eapply read_number_fits, Hf
         | Hn : read_srcgen _ _ = Value _ |- _ => unfold read_srcgen in Hn; open_reads; exact Hf
         | Hn : read_switch _ _ _ = Value _ |- _ =>
             unfold read_switch in Hn; open_reads; cbn [rr_request]; by repeat case_match
         | _ => idtac
         end.
    + clear E E0. destruct (String.eqb _ _); exact Hf.
    + destruct (ParseDisjointness value0); [|discriminate E6]. injection E6 as <-. exact Hf.
Qed.

Lemma parsed_request_fits t r : ParseRequestText t = Value r -> candidates_fit r.
Proof.
  unfold ParseRequestText, read_text_lines. intros (s & Hr & Hfin)%let_value.
  apply (read_lines_invariant (fun s => candidates_fit (rr_request s))) in Hr; [| |done].
  - unfold finish_request in Hfin. open_reads. exact Hr.
  - clear. intros n line s s' E. unfold token_step in E. case_bool_decide; [by injection E as <-|].
    destruct (line_tokens n line); [|done]. by eapply read_request_line_fits.
Qed.

Lemma when_given_keeps (P : PlanningRequest -> Prop) {A} a name (parse : string -> Expected A) put r r' :
  when_given a name parse put r = Value r' -> (forall t v r, parse t = Value v -> P r -> P (put v r)) -> P r -> P r'.
Proof.
  unfold when_given. destruct (Option_Value a name) as [t|]; [|by intros [= <-]].
  intros (v & Hv & [= <-])%let_value Hput Hr. by eapply Hput.
Qed.

Lemma when_present_keeps (P : PlanningRequest -> Prop) {A} a name (parse : Expected A) put r r' :
  when_present a name parse put r = Value r' -> (forall v r, P r -> P (put v r)) -> P r -> P r'.
Proof.
  unfold when_present. destruct (Has a name); [|by intros [= <-]].
  intros (v & Hv & [= <-])%let_value Hput Hr. by eapply Hput.
Qed.

Lemma for_values_keeps (P : PlanningRequest -> Prop) {A} a name (parse : string -> Expected A) put r r' :
  for_values a name parse put r = Value r' -> (forall v r, P r -> P (put v r)) -> P r -> P r'.
Proof.
  unfold for_values. intros E Hput. revert r E. induction (Option_Values a name) as [|t l IH]; intros r; cbn; [by intros [= <-]|].
  intros (r1 & (v & _ & [= <-])%let_value & Hl)%let_value Hr. apply (IH _ Hl). by apply Hput.
Qed.

Lemma base_request_fits a d r : base_request a d = Value r -> candidates_fit r.
Proof.
  unfold base_request. destruct (Option_Value a "request").
  - intros (bytes & _ & Hr)%let_value. by eapply parsed_request_fits.
  - destruct (Option_Value a "from"), (Option_Value a "to"); try done.
    intros (source & _ & (destination & _ & [= <-])%let_value)%let_value. by vm_compute.
Qed.

Lemma BuildRequest_fits a d r : BuildRequest a d = Value r -> candidates_fit r.
Proof.
  unfold BuildRequest. intros (r0 & Hb%base_request_fits & E)%let_value.
  repeat (let Hs := fresh "Hs" in apply let_value in E as (? & Hs & E); first
    [ eapply (when_given_keeps candidates_fit) in Hs; [|intros ? ? ? Hp Hf; first [exact Hf|by eapply ParseU32_width]|eassumption]
    | eapply (when_given_keeps candidates_fit) in Hs;
        [|intros ? ? ? Hp Hf; exact Hf|by destruct (Has a "no-regeneration"), (Has a "no-conversion")]
    | eapply (for_values_keeps candidates_fit) in Hs; [|intros ? ? Hf; exact Hf|eassumption]
    | eapply (when_present_keeps candidates_fit) in Hs; [|intros ? ? Hf; exact Hf|eassumption] ]).
  eapply (when_present_keeps candidates_fit) in E; [exact E|intros ? ? Hf; exact Hf|eassumption].
Qed.
End requests.

(** ** Lemmas: the files of [--emit-plan] *)

Section emission.
Context `{Platform, Hasher, System}.

(** The text after the base name. *)
Definition emit_suffix (i : Z) : string := if i =? 0 then "" else "." +:+ to_string i.

Lemma emit_path_suffix base i : emit_path base i = base +:+ emit_suffix i.
Proof.
  unfold emit_path, emit_suffix. destruct (i =? 0); [|done].
  apply (inj chars). by rewrite chars_app, app_nil_r.
Qed.

Lemma emit_temp_suffix base i : TempNameFor (emit_path base i) = base +:+ (emit_suffix i +:+ ".tmp-" +:+ to_string sys_pid).
Proof. unfold TempNameFor. by rewrite emit_path_suffix, !string_app_assoc. Qed.

(** A later name is neither an earlier one nor the temporary of one. *)
Lemma emit_suffix_later i j tail : 0 <= i < j -> j <= u32_max -> (tail = "" \/ exists x, tail = String "." x) ->
  emit_suffix i <> emit_suffix j +:+ tail.
Proof.
  intros Hij Hj Ht. unfold emit_suffix. rewrite (proj2 (Z.eqb_neq j 0)) by lia.
  destruct (Z.eqb_spec i 0) as [_|Hi]; [done|]. rewrite <- string_app_assoc. intros E%string_app_inj_l.
  destruct Ht as [->|[x ->]].
  - apply (f_equal decimal_value) in E. assert (to_string j +:+ "" = to_string j) as Ej.
    { apply (inj chars). by rewrite chars_app, app_nil_r. }
    rewrite Ej in E. unfold u32_max in *. rewrite !decimal_value_to_string in E by (unfold in_width; lia). lia.
  - apply (f_equal chars) in E. rewrite chars_app in E.
    assert (In "."%char (chars (to_string i))) as Hin by (rewrite E; apply in_elt).
    by apply to_string_digits in Hin; [|lia].
Qed.

(** The files of the later plans are not those of the earlier ones. *)
Lemma emit_leaves m base plans i d text failure ops q :
  emit_plans m base i plans d = ((text, failure), ops) ->
  (forall j, i <= j < i + size plans -> q <> emit_path base j /\ q <> TempNameFor (emit_path base j)) -> leaves q ops.
Proof.
  revert i d text failure ops; induction plans as [|p plans IH]; intros i d text failure ops; cbn [emit_plans];
    [intros [= <- <- <-] _; constructor|].
  intros (st & ops1 & ops2 & Hw & E & ->)%io_bind_value Hq.
  assert (leaves q ops1) as Hfirst.
  { destruct (Hq i) as [Hq1 Hq2]; [unfold size; simpl; lia|]. by eapply write_leaves. }
  destruct (failed st); [injection E as <- <- <-; by rewrite app_nil_r|].
  apply io_bind_value in E as ([text' failure'] & ops3 & ops4 & Hl & E & ->). injection E as <- <- <-. rewrite app_nil_r.
  apply Forall_app_2; [exact Hfirst|]. eapply IH; [exact Hl|]. intros j Hj. apply Hq. unfold size in *. simpl length. lia.
Qed.

(** After an emission without a failure every plan is in its file. *)
Lemma emit_written m base plans i d text ops :
  emit_plans m base i plans d = ((text, None), ops) -> 0 <= i -> i + size plans <= u32_max ->
  forall k p, plans !! k = Some p ->
  dk_files (apply_ops ops d) !! emit_path base (i + Z.of_nat k) = Some (CanonicalBytes p).
Proof.
  revert i d text ops; induction plans as [|p plans IH]; intros i d text ops; cbn [emit_plans]; [done|].
  intros (st & ops1 & ops2 & Hw & E & ->)%io_bind_value Hi Hsize k p' Hk.
  destruct (failed st) eqn:Hst; [done|].
  apply io_bind_value in E as ([text' failure'] & ops3 & ops4 & Hl & E & ->). injection E as _ -> <-. rewrite app_nil_r, apply_ops_app.
  unfold size in *. cbn [length] in Hsize. destruct k as [|k]; cbn [lookup list_lookup] in Hk.
  - injection Hk as ->. rewrite Z.add_0_r. rewrite apply_ops_untouched.
    + pose proof (WriteFileAtomic_done _ _ _ _ _ d Hw) as ->. by rewrite Hst.
    + eapply emit_leaves; [exact Hl|]. intros j Hj. unfold size in Hj. rewrite emit_temp_suffix, !(emit_path_suffix base).
      split; intros Hc%string_app_inj_l.
      * apply (emit_suffix_later i j ""); [lia..|by left|]. rewrite Hc. apply (inj chars). by rewrite chars_app, app_nil_r.
      * apply (emit_suffix_later i j (".tmp-" +:+ to_string sys_pid)); [lia..| |exact Hc]. right. by eexists.
  - replace (i + Z.of_nat (S k)) with (i + 1 + Z.of_nat k) by lia. eapply IH; [exact Hl|lia..|exact Hk].
Qed.

(** A file whose name does not start with the base name is left alone. *)
Lemma emit_elsewhere m base plans i d text failure ops q :
  emit_plans m base i plans d = ((text, failure), ops) -> strip_prefix base q = None ->
  dk_files (apply_ops ops d) !! q = dk_files d !! q.
Proof.
  intros E Hq. apply apply_ops_untouched. eapply emit_leaves; [exact E|].
  intros j _. rewrite emit_temp_suffix, emit_path_suffix.
  split; intros ->; by rewrite strip_prefix_app in Hq.
Qed.
End emission.

(** ** Lemmas: planning and checking *)

Section checking.
Context `{Platform, !CharconvLaws, Hasher, System}.

Lemma parsed_snapshot_fresh text t : ParseSnapshotText text = Value t -> t_freshness t = EvidenceFreshness.Fresh.
Proof.
  unfold ParseSnapshotText. destruct (_ <? _); [done|]. intros (s & _ & E)%let_value. unfold finish_snapshot in E.
  destruct (negb _); [done|]. destruct (ss_id s), (ss_grid s), (ss_slots s); try done. cbv zeta in E.
  apply let_value in E as (b & Hb & E). destruct (Build b) as [e b'] eqn:Hbuild. cbn in E. subst e.
  apply Build_inv in Hbuild as [_ Hbuild]. by apply build_snapshot_inv in Hbuild as (? & ? & ? & ? & ? & a & x & _ & _ & -> & _).
Qed.

Lemma loaded_file d d' path : dk_files d' !! path = dk_files d !! path -> LoadSnapshotFile d' path = LoadSnapshotFile d path.
Proof. intros E. unfold LoadSnapshotFile, ReadFileBounded. by rewrite E. Qed.

Lemma candidate_count t r : wf_snapshot t -> identified t -> candidates_fit r ->
  size (rs_candidates (Planner.Plan default_options t r (fun _ _ => false))) <= u32_max.
Proof.
  intros W I Hc. unfold candidates_fit, in_width, u32_max in *.
  destruct (Plan_comes_about default_options t r (fun _ _ => false) W I Hc) as [f (_ & [-> _ _] & _)|f _ _ _ _ [_ [-> _ _] _]|p _ _ _ _ Ha];
    [unfold size; simpl; lia..|].
  destruct (classify_outcome _ _ _ _ p Ha) as (_ & -> & _). destruct Ha as [_ [_ Hsize] _ _]. lia.
Qed.

(** A candidate passes the check of its bindings on the snapshot it was planned
    on, when that was read from a file. *)
Lemma candidate_bindings text t r policy p : ParseSnapshotText text = Value t -> candidates_fit r ->
  In p (rs_candidates (Planner.Plan default_options t r (fun _ _ => false))) ->
  report_ok (ValidatePlanBindings p t policy) = true.
Proof.
  intros Ht Hc Hin. destruct (read_snapshot_sealed _ _ Ht) as [W I].
  destruct (candidates_ok _ _ _ _ W I Hc p Hin) as [(path & _ & _ & Hb & _) _].
  apply bool_decide_eq_true_2.
  apply (stage_verdict_unique p t policy); [apply bindings_stage|]. apply (fresh_bindings _ _ _ W _ _ _ Hb).
  left. by eapply parsed_snapshot_fresh.
Qed.
End checking.

(** ** Theorems *)

(** The arguments are read as they are meant: positional arguments and
    the values of every option, in order; the command is the first argument. *)
Theorem arguments_read (command : string) (words : list Word) (a : Arguments) :
  words_ok words -> ParseArguments (command :: line_words words) = Value a ->
  ar_command a = command /\ ar_positional a = positionals words /\ forall name, Option_Values a name = values_of name words.
Proof.
  intros Hw. cbn [ParseArguments]. intros [= <-].
  destruct (parse_words words (MkArguments command [] ∅) Hw) as (Hc & Hp & Hv). split_and!; [done|done|].
  intros name. by rewrite Hv.
Qed.

(** The message that an option requires a value is never printed.  An option
    that was given has a value, an empty text when none was typed. *)
Theorem value_always_there (argv : list string) (a : Arguments) (name : string) :
  ParseArguments argv = Value a -> Has a name = true -> is_Some (Option_Value a name).
Proof.
  destruct argv as [|command tokens]; [done|]. intros [= <-].
  assert (all_valued (parse_tokens tokens (MkArguments command [] ∅))) as Ha by (apply parse_valued; intros n v; cbn; by rewrite lookup_empty).
  unfold Has, Option_Value. intros Hn%bool_decide_eq_true. destruct Hn as [values Hn]. rewrite Hn. specialize (Ha _ _ Hn).
  destruct (last values) as [v|] eqn:E; [by eexists|]. by apply last_None in E.
Qed.

(** C36: what [plan --json] prints can be read.  The line printed for a result whose
    fields are in their ranges is one JSON value, and a reader of JSON finds in it
    exactly the fields of the result, whatever characters the texts hold.  The
    reader is as strict as JSON is: it refuses a text with a raw control
    character, an unknown escape, or an escape without four hexadecimal digits. *)
Theorem result_json_reads `{Platform, Hasher} (r : PlanningResult) :
  result_ok r -> exists text, PrintResultJson r = line_of text /\ ReadJson text = Some (result_tree r).
Proof.
  intros Hr. exists (render (result_tree r)). split; [apply result_rendered|]. by apply render_reads, result_numbers.
Qed.

(** So can what [snapshot describe --json] prints. *)
Theorem snapshot_json_reads `{Platform} (t : TopologySnapshot) :
  snapshot_ok t -> in_width 64 (ArcCount t) ->
  exists text, PrintSnapshotSummary t true = line_of text /\ ReadJson text = Some (snapshot_tree t).
Proof.
  intros [] Harcs. exists (render (snapshot_tree t)). split; [unfold PrintSnapshotSummary; by rewrite snapshot_rendered|].
  apply render_reads. widths;
    try match goal with Hs : _ /\ size ?l <= _ |- json_ok (JNumber (size ?l)) => by apply (count_number l _ (proj2 Hs)) end.
  - apply (items_ok _ source_ok); [|naive_solver]. intros s []. widths.
  - apply texts_ok.
  - apply texts_ok.
Qed.

(** C16: a plan that was written is accepted.  When [opp plan --emit-plan base] ends with
    exit code 0, the planner found candidates for the request on the snapshot of
    the file, and each of them whose text can be read back is in its file: on the
    disk that run left, [opp validate-plan] of that file against the same snapshot
    answers 0, with any policy that does not ask for revalidation. *)
Theorem emitted_plans_validate `{Platform, !CharconvLaws, Hasher, System} (m : Machine) (a : Arguments) (d : Disk)
    (run : Run) (ops : list DiskOp) (path base : string) :
  CommandPlan m a d = (run, ops) -> exit_code run = 0 ->
  Option_Value a "snapshot" = Some path -> Option_Value a "emit-plan" = Some base -> strip_prefix base path = None ->
  exists t r, LoadSnapshotFile d path = Value t /\ BuildRequest a d = Value r /\
    let result := Planner.Plan default_options t r (fun _ _ => false) in
    rs_outcome result = PlanOutcome.Feasible /\
    forall k p, rs_candidates result !! k = Some p -> PlanText.candidate_ok p ->
    forall b, Option_Value b "snapshot" = Some path -> Option_Value b "plan" = Some (emit_path base (Z.of_nat k)) ->
    Has b "revalidate" = false ->
    exists text, CommandValidatePlan b (apply_ops ops d) = (MkRun 0 text "", []).
Proof.
  intros Hrun Hexit Hsnap Hemit Hother. unfold CommandPlan in Hrun. rewrite Hsnap, Hemit in Hrun. unfold or_report in Hrun.
  destruct (LoadSnapshotFile d path) as [t|] eqn:Ht; [|by injection Hrun as <- _].
  destruct (BuildRequest a d) as [r|] eqn:Hr; [|by injection Hrun as <- _].
  exists t, r. split; [done|]. split; [done|]. cbv zeta in *. set (result := Planner.Plan default_options t r (fun _ _ => false)) in *.
  apply io_bind_value in Hrun as ([text failure] & ops1 & ops2 & Hout & E & ->). destruct failure as [st|]; [by injection E as <- _|].
  injection E as <- <-. rewrite app_nil_r. cbn [exit_code] in Hexit. split; [by destruct (rs_outcome result)|].
  intros k p Hk Hp b Hbs Hbp Hbr. pose proof Ht as Hread. unfold LoadSnapshotFile in Hread. apply let_value in Hread as (bytes & _ & Hread).
  pose proof (BuildRequest_fits _ _ _ Hr) as Hfits. destruct (read_snapshot_sealed _ _ Hread) as [W I].
  pose proof (candidate_count t r W I Hfits) as Hcount. fold result in Hcount.
  pose proof (emit_written _ _ _ 0 _ _ _ Hout ltac:(lia) Hcount k p Hk) as Hfile. rewrite Z.add_0_l in Hfile.
  unfold CommandValidatePlan. rewrite Hbs, Hbp, (loaded_file _ _ _ (emit_elsewhere _ _ _ _ _ _ _ _ _ Hout Hother)), Ht.
  cbn [or_report]. unfold read_plan, ReadFileBounded. rewrite Hfile. destruct Hp as [H4 H5 H6 H7].
  rewrite (proj2 (Z.ltb_ge _ _)) by done. cbv iota. rewrite plan_reads by done. cbn [or_report vp_revalidate_on_mismatch].
  rewrite Hbr. unfold io_return. rewrite (candidate_bindings _ _ _ _ _ Hread Hfits); [by eexists|].
  fold result. by eapply list_elem_of_In, list_elem_of_lookup_2.
Qed.

(** ** What the arguments may do, by examples *)

(** An option takes the next argument as its value, unless that starts with
    a dash.  Of [snapshot describe --json file] the file becomes the value of
    [--json], and the command misses its path. *)
Theorem flag_takes_the_path (m : Machine) (d : Disk) `{Platform, Hasher, System} :
  main m "build" ["snapshot"; "describe"; "--json"; "file"] d =
    (misused (line_of "snapshot describe requires a file path"), []) /\
  main m "build" ["snapshot"; "describe"; "file"; "--json"] d =
    or_report "snapshot" (LoadSnapshotFile d "file") (fun t => io_return (printed (PrintSnapshotSummary t true))) d.
Proof. split; [reflexivity|]. reflexivity. Qed.

Definition parsed_options (argv : list string) : Arguments :=
  match ParseArguments argv with Value a => a | Error _ => MkArguments "" [] ∅ end.

(** A number is read with 64 bits and cast to the width of its field. *)
Theorem wide_numbers_wrap `{Platform} :
  match gen_numbers (parsed_options ["gen"; "--nodes"; "4294967304"; "--slots"; "65540"]) with
  | Value options => let o := options GridKind.Fixed50GHz "s" true in
      syn_node_count o = 8 /\ syn_slot_count o = 4
  | Error _ => False
  end.
Proof. by split. Qed.

(** ** Witnesses *)

Module SampleCli.
#[local] Existing Instance SamplePlan.size_hasher.
#[local] Existing Instance SampleSystem.linux.

Definition disk : Disk := MkDisk {["/s" := SnapshotToText Net.row; "/r" := RequestToText Net.request]} ∅.
Definition machine : Machine := SampleIncarnation.machine.
Definition planning : Arguments :=
  parsed_options ["plan"; "--snapshot"; "/s"; "--request"; "/r"; "--emit-plan"; "/p"].
Definition checking : Arguments := parsed_options ["validate-plan"; "--snapshot"; "/s"; "--plan"; "/p"].
Definition ran : Run * list DiskOp := CommandPlan machine planning disk.

Lemma row_loaded : LoadSnapshotFile disk "/s" = Value SampleService.row.
Proof. vm_compute. reflexivity. Qed.

Lemma request_built : BuildRequest planning disk = Value Net.request.
Proof. vm_compute. reflexivity. Qed.

Lemma row_candidate :
  rs_candidates (Planner.Plan default_options SampleService.row Net.request (fun _ _ => false)) !! 0%nat = Some SampleService.candidate.
Proof. vm_compute. reflexivity. Qed.

Lemma ran_well : exit_code (fst ran) = 0.
Proof. vm_compute. reflexivity. Qed.

(** Options with values, one of them given twice, and flags. *)
Definition words : list Word :=
  [Positional "describe"; Given "file" "-"; Positional "two words"; Alone "json"; Given "file" "/s"; Alone "json"].
End SampleCli.

Lemma value_same {A} (x y : A) : Value x = Value y -> x = y.
Proof. congruence. Qed.

Section witnesses.
Existing Instance SamplePlan.size_hasher.
Existing Instance SampleSystem.linux.
Import SampleCli.

Lemma arguments_read_witness :
  ar_positional (parsed_options ("snapshot" :: line_words words)) = ["describe"; "two words"] /\
  Option_Values (parsed_options ("snapshot" :: line_words words)) "file" = ["-"; "/s"].
Proof.
  assert (words_ok words) as Hw by (repeat split; discriminate).
  destruct (arguments_read "snapshot" words _ Hw eq_refl) as (_ & Hp & Hv).
  split; [exact Hp|]. exact (Hv "file").
Defined.

Lemma value_always_there_witness : is_Some (Option_Value (parsed_options ["plan"; "--max-distance"]) "max-distance").
Proof. exact (value_always_there ["plan"; "--max-distance"] _ "max-distance" eq_refl eq_refl). Defined.

Lemma result_json_reads_witness :
  exists text, PrintResultJson SampleResult.sample = line_of text /\ ReadJson text = Some (result_tree SampleResult.sample).
Proof. exact (result_json_reads SampleResult.sample SampleResult.sample_result_ok). Defined.

Lemma snapshot_json_reads_witness :
  exists text, PrintSnapshotSummary SampleSnapshot.sample true = line_of text /\
    ReadJson text = Some (snapshot_tree SampleSnapshot.sample).
Proof. apply (snapshot_json_reads SampleSnapshot.sample SampleSnapshot.sample_snapshot_ok). split; by vm_compute. Defined.

Lemma emitted_plans_validate_witness :
  exists text, CommandValidatePlan checking (apply_ops (snd ran) disk) = (MkRun 0 text "", []).
Proof.
  pose proof ran_well as Hexit.
  destruct (emitted_plans_validate machine planning disk (fst ran) (snd ran) "/s" "/p" (surjective_pairing _) Hexit
    eq_refl eq_refl eq_refl) as (t & r & Ht & Hr & _ & Hall).
  rewrite row_loaded in Ht. rewrite request_built in Hr. destruct (value_same _ _ Ht), (value_same _ _ Hr).
  exact (Hall 0%nat _ row_candidate SampleService.candidate_fits checking eq_refl eq_refl eq_refl).
Defined.
End witnesses.
