(* ===== verification/Examples.v ===== *)
(** * Examples: the programs that use the library

    [examples/example_quickstart.cpp], [examples/example_evidence.cpp],
    [examples/example_constraints.cpp] and [consumer/main.cpp], as runs with an
    exit code and what they print, and what their comments promise. *)

From S2P Require Import Prelude Status Ids Doubles Spectrum Canonical Topology SnapshotText Builder Synthetic Request Outcome.
From S2P Require Import SearchFacts SearchArcs Search Route Plan Result PlanBuild PlanFacts Planner PlannerFacts Validate ValidateFacts.
From S2P Require Import Revalidate Proto Lines PlanText RequestText SnapshotRead Service Cli.

Definition nobody : nat -> nat -> bool := fun _ _ => false.

Section programs.
Context `{Platform, Hasher}.

(** [ParsePlanArtifact(plan.CanonicalBytes())] gives a plan of the same digest. *)
Definition artifact_round_trips (p : PlanArtifact) : bool :=
  match ParsePlanArtifact (CanonicalBytes p) with
  | Value reparsed => digest_eqb (pl_digest reparsed) (pl_digest p)
  | Error _ => false
  end.

(** The end of a program that checks the round trip of its plan. *)
Definition round_trip_end (text : string) (p : PlanArtifact) : Run :=
  if artifact_round_trips p then MkRun 0 (text +:+ line_of "plan artifact round trip ok") ""
  else MkRun 1 text (line_of "plan artifact did not round trip").

(** [candidates.front()] of nothing is undefined; a feasible result has one. *)
Definition with_front (result : PlanningResult) (k : PlanArtifact -> Run) : Run :=
  match rs_candidates result with p :: _ => k p | [] => MkRun 1 "" "" end.

(** [if (!built.ok()) { std::cerr << detail; return 1; }] *)
Definition on_built (context : string) (built : Expected TopologySnapshot) (k : TopologySnapshot -> Run) : Run :=
  match built with Value t => k t | Error s => MkRun 1 "" (line_of (context +:+ detail s)) end.

(** ** [example_quickstart.cpp] *)

Definition quickstart_request : PlanningRequest :=
  rq_put_candidates 2 (default_request (MkId "quickstart") (example_key "a" "in") (example_key "c" "out")).

Definition quickstart : Run :=
  on_built "snapshot: " BuildExampleTopology (fun t =>
      let head := text_of_lines
        ["snapshot " +:+ str (t_id t) +:+ " digest " +:+ Digest_ToHex (t_digest t);
         "  nodes " +:+ to_string (size (t_nodes t)) +:+ " ports " +:+ to_string (size (t_ports t)) +:+ " spans " +:+
         to_string (size (t_spans t)) +:+ " cross-connects " +:+ to_string (size (t_cross_connects t))] in
      let result := Planner.Plan default_options t quickstart_request nobody in
      let text := head +:+ Result_ExplainText result in
      if negb (bool_decide (rs_outcome result = PlanOutcome.Feasible)) then MkRun 1 text (line_of "expected a feasible route")
      else with_front result (fun p => round_trip_end (text +:+ text_of_lines
        (["best plan digest " +:+ DigestHex p; "bound sources:"] ++
         map (fun b => "  " +:+ str (sb_source b) +:+ " generation " +:+ to_string (sb_generation b) +:+ " contribution " +:+
                       substr (Digest_ToHex (sb_contribution b)) 0 16 +:+ "...") (pl_bound_sources p) ++
         ["required spectrum:"] ++
         map (fun v => "  " +:+ ResourceKeyToString (rv_resource v) +:+ " slot " +:+ to_string (first_slot (rv_channel v)) +:+
                       " width " +:+ to_string (width_slots (rv_channel v))) (pl_reservations p) ++
         ["validation: " +:+ PlanValidityName (vr_validity (ValidatePlanBindings p t default_policy))])) p)).

(** ** [example_evidence.cpp] *)

Definition evidence_source : SourceId := MkId "evidence-source".
Definition evidence_profile : ReachProfile :=
  MkProfile (MkId "p") (Known 1000000) (Known 8) (Known (double_of 100)) (Known (double_of 10)) evidence_source 1.
Definition evidence_node (name : string) : NodeRecord :=
  MkNode (MkId name) NodeKind.ReconfigurableOadm [] 0 Coverage.Complete admin_up evidence_source 1.
Definition evidence_port (name port_name : string) : PortRecord :=
  MkPort (example_key name port_name) (if String.eqb port_name "line" then PortRole.Line else PortRole.Client)
    (Known (Some (r_id evidence_profile))) (Known mask_None) [] 0 admin_up evidence_source 1.
Definition evidence_cross_connect (name : string) : CrossConnectRecord :=
  MkCrossConnect (MkId ("x-" +:+ name)) (example_key name "in") (example_key name "out") CrossConnectOp.Express
    (Known mask_None) [] 0 admin_up evidence_source 1.
Definition evidence_span (id : string) (from to : PortKey) (loss : double) (osnr : Evidence double) : SpanRecord :=
  MkSpan (MkId id) from to true (Known 1000) (Known loss) osnr (Known mask_None) [] 0 admin_up evidence_source 1.

(** The spans: the one every route needs, its second record, and one besides. *)
Definition evidence_spans (publish_osnr conflicting_span : bool) : list SpanRecord :=
  let span loss := evidence_span "s" (example_key "a" "out") (example_key "b" "in") loss
                     (if publish_osnr then Known (double_of 30) else Unknown) in
  [span (double_of 1)] ++ (if conflicting_span then [span (double_of 42)] else []) ++
  [evidence_span "unused" (example_key "a" "line") (example_key "b" "line") (double_of 1) (Known (double_of 30))].

Definition evidence_network (publish_osnr conflicting_span : bool) : Expected TopologySnapshot :=
  let b := SetId (new_builder default_build_options) (MkId (if conflicting_span then "conflicting" else "evidence")) in
  let b := SetSpectrum (SetGeneration b 1) (MkSpectrum GridKind.Fixed50GHz 4) in
  let! b := added (AddSource b (MkSource evidence_source 1 Coverage.Complete "")) in
  let! b := added (AddReachProfile b evidence_profile) in
  let! b := each (fun name b => added (AddNode b (evidence_node name))) ["a"; "b"] b in
  let! b := each (fun name => each (fun port_name b => added (AddPort b (evidence_port name port_name)))
                                ["in"; "out"; "line"]) ["a"; "b"] b in
  let! b := each (fun name b => added (AddCrossConnect b (evidence_cross_connect name))) ["a"; "b"] b in
  let! b := each (fun s b => added (AddSpan b s)) (evidence_spans publish_osnr conflicting_span) b in
  fst (Build b).

Definition evidence_request : PlanningRequest :=
  default_request (MkId "evidence") (example_key "a" "in") (example_key "b" "out").

Definition evidence_result (t : TopologySnapshot) : PlanningResult := Planner.Plan default_options t evidence_request nobody.

Definition evidence_report (label : string) (r : PlanningResult) : string := text_of_lines
  ((label +:+ ": " +:+ PlanOutcomeName (rs_outcome r) +:+ " limitations=" +:+ DescribeLimitations (rs_limitations r)) ::
   map (fun w => "    witness " +:+ CutReasonName (w_reason w) +:+ " " +:+ ResourceKeyToString (w_resource w) +:+ " - " +:+
                 w_detail w) (rs_witnesses r)).

Definition evidence : Run :=
  match evidence_network true false with
  | Error s => MkRun 1 "" (line_of (detail s))
  | Value complete =>
      let first := evidence_report "fully published" (evidence_result complete) in
      match evidence_network false false with
      | Error s => MkRun 1 first (line_of (detail s))
      | Value incomplete =>
          let second := first +:+ evidence_report "span OSNR unpublished" (evidence_result incomplete) in
          match evidence_network true true with
          | Error s => MkRun 1 second (line_of (detail s))
          | Value conflicting =>
              MkRun 0 (second +:+ line_of ("conflicted resources: " +:+ to_string (size (t_conflicted conflicting))) +:+
                       evidence_report "disagreeing span records" (evidence_result conflicting)) ""
          end
      end
  end.

(** ** [consumer/main.cpp] *)

Section fabric.
Context (generation : Generation).

Definition fabric_source : SourceId := MkId "consumer-evidence".
Definition fabric_profile : ReachProfile :=
  MkProfile (MkId "reach-200km") (Known 200000) (Known 4) (Known (double_of 20)) (Known (double_of 14)) fabric_source generation.
Definition fabric_node (name : string) : NodeRecord :=
  MkNode (MkId name) NodeKind.ReconfigurableOadm [MkId ("site-" +:+ name)] 0 Coverage.Complete admin_up fabric_source generation.
Definition fabric_port (name port_name : string) : PortRecord :=
  MkPort (example_key name port_name) (if String.eqb port_name "line" then PortRole.Line else PortRole.Client)
    (Known (Some (r_id fabric_profile))) (Known mask_None) [] 0 admin_up fabric_source generation.
Definition fabric_cross_connect (name : string) : CrossConnectRecord :=
  MkCrossConnect (MkId ("xc-" +:+ name)) (example_key name "in") (example_key name "line") CrossConnectOp.Express
    (Known mask_None) [] 0 admin_up fabric_source generation.
Definition fabric_span : SpanRecord :=
  MkSpan (MkId "fiber-a-b") (example_key "a" "line") (example_key "b" "line") true (Known 90000) (Known (double_of 12))
    (Known (double_of 30)) (Known mask_None) [MkId "fiber-a-b"] 3 admin_up fabric_source generation.

Definition fabric_builder : Expected SnapshotBuilder :=
  let b := SetId (new_builder default_build_options) (MkId "consumer-fabric") in
  let b := SetSpectrum (SetGeneration b generation) (MkSpectrum GridKind.Fixed50GHz 8) in
  let! b := added (AddSource b (MkSource fabric_source generation Coverage.Complete "")) in
  let! b := added (AddReachProfile b fabric_profile) in
  let! b := each (fun name b =>
    let! b := added (AddNode b (fabric_node name)) in
    let! b := each (fun port_name b => added (AddPort b (fabric_port name port_name))) ["in"; "out"; "line"] b in
    added (AddCrossConnect b (fabric_cross_connect name))) ["a"; "b"] b in
  added (AddSpan b fabric_span).

Definition BuildFabric : Expected TopologySnapshot :=
  let! b := fabric_builder in fst (Build b).
End fabric.

Definition consumer_request : PlanningRequest :=
  rq_put_candidates 1 (default_request (MkId "consumer") (example_key "a" "in") (example_key "b" "line")).

Definition consumer_result (t : TopologySnapshot) : PlanningResult := Planner.Plan default_options t consumer_request nobody.

(** After the plan was validated against the fabric it was made for. *)
Definition consumer_replay (text : string) (p : PlanArtifact) : Run :=
  match BuildFabric 8 with
  | Error _ => MkRun 1 text ""
  | Value newer =>
      let replayed := ValidatePlanBindings p newer default_policy in
      let text := text +:+ line_of ("after a generation bump: " +:+ PlanValidityName (vr_validity replayed)) in
      if negb (bool_decide (vr_validity replayed = PlanValidity.Stale)) then
        MkRun 1 text (line_of "a replayed plan was accepted against newer evidence")
      else round_trip_end text p
  end.

Definition consumer : Run :=
  on_built "fabric: " (BuildFabric 7) (fun fabric =>
      let result := consumer_result fabric in
      let text := text_of_lines
        ["installed package version " +:+ VersionString;
         "fabric " +:+ str (t_id fabric) +:+ " digest " +:+ Digest_ToHex (t_digest fabric);
         "outcome " +:+ PlanOutcomeName (rs_outcome result)] in
      if negb (bool_decide (rs_outcome result = PlanOutcome.Feasible)) then MkRun 1 text (Result_ExplainText result)
      else with_front result (fun p =>
        let validation := ValidatePlanBindings p fabric default_policy in
        let text := text +:+ text_of_lines
          (["plan digest " +:+ DigestHex p +:+ " cost " +:+ to_string (pl_total_cost p) +:+ " hops " +:+ to_string (pl_hops p);
            "required spectrum:"] ++
           map (fun v => "  " +:+ ResourceKeyToString (rv_resource v) +:+ " slot " +:+ to_string (first_slot (rv_channel v)))
             (pl_reservations p) ++
           ["validation " +:+ PlanValidityName (vr_validity validation)]) in
        if negb (bool_decide (vr_validity validation = PlanValidity.Valid)) then MkRun 1 text ""
        else consumer_replay text p)).

(** ** [example_constraints.cpp] *)

Definition constraints_options : SyntheticOptions :=
  MkSynthetic 11 12 3 16 GridKind.Fixed50GHz 2 true 8 true true 3 "synthetic" "synthetic-generator".

Definition constraints_base : PlanningRequest :=
  rq_put_candidates 1 (default_request (MkId "constraints") (example_key "n0" "c0") (example_key "n6" "c0")).

Definition distance_limited : PlanningRequest := on_constraints (cs_put_distance (Some 40000)) constraints_base.
Definition hop_limited : PlanningRequest := rq_put_hops 3 constraints_base.
Definition domain_excluded : PlanningRequest :=
  on_constraints (cs_put_domains [MkId "site0"; MkId "site1"]) constraints_base.
Definition source_excluded : PlanningRequest := on_constraints (cs_put_nodes [MkId "n0"]) constraints_base.
Definition diversity : PlanningRequest := rq_put_disjointness Disjointness.Node (rq_put_candidates 3 constraints_base).
Definition unsupported : PlanningRequest := on_constraints (cs_put_repeated true) constraints_base.
Definition stale_demand : PlanningRequest := rq_put_srcgen [(MkId "synthetic-generator", 99)] constraints_base.

Definition Show (label : string) (r : PlanningResult) : string := text_of_lines
  ((label +:+ ": " +:+ PlanOutcomeName (rs_outcome r) +:+
    (if failed (rs_status r) then " (" +:+ StatusCodeName (code (rs_status r)) +:+ ")" else "") +:+
    " candidates=" +:+ to_string (size (rs_candidates r)) +:+ " optimality_proven=" +:+
    (if rs_optimality_proven r then "true" else "false")) ::
   map (fun c => "    cut " +:+ CutReasonName (c_reason c) +:+ " x" +:+ to_string (c_count c)) (rs_cuts r)).

Definition constraints_text (t : TopologySnapshot) : string :=
  let plan r := Planner.Plan default_options t r nobody in
  let diverse := plan diversity in
  Show "plain" (plan constraints_base) +:+ Show "total distance ceiling" (plan distance_limited) +:+
  Show "hop ceiling" (plan hop_limited) +:+ Show "two sites excluded" (plan domain_excluded) +:+
  Show "source node excluded" (plan source_excluded) +:+ Show "node-disjoint candidates" diverse +:+
  text_of_lines (map (fun p => "    candidate " +:+ substr (DigestHex p) 0 16 +:+ " cost=" +:+ to_string (pl_total_cost p) +:+
    " hops=" +:+ to_string (pl_hops p) +:+ " regenerations=" +:+ to_string (pl_regenerations p)) (rs_candidates diverse)) +:+
  Show "unsupported semantics" (plan unsupported) +:+ Show "stale evidence requirement" (plan stale_demand).

Definition constraints_run : Run :=
  on_built "" (GenerateSyntheticTopology constraints_options) (fun t => printed (constraints_text t)).
End programs.

(** ** Lemmas: the fabric *)

Section fabrics.
Context `{Platform, Hasher}.

Definition fabric_records (g : Generation) : SnapshotBuilder :=
  Eval vm_compute in match fabric_builder g with Value b => b | Error _ => new_builder default_build_options end.

Lemma fabric_builder_ok g : fabric_builder g = Value (fabric_records g).
Proof. vm_compute. reflexivity. Qed.

Ltac each_record :=
  unfold fabric_records, joined; cbn [b_sources b_nodes b_ports b_spans b_cross_connects b_profiles b_spectrum];
  repeat apply Forall_cons_2; try apply Forall_nil_2;
  repeat match goal with |- _ /\ _ => split end; try (vm_compute; reflexivity); try (intros E; discriminate E);
  try (unfold size, kMaxDomainsPerResource; simpl; lia); try (simpl; tauto).

Lemma fabric_complete g : complete_records (fabric_records g).
Proof.
  split; [reflexivity|reflexivity| | | | | | |].
  - split; [reflexivity|]. each_record.
  - split; apply NoDup_ListNoDup, (bool_decide_unpack _); vm_compute; exact I.
  - each_record.
  - each_record.
  - each_record.
  - each_record.
  - each_record.
Qed.

Lemma fabric_named g : named_records (fabric_records g).
Proof. split; each_record. Qed.

(** A candidate of one snapshot, against another whose evidence is fresh: it is
    stale as soon as a source it rests on has another generation there. *)
Lemma moved_source_stale (t t' : TopologySnapshot) (r : PlanningRequest) (policy : ValidationPolicy) (p : PlanArtifact) (s : SourceRecord) :
  wf_snapshot t -> identified t -> in_width 32 (max_candidates r) ->
  In p (rs_candidates (Planner.Plan default_options t r nobody)) ->
  t_freshness t = EvidenceFreshness.Fresh -> t_freshness t' = EvidenceFreshness.Fresh ->
  In s (t_sources t) -> SourceGeneration t' (src_id s) <> src_generation s ->
  vr_validity (ValidatePlanBindings p t policy) = PlanValidity.Valid /\
  vr_validity (ValidatePlanBindings p t' policy) = PlanValidity.Stale.
Proof.
  intros W I Hc Hin Hf Hf' Hs Hg. destruct (candidates_ok _ _ _ _ W I Hc p Hin) as [(path & _ & _ & Hb & _) _].
  pose proof (fresh_bindings _ _ policy W _ _ _ Hb (or_introl Hf)) as Hold.
  split; eapply stage_verdict_unique; try apply bindings_stage; [exact Hold|]. destruct Hold as [Hv Hsealed _ _ _].
  split; [exact Hv|]. split; [exact Hsealed|]. split; [by left|]. intros Hall.
  apply BuildPlan_inv in Hb as (w0 & w & _ & _ & _ & Hsw).
  apply seal_walk_inv in Hsw as (_&_&_&_&_&_&_&_&_& E & _). rewrite E in Hall. unfold bindings in Hall.
  rewrite Forall_map, List.Forall_forall in Hall. destruct (Hall s Hs) as [_ Hcur]. by apply Hg.
Qed.

Lemma validate_records_sorted b sources nodes ports spans xs :
  validate_records b = Value (sources, nodes, ports, spans, xs) -> sources = sort_by (Prelude.by_key src_id) (b_sources b).
Proof. unfold validate_records. cbv zeta. intros Hv. repeat case_in Hv; try discriminate. by injection Hv as <- _ _ _ _. Qed.

Lemma fabric_built g : exists t, BuildFabric g = Value t /\ wf_snapshot t /\ identified t /\
  t_freshness t = EvidenceFreshness.Fresh /\ t_sources t = [MkSource fabric_source g Coverage.Complete ""].
Proof.
  destruct (build_complete _ (fabric_complete g)) as (t & E & _). exists t. unfold BuildFabric. rewrite fabric_builder_ok.
  split; [exact E|]. destruct (Build (fabric_records g)) as [r b'] eqn:Hb. cbn in E. subst r.
  split; [by eapply Build_wf|]. split; [exact (Build_identified _ _ _ (fabric_named g) Hb)|].
  apply Build_inv in Hb as [_ Hb]. apply build_snapshot_inv in Hb as (sources & nodes & ports & spans & xs & a & d & Hv & _ & -> & _).
  split; [done|]. apply validate_records_sorted in Hv as ->.
  unfold assemble. cbn [t_sources]. unfold sort_records. repeat case_match. reflexivity.
Qed.
End fabrics.

(** ** Theorems *)

(** A replayed plan is stale.  Whatever generations the fabric of the consumer is
    built with, both build; every candidate of the one is VALID against it, and
    STALE against the other as soon as the generations differ, on any platform
    and with any digest. *)
Theorem replayed_plan_stale `{Platform, Hasher} (g g' : Generation) (policy : ValidationPolicy) :
  exists t t', BuildFabric g = Value t /\ BuildFabric g' = Value t' /\
    forall p, In p (rs_candidates (consumer_result t)) -> g' <> g ->
      vr_validity (ValidatePlanBindings p t policy) = PlanValidity.Valid /\
      vr_validity (ValidatePlanBindings p t' policy) = PlanValidity.Stale.
Proof.
  destruct (fabric_built g) as (t & Et & W & I & Hf & Hs), (fabric_built g') as (t' & Et' & _ & _ & Hf' & Hs').
  exists t, t'. split; [done|]. split; [done|]. intros p Hin Hg.
  apply (moved_source_stale t t' consumer_request policy p (MkSource fabric_source g Coverage.Complete "") W I);
    [split; vm_compute; congruence|exact Hin|exact Hf|exact Hf'| |].
  - rewrite Hs. left. reflexivity.
  - unfold SourceGeneration, find_source. rewrite Hs'. exact Hg.
Qed.

(** Two lines of the constraints program do not depend on the network: repeated
    resources are UNSUPPORTED on any snapshot, and a generation that no source of
    that name publishes leaves any fresh snapshot INDETERMINATE. *)
Theorem refused_demands `{Platform, Hasher} (t : TopologySnapshot) :
  rs_outcome (Planner.Plan default_options t unsupported nobody) = PlanOutcome.Unsupported /\
  (t_freshness t = EvidenceFreshness.Fresh -> SourceGeneration t (MkId "synthetic-generator") < 99 ->
   rs_outcome (Planner.Plan default_options t stale_demand nobody) = PlanOutcome.Indeterminate).
Proof.
  split.
  - unfold Planner.Plan, admission, check_request.
    assert (failed (Request_Validate unsupported) = true) as -> by (vm_compute; reflexivity).
    assert (code (Request_Validate unsupported) = StatusCode.Unsupported) as -> by (vm_compute; reflexivity).
    reflexivity.
  - intros Hf Hg. unfold Planner.Plan, admission, check_request.
    assert (failed (Request_Validate stale_demand) = false) as -> by (vm_compute; reflexivity).
    unfold check_freshness. rewrite Hf. cbn [check_generation check_digest required_source_generations stale_demand rq_put_srcgen
      check_sources check_source required_snapshot_generation expected_snapshot_digest bool_decide negb andb].
    unfold check_source. destruct (HasSource t _); cbn [negb]; [|reflexivity].
    rewrite (proj2 (Z.ltb_lt _ _)) by exact Hg. reflexivity.
Qed.

Section outcomes.
#[local] Existing Instance SamplePlan.size_hasher.

Definition outcome_of (built : Expected TopologySnapshot) : option (PlanOutcome.t * Z) :=
  match built with
  | Value t => let r := evidence_result t in Some (rs_outcome r, size (t_conflicted t))
  | Error _ => None
  end.

(** The three kinds of evidence.  Everything published is a proof; a quality that
    is not published, or two records that disagree, leave the one route
    unprovable, and nothing is called infeasible. *)
Theorem evidence_outcomes :
  outcome_of (evidence_network true false) = Some (PlanOutcome.Feasible, 0) /\
  outcome_of (evidence_network false false) = Some (PlanOutcome.Indeterminate, 0) /\
  outcome_of (evidence_network true true) = Some (PlanOutcome.Indeterminate, 1) /\
  exit_code evidence = 0.
Proof. split_and!; vm_compute; reflexivity. Qed.

(** The quickstart finds the route its comment announces, and ends well. *)
Theorem quickstart_route :
  exit_code quickstart = 0 /\
  match BuildExampleTopology with
  | Value t => map (fun p => map ps_resource (pl_steps p)) (rs_candidates (Planner.Plan default_options t quickstart_request nobody))
  | Error _ => []
  end =
  [[ForPort (example_key "a" "in"); ForNode (MkId "a"); ForCrossConnect (MkId "xa1"); ForSpan (MkId "s-ab"); ForNode (MkId "b");
    ForCrossConnect (MkId "xb1"); ForSpan (MkId "s-bc"); ForNode (MkId "c"); ForCrossConnect (MkId "xc1");
    ForPort (example_key "c" "out")]].
Proof. split; vm_compute; reflexivity. Qed.

(** The consumer accepts its plan, sees the replayed one rejected, and ends well. *)
Theorem consumer_ends_well : exit_code consumer = 0.
Proof. vm_compute. reflexivity. Qed.
End outcomes.
