(* ===== verification/Daemon.v ===== *)
(** * Daemon: the command line of the service

    [src/apps/oppd.cpp]: the arguments, the exit codes and the line printed once
    the service listens.  What the operating system answers to the lock and the
    socket depends on the address and the port asked for, and is a parameter, and
    so is the port it bound. *)

From S2P Require Import Prelude Status Ids Doubles Canonical SnapshotText Lines Proto Search PlanText Files Store Incarnation Service.
From S2P Require Import Server ServiceFacts Restart Cli CliFacts.

Definition kDaemonUsage : string := text_of_lines
  ["oppd - Optical Path Planner inspection service";
   "";
   "usage: oppd --state <dir> [options]";
   "";
   "  --state <dir>        directory holding the incarnation record, the persisted";
   "                       snapshot and (by default) the plan store. Required.";
   "  --store <dir>        override the plan store directory.";
   "  --port <n>           listen port; 0 selects an ephemeral port. Default 0.";
   "  --bind <address>     dotted-quad IPv4 address. Default 127.0.0.1.";
   "  --max-plans <n>      plan store capacity. Default 4096.";
   "  --max-connections <n> concurrent connection bound. Default 64.";
   "  --no-persist         do not persist the ingested snapshot.";
   "";
   "On start the service prints one line to stdout:";
   "  LISTENING <port> <incarnation> <epoch> <epoch-continuity>"].

(** [opp::ServiceOptions] with the two fields only the socket reads. *)
Record DaemonOptions := MkDaemon { dm_service : ServiceOptions; dm_bind_address : string; dm_port : Z }.

Definition kServiceBindAddress : string := "127.0.0.1".
Definition kMaxServiceConnections : Z := 64.

Definition default_daemon_options : DaemonOptions :=
  MkDaemon (MkServiceOptions "" "" kMaxServiceConnections kMaxFrameBytes 4096 kMaxSearchExpansionsCeiling true)
    kServiceBindAddress 0.

Definition on_service (f : ServiceOptions -> ServiceOptions) (o : DaemonOptions) : DaemonOptions :=
  MkDaemon (f (dm_service o)) (dm_bind_address o) (dm_port o).

Definition sp_put_persist (v : bool) (o : ServiceOptions) : ServiceOptions :=
  MkServiceOptions (sp_state_dir o) (sp_store_root o) (sp_max_connections o) (sp_max_frame_bytes o) (sp_max_stored_plans o)
    (sp_expansion_ceiling o) v.
Definition sp_put_state (v : string) (o : ServiceOptions) : ServiceOptions :=
  MkServiceOptions v (sp_store_root o) (sp_max_connections o) (sp_max_frame_bytes o) (sp_max_stored_plans o)
    (sp_expansion_ceiling o) (sp_persist_snapshots o).
Definition sp_put_store (v : string) (o : ServiceOptions) : ServiceOptions :=
  MkServiceOptions (sp_state_dir o) v (sp_max_connections o) (sp_max_frame_bytes o) (sp_max_stored_plans o)
    (sp_expansion_ceiling o) (sp_persist_snapshots o).
Definition sp_put_plans (v : Z) (o : ServiceOptions) : ServiceOptions :=
  MkServiceOptions (sp_state_dir o) (sp_store_root o) (sp_max_connections o) (sp_max_frame_bytes o) v
    (sp_expansion_ceiling o) (sp_persist_snapshots o).
Definition sp_put_connections (v : Z) (o : ServiceOptions) : ServiceOptions :=
  MkServiceOptions (sp_state_dir o) (sp_store_root o) v (sp_max_frame_bytes o) (sp_max_stored_plans o)
    (sp_expansion_ceiling o) (sp_persist_snapshots o).
Definition dm_put_bind (v : string) (o : DaemonOptions) : DaemonOptions := MkDaemon (dm_service o) v (dm_port o).
Definition dm_put_port (v : Z) (o : DaemonOptions) : DaemonOptions := MkDaemon (dm_service o) (dm_bind_address o) v.

(** ** Arguments *)

Definition complain (text : string) : Run := misused ("oppd: " +:+ text).

Definition NextValue (name : string) (rest : list string) : Run + (string * list string) :=
  match rest with
  | value :: rest => inr (value, rest)
  | [] => inl (complain (line_of (name +:+ " requires a value")))
  end.

Definition next_number (name : string) (parse : string -> Expected Z) (value : string) : Run + Z :=
  match parse value with
  | Value v => inr v
  | Error _ => inl (complain (line_of (name +:+ " must be an unsigned integer")))
  end.

(** The options that take a value, and what they do with it. *)
Definition valued (token : string) : option (string -> DaemonOptions -> Run + DaemonOptions) :=
  let text put value o := inr (put value o) in
  let number parse put value o :=
    match next_number token parse value with inl r => inl r | inr v => inr (put v o) end in
  if String.eqb token "--state" then Some (text (fun v => on_service (sp_put_state v)))
  else if String.eqb token "--store" then Some (text (fun v => on_service (sp_put_store v)))
  else if String.eqb token "--bind" then Some (text dm_put_bind)
  else if String.eqb token "--port" then Some (number ParseU16 dm_put_port)
  else if String.eqb token "--max-plans" then Some (number ParseU32 (fun v => on_service (sp_put_plans v)))
  else if String.eqb token "--max-connections" then Some (number ParseU32 (fun v => on_service (sp_put_connections v)))
  else None.

(** The loop over [argv]: it consumes one token or two. *)
Fixpoint parse_daemon (fuel : nat) (tokens : list string) (o : DaemonOptions) : Run + DaemonOptions :=
  match fuel, tokens with
  | _, [] => inr o
  | O, _ => inl (complain "")
  | S fuel, token :: rest =>
      if String.eqb token "--help" || String.eqb token "-h" then inl (printed kDaemonUsage)
      else if String.eqb token "--no-persist" then parse_daemon fuel rest (on_service (sp_put_persist false) o)
      else
        match valued token with
        | Some apply =>
            match NextValue token rest with
            | inl r => inl r
            | inr (value, rest) =>
                match apply value o with inl r => inl r | inr o => parse_daemon fuel rest o end
            end
        | None =>
            inl (complain (line_of ("unknown argument '" +:+ token +:+ "'") +:+ newline +:+ kDaemonUsage))
        end
  end.

Definition ParseDaemon (argv : list string) : Run + DaemonOptions :=
  match parse_daemon (length argv) argv default_daemon_options with
  | inl r => inl r
  | inr o =>
      if bool_decide (sp_state_dir (dm_service o) = "") then
        inl (complain (line_of "--state is required" +:+ newline +:+ kDaemonUsage))
      else inr o
  end.

(** ** Starting, and ending *)

(** [oppd: CODE: detail]; the exit code is 1. *)
Definition report_daemon (s : Status) : Run := Report s "oppd".

(** A run that ends before it serves, or the line printed and the service that
    serves until it is told to stop. *)
Inductive Daemon :=
  | Ended (r : Run)
  | Listening (line : string) (s : Service).

Definition listening_line (port : Z) (i : IncarnationState) : string :=
  line_of ("LISTENING " +:+ to_string port +:+ " " +:+ Incarnation_ToHex (is_incarnation i) +:+ " " +:+
           to_string (is_epoch i) +:+ " " +:+ (if is_epoch_continuity i then "true" else "false")).

Section daemon.
Context `{Platform, Hasher, System} (m : Machine) (boot : string -> Z -> Boot) (bound_port : string -> Z -> Z).

Definition oppd (argv : list string) : IO Daemon :=
  match ParseDaemon argv with
  | inl r => io_return (Ended r)
  | inr o =>
      started <== Start (boot (dm_bind_address o) (dm_port o)) m (dm_service o) ;;
      io_return
        match started with
        | Error s => Ended (report_daemon s)
        | Value s => Listening (listening_line (bound_port (dm_bind_address o) (dm_port o)) (sv_incarnation s)) s
        end
  end.

(** After [Service::Run] returned. *)
Definition stopped (status : Status) : Run := if failed status then report_daemon status else printed "".
End daemon.

(** ** Lemmas *)

Lemma parse_daemon_enough fuel tokens o :
  (length tokens <= fuel)%nat -> parse_daemon fuel tokens o = parse_daemon (length tokens) tokens o.
Proof.
  revert fuel o; induction tokens as [tokens IH] using (induction_ltof1 _ (@length string)); unfold ltof in IH.
  intros fuel o Hf. destruct tokens as [|token rest]; [by destruct fuel|].
  destruct fuel as [|fuel]; simpl in Hf; [lia|]. cbn [parse_daemon length].
  destruct (_ || _); [done|]. destruct (String.eqb token "--no-persist"); [apply IH; simpl; lia|].
  destruct (valued token) as [apply|]; [|done]. destruct rest as [|value rest]; [done|]. cbn [NextValue length].
  destruct (apply value o); [done|]. cbn [length] in Hf.
  rewrite (IH rest) by (simpl; lia). symmetry. apply IH; simpl; lia.
Qed.

(** The numbers have the widths of their fields. *)
Record daemon_ok (o : DaemonOptions) : Prop := {
  dk_port : in_width 16 (dm_port o);
  dk_plans : in_width 32 (sp_max_stored_plans (dm_service o));
  dk_connections : in_width 32 (sp_max_connections (dm_service o))
}.

Lemma ParseU16_width t v : ParseU16 t = Value v -> in_width 16 v.
Proof.
  intros E. assert (ParseU64 t = Value v) as Hu.
  { revert E. unfold ParseU16, ParseU64, ParseUnsigned. case_bool_decide; [done|]. destruct (negb _); [done|]. cbv zeta.
    destruct (u64_max <? _); [done|]. by destruct (u16_max <? _). }
  apply ParseU64_width in Hu as [Hv _]. split; [done|]. revert E. unfold ParseU16, ParseUnsigned.
  case_bool_decide; [done|]. destruct (negb _); [done|]. cbv zeta. destruct (u64_max <? _); [done|].
  destruct (Z.ltb_spec u16_max (decimal_value t)); [done|]. intros [= <-]. unfold u16_max in *. lia.
Qed.

(** What an option with a value may do. *)
Lemma valued_cases token apply value o :
  valued token = Some apply ->
  match apply value o with
  | inr o' => daemon_ok o -> daemon_ok o'
  | inl r => r = complain (line_of (token +:+ " must be an unsigned integer"))
  end.
Proof.
  unfold valued. cbv zeta. repeat (destruct (String.eqb token _); [intros [= <-]|]); [..|done]; unfold next_number; cbv beta.
  1-3: intros []; by split.
  1: destruct (ParseU16 value) eqn:E; [|done]; intros []; split; cbn; try done; by eapply ParseU16_width.
  all: destruct (ParseU32 value) eqn:E; [|done]; intros []; split; cbn; try done; by eapply ParseU32_width.
Qed.

Lemma parse_daemon_cases fuel tokens o : (length tokens <= fuel)%nat ->
  match parse_daemon fuel tokens o with
  | inr o' => daemon_ok o -> daemon_ok o'
  | inl r => exit_code r = (if bool_decide (r = printed kDaemonUsage) then 0 else 2)
  end.
Proof.
  assert (forall text, exit_code (complain text) = (if bool_decide (complain text = printed kDaemonUsage) then 0 else 2)) as Hno.
  { intros text. rewrite bool_decide_eq_false_2; [done|]. intros E. apply (f_equal exit_code) in E. discriminate E. }
  revert fuel o; induction tokens as [tokens IH] using (induction_ltof1 _ (@length string)); unfold ltof in IH.
  intros fuel o Hf. destruct tokens as [|token rest]; [destruct fuel; cbn; auto|].
  destruct fuel as [|fuel]; simpl in Hf; [lia|]. cbn [parse_daemon].
  destruct (_ || _); [by rewrite bool_decide_eq_true_2|].
  destruct (String.eqb token "--no-persist").
  { specialize (IH rest ltac:(simpl; lia) fuel (on_service (sp_put_persist false) o) ltac:(lia)).
    destruct (parse_daemon _ _ _); [done|]. intros []. by apply IH. }
  destruct (valued token) as [apply|] eqn:Hv; [|apply Hno]. destruct rest as [|value rest]; [apply Hno|]. cbn [NextValue].
  pose proof (valued_cases token apply value o Hv) as Ha. destruct (apply value o) as [r|o1]; [subst; apply Hno|].
  simpl in Hf. specialize (IH rest ltac:(simpl; lia) fuel o1 ltac:(lia)). destruct (parse_daemon _ _ _); auto.
Qed.

(** ** Theorems *)

(** The arguments of the daemon.  They are refused with exit code 2, or the
    usage is printed and the exit code is 0, or they name a state directory and
    every number fits its field. *)
Theorem daemon_arguments (argv : list string) :
  match ParseDaemon argv with
  | inl r => exit_code r = (if bool_decide (r = printed kDaemonUsage) then 0 else 2)
  | inr o => sp_state_dir (dm_service o) <> "" /\ daemon_ok o
  end.
Proof.
  unfold ParseDaemon. pose proof (parse_daemon_cases (length argv) argv default_daemon_options (Nat.le_refl _)) as Hc.
  destruct (parse_daemon _ _ _) as [r|o]; [done|]. case_bool_decide as E.
  { rewrite bool_decide_eq_false_2; [done|]. intros Er. apply (f_equal exit_code) in Er. discriminate Er. }
  split; [done|]. apply Hc. by split.
Qed.

(** Every life of a state directory announces a higher epoch.  A daemon that
    listened, served and was stopped or crashed, and a later daemon on the same
    state directory, whatever their other arguments: both print the epoch of
    their incarnation, and the later one is higher. *)
Theorem announced_epochs_increase `{Platform, !CharconvLaws, Hasher, !WideHasher, System} (m m' : Machine)
    (boot boot' : string -> Z -> Boot) (bound_port bound_port' : string -> Z -> Z) (argv argv' : list string)
    (d d1 : Disk) (line line' : string) (s s' : Service) (ops ops' : list DiskOp) :
  oppd m boot bound_port argv d = (Listening line s, ops) -> machine_ok m -> readable (sp_state_dir (sv_options s)) d ->
  served s (apply_ops ops d) d1 ->
  oppd m' boot' bound_port' argv' d1 = (Listening line' s', ops') -> machine_ok m' ->
  sp_state_dir (sv_options s') = sp_state_dir (sv_options s) ->
  (exists port, line = listening_line port (sv_incarnation s)) /\ (exists port, line' = listening_line port (sv_incarnation s')) /\
  sv_epoch s < sv_epoch s'.
Proof.
  assert (forall m boot bp argv d line s ops, oppd m boot bp argv d = (Listening line s, ops) ->
    exists o, Start (boot (dm_bind_address o) (dm_port o)) m (dm_service o) d = (Value s, ops) /\
      line = listening_line (bp (dm_bind_address o) (dm_port o)) (sv_incarnation s)) as Hinv.
  { clear. intros m boot bp argv d line s ops. unfold oppd. destruct (ParseDaemon argv) as [r|o]; [done|].
    intros (e & ops1 & ops2 & Hs & E & ->)%io_bind_value. destruct e as [s1|]; [|done].
    injection E as <- <- <-. exists o. by rewrite app_nil_r. }
  intros (o & Hs & ->)%Hinv Hm Hr Hserved (o' & Hs' & ->)%Hinv Hm' Hdir. split; [by eexists|]. split; [by eexists|].
  pose proof (Start_value _ _ _ _ _ _ Hs) as (? & ? & ? & ? & ? & ? & ? & _ & _ & _ & _ & _ & _ & Es).
  pose proof (Start_value _ _ _ _ _ _ Hs') as (? & ? & ? & ? & ? & ? & ? & _ & _ & _ & _ & _ & _ & Es').
  assert (sv_options s = dm_service o) as Eo by (by rewrite Es). assert (sv_options s' = dm_service o') as Eo' by (by rewrite Es').
  rewrite Eo in Hr. destruct (start_epoch _ _ _ _ _ _ Hs Hm Hr) as (_ & _ & _ & _ & Hr1 & Hlast).
  pose proof (served_record _ _ _ Hserved) as Hrec. cbv zeta in Hrec. rewrite Eo in Hrec, Hdir. rewrite Eo' in Hdir.
  destruct (recorded_frame _ _ _ Hrec) as [Er Hrr]. specialize (Hrr Hr1). rewrite <- Hdir in Hrr.
  destruct (start_epoch _ _ _ _ _ _ Hs' Hm' Hrr) as (_ & _ & He' & _). rewrite Hdir in He'.
  assert (last_epoch (sp_state_dir (dm_service o)) d1 = sv_epoch s) as El by (unfold last_epoch in *; by rewrite Er).
  lia.
Qed.

(** ** Two daemons on one directory *)

Module SampleDaemon.
#[local] Existing Instance SamplePlan.size_hasher.
#[local] Existing Instance SampleSystem.linux.

Definition machine : Machine := SampleIncarnation.machine.
Definition boot (_ : string) (_ : Z) : Boot := MkBoot None OkStatus.
(** Port 0 is one the system chooses. *)
Definition bound (_ : string) (port : Z) : Z := if port =? 0 then 40000 else port.
Definition bare : Disk := MkDisk ∅ ∅.
Definition first_run : Daemon * list DiskOp := oppd machine boot bound ["--state"; "/v"] bare.
Definition left_disk : Disk := apply_ops (snd first_run) bare.
Definition second_run : Daemon * list DiskOp :=
  oppd machine boot bound ["--state"; "/v"; "--port"; "7000"; "--no-persist"] left_disk.

Definition line_of_run (r : Daemon) : string := match r with Listening line _ => line | Ended _ => "" end.
Definition service_of_run (r : Daemon) : Service :=
  match r with Listening _ s => s | Ended _ => SampleService.service end.
Abbreviation first_service := (service_of_run (fst first_run)).
Abbreviation second_service := (service_of_run (fst second_run)).

Lemma first_listens : first_run = (Listening (line_of_run (fst first_run)) first_service, snd first_run).
Proof. vm_compute. reflexivity. Qed.
Lemma second_listens : second_run = (Listening (line_of_run (fst second_run)) second_service, snd second_run).
Proof. vm_compute. reflexivity. Qed.
Lemma bare_is_readable : readable (sp_state_dir (sv_options first_service)) bare.
Proof. unfold readable. vm_compute. congruence. Qed.
Lemma same_directory : sp_state_dir (sv_options second_service) = sp_state_dir (sv_options first_service).
Proof. vm_compute. reflexivity. Qed.
End SampleDaemon.

Section witnesses.
Existing Instance SamplePlan.size_hasher.
Existing Instance SampleStore.size_wide.
Existing Instance SampleSystem.linux.
Import SampleDaemon.

Lemma announced_epochs_increase_witness :
  sv_epoch first_service < sv_epoch second_service /\
  line_of_run (fst second_run) =
    "LISTENING 7000 " +:+ Incarnation_ToHex (mc_entropy machine) +:+ " 2 true" +:+ newline.
Proof.
  destruct (announced_epochs_increase machine machine boot boot bound bound ["--state"; "/v"]
    ["--state"; "/v"; "--port"; "7000"; "--no-persist"] bare left_disk _ _ first_service second_service _ _
    first_listens SampleIncarnation.machine_fits bare_is_readable (served_no_more first_service left_disk)
    second_listens SampleIncarnation.machine_fits same_directory) as (_ & _ & Hlt).
  split; [exact Hlt|]. vm_compute. reflexivity.
Defined.
End witnesses.
